(* ===== verification/_CoqProject ===== *)
-Q . S2P
Prelude.v
PyStr.v
Uuid.v
Json.v
Models.v
DateTime.v
Base64.v
Config.v
Session.v
Sample.v
StateMachine.v
Auth.v
AuditLog.v
Events.v
Idempotency.v
Quotas.v
Gates.v
Pagination.v
Handlers.v
Jobs.v
Workspaces.v
Apps.v
Outbox.v
Webhooks.v
Crypto.v
Secrets.v
Url.v
Repositories.v
Binary64.v
Telemetry.v
Operations.v
Main.v
OpenApi.v
History.v
Api.v
Delivery.v
Schema.v
Metadata.v
Migrations.v
DeadLetters.v
Lifecycle.v
References.v
Tenancy.v
Fits.v
Demos.v
Evidence.v
