(* ===== verification/Prelude.v ===== *)
(** * HamiCloud control plane: a verified model

    HamiCloud is a small platform as a service.  Its control plane is the FastAPI
    application under src/apps/api/app: tenants (workspaces) submit batch jobs, deploy
    and build releases of applications, store secrets and connect Git repositories; the
    state lives in PostgreSQL, every mutation records its outbox event, audit row and
    idempotency record in its own transaction, and a dispatcher publishes the outbox to
    NATS JetStream.  The development models that application handler by handler and
    proves what makes it correct.

    ** The parts and how they interact

    A request passes the middleware ([Main]), which identifies and traces it, reaches an
    endpoint of the router ([Api]) with the caller of [Auth], and runs in one database
    session ([Session]).  The endpoint authorizes the caller on a workspace ([Auth]),
    may replay an idempotent answer ([Idempotency]), passes the rate limit and the image
    policy ([Gates]) and the quotas ([Quotas]), stages rows with their audit row
    ([AuditLog]) and event ([Events]), and commits.  Exceptions roll back and become
    error responses in [Main].  The dispatcher ([Outbox]) reads what was committed.

    - [Prelude]: notations, tactics, hint databases, SQL's list operations.
    - [PyStr], [Uuid], [Json], [DateTime], [Base64], [Binary64], [Url]: the parts of
      Python's standard library the code relies on, executable: strings over code points
      0-255 (str.strip, lower, split, UTF-8), uuid.UUID, json.dumps, isoformat, base64,
      IEEE binary64 floats with round(), urlsplit.
    - [Models]: the tables of models/*.py, one Record per class, one Inductive per
      enumeration, the database as the record of its tables (lists in insertion order).
    - [Config]: core/config.py.  [Session]: db/session.py and core/db_errors.py: the
      error-state monad [M], a session with its executed and staged changes, flush,
      commit, rollback, constraint and width checks, and the frame classes [Keeps],
      [Atomic] and [Preserves] by which whole handlers are reasoned about.
      [Handlers]: lemmas and automation shared by the endpoints.
    - [StateMachine]: core/state_machine.py.  [Auth]: core/auth.py.  [AuditLog]:
      core/audit.py.  [Events]: core/events.py.  [Idempotency]: core/idempotency.py.
      [Quotas]: core/quotas.py, api/v1/quotas.py.  [Gates]: core/rate_limit.py,
      core/image_policy.py.  [Pagination]: core/pagination.py and the listing query every
      list endpoint repeats.  [Crypto]: core/crypto.py against a class of the cipher's laws.
    - [Jobs], [Workspaces], [Apps], [Secrets], [Repositories], [Webhooks], [Operations]
      (with the audit listing), [Telemetry] (with metrics): the endpoints of the file of
      that name in api/v1, with their schemas/*.py; one definition per endpoint, named as
      in the source, its guards in the source's order.
    - [Outbox]: workers/outbox_dispatcher.py, as the sequential batch loop and as a step
      relation of several workers, handlers, crashes, purges and requeues interleaved.
    - [Lifecycle]: the dispatcher as a task (connect, close, run, stop) under a schedule of
      its turns, and the lifespan of main.py around it.
    - [Main]: the middleware, handlers, probes and metrics of main.py.  [OpenApi]: its
      custom_openapi.  [Api]: api/v1/router.py, every route as one request type served
      through the middleware.  [History]: a class of computations whose changes respect a
      preorder on databases, used by [Api].  [Delivery]: the API and the dispatcher composed.
      [Fits]: the field constraints of the request models and a Hoare logic of the values'
      widths, route by route.
    - [References]: the foreign keys of the rows, each with the workspace its parent must
      belong to, compared with the migrated schema's; a Hoare logic of the parents a
      session knows.  [Tenancy]: every route in it.
    - [Schema]: tables, columns, constraints, indexes and triggers, with the operations of
      Alembic as partial functions on them.  [Metadata]: the tables models/*.py declare and
      the columns of db/base.py (SqlEnum among them).  [Migrations]: the URL of
      migrations/env.py and the eight revisions of migrations/versions, operation by operation
      (upgrade_n, downgrade_n), and the chain they form.  [DeadLetters]: the trigger and
      the backfill of revision 0007 on the rows of [Models].
    - [Demos]: scripts/demos/m5_runner.py, a script monad over the database: its requests are
      the API's handlers, the programs it starts functions of the database; one
      definition per benchmark and drill.  [Evidence]: its theorems and a deployment that
      it passes against.
    - [Sample]: the environment the witnesses evaluate in.

    A handler of type [M A] is a function of the environment (settings, clock, randomness,
    Redis, trace, rivals) and the session; [run] gives its outcome and the committed
    database.  Other transactions are the functions [rivals_lock] and [rivals_commit],
    applied where a lock is granted and where the commit takes effect: every theorem
    about a handler quantifies over them, so it covers races at these two points.

    ** What the theorems show

    - Transactions: a successful mutation publishes all of its rows or replays, and a failed
      one publishes nothing (submission, cancellation, deployment, rollback, build,
      webhook, secret); concurrent submissions under one key make one job, repeated ones
      (through [Demos]) as well; a webhook delivery is processed once; release numbers stay dense over every route.
    - The outbox: no event is lost under any interleaving; a backlog drains, so every event
      that any sequence of requests recorded is published; the loop refines the step relation;
      the worker runs until it is stopped, whatever fails, and purges once a day.
    - Tenancy: strangers see a foreign job or application as missing; every foreign key of every row, over every sequence of requests, names an existing row of
      the row's own workspace; a workspace's telemetry is the platform's restricted to its
      rows; every workspace keeps an owner, whom only owners manage.
    - Limits: admission implements a quota policy written from the rows and the settings
      alone, and keeps each class within its limit; the rate limit admits exactly its number
      of requests per workspace, route class and minute.
    - State machines: cancellation is final.
    - Secrets: sealed values open for their own name only; the value flows nowhere but into
      its ciphertext; audit details are redacted at any depth.
    - Inputs: listings are complete; a request within its constraints overflows no column;
      an accepted repository URL points to an approved host and to no other.
    - The database: the migrations round-trip; the schema at the head is the one the models
      declare, its checks admit exactly what the enumerations store and load, and its keys,
      column by column, are those [Session] checks, but for four tables only the runtime
      inserts into; every job that fails has exactly one dead letter, of the attempt that
      failed.
    - The API as a whole: every request is answered; the audit trail and the identity of jobs
      and releases are append-only; HTTP percentiles are the exact nearest ranks although
      computed in floating point.
    - What the code does not cover is proved as such beside the properties: the demotion that
      loses the last owner, the member whose subject does not fit the audit row, the image
      or branch that overflows its column, the redeployments whose reservations pass the cap,
      the branch whose name repeats the prefix, the shutdown after a dispatcher that failed,
      the job inserted as failed, the verdicts of stored evidence.

    ** Bounds and fuel

    Following the cursors of a listing of n rows needs at most n + 1 pages, and [walk] is
    given that fuel; draining a backlog is given one batch per pending event; both are
    proved enough.  Timestamps are microseconds in the years 1970 to 9999.  The percentile
    ranks are checked by computation for every window size up to the collector's 5000.  The
    worker's loop recurses on its schedule, which has any length.
    Integers are Z: the code uses Python's unbounded ones, and the widths that matter
    (VARCHAR(n)) are checked at every flush.

    ** Parameters

    Code outside of the program is an argument: PyJWT and the JWKS client, HMAC and
    SHA-256, AES-GCM (by its laws, with an instance), json.loads, datetime.fromisoformat
    (by its inversion of isoformat, with an instance), ipaddress's check of a bracketed
    host, repr of a float, the file system, Redis and the NATS broker (by their answers),
    FastAPI's generated document; for the evidence runner the programs it starts and the
    clocks of its machine.

    ** Not modelled

    What ON DELETE does to rows (no handler deletes a parent row; [DeadLetters] has the
    cascade of its table), and the check of foreign keys at a flush, which [Tenancy] shows
    to succeed always; the order of
    rows that tie in an ORDER BY (insertion order here); collations (names order by code
    point); the version bits of uuid4; request parsing, validation and dependency
    resolution, which are FastAPI's (the field constraints of the payloads are definitions);
    CORS, which is a library's; Alembic's configuration in migrations/env.py; what a migration's
    backfills and new constraints require of existing rows (the dead letters apart), and
    the order of a table's columns; the PowerShell demonstrations; the Go runtime
    (scheduler, executor, reconciler), which appears as the rivals of a transaction; the web
    dashboard, the deployment files and the tests. *)

From stdpp Require Export base list strings pretty numbers relations sorting.
From Stdlib Require Import Ascii ZArith Lia.

#[global] Open Scope Z_scope.

(** ** Notation

    [a =?= b] is Python's [==] on a type with decidable equality. *)

Declare Scope hami_scope.
Delimit Scope hami_scope with hami.
Notation "a =?= b" := (bool_decide (a = b)) (at level 70) : hami_scope.
Notation "a <?> b" := (negb (bool_decide (a = b))) (at level 70) : hami_scope.
#[global] Open Scope hami_scope.

(** ** Hint databases

    [hami] holds the closure lemmas used by [eauto with hami]; [hami_eq] the
    equations used by [autorewrite with hami_eq]. *)

Create HintDb hami.
Create Rewrite HintDb hami_eq.

(** ** Tactics *)

(** Case analysis on every boolean test and match of the goal and of the
    hypotheses, discarding the impossible branches. *)
Ltac cases_in H :=
  repeat (first
    [ progress simplify_eq
    | match type of H with
      | context [match ?x with _ => _ end] => destruct x eqn:?
      end ]).

Ltac cases :=
  repeat (first
    [ progress simplify_eq
    | case_bool_decide
    | case_match ]).

(** Turn boolean conjunctions, disjunctions and [bool_decide]s of the
    hypotheses into propositions. *)
Ltac bool_hyps :=
  repeat match goal with
  | H : _ && _ = true |- _ => apply andb_prop in H; destruct H
  | H : _ || _ = false |- _ => apply orb_false_elim in H; destruct H
  | H : negb _ = true |- _ => apply negb_true_iff in H
  | H : negb _ = false |- _ => apply negb_false_iff in H
  | H : bool_decide _ = true |- _ => apply bool_decide_eq_true in H
  | H : bool_decide _ = false |- _ => apply bool_decide_eq_false in H
  | H : (_ <=? _)%Z = true |- _ => apply Z.leb_le in H
  | H : (_ <=? _)%Z = false |- _ => apply Z.leb_gt in H
  | H : (_ <? _)%Z = true |- _ => apply Z.ltb_lt in H
  | H : (_ <? _)%Z = false |- _ => apply Z.ltb_ge in H
  end.

(** ** Lists *)

Section Lists.
Context {A B : Type}.

(** SQL's [WHERE]: the rows of a table that satisfy a condition. *)
Definition where_ (P : A -> bool) (l : list A) : list A := List.filter P l.

(** SQL's [SELECT count( * ) ... WHERE]. *)
Definition count_where (P : A -> bool) (l : list A) : Z :=
  Z.of_nat (length (where_ P l)).

(** SQL's [UPDATE ... SET ... WHERE]. *)
Definition update_where (P : A -> bool) (f : A -> A) (l : list A) : list A :=
  map (fun r => if P r then f r else r) l.

(** SQL's [DELETE ... WHERE]. *)
Definition delete_where (P : A -> bool) (l : list A) : list A :=
  List.filter (fun r => negb (P r)) l.

(** SQL's [ORDER BY]: [R a b] when [a] may come before [b].  The sort is stable;
    SQL leaves the order of ties open. *)
Definition order_by (R : A -> A -> bool) (l : list A) : list A :=
  @merge_sort A (fun x y => R x y = true) (fun x y => decide (R x y = true)) l.

(** [LIMIT n]. *)
Definition limit_ (n : Z) (l : list A) : list A := take (Z.to_nat n) l.

Lemma elem_of_where P (l : list A) r : r ∈ where_ P l <-> r ∈ l /\ P r = true.
Proof. unfold where_. rewrite !list_elem_of_In. apply filter_In. Qed.

Lemma where_app P (l1 l2 : list A) : where_ P (l1 ++ l2) = where_ P l1 ++ where_ P l2.
Proof. apply List.filter_app. Qed.

Lemma where_nil_iff P (l : list A) :
  where_ P l = [] <-> forall r, r ∈ l -> P r = false.
Proof.
  split.
  - intros H r Hr. destruct (P r) eqn:E; [|done].
    assert (r ∈ where_ P l) as Hin by (apply elem_of_where; done).
    rewrite H in Hin. by apply not_elem_of_nil in Hin.
  - intros H. destruct (where_ P l) as [|r l'] eqn:E; [done|].
    assert (r ∈ where_ P l) as Hr by (rewrite E; left).
    apply elem_of_where in Hr as [Hr HP]. by rewrite (H r Hr) in HP.
Qed.

Lemma filter_all (P : A -> bool) (l : list A) :
  (forall r, r ∈ l -> P r = true) -> List.filter P l = l.
Proof.
  induction l as [|r l IH]; intros H; [done|]. simpl.
  rewrite (H r) by left. f_equal. apply IH. intros r' Hr'. apply H. by right.
Qed.

Lemma count_where_app P (l1 l2 : list A) :
  count_where P (l1 ++ l2) = count_where P l1 + count_where P l2.
Proof. unfold count_where. rewrite where_app, length_app. lia. Qed.

Lemma count_where_nonneg P (l : list A) : 0 <= count_where P l.
Proof. unfold count_where. lia. Qed.

Lemma count_where_pos P (l : list A) :
  0 < count_where P l <-> exists r, r ∈ l /\ P r = true.
Proof.
  unfold count_where. split.
  - destruct (where_ P l) as [|r l'] eqn:E; simpl; [lia|]. intros _.
    exists r. apply elem_of_where. rewrite E. left.
  - intros (r & Hr). apply elem_of_where in Hr.
    destruct (where_ P l); [by apply not_elem_of_nil in Hr | simpl; lia].
Qed.

Lemma count_where_single P (r : A) : count_where P [r] = if P r then 1 else 0.
Proof. unfold count_where, where_. simpl. by destruct (P r). Qed.

Lemma elem_of_update_where P f (l : list A) r :
  r ∈ update_where P f l <->
  exists r0, r0 ∈ l /\ r = (if P r0 then f r0 else r0).
Proof.
  unfold update_where. rewrite list_elem_of_In, in_map_iff.
  split; intros (x & H1 & H2); exists x; (split; [|done || by apply list_elem_of_In]);
    [by apply list_elem_of_In | by symmetry].
Qed.

Lemma elem_of_delete_where P (l : list A) r :
  r ∈ delete_where P l <-> r ∈ l /\ P r = false.
Proof.
  unfold delete_where. rewrite !list_elem_of_In, filter_In.
  by rewrite negb_true_iff.
Qed.

Lemma update_where_nil P f (l : list A) :
  (forall r, r ∈ l -> P r = false) -> update_where P f l = l.
Proof.
  induction l as [|r l IH]; intros H; [done|]. simpl.
  rewrite (H r) by left. f_equal. apply IH. intros r' Hr'. apply H. by right.
Qed.

Lemma delete_where_nil P (l : list A) :
  (forall r, r ∈ l -> P r = false) -> delete_where P l = l.
Proof.
  induction l as [|r l IH]; intros H; [done|]. unfold delete_where in *. simpl.
  rewrite (H r) by left. simpl. f_equal. apply IH. intros r' Hr'. apply H. by right.
Qed.

Lemma map_update_where P f (g : A -> B) (l : list A) :
  (forall r, g (f r) = g r) -> map g (update_where P f l) = map g l.
Proof.
  intros Hg. unfold update_where. rewrite map_map. apply map_ext.
  intros r. destruct (P r); [apply Hg | done].
Qed.

Lemma NoDup_map_app_single (g : A -> B) (l : list A) (x : A) :
  NoDup (map g (l ++ [x])) <-> NoDup (map g l) /\ g x ∉ map g l.
Proof.
  rewrite map_app. simpl. rewrite NoDup_app. split.
  - intros (H1 & H2 & _). split; [done|]. intros Hin.
    apply (H2 _ Hin). left.
  - intros [H1 H2]. split; [done|]. split; [|apply NoDup_singleton].
    intros y Hy Hy'. apply list_elem_of_singleton in Hy' as ->. done.
Qed.

Lemma map_delete_where_sublist P (g : A -> B) (l : list A) :
  map g (delete_where P l) `sublist_of` map g l.
Proof.
  induction l as [|r l IH]; simpl; [constructor|].
  unfold delete_where in *. simpl. destruct (P r); simpl.
  - by apply sublist_cons.
  - by apply sublist_skip.
Qed.

Lemma NoDup_map_delete_where P (g : A -> B) (l : list A) :
  NoDup (map g l) -> NoDup (map g (delete_where P l)).
Proof.
  intros H. apply (sublist_NoDup _ _ H), map_delete_where_sublist.
Qed.

Lemma NoDup_map_where P (g : A -> B) (l : list A) :
  NoDup (map g l) -> NoDup (map g (where_ P l)).
Proof.
  intros H. replace (where_ P l) with (delete_where (fun r => negb (P r)) l).
  - by apply NoDup_map_delete_where.
  - unfold delete_where, where_. apply filter_ext. intros r. apply negb_involutive.
Qed.

(** A key that is unique in a table selects at most one row. *)
Lemma NoDup_map_inj (g : A -> B) (l : list A) (x y : A) :
  NoDup (map g l) -> x ∈ l -> y ∈ l -> g x = g y -> x = y.
Proof.
  induction l as [|z l IH]; simpl; intros Hnd Hx Hy Hg.
  { by apply not_elem_of_nil in Hx. }
  apply NoDup_cons in Hnd as [Hz Hnd].
  apply elem_of_cons in Hx as [->|Hx]; apply elem_of_cons in Hy as [->|Hy]; auto.
  - destruct Hz. rewrite Hg. apply list_elem_of_In, in_map, list_elem_of_In, Hy.
  - destruct Hz. rewrite <- Hg. apply list_elem_of_In, in_map, list_elem_of_In, Hx.
Qed.

Lemma where_key_unique `{EqDecision B} (g : A -> B) (l : list A) (x : A) :
  NoDup (map g l) -> x ∈ l -> where_ (fun r => g r =?= g x) l = [x].
Proof.
  induction l as [|z l IH]; simpl; intros Hnd Hx.
  { by apply not_elem_of_nil in Hx. }
  apply NoDup_cons in Hnd as [Hz Hnd]. unfold where_ in *. simpl.
  apply elem_of_cons in Hx as [->|Hx].
  - rewrite bool_decide_eq_true_2 by done. f_equal.
    apply where_nil_iff. intros r Hr. apply bool_decide_eq_false.
    intros Heq. destruct Hz. rewrite <- Heq.
    apply list_elem_of_In, in_map, list_elem_of_In, Hr.
  - rewrite bool_decide_eq_false_2; [by apply IH|].
    intros Heq. destruct Hz. rewrite Heq.
    apply list_elem_of_In, in_map, list_elem_of_In, Hx.
Qed.
End Lists.

(** ** Sorting *)

Section OrderBy.
Context {A : Type} (R : A -> A -> bool).
Context (R_total : forall x y, R x y = true \/ R y x = true).
Context (R_trans : forall x y z, R x y = true -> R y z = true -> R x z = true).

Lemma order_by_perm (l : list A) : order_by R l ≡ₚ l.
Proof. apply merge_sort_Permutation. Qed.

Lemma order_by_sorted (l : list A) : StronglySorted (fun x y => R x y = true) (order_by R l).
Proof.
  apply (@StronglySorted_merge_sort A (fun x y => R x y = true) (fun x y => decide (R x y = true)));
    [intros x y z; apply R_trans | intros x y; apply R_total].
Qed.

Lemma where_sorted P (l : list A) :
  StronglySorted (fun x y => R x y = true) l -> StronglySorted (fun x y => R x y = true) (where_ P l).
Proof.
  unfold where_. induction 1 as [|x l Hl IH Hx]; simpl; [constructor|].
  destruct (P x); [|done]. constructor; [done|].
  apply list.Forall_forall. intros y Hy. apply elem_of_where in Hy as [Hy _].
  rewrite list.Forall_forall in Hx. auto.
Qed.

Lemma where_perm P (l l' : list A) : l ≡ₚ l' -> where_ P l ≡ₚ where_ P l'.
Proof.
  unfold where_. induction 1 as [| |x y|]; simpl; [done| | |by etrans].
  - by destruct (P x); [constructor|].
  - destruct (P x), (P y); auto; constructor.
Qed.

(** Selecting then sorting is sorting then selecting, when the order separates
    the rows of the table. *)
Lemma order_by_where P (l : list A) :
  (forall x y, x ∈ l -> y ∈ l -> R x y = true -> R y x = true -> x = y) ->
  order_by R (where_ P l) = where_ P (order_by R l).
Proof.
  intros Hanti. apply (StronglySorted_unique_strong (fun x y => R x y = true)).
  - intros x y Hx Hy. rewrite order_by_perm in Hx. apply elem_of_where in Hx as [Hx _].
    apply elem_of_where in Hy as [Hy _]. rewrite order_by_perm in Hy. by apply Hanti.
  - apply order_by_sorted.
  - apply where_sorted, order_by_sorted.
  - rewrite order_by_perm. symmetry. apply where_perm, order_by_perm.
Qed.
End OrderBy.

(** [.in_(...)]. *)
Definition in_ {A} `{EqDecision A} (x : A) (l : list A) : bool := bool_decide (x ∈ l).

(** [count(distinct(f))]. *)
Definition count_distinct {A B} `{EqDecision B} (f : A -> B) (l : list A) : Z :=
  Z.of_nat (length (remove_dups (map f l))).

(** A boolean selection is the propositional one. *)
Lemma where_filter {A} (P : A -> bool) (Q : A -> Prop) `{forall x, Decision (Q x)} l :
  (forall x, P x = true <-> Q x) -> where_ P l = filter Q l.
Proof.
  intros HPQ. induction l as [|x l IH]; [done|]. unfold where_ in *. simpl.
  destruct (P x) eqn:E.
  - rewrite filter_cons_True by (by apply HPQ). by rewrite IH.
  - rewrite filter_cons_False by (rewrite <- HPQ; by rewrite E). done.
Qed.

(** Turn a boolean condition on a row into a proposition. *)
Ltac row_condition :=
  repeat rewrite ?andb_true_iff, ?orb_true_iff, ?bool_decide_eq_true, ?Z.ltb_lt, ?negb_true_iff,
    ?bool_decide_eq_false; try done.

#[export] Hint Rewrite @where_app @count_where_app @count_where_single : hami_eq.

#[global] Arguments order_by : simpl never.
#[global] Arguments where_ : simpl never.
#[global] Arguments count_where : simpl never.
#[global] Arguments update_where : simpl never.
#[global] Arguments delete_where : simpl never.
