(* ===== verification/PyStr.v ===== *)
(** * The part of Python's [str] and [dict] the control plane uses

    A Python [str] is a Rocq [string] whose characters are code points, so the
    model covers the strings over the code points 0 to 255.  The operations are
    those of the language and its standard library as the program calls them:
    [strip], [lower], [startswith], [endswith], [in], slicing, [replace],
    [split] with a limit, and the insertion-ordered [dict]. *)

From S2P Require Import Prelude.
From Stdlib Require Import Ascii String.

Local Open Scope string_scope.

(** ** Characters *)

Definition code (c : ascii) : N := N_of_ascii c.

(** [c.isspace()] on code points below 256. *)
Definition is_space (c : ascii) : bool :=
  let n := code c in
  ((9 <=? n) && (n <=? 13) || (28 <=? n) && (n <=? 32) || (n =? 133) || (n =? 160))%N.

(** [c.lower()] on code points below 256: A-Z and the Latin-1 capitals, except
    the multiplication sign. *)
Definition lower_char (c : ascii) : ascii :=
  let n := code c in
  if ((65 <=? n) && (n <=? 90) || (192 <=? n) && (n <=? 222) && negb (n =? 215))%N
  then ascii_of_N (n + 32) else c.

Definition is_digit (c : ascii) : bool := let n := code c in ((48 <=? n) && (n <=? 57))%N.
Definition is_lower_hex (c : ascii) : bool :=
  let n := code c in (is_digit c || (97 <=? n) && (n <=? 102))%N.
Definition is_hex (c : ascii) : bool :=
  let n := code c in (is_lower_hex c || (65 <=? n) && (n <=? 70))%N.

(** ** Strings *)

Fixpoint str_forallb (P : ascii -> bool) (s : string) : bool :=
  match s with EmptyString => true | String c s' => P c && str_forallb P s' end.

Fixpoint str_existsb (P : ascii -> bool) (s : string) : bool :=
  match s with EmptyString => false | String c s' => P c || str_existsb P s' end.

Fixpoint str_map (f : ascii -> ascii) (s : string) : string :=
  match s with EmptyString => "" | String c s' => String (f c) (str_map f s') end.

Fixpoint str_filter (P : ascii -> bool) (s : string) : string :=
  match s with
  | EmptyString => ""
  | String c s' => if P c then String c (str_filter P s') else str_filter P s'
  end.

(** [s.lower()]. *)
Definition lower (s : string) : string := str_map lower_char s.

(** [len(s)]. *)
Definition len (s : string) : Z := Z.of_nat (String.length s).

(** Truthiness of a [str]: not empty. *)
Definition truthy (s : string) : bool := negb (s =?= "").

(** [s.startswith(p)]. *)
Definition startswith (s p : string) : bool := String.prefix p s.

(** [s[:n]] and [s[n:]] for [n >= 0]. *)
Fixpoint str_take (n : nat) (s : string) : string :=
  match n, s with
  | O, _ => "" | _, EmptyString => ""
  | S n', String c s' => String c (str_take n' s')
  end.
Fixpoint str_drop (n : nat) (s : string) : string :=
  match n, s with
  | O, _ => s | _, EmptyString => ""
  | S n', String _ s' => str_drop n' s'
  end.

(** [s.endswith(p)]: Python compares the last [len(p)] characters. *)
Definition endswith (s p : string) : bool :=
  (String.length p <=? String.length s)%nat
  && (str_drop (String.length s - String.length p) s =?= p).

(** [p in s]. *)
Fixpoint contains (s p : string) : bool :=
  startswith s p || match s with EmptyString => false | String _ s' => contains s' p end.

Fixpoint str_rev_app (s acc : string) : string :=
  match s with EmptyString => acc | String c s' => str_rev_app s' (String c acc) end.
Definition str_rev (s : string) : string := str_rev_app s "".

(** [s.strip(chars)], the characters given by a predicate. *)
Fixpoint lstrip_by (P : ascii -> bool) (s : string) : string :=
  match s with
  | EmptyString => ""
  | String c s' => if P c then lstrip_by P s' else s
  end.
Definition rstrip_by (P : ascii -> bool) (s : string) : string := str_rev (lstrip_by P (str_rev s)).
Definition strip_by (P : ascii -> bool) (s : string) : string := rstrip_by P (lstrip_by P s).

(** [s.strip()]. *)
Definition strip (s : string) : string := strip_by is_space s.

(** [s.replace(old, new)] for a non-empty [old]: left to right, without
    overlap; [skip] counts the characters of a match still to drop. *)
Fixpoint replace_go (old new : string) (skip : nat) (s : string) : string :=
  match s with
  | EmptyString => ""
  | String c s' =>
      match skip with
      | S k => replace_go old new k s'
      | O => if startswith s old
             then new +:+ replace_go old new (String.length old - 1) s'
             else String c (replace_go old new 0 s')
      end
  end.
Definition replace (s old new : string) : string := replace_go old new 0 s.

(** [s.split(c, 1)] for a one-character separator: [None] when [c] is absent,
    and the parts before and after its first occurrence otherwise. *)
Fixpoint split1 (c : ascii) (s : string) : option (string * string) :=
  match s with
  | EmptyString => None
  | String a s' =>
      if a =?= c then Some ("", s')
      else match split1 c s' with
           | Some (l, r) => Some (String a l, r)
           | None => None
           end
  end.

(** [s.split(c, 1)[0]]. *)
Definition before (c : ascii) (s : string) : string :=
  match split1 c s with Some (l, _) => l | None => s end.

(** ** Lemmas on strings *)

Lemma str_app_assoc (a b c : string) : (a +:+ b) +:+ c = a +:+ (b +:+ c).
Proof. induction a as [|x a IH]; [done|]. change (String x ((a +:+ b) +:+ c) = String x (a +:+ (b +:+ c))). by rewrite IH. Qed.

Lemma str_app_nil_r (s : string) : s +:+ "" = s.
Proof. induction s as [|x s IH]; [done|]. change (String x (s +:+ "") = String x s). by rewrite IH. Qed.

Lemma str_app_cons c (s t : string) : String c s +:+ t = String c (s +:+ t).
Proof. done. Qed.

Lemma str_length_app (s t : string) :
  String.length (s +:+ t) = (String.length s + String.length t)%nat.
Proof.
  induction s as [|c s IH]; [done|]. rewrite str_app_cons. simpl. by rewrite IH.
Qed.

Lemma str_forallb_app P (s t : string) :
  str_forallb P (s +:+ t) = str_forallb P s && str_forallb P t.
Proof.
  induction s as [|c s IH]; [done|]. rewrite str_app_cons. simpl.
  by rewrite IH, andb_assoc.
Qed.

Lemma str_forallb_impl (P Q : ascii -> bool) (s : string) :
  (forall c, P c = true -> Q c = true) -> str_forallb P s = true -> str_forallb Q s = true.
Proof.
  intros HPQ. induction s as [|c s IH]; [done|]. simpl. intros [Hc Hs]%andb_prop.
  by rewrite (HPQ c Hc), (IH Hs).
Qed.

Lemma str_rev_app_spec (s acc : string) : str_rev_app s acc = str_rev s +:+ acc.
Proof.
  unfold str_rev. revert acc. induction s as [|c s IH]; intros acc; [done|]. simpl.
  by rewrite (IH (String c acc)), (IH (String c "")), str_app_assoc.
Qed.

Lemma str_rev_cons c (s : string) : str_rev (String c s) = str_rev s +:+ String c "".
Proof. unfold str_rev at 1. simpl. apply str_rev_app_spec. Qed.

Lemma str_rev_append (s t : string) : str_rev (s +:+ t) = str_rev t +:+ str_rev s.
Proof.
  induction s as [|c s IH].
  - by rewrite str_app_nil_r.
  - by rewrite str_app_cons, !str_rev_cons, IH, str_app_assoc.
Qed.

Lemma str_rev_involutive (s : string) : str_rev (str_rev s) = s.
Proof.
  induction s as [|c s IH]; [done|]. by rewrite str_rev_cons, str_rev_append, IH.
Qed.

Lemma str_forallb_rev P (s : string) : str_forallb P (str_rev s) = str_forallb P s.
Proof.
  induction s as [|c s IH]; [done|].
  rewrite str_rev_cons, str_forallb_app. simpl. rewrite IH, andb_true_r. apply andb_comm.
Qed.

(** Stripping leaves a string alone when no character is to be stripped. *)
Lemma strip_by_none P (s : string) :
  str_forallb (fun c => negb (P c)) s = true -> strip_by P s = s.
Proof.
  assert (forall t, str_forallb (fun c => negb (P c)) t = true -> lstrip_by P t = t) as Hl.
  { intros [|c t]; [done|]. simpl. destruct (P c); [done|]. done. }
  intros Hs. unfold strip_by, rstrip_by.
  rewrite (Hl s) by done. rewrite Hl by by rewrite str_forallb_rev.
  apply str_rev_involutive.
Qed.

(** [replace] leaves a string alone when the first character of [old] does not
    occur. *)
Lemma replace_none c old new (s : string) :
  str_forallb (fun a => negb (a =?= c)) s = true -> replace s (String c old) new = s.
Proof.
  unfold replace. induction s as [|a s IH]; [done|]. simpl.
  intros [Ha Hs]%andb_prop. unfold startswith. simpl.
  destruct (ascii_dec c a) as [->|_].
  - by rewrite bool_decide_eq_true_2 in Ha.
  - by rewrite IH.
Qed.

Lemma str_filter_app P (s t : string) :
  str_filter P (s +:+ t) = str_filter P s +:+ str_filter P t.
Proof.
  induction s as [|c s IH]; [done|]. rewrite str_app_cons. simpl.
  destruct (P c); [|done]. by rewrite str_app_cons, IH.
Qed.

Lemma str_filter_all P (s : string) : str_forallb P s = true -> str_filter P s = s.
Proof.
  induction s as [|c s IH]; [done|]. simpl. intros [-> Hs]%andb_prop. by rewrite IH.
Qed.

(** Replacing a single character by nothing filters it out. *)
Lemma replace_char c (s : string) :
  replace s (String c "") "" = str_filter (fun a => negb (a =?= c)) s.
Proof.
  unfold replace. induction s as [|a s IH]; [done|]. cbn [replace_go str_filter].
  unfold startswith. cbn [String.prefix].
  destruct (ascii_dec c a) as [->|Hne].
  - rewrite bool_decide_eq_true_2 by done. destruct s; apply IH.
  - rewrite bool_decide_eq_false_2 by congruence. simpl. by rewrite IH.
Qed.

Lemma startswith_app (p s : string) : startswith (p +:+ s) p = true.
Proof.
  unfold startswith. induction p as [|c p IH]; [by destruct s|].
  rewrite str_app_cons. simpl. by destruct (ascii_dec c c).
Qed.

Lemma startswith_iff (s p : string) : startswith s p = true <-> exists t, s = p +:+ t.
Proof.
  split; [|intros [t ->]; apply startswith_app].
  unfold startswith. revert s. induction p as [|c p IH]; intros s H.
  { by exists s. }
  destruct s as [|a s]; [done|]. simpl in H. destruct (ascii_dec c a) as [->|]; [|done].
  apply IH in H as [t ->]. by exists t.
Qed.

Lemma split1_spec c (s l r : string) :
  split1 c s = Some (l, r) ->
  s = l +:+ String c r /\ str_forallb (fun a => negb (a =?= c)) l = true.
Proof.
  revert l. induction s as [|a s IH]; intros l H; [done|]. simpl in H.
  case_bool_decide as Ha.
  - by simplify_eq.
  - destruct (split1 c s) as [[l' r']|]; simplify_eq.
    destruct (IH l' eq_refl) as [-> Hl]. split; [done|]. simpl.
    by rewrite bool_decide_eq_false_2.
Qed.

(** The first separator of [l ++ c ++ r] is the written one when [l] has none. *)
Lemma split1_app c (l r : string) :
  str_forallb (fun a => negb (a =?= c)) l = true -> split1 c (l +:+ String c r) = Some (l, r).
Proof.
  induction l as [|a l IH]; intros H.
  - simpl. by rewrite bool_decide_eq_true_2.
  - rewrite str_app_cons. simpl in *. apply andb_prop in H as [Ha Hl].
    apply negb_true_iff in Ha. rewrite Ha. by rewrite (IH Hl).
Qed.

(** ** Dictionaries

    A Python [dict] with string keys, in insertion order: setting an existing
    key keeps its place. *)

Section Dict.
Context {V : Type}.

Fixpoint dict_get (k : string) (d : list (string * V)) : option V :=
  match d with
  | [] => None
  | (k', v) :: d' => if k =?= k' then Some v else dict_get k d'
  end.

Fixpoint dict_set (k : string) (v : V) (d : list (string * V)) : list (string * V) :=
  match d with
  | [] => [(k, v)]
  | (k', v') :: d' => if k =?= k' then (k', v) :: d' else (k', v') :: dict_set k v d'
  end.

(** [d.update(d')]. *)
Definition dict_update (d d' : list (string * V)) : list (string * V) :=
  foldl (fun acc kv => dict_set kv.1 kv.2 acc) d d'.

(** [d.get(k, default)]. *)
Definition dict_get_or (k : string) (dflt : V) (d : list (string * V)) : V :=
  match dict_get k d with Some v => v | None => dflt end.

Lemma dict_get_set k k' v d :
  dict_get k (dict_set k' v d) = if k =?= k' then Some v else dict_get k d.
Proof.
  induction d as [|[k0 v0] d IH]; simpl; [done|].
  repeat (case_bool_decide; simpl; subst); try done.
Qed.

Lemma dict_get_update k d' : forall d,
  NoDup (map fst d') ->
  dict_get k (dict_update d d') =
    match dict_get k d' with Some v => Some v | None => dict_get k d end.
Proof.
  induction d' as [|[k0 v0] d' IH]; intros d Hnd; simpl in *; [done|].
  apply NoDup_cons in Hnd as [Hk0 Hnd].
  unfold dict_update in *. simpl. rewrite IH, dict_get_set by done.
  case_bool_decide; subst; [|done].
  assert (dict_get k0 d' = None) as ->; [|done].
  clear -Hk0. induction d' as [|[k1 v1] d' IH]; [done|]. simpl in *.
  rewrite bool_decide_eq_false_2; [apply IH; intros H; apply Hk0; by right
    | intros ->; apply Hk0; left].
Qed.
End Dict.

Lemma str_app_inj_l (s t t' : string) : s +:+ t = s +:+ t' -> t = t'.
Proof. induction s as [|c s IH]; simpl; [done|]. intros H. injection H. auto. Qed.

Lemma str_app_inj_length (s s' t t' : string) :
  String.length s = String.length s' -> s +:+ t = s' +:+ t' -> s = s' /\ t = t'.
Proof.
  revert s'. induction s as [|c s IH]; intros [|c' s'] Hl H; simpl in *; try done.
  injection H as -> H. injection Hl as Hl. by destruct (IH s' Hl H) as [-> ->].
Qed.

Lemma str_take_drop n (s : string) : str_take n s +:+ str_drop n s = s.
Proof. revert s. induction n as [|n IH]; intros [|c s]; simpl; try done. by rewrite str_app_cons, IH. Qed.

Lemma str_take_app (q p : string) : str_take (String.length q) (q +:+ p) = q.
Proof. induction q as [|c q IH]; simpl; [by destruct p|]. by rewrite IH. Qed.

Lemma str_drop_app (q p : string) : str_drop (String.length q) (q +:+ p) = p.
Proof. induction q as [|c q IH]; simpl; [by destruct p|]. done. Qed.

Lemma endswith_iff (s p : string) : endswith s p = true <-> exists q, s = q +:+ p.
Proof.
  unfold endswith. rewrite andb_true_iff, bool_decide_eq_true, Nat.leb_le. split.
  - intros [_ H]. exists (str_take (String.length s - String.length p) s).
    rewrite <- H at 2. by rewrite str_take_drop.
  - intros [q ->]. rewrite str_length_app. split; [lia|].
    replace (String.length q + String.length p - String.length p)%nat with (String.length q) by lia.
    apply str_drop_app.
Qed.

Lemma str_app_inj_r (s s' t t' : string) :
  String.length t = String.length t' -> s +:+ t = s' +:+ t' -> s = s'.
Proof.
  intros Hl H. apply (str_app_inj_length s s' t t'); [|done].
  apply (f_equal String.length) in H. rewrite !str_length_app in H. lia.
Qed.

(** ** UTF-8

    [s.encode("utf-8")], and [b.decode("utf-8")] on a byte string (one character
    per byte).  [None] is [UnicodeDecodeError], or a character past code point
    255, which the strings of the model do not have. *)

Definition is_ascii (c : ascii) : bool := (code c <? 128)%N.

Fixpoint utf8_encode (s : string) : string :=
  match s with
  | EmptyString => ""
  | String c s' =>
      if is_ascii c then String c (utf8_encode s')
      else String (ascii_of_N (192 + code c / 64)) (String (ascii_of_N (128 + code c mod 64)) (utf8_encode s'))
  end.

Fixpoint utf8_decode (s : string) : option string :=
  match s with
  | EmptyString => Some ""
  | String c s' =>
      if is_ascii c then
        match utf8_decode s' with Some t => Some (String c t) | None => None end
      else match s' with
      | String c' s'' =>
          if ((194 <=? code c) && (code c <=? 195) && (128 <=? code c') && (code c' <? 192))%N then
            match utf8_decode s'' with
            | Some t => Some (String (ascii_of_N ((code c - 192) * 64 + (code c' - 128))) t)
            | None => None
            end
          else None
      | EmptyString => None
      end
  end.

Lemma code_ascii_of_N n : (n < 256)%N -> code (ascii_of_N n) = n.
Proof. apply N_ascii_embedding. Qed.

Lemma code_lt_256 c : (code c < 256)%N.
Proof. apply N_ascii_bounded. Qed.

Lemma ascii_of_code a n : n = code a -> ascii_of_N n = a.
Proof. intros ->. apply ascii_N_embedding. Qed.

Lemma str_cons_eq a b (s t : string) : a = b -> s = t -> String a s = String b t.
Proof. by intros -> ->. Qed.

Lemma utf8_roundtrip (s : string) : utf8_decode (utf8_encode s) = Some s.
Proof.
  induction s as [|c s IH]; [done|]. cbn [utf8_encode].
  destruct (is_ascii c) eqn:E; cbn [utf8_decode].
  - by rewrite E, IH.
  - pose proof (code_lt_256 c). unfold is_ascii in *. apply N.ltb_ge in E.
    assert (128 <= code c)%N by lia.
    assert (exists q r, code c / 64 = q /\ code c mod 64 = r /\ code c = 64 * q + r
              /\ 2 <= q <= 3 /\ r < 64)%N as (q & r & -> & -> & Hc & Hq & Hr).
    { exists (code c / 64)%N, (code c mod 64)%N. zify; Z.to_euclidean_division_equations; lia. }
    rewrite !code_ascii_of_N by lia.
    rewrite (proj2 (N.ltb_ge (192 + q) 128)) by lia.
    rewrite (proj2 (N.leb_le 194 _)), (proj2 (N.leb_le _ 195)), (proj2 (N.leb_le 128 _)),
      (proj2 (N.ltb_lt _ 192)) by lia. cbn [andb]. rewrite IH.
    f_equal. apply str_cons_eq; [|done]. apply ascii_of_code. lia.
Qed.

Lemma utf8_encode_ascii (s : string) : str_forallb is_ascii s = true -> utf8_encode s = s.
Proof.
  induction s as [|c s IH]; simpl; [done|]. intros H. apply andb_prop in H as [-> H]. by rewrite IH.
Qed.
