(* ===== verification/Uuid.v ===== *)
(** * [uuid.UUID]: text form and parsing

    [uuid_str] is [str(u)], [uuid_hex] is [u.hex] and [uuid_parse] is
    [uuid.UUID(s)], which accepts every spelling the standard library accepts
    ([urn:uuid:] prefixes, braces, any hyphens, and whatever [int(s, 16)] takes
    for the 32 remaining characters). *)

From S2P Require Import Prelude PyStr.
From Stdlib Require Import Ascii String.

Local Open Scope string_scope.

(** ** [str(uuid)]

    A [uuid.UUID] is its 128-bit integer; [str] is the canonical lower-case
    form with the groups 8-4-4-4-12. *)

Definition uuid := N.

Definition hex_digit (d : N) : ascii :=
  if (d <? 10)%N then ascii_of_N (48 + d) else ascii_of_N (87 + d).

(** The [w] low hexadecimal digits of [n], most significant first. *)
Fixpoint hex_digits (w : nat) (n : N) : string :=
  match w with
  | O => ""
  | S w' => String (hex_digit ((n / 16 ^ N.of_nat w') mod 16)) (hex_digits w' n)
  end.

Definition uuid_str (u : uuid) : string :=
  hex_digits 8 (u / 2 ^ 96) +:+ "-" +:+ hex_digits 4 (u / 2 ^ 80) +:+ "-"
  +:+ hex_digits 4 (u / 2 ^ 64) +:+ "-" +:+ hex_digits 4 (u / 2 ^ 48) +:+ "-"
  +:+ hex_digits 12 u.

(** [uuid.hex]. *)
Definition uuid_hex (u : uuid) : string := hex_digits 32 u.

(** ** [int(s, 16)] *)

Definition hex_value (c : ascii) : option N :=
  let n := code c in
  if is_digit c then Some (n - 48)%N
  else if ((97 <=? n) && (n <=? 102))%N then Some (n - 87)%N
  else if ((65 <=? n) && (n <=? 70))%N then Some (n - 55)%N
  else None.

(** Digits with single underscores between them; [us] says that an underscore
    may come next. *)
Fixpoint hex_int (us : bool) (acc : N) (s : string) : option N :=
  match s with
  | EmptyString => if us then Some acc else None
  | String c s' =>
      match hex_value c with
      | Some d => hex_int true (acc * 16 + d)%N s'
      | None => if us && (c =?= "_"%char) then hex_int false acc s' else None
      end
  end.

Definition strip_0x (s : string) : string :=
  match s with
  | String "0" (String c s') =>
      if (c =?= "x"%char) || (c =?= "X"%char)
      then match s' with String "_" s'' => s'' | _ => s' end
      else s
  | _ => s
  end.

Definition int16 (s : string) : option Z :=
  match strip s with
  | String "-" s' => (fun n => (- Z.of_N n)%Z) <$> hex_int false 0 (strip_0x s')
  | String "+" s' => Z.of_N <$> hex_int false 0 (strip_0x s')
  | s' => Z.of_N <$> hex_int false 0 (strip_0x s')
  end.

(** [uuid.UUID(s)]; [None] is its [ValueError]. *)
Definition uuid_parse (s : string) : option uuid :=
  let h := replace (strip_by (fun c => (c =?= "{"%char) || (c =?= "}"%char))
                     (replace (replace s "urn:" "") "uuid:" "")) "-" "" in
  if (String.length h =? 32)%nat then
    match int16 h with
    | Some z => if ((0 <=? z) && (z <? 2 ^ 128))%Z then Some (Z.to_N z) else None
    | None => None
    end
  else None.

(** ** The round trip *)

(** The sixteen digits. *)
Lemma digit_cases (P : N -> Prop) :
  Forall P [0; 1; 2; 3; 4; 5; 6; 7; 8; 9; 10; 11; 12; 13; 14; 15]%N ->
  forall d, (d < 16)%N -> P d.
Proof.
  rewrite Forall_forall. intros H d Hd. apply H.
  destruct d as [|p]; [set_solver|].
  do 4 (try destruct p as [p|p|]; try lia); set_solver.
Qed.

Lemma hex_value_digit d : (d < 16)%N -> hex_value (hex_digit d) = Some d.
Proof. revert d. apply digit_cases. repeat constructor; vm_compute; reflexivity. Qed.

Lemma hex_digit_lower d : (d < 16)%N -> is_lower_hex (hex_digit d) = true.
Proof. revert d. apply digit_cases. repeat constructor; vm_compute; reflexivity. Qed.

Lemma hex_digits_lower w n : str_forallb is_lower_hex (hex_digits w n) = true.
Proof.
  induction w as [|w IH]; [done|]. cbn [hex_digits str_forallb].
  rewrite IH, hex_digit_lower; [done|]. apply N.mod_lt. lia.
Qed.

Lemma hex_digits_length w n : String.length (hex_digits w n) = w.
Proof. induction w as [|w IH]; [done|]. cbn [hex_digits String.length]. by rewrite IH. Qed.

Lemma hex_digits_app w1 w2 n :
  hex_digits w1 (n / 16 ^ N.of_nat w2) +:+ hex_digits w2 n = hex_digits (w1 + w2) n.
Proof.
  induction w1 as [|w1 IH]; [done|]. cbn [hex_digits Nat.add]. rewrite str_app_cons, IH.
  do 2 f_equal. rewrite N.Div0.div_div, <- N.pow_add_r. do 4 f_equal. lia.
Qed.

Lemma hex_int_digits w n us acc :
  (us || (0 <? w)%nat) = true ->
  hex_int us acc (hex_digits w n) = Some (acc * 16 ^ N.of_nat w + n mod 16 ^ N.of_nat w)%N.
Proof.
  revert us acc. induction w as [|w IH]; intros us acc Hus.
  - destruct us; [|done]. cbn [hex_digits hex_int]. f_equal.
    change (16 ^ N.of_nat 0)%N with 1%N. rewrite N.mod_1_r. lia.
  - cbn [hex_digits hex_int]. rewrite hex_value_digit by (apply N.mod_lt; lia).
    rewrite IH by done. f_equal.
    replace (N.of_nat (S w)) with (N.succ (N.of_nat w)) by lia.
    rewrite N.pow_succ_r', (N.mul_comm 16), (N.Div0.mod_mul_r n (16 ^ N.of_nat w) 16). lia.
Qed.

(** The 36 characters of [str(u)] without the hyphens are [u.hex]. *)
Lemma uuid_str_no_hyphen u : replace (uuid_str u) "-" "" = uuid_hex u.
Proof.
  assert (forall w n, str_filter (fun a => negb (a =?= "-"%char)) (hex_digits w n)
            = hex_digits w n) as Hf.
  { intros w n. apply str_filter_all. eapply str_forallb_impl; [|apply hex_digits_lower].
    intros c Hc. apply negb_true_iff, bool_decide_eq_false. by intros ->. }
  rewrite replace_char. unfold uuid_str. rewrite !str_filter_app, !Hf. simpl (str_filter _ "-").
  unfold uuid_hex.
  change 32%nat with (8 + (4 + (4 + (4 + 12))))%nat.
  rewrite <- !hex_digits_app. cbn [Nat.add]. done.
Qed.

Lemma uuid_str_chars u :
  str_forallb (fun c => is_lower_hex c || (c =?= "-"%char)) (uuid_str u) = true.
Proof.
  assert (forall w n, str_forallb (fun c => is_lower_hex c || (c =?= "-"%char)) (hex_digits w n)
            = true) as Hf.
  { intros w n. eapply str_forallb_impl; [|apply hex_digits_lower]. by intros c ->. }
  unfold uuid_str. by rewrite !str_forallb_app, !Hf.
Qed.

Lemma uuid_str_avoids (P : ascii -> bool) u :
  (forall c, is_lower_hex c || (c =?= "-"%char) = true -> P c = false) ->
  str_forallb (fun c => negb (P c)) (uuid_str u) = true.
Proof.
  intros HP. eapply str_forallb_impl; [|apply uuid_str_chars].
  intros c Hc. by rewrite (HP c Hc).
Qed.

Lemma lower_hex_not c a :
  is_lower_hex c || (c =?= "-"%char) = true ->
  is_lower_hex a || (a =?= "-"%char) = false -> (c =?= a) = false.
Proof. intros Hc Ha. apply bool_decide_eq_false. intros ->. congruence. Qed.

Lemma strip_0x_digits w n : strip_0x (hex_digits w n) = hex_digits w n.
Proof.
  destruct w as [|[|w]]; [done| |].
  - cbn [hex_digits]. set (d := hex_digit _). unfold strip_0x.
    destruct d as [[] [] [] [] [] [] [] []]; done.
  - pose proof (hex_digits_lower (S (S w)) n) as H. cbn [hex_digits str_forallb] in *.
    set (d := hex_digit _) in *. set (d' := hex_digit _) in *.
    apply andb_prop in H as [_ [Hd' _]%andb_prop]. unfold strip_0x.
    rewrite !bool_decide_eq_false_2 by (intros Heq; rewrite Heq in Hd'; done).
    destruct d as [[] [] [] [] [] [] [] []]; done.
Qed.

Lemma int16_digits w n :
  int16 (hex_digits (S w) n) = Some (Z.of_N (n mod 16 ^ N.of_nat (S w))).
Proof.
  assert (strip (hex_digits (S w) n) = hex_digits (S w) n) as Hs.
  { apply strip_by_none. eapply str_forallb_impl; [|apply hex_digits_lower].
    intros [[] [] [] [] [] [] [] []]; vm_compute; done. }
  unfold int16. rewrite Hs.
  assert (forall c t, hex_digits (S w) n = String c t ->
    is_lower_hex c = true) as Hc.
  { intros c t Heq. pose proof (hex_digits_lower (S w) n) as H. rewrite Heq in H.
    by apply andb_prop in H as [? _]. }
  pose proof (hex_int_digits (S w) n false 0 eq_refl) as Hi.
  rewrite <- (strip_0x_digits (S w) n) in Hi. rewrite N.mul_0_l, N.add_0_l in Hi.
  destruct (hex_digits (S w) n) as [|c t] eqn:Heq; [done|]. specialize (Hc c t eq_refl).
  destruct c as [[] [] [] [] [] [] [] []]; first [discriminate Hc | by rewrite Hi].
Qed.

(** [uuid.UUID(str(u)) == u] for every 128-bit value. *)
Lemma uuid_parse_str u : (u < 2 ^ 128)%N -> uuid_parse (uuid_str u) = Some u.
Proof.
  intros Hu. unfold uuid_parse.
  assert (forall a old, is_lower_hex a || (a =?= "-"%char) = false ->
            replace (uuid_str u) (String a old) "" = uuid_str u) as Hr.
  { intros a old Ha. apply replace_none, uuid_str_avoids. intros c Hc.
    by apply lower_hex_not. }
  rewrite !Hr by done. rewrite strip_by_none.
  2:{ apply uuid_str_avoids. intros c Hc. by rewrite !lower_hex_not. }
  rewrite uuid_str_no_hyphen. unfold uuid_hex.
  rewrite hex_digits_length, int16_digits. change (16 ^ N.of_nat 32)%N with (2 ^ 128)%N.
  rewrite N.mod_small by done. simpl.
  destruct (0 <=? Z.of_N u)%Z eqn:H0; [|lia].
  destruct (Z.of_N u <? 2 ^ 128)%Z eqn:H1; [|lia]. simpl. by rewrite N2Z.id.
Qed.

(** Distinct identifiers have distinct text forms. *)
Lemma uuid_str_inj u v :
  (u < 2 ^ 128)%N -> (v < 2 ^ 128)%N -> uuid_str u = uuid_str v -> u = v.
Proof.
  intros Hu Hv Heq. apply uuid_parse_str in Hu, Hv. rewrite Heq in Hu. congruence.
Qed.

Lemma uuid_str_length u : String.length (uuid_str u) = 36%nat.
Proof. unfold uuid_str. by rewrite !str_length_app, !hex_digits_length. Qed.

#[export] Hint Resolve uuid_parse_str : hami.

Lemma uuid_str_ascii u : str_forallb is_ascii (uuid_str u) = true.
Proof.
  eapply str_forallb_impl; [|apply uuid_str_chars]. intros c Hc.
  apply orb_true_iff in Hc as [Hc|Hc]; [|by apply bool_decide_eq_true in Hc as ->].
  unfold is_lower_hex, is_digit, is_ascii in *. apply N.ltb_lt.
  rewrite orb_true_iff, !andb_true_iff, !N.leb_le in Hc. lia.
Qed.

#[global] Arguments uuid_str : simpl never.
#[global] Arguments uuid_parse : simpl never.

Lemma uuid_parse_bound s u : uuid_parse s = Some u -> (u < 2 ^ 128)%N.
Proof.
  unfold uuid_parse. intros H. cases_in H. apply andb_prop in Heqb0 as [H1 H2].
  apply Z.leb_le in H1. apply Z.ltb_lt in H2. lia.
Qed.
