(* ===== verification/Json.v ===== *)
(** * JSON values and [json.dumps]

    The values the program stores in JSON columns, passes as error details and
    hashes: [None], booleans, integers, strings, lists and insertion-ordered
    dictionaries.  (The program builds no floating-point JSON value.)
    [dumps] is [json.dumps(v, sort_keys=True)] with its default separators and
    [ensure_ascii=True]; [dumps_plain] is [json.dumps(v)], without sorting. *)

From S2P Require Import Prelude PyStr Uuid.
From Stdlib Require Import Ascii String.

#[local] Set Warnings "-register-all".

Inductive json :=
| JNull
| JBool (b : bool)
| JInt (z : Z)
| JStr (s : string)
| JList (l : list json)
| JDict (kvs : list (string * json)).

(** The nested induction principle. *)
Section json_ind.
Context (P : json -> Prop).
Context (Hnull : P JNull) (Hbool : forall b, P (JBool b)) (Hint : forall z, P (JInt z))
  (Hstr : forall s, P (JStr s))
  (Hlist : forall l, Forall P l -> P (JList l))
  (Hdict : forall kvs, Forall (fun kv => P kv.2) kvs -> P (JDict kvs)).

Fixpoint json_ind' (j : json) : P j :=
  match j with
  | JNull => Hnull
  | JBool b => Hbool b
  | JInt z => Hint z
  | JStr s => Hstr s
  | JList l =>
      Hlist l ((fix go l := match l return Forall P l with
                | [] => @List.Forall_nil _ _
                | x :: l' => @List.Forall_cons _ _ x l' (json_ind' x) (go l') end) l)
  | JDict kvs =>
      Hdict kvs ((fix go l := match l return Forall (fun kv => P kv.2) l with
                  | [] => @List.Forall_nil _ _
                  | kv :: l' => @List.Forall_cons _ _ kv l' (json_ind' kv.2) (go l') end) kvs)
  end.
End json_ind.

(** An optional value: [None] is JSON's null. *)
Definition jopt {A} (f : A -> json) (o : option A) : json :=
  match o with Some x => f x | None => JNull end.

(** [d or {}] / [d] as a dictionary's items. *)
Definition dict_items (j : json) : list (string * json) :=
  match j with JDict kvs => kvs | _ => [] end.

(** Python truthiness of a JSON value. *)
Definition json_truthy (j : json) : bool :=
  match j with
  | JNull => false
  | JBool b => b
  | JInt z => z <?> 0
  | JStr s => truthy s
  | JList l => match l with [] => false | _ => true end
  | JDict kvs => match kvs with [] => false | _ => true end
  end.

(** ** [json.dumps] *)

Definition quote : ascii := ascii_of_N 34.
Definition backslash : ascii := ascii_of_N 92.

Definition escape_char (c : ascii) : string :=
  let n := code c in
  if (n =? 34)%N then String backslash (String quote "")
  else if (n =? 92)%N then String backslash (String backslash "")
  else if (n =? 10)%N then String backslash "n"
  else if (n =? 13)%N then String backslash "r"
  else if (n =? 9)%N then String backslash "t"
  else if (n =? 12)%N then String backslash "f"
  else if (n =? 8)%N then String backslash "b"
  else if ((32 <=? n) && (n <=? 126))%N then String c ""
  else String backslash ("u" +:+ hex_digits 4 n).

Fixpoint escape (s : string) : string :=
  match s with
  | EmptyString => ""
  | String c s' => escape_char c +:+ escape s'
  end.

Definition dumps_str (s : string) : string :=
  String quote (escape s +:+ String quote "").

Fixpoint insert_item {V} (kv : string * V) (d : list (string * V)) : list (string * V) :=
  match d with
  | [] => [kv]
  | kv' :: d' => if String.leb kv.1 kv'.1 then kv :: d else kv' :: insert_item kv d'
  end.
Definition sort_items {V} (d : list (string * V)) : list (string * V) :=
  foldr insert_item [] d.

Fixpoint join (sep : string) (l : list string) : string :=
  match l with
  | [] => ""
  | [x] => x
  | x :: l' => x +:+ sep +:+ join sep l'
  end.

Definition dumps_item (kv : string * string) : string := dumps_str kv.1 +:+ ": " +:+ kv.2.

Section Dumps.
Context (sort_keys : bool).

Fixpoint dumps_with (j : json) : string :=
  match j with
  | JNull => "null"
  | JBool true => "true"
  | JBool false => "false"
  | JInt z => pretty z
  | JStr s => dumps_str s
  | JList l => "[" +:+ join ", " (map dumps_with l) +:+ "]"
  | JDict kvs =>
      let items := map (fun kv => (kv.1, dumps_with kv.2)) kvs in
      "{" +:+ join ", " (map dumps_item (if sort_keys then sort_items items else items))
      +:+ "}"
  end.
End Dumps.

Definition dumps : json -> string := dumps_with true.
Definition dumps_plain : json -> string := dumps_with false.

Example dumps_ex :
  dumps (JDict [("b", JInt (-3)); ("a", JList [JNull; JBool true])])
  = "{" +:+ dumps_str "a" +:+ ": [null, true], " +:+ dumps_str "b" +:+ ": -3}".
Proof. vm_compute. reflexivity. Qed.
