(* ===== verification/Models.v ===== *)
(** * The database schema ([apps/api/app/models])

    One Record per mapped class, with the columns under a short prefix, one
    Inductive per enumeration, and the whole database as the record of its
    tables.  A table is the list of its rows in insertion order; a timestamp is
    a number of microseconds since the Unix epoch (UTC). *)

From S2P Require Import Prelude PyStr Uuid Json.
From Stdlib Require Import String.

Definition time := Z.
Definition seconds (n : Z) : Z := n * 1000000.
Definition hours (n : Z) : Z := seconds (n * 3600).
Definition days (n : Z) : Z := hours (n * 24).

(** ** Enumerations *)

Inductive WorkspaceRole := OWNER | ADMIN | DEVELOPER | VIEWER.
#[export] Instance WorkspaceRole_eq_dec : EqDecision WorkspaceRole.
Proof. solve_decision. Defined.
Definition role_value (r : WorkspaceRole) : string :=
  match r with OWNER => "OWNER" | ADMIN => "ADMIN" | DEVELOPER => "DEVELOPER" | VIEWER => "VIEWER" end.

Inductive JobState :=
| QUEUED | ADMITTED | STARTING | RUNNING | SUCCEEDED | RETRY_WAIT | RECOVERY_PENDING
| FAILED | CANCEL_REQUESTED | CANCELLED.
#[export] Instance JobState_eq_dec : EqDecision JobState.
Proof. solve_decision. Defined.
Definition job_state_value (s : JobState) : string :=
  match s with
  | QUEUED => "QUEUED" | ADMITTED => "ADMITTED" | STARTING => "STARTING" | RUNNING => "RUNNING"
  | SUCCEEDED => "SUCCEEDED" | RETRY_WAIT => "RETRY_WAIT" | RECOVERY_PENDING => "RECOVERY_PENDING"
  | FAILED => "FAILED" | CANCEL_REQUESTED => "CANCEL_REQUESTED" | CANCELLED => "CANCELLED"
  end.

Inductive ReleaseStatus :=
| REQUESTED | BUILDING | IMAGE_READY | DEPLOYING | HEALTHY | BUILD_FAILED | DEPLOY_FAILED
| SUPERSEDED.
#[export] Instance ReleaseStatus_eq_dec : EqDecision ReleaseStatus.
Proof. solve_decision. Defined.
Definition release_status_value (s : ReleaseStatus) : string :=
  match s with
  | REQUESTED => "REQUESTED" | BUILDING => "BUILDING" | IMAGE_READY => "IMAGE_READY"
  | DEPLOYING => "DEPLOYING" | HEALTHY => "HEALTHY" | BUILD_FAILED => "BUILD_FAILED"
  | DEPLOY_FAILED => "DEPLOY_FAILED" | SUPERSEDED => "SUPERSEDED"
  end.

Inductive WorkloadType := HTTP_SERVICE.
#[export] Instance WorkloadType_eq_dec : EqDecision WorkloadType.
Proof. solve_decision. Defined.
Definition workload_type_value (w : WorkloadType) : string :=
  match w with HTTP_SERVICE => "HTTP_SERVICE" end.

Inductive QuotaResourceClass := CONCURRENT_JOB | CONCURRENT_BUILD | DEPLOYED_SERVICE.
#[export] Instance QuotaResourceClass_eq_dec : EqDecision QuotaResourceClass.
Proof. solve_decision. Defined.
Definition resource_class_value (c : QuotaResourceClass) : string :=
  match c with
  | CONCURRENT_JOB => "CONCURRENT_JOB" | CONCURRENT_BUILD => "CONCURRENT_BUILD"
  | DEPLOYED_SERVICE => "DEPLOYED_SERVICE"
  end.

Inductive QuotaStatus := ACTIVE | RELEASED | EXPIRED.
#[export] Instance QuotaStatus_eq_dec : EqDecision QuotaStatus.
Proof. solve_decision. Defined.

Inductive OutboxStatus := PENDING | PUBLISHED | OUTBOX_FAILED.
#[export] Instance OutboxStatus_eq_dec : EqDecision OutboxStatus.
Proof. solve_decision. Defined.

Inductive IntentStatus := INTENT_PENDING | CLAIMED | APPLIED | TERMINATED.
#[export] Instance IntentStatus_eq_dec : EqDecision IntentStatus.
Proof. solve_decision. Defined.

Inductive IntentResourceType := JOB_ATTEMPT | SERVICE_RELEASE.
#[export] Instance IntentResourceType_eq_dec : EqDecision IntentResourceType.
Proof. solve_decision. Defined.

(** ** Rows *)

Record Workspace := mkWorkspace {
  ws_id : uuid; ws_name : string; ws_slug : string;
  ws_created_at : time; ws_updated_at : time }.

Record WorkspaceMembership := mkMembership {
  wm_id : uuid; wm_workspace_id : uuid; wm_user_subject : string; wm_role : WorkspaceRole;
  wm_created_at : time; wm_updated_at : time }.

Record Application := mkApplication {
  app_id : uuid; app_workspace_id : uuid; app_name : string; app_slug : string;
  app_workload_type : WorkloadType; app_desired_generation : Z;
  app_current_release_id : option uuid; app_repository_id : option uuid;
  app_dockerfile_path : string; app_context_dir : string; app_git_branch : option string;
  app_created_at : time; app_updated_at : time }.

Record Release := mkRelease {
  rel_id : uuid; rel_application_id : uuid; rel_workspace_id : uuid; rel_number : Z;
  rel_commit_sha : option string; rel_image_digest : string; rel_config_json : json;
  rel_status : ReleaseStatus; rel_status_reason : option string;
  rel_repository_id : option uuid; rel_git_ref : option string;
  rel_commit_message : option string; rel_build_duration_ms : option Z;
  rel_build_logs : option string;
  rel_created_at : time; rel_updated_at : time }.

Record Job := mkJob {
  job_id : uuid; job_workspace_id : uuid; job_name : string; job_image_digest : string;
  job_command_args : list string; job_env_vars : list (string * string);
  job_timeout_seconds : Z; job_max_retries : Z; job_current_attempt_number : Z;
  job_state : JobState;
  job_created_at : time; job_updated_at : time }.

Record JobAttempt := mkJobAttempt {
  att_id : uuid; att_job_id : uuid; att_workspace_id : uuid; att_number : Z;
  att_state : JobState; att_resource_uid : option string; att_lease_epoch : Z;
  att_exit_code : option Z; att_failure_reason : option string;
  att_started_at : option time; att_finished_at : option time;
  att_created_at : time; att_updated_at : time }.

Record ExecutionIntent := mkIntent {
  int_id : uuid; int_workspace_id : uuid; int_resource_type : IntentResourceType;
  int_job_attempt_id : option uuid; int_release_id : option uuid;
  int_resource_uid : option string; int_target_generation : Z; int_name : string;
  int_status : IntentStatus; int_claimed_by : option string; int_lease_epoch : Z;
  int_lease_expires_at : option time;
  int_created_at : time; int_updated_at : time }.

Record OutboxEvent := mkOutboxEvent {
  ob_id : uuid; ob_event_id : uuid; ob_workspace_id : uuid; ob_schema_version : Z;
  ob_topic : string; ob_payload_json : json; ob_headers_json : list (string * string);
  ob_status : OutboxStatus; ob_retry_count : Z; ob_next_attempt_at : option time;
  ob_published_at : option time;
  ob_created_at : time; ob_updated_at : time }.

Record QuotaReservation := mkReservation {
  qr_id : uuid; qr_workspace_id : uuid; qr_resource_class : QuotaResourceClass; qr_units : Z;
  qr_status : QuotaStatus; qr_expires_at : time;
  qr_created_at : time; qr_updated_at : time }.

Record IdempotencyRecord := mkIdempotencyRecord {
  ir_id : uuid; ir_workspace_id : uuid; ir_endpoint : string; ir_key : string;
  ir_request_hash : string; ir_response_code : Z; ir_response_body : json;
  ir_expires_at : time;
  ir_created_at : time; ir_updated_at : time }.

Record SecretReference := mkSecretReference {
  sec_id : uuid; sec_workspace_id : uuid; sec_name : string; sec_encrypted_value : string;
  sec_key_version : Z;
  sec_created_at : time; sec_updated_at : time }.

Record AuditEvent := mkAuditEvent {
  aud_id : uuid; aud_workspace_id : option uuid; aud_actor_subject : string;
  aud_action : string; aud_target_type : string; aud_target_id : string;
  aud_result : string; aud_details_json : json; aud_created_at : time }.

Record Repository := mkRepository {
  repo_id : uuid; repo_workspace_id : uuid; repo_name : string; repo_url : string;
  repo_webhook_secret : string; repo_default_branch : string;
  repo_created_at : time; repo_updated_at : time }.

Record WebhookDelivery := mkWebhookDelivery {
  wd_id : uuid; wd_workspace_id : uuid; wd_repository_id : uuid; wd_delivery_id : string;
  wd_event_type : string; wd_payload_hash : string; wd_status : string;
  wd_created_at : time }.

Record DeadLetterRecord := mkDeadLetterRecord {
  dl_id : uuid; dl_job_id : uuid; dl_workspace_id : uuid; dl_last_attempt : Z;
  dl_exit_code : option Z; dl_failure_reason : option string; dl_created_at : time }.

(** ** The database *)

Record Db := mkDb {
  workspaces : list Workspace;
  memberships : list WorkspaceMembership;
  applications : list Application;
  releases : list Release;
  jobs : list Job;
  job_attempts : list JobAttempt;
  intents : list ExecutionIntent;
  outbox : list OutboxEvent;
  reservations : list QuotaReservation;
  idempotency : list IdempotencyRecord;
  secrets : list SecretReference;
  audit_events : list AuditEvent;
  repositories : list Repository;
  deliveries : list WebhookDelivery;
  dead_letters : list DeadLetterRecord }.

Definition empty_db : Db := mkDb [] [] [] [] [] [] [] [] [] [] [] [] [] [] [].

(** ** Updating one table *)

Definition on_workspaces (g : _ -> _) (db : Db) : Db :=
  mkDb (g (workspaces db)) (memberships db) (applications db) (releases db) (jobs db)
    (job_attempts db) (intents db) (outbox db) (reservations db) (idempotency db) (secrets
    db) (audit_events db) (repositories db) (deliveries db) (dead_letters db).

Definition on_memberships (g : _ -> _) (db : Db) : Db :=
  mkDb (workspaces db) (g (memberships db)) (applications db) (releases db) (jobs db)
    (job_attempts db) (intents db) (outbox db) (reservations db) (idempotency db) (secrets
    db) (audit_events db) (repositories db) (deliveries db) (dead_letters db).

Definition on_applications (g : _ -> _) (db : Db) : Db :=
  mkDb (workspaces db) (memberships db) (g (applications db)) (releases db) (jobs db)
    (job_attempts db) (intents db) (outbox db) (reservations db) (idempotency db) (secrets
    db) (audit_events db) (repositories db) (deliveries db) (dead_letters db).

Definition on_releases (g : _ -> _) (db : Db) : Db :=
  mkDb (workspaces db) (memberships db) (applications db) (g (releases db)) (jobs db)
    (job_attempts db) (intents db) (outbox db) (reservations db) (idempotency db) (secrets
    db) (audit_events db) (repositories db) (deliveries db) (dead_letters db).

Definition on_jobs (g : _ -> _) (db : Db) : Db :=
  mkDb (workspaces db) (memberships db) (applications db) (releases db) (g (jobs db))
    (job_attempts db) (intents db) (outbox db) (reservations db) (idempotency db) (secrets
    db) (audit_events db) (repositories db) (deliveries db) (dead_letters db).

Definition on_job_attempts (g : _ -> _) (db : Db) : Db :=
  mkDb (workspaces db) (memberships db) (applications db) (releases db) (jobs db) (g
    (job_attempts db)) (intents db) (outbox db) (reservations db) (idempotency db) (secrets
    db) (audit_events db) (repositories db) (deliveries db) (dead_letters db).

Definition on_intents (g : _ -> _) (db : Db) : Db :=
  mkDb (workspaces db) (memberships db) (applications db) (releases db) (jobs db)
    (job_attempts db) (g (intents db)) (outbox db) (reservations db) (idempotency db)
    (secrets db) (audit_events db) (repositories db) (deliveries db) (dead_letters db).

Definition on_outbox (g : _ -> _) (db : Db) : Db :=
  mkDb (workspaces db) (memberships db) (applications db) (releases db) (jobs db)
    (job_attempts db) (intents db) (g (outbox db)) (reservations db) (idempotency db)
    (secrets db) (audit_events db) (repositories db) (deliveries db) (dead_letters db).

Definition on_reservations (g : _ -> _) (db : Db) : Db :=
  mkDb (workspaces db) (memberships db) (applications db) (releases db) (jobs db)
    (job_attempts db) (intents db) (outbox db) (g (reservations db)) (idempotency db)
    (secrets db) (audit_events db) (repositories db) (deliveries db) (dead_letters db).

Definition on_idempotency (g : _ -> _) (db : Db) : Db :=
  mkDb (workspaces db) (memberships db) (applications db) (releases db) (jobs db)
    (job_attempts db) (intents db) (outbox db) (reservations db) (g (idempotency db))
    (secrets db) (audit_events db) (repositories db) (deliveries db) (dead_letters db).

Definition on_secrets (g : _ -> _) (db : Db) : Db :=
  mkDb (workspaces db) (memberships db) (applications db) (releases db) (jobs db)
    (job_attempts db) (intents db) (outbox db) (reservations db) (idempotency db) (g
    (secrets db)) (audit_events db) (repositories db) (deliveries db) (dead_letters db).

Definition on_audit_events (g : _ -> _) (db : Db) : Db :=
  mkDb (workspaces db) (memberships db) (applications db) (releases db) (jobs db)
    (job_attempts db) (intents db) (outbox db) (reservations db) (idempotency db) (secrets
    db) (g (audit_events db)) (repositories db) (deliveries db) (dead_letters db).

Definition on_repositories (g : _ -> _) (db : Db) : Db :=
  mkDb (workspaces db) (memberships db) (applications db) (releases db) (jobs db)
    (job_attempts db) (intents db) (outbox db) (reservations db) (idempotency db) (secrets
    db) (audit_events db) (g (repositories db)) (deliveries db) (dead_letters db).

Definition on_deliveries (g : _ -> _) (db : Db) : Db :=
  mkDb (workspaces db) (memberships db) (applications db) (releases db) (jobs db)
    (job_attempts db) (intents db) (outbox db) (reservations db) (idempotency db) (secrets
    db) (audit_events db) (repositories db) (g (deliveries db)) (dead_letters db).

Definition on_dead_letters (g : _ -> _) (db : Db) : Db :=
  mkDb (workspaces db) (memberships db) (applications db) (releases db) (jobs db)
    (job_attempts db) (intents db) (outbox db) (reservations db) (idempotency db) (secrets
    db) (audit_events db) (repositories db) (deliveries db) (g (dead_letters db)).
