(* ===== verification/DateTime.v ===== *)
(** * Dates and their ISO 8601 form

    The part of Python's [datetime] the program uses: the proleptic Gregorian
    calendar ([_ord2ymd], [_ymd2ord]) on timestamps in microseconds since the
    epoch, and [isoformat] of an aware UTC datetime.  [fromisoformat] reads many
    ISO 8601 forms; [fromisoformat_ext] is the reader of the extended form that
    [isoformat] writes, proved to be its inverse. *)

From S2P Require Import Prelude PyStr Models.
From Stdlib Require Import Ascii String.

(** ** The calendar *)

Definition is_leap (y : Z) : bool := (y mod 4 =? 0) && (negb (y mod 100 =? 0) || (y mod 400 =? 0)).

Definition days_before_month (leap : bool) (m : Z) : Z :=
  match m with
  | 1 => 0 | 2 => 31 | 3 => 59 | 4 => 90 | 5 => 120 | 6 => 151 | 7 => 181
  | 8 => 212 | 9 => 243 | 10 => 273 | 11 => 304 | _ => 334
  end + (if (2 <? m) && leap then 1 else 0).

Definition days_in_month (leap : bool) (m : Z) : Z :=
  if m =? 2 then (if leap then 29 else 28)
  else if (m =? 4) || (m =? 6) || (m =? 9) || (m =? 11) then 30 else 31.

Definition days_before_year (y : Z) : Z :=
  let y := y - 1 in y * 365 + y / 4 - y / 100 + y / 400.

(** [_ymd2ord]: day 1 is January 1 of year 1. *)
Definition ymd2ord (y m d : Z) : Z := days_before_year y + days_before_month (is_leap y) m + d.

(** The month and day of the zero-based day [n] of a year. *)
Definition month_day (leap : bool) (n : Z) : Z * Z :=
  let month := (n + 50) / 32 in
  let preceding := days_before_month leap month in
  if n <? preceding then
    (month - 1, n - (preceding - days_in_month leap (month - 1)) + 1)
  else (month, n - preceding + 1).

(** [_ord2ymd]. *)
Definition ord2ymd (n : Z) : Z * Z * Z :=
  let n := n - 1 in
  let n400 := n / 146097 in let n := n mod 146097 in
  let n100 := n / 36524 in let n := n mod 36524 in
  let n4 := n / 1461 in let n := n mod 1461 in
  let n1 := n / 365 in let n := n mod 365 in
  let year := n400 * 400 + 1 + n100 * 100 + n4 * 4 + n1 in
  if (n1 =? 4) || (n100 =? 4) then (year - 1, 12, 31)
  else
    let leap := (n1 =? 3) && (negb (n4 =? 24) || (n100 =? 3)) in
    let (m, d) := month_day leap n in (year, m, d).

Definition day_us : Z := days 1.
(** [date(1970, 1, 1).toordinal()]. *)
Definition epoch_ordinal : Z := 719163.

Definition date_of (t : time) : Z * Z * Z := ord2ymd (t / day_us + epoch_ordinal).
Definition year_of (t : time) : Z := (date_of t).1.1.

(** ** Fixed-width decimals *)

Definition dec_digit (d : Z) : ascii := ascii_of_N (48 + Z.to_N d).

Fixpoint dec_digits (w : nat) (n : Z) : string :=
  match w with
  | O => ""
  | S w' => dec_digits w' (n / 10) +:+ String (dec_digit (n mod 10)) ""
  end.

Fixpoint parse_num (w : nat) (acc : Z) (s : string) : option (Z * string) :=
  match w, s with
  | O, _ => Some (acc, s)
  | S w', String c s' =>
      if is_digit c then parse_num w' (acc * 10 + (Z.of_N (code c) - 48)) s' else None
  | S _, EmptyString => None
  end.

(** ** [isoformat] *)

Definition isoformat (t : time) : string :=
  let '(y, m, d) := date_of t in
  let us := t mod day_us in
  dec_digits 4 y +:+ "-" +:+ dec_digits 2 m +:+ "-" +:+ dec_digits 2 d +:+ "T"
  +:+ dec_digits 2 (us / hours 1) +:+ ":" +:+ dec_digits 2 (us / seconds 60 mod 60) +:+ ":"
  +:+ dec_digits 2 (us / seconds 1 mod 60)
  +:+ (if us mod 1000000 =? 0 then "" else "." +:+ dec_digits 6 (us mod 1000000))
  +:+ "+00:00".

(** A parsed datetime: the wall-clock reading, in microseconds since the epoch,
    and the offset of its time zone ([None] for a naive datetime). *)
Record IsoDateTime := mkIso { wall : Z; utcoffset : option Z }.

(** The value in UTC: a naive datetime is taken as UTC. *)
Definition to_utc (d : IsoDateTime) : time := wall d - default 0 (utcoffset d).

Definition expect (c : ascii) (s : string) : option string :=
  match s with
  | String c' s' => if c' =?= c then Some s' else None
  | EmptyString => None
  end.

(** The offset suffix: nothing, or [+HH:MM] / [-HH:MM]. *)
Definition parse_offset (s : string) : option (option Z) :=
  match s with
  | EmptyString => Some None
  | String c s1 =>
      if (c =?= "+"%char) || (c =?= "-"%char) then
        '(h, s2) ← parse_num 2 0 s1; s3 ← expect ":" s2; '(m, s4) ← parse_num 2 0 s3;
        if (s4 =?= "") && (h <? 24) && (m <? 60)
        then Some (Some ((if c =?= "+"%char then 1 else -1) * (hours h + seconds (m * 60))))
        else None
      else None
  end.

(** The optional fraction of a second. *)
Definition parse_fraction (s : string) : option (Z * string) :=
  match s with
  | String "." s' => parse_num 6 0 s'
  | _ => Some (0, s)
  end.

(** [datetime.fromisoformat] on the extended form with seconds. *)
Definition fromisoformat_ext (s : string) : option IsoDateTime :=
  '(y, s) ← parse_num 4 0 s; s ← expect "-" s;
  '(m, s) ← parse_num 2 0 s; s ← expect "-" s;
  '(d, s) ← parse_num 2 0 s; s ← expect "T" s;
  '(hh, s) ← parse_num 2 0 s; s ← expect ":" s;
  '(mm, s) ← parse_num 2 0 s; s ← expect ":" s;
  '(ss, s) ← parse_num 2 0 s;
  '(us, s) ← parse_fraction s;
  off ← parse_offset s;
  if (1 <=? y) && (1 <=? m) && (m <=? 12) && (1 <=? d) && (d <=? days_in_month (is_leap y) m)
     && (hh <? 24) && (mm <? 60) && (ss <? 60)
  then Some (mkIso ((ymd2ord y m d - epoch_ordinal) * day_us
                    + hours hh + seconds (mm * 60) + seconds ss + us) off)
  else None.

Example isoformat_ex : isoformat 1700000000123456 = "2023-11-14T22:13:20.123456+00:00".
Proof. reflexivity. Qed.
Example fromisoformat_ex :
  fromisoformat_ext "2024-02-29T23:59:59-05:30"
  = Some (mkIso 1709251199000000 (Some (- 19800000000))).
Proof. reflexivity. Qed.

(** ** The calendar round-trips *)

Definition month_day_check (leap : bool) (n : Z) : bool :=
  let (m, d) := month_day leap n in
  (1 <=? m) && (m <=? 12) && (1 <=? d) && (d <=? days_in_month leap m)
  && (days_before_month leap m + d - 1 =? n).

Lemma month_day_ok (leap : bool) n :
  0 <= n < (if leap then 366 else 365) ->
  month_day_check leap n = true.
Proof.
  intros Hn.
  assert (forallb (month_day_check leap) (seqZ 0 (if leap then 366 else 365)) = true) as H.
  { destruct leap; vm_compute; reflexivity. }
  rewrite forallb_forall in H. apply H, list_elem_of_In, elem_of_seqZ. lia.
Qed.

Lemma leap_components a b c e :
  0 <= b <= 3 -> 0 <= c <= 24 -> 0 <= e <= 3 ->
  is_leap (a * 400 + 1 + b * 100 + c * 4 + e) = (e =? 3) && (negb (c =? 24) || (b =? 3)).
Proof.
  intros Hb Hc He. unfold is_leap. set (y := _ + e).
  assert (y mod 4 = (e + 1) mod 4) as ->.
  { unfold y. replace (_ + e) with (e + 1 + (a * 100 + b * 25 + c) * 4) by lia. by rewrite Z_mod_plus_full. }
  assert (y mod 100 = c * 4 + e + 1 - (if (c =? 24) && (e =? 3) then 100 else 0)) as ->.
  { unfold y. symmetry. apply (Z.mod_unique_pos _ _ (a * 4 + b + (if (c =? 24) && (e =? 3) then 1 else 0))).
    - destruct (c =? 24) eqn:?, (e =? 3) eqn:?; simpl; lia.
    - destruct ((c =? 24) && (e =? 3)); lia. }
  assert (y mod 400 = b * 100 + c * 4 + e + 1 - (if (b =? 3) && (c =? 24) && (e =? 3) then 400 else 0)) as ->.
  { unfold y. symmetry. apply (Z.mod_unique_pos _ _ (a + (if (b =? 3) && (c =? 24) && (e =? 3) then 1 else 0))).
    - destruct (b =? 3) eqn:?, (c =? 24) eqn:?, (e =? 3) eqn:?; simpl; lia.
    - destruct ((b =? 3) && (c =? 24) && (e =? 3)); lia. }
  assert (e = 0 \/ e = 1 \/ e = 2 \/ e = 3) as [->|[->|[->| ->]]] by lia; try reflexivity.
  change (3 =? 3) with true. change ((3 + 1) mod 4 =? 0) with true. simpl.
  destruct (c =? 24) eqn:Ec, (b =? 3) eqn:Eb; simpl; lia.
Qed.

Lemma before_year_components a b c e :
  0 <= b <= 3 -> 0 <= c <= 24 -> 0 <= e <= 3 ->
  days_before_year (a * 400 + 1 + b * 100 + c * 4 + e)
  = a * 146097 + b * 36524 + c * 1461 + e * 365.
Proof.
  intros Hb Hc He. unfold days_before_year.
  replace (_ + e - 1) with (a * 400 + b * 100 + c * 4 + e) by lia. set (y := _ + e).
  assert (y / 4 = a * 100 + b * 25 + c) as -> by (unfold y; symmetry; apply (Z.div_unique_pos _ _ _ e); lia).
  assert (y / 100 = a * 4 + b) as -> by (unfold y; symmetry; apply (Z.div_unique_pos _ _ _ (c * 4 + e)); lia).
  assert (y / 400 = a) as -> by (unfold y; symmetry; apply (Z.div_unique_pos _ _ _ (b * 100 + c * 4 + e)); lia).
  unfold y. lia.
Qed.

Lemma ord2ymd_spec n :
  1 <= n ->
  let '(y, m, d) := ord2ymd n in
  1 <= y /\ 1 <= m <= 12 /\ 1 <= d <= days_in_month (is_leap y) m /\ ymd2ord y m d = n
  /\ days_before_year y < n <= days_before_year (y + 1).
Proof.
  intros Hn. unfold ord2ymd.
  set (n0 := n - 1). set (a := n0 / 146097). set (n1 := n0 mod 146097).
  set (b := n1 / 36524). set (n2 := n1 mod 36524).
  set (c := n2 / 1461). set (n3 := n2 mod 1461).
  set (e := n3 / 365). set (n4 := n3 mod 365).
  pose proof (Z.div_mod n0 146097 ltac:(lia)) as H0. fold a n1 in H0.
  pose proof (Z.mod_pos_bound n0 146097 ltac:(lia)) as B0. fold n1 in B0.
  pose proof (Z.div_mod n1 36524 ltac:(lia)) as H1. fold b n2 in H1.
  pose proof (Z.mod_pos_bound n1 36524 ltac:(lia)) as B1. fold n2 in B1.
  pose proof (Z.div_mod n2 1461 ltac:(lia)) as H2. fold c n3 in H2.
  pose proof (Z.mod_pos_bound n2 1461 ltac:(lia)) as B2. fold n3 in B2.
  pose proof (Z.div_mod n3 365 ltac:(lia)) as H3. fold e n4 in H3.
  pose proof (Z.mod_pos_bound n3 365 ltac:(lia)) as B3. fold n4 in B3.
  clearbody a n1 b n2 c n3 e n4. 
  assert (0 <= a) by lia. assert (0 <= b <= 4) by lia. assert (0 <= c <= 24) by lia.
  assert (0 <= e <= 4) by lia.
  destruct ((e =? 4) || (b =? 4)) eqn:E.
  - (* December 31 of a leap year *)
    assert (exists a' b' c', 0 <= a' /\ 0 <= b' <= 3 /\ 0 <= c' <= 24
      /\ negb (c' =? 24) || (b' =? 3) = true
      /\ a * 400 + 1 + b * 100 + c * 4 + e - 1 = a' * 400 + 1 + b' * 100 + c' * 4 + 3
      /\ n0 = a' * 146097 + b' * 36524 + c' * 1461 + 3 * 365 + 365)
      as (a' & b' & c' & ? & ? & ? & Hl & -> & Hn0).
    { apply orb_true_iff in E as [E|E].
      - exists a, b, c. assert (e = 4) by lia. assert (n4 = 0) by lia. subst e.
        repeat split; try lia.
      - exists a, 3, 24. assert (b = 4) by lia. assert (n2 = 0) by lia.
        assert (c = 0) by lia. assert (n3 = 0) by lia. assert (e = 0) by lia.
        repeat split; try lia. }
    assert (is_leap (a' * 400 + 1 + b' * 100 + c' * 4 + 3) = true) as Hleap.
    { rewrite leap_components by lia. by rewrite Hl. }
    unfold ymd2ord. rewrite Hleap, before_year_components by lia.
    change (days_in_month true 12) with 31. change (days_before_month true 12) with 335.
    split; [lia|]. split; [lia|]. split; [lia|]. split; [lia|]. split; [lia|].
    unfold days_before_year in *.
    pose proof (before_year_components a' b' c' 3) as Hb. unfold days_before_year in Hb.
    apply orb_true_iff in Hl. Z.to_euclidean_division_equations. lia.
  - bool_hyps. assert (0 <= e <= 3) by lia. assert (0 <= b <= 3) by lia.
    rewrite <- (leap_components a) by lia.
    set (y := a * 400 + 1 + b * 100 + c * 4 + e).
    pose proof (month_day_ok (is_leap y) n4) as Hmd.
    destruct (month_day (is_leap y) n4) as [m d] eqn:Emd.
    unfold month_day_check in Hmd. rewrite Emd in Hmd.
    assert (0 <= n4 < (if is_leap y then 366 else 365)) as Hn4 by (destruct (is_leap y); lia).
    specialize (Hmd Hn4). bool_hyps.
    assert (days_before_year y = n0 - n4) as Hy.
    { unfold y. rewrite before_year_components by lia. lia. }
    assert (n0 < days_before_year (y + 1)) as Hnext.
    { pose proof (leap_components a b c e) as Hl. fold y in Hl. rewrite Hl in Hn4 by lia.
      revert Hy. unfold days_before_year, y.
      destruct (e =? 3) eqn:Ee, (c =? 24) eqn:Ec, (b =? 3) eqn:Eb; simpl in Hn4;
        Z.to_euclidean_division_equations; lia. }
    unfold ymd2ord. repeat split; lia.
Qed.

Lemma days_before_year_mono y y' : 1 <= y <= y' -> days_before_year y <= days_before_year y'.
Proof. unfold days_before_year. intros. Z.to_euclidean_division_equations. lia. Qed.


(** The instants of the years 1970 to 9999, the ones a cursor may carry. *)
Definition max_time : time := days 2932897.
Definition supported_time (t : time) : Prop := 0 <= t < max_time.

Lemma date_of_spec t :
  0 <= t ->
  let '(y, m, d) := date_of t in
  1 <= m <= 12 /\ 1 <= d <= days_in_month (is_leap y) m
  /\ ymd2ord y m d = t / day_us + epoch_ordinal
  /\ 1970 <= y /\ (t < max_time <-> y <= 9999).
Proof.
  intros Ht. unfold date_of.
  assert (0 <= t / day_us) by (apply Z.div_pos; unfold day_us, days, hours, seconds; lia).
  pose proof (ord2ymd_spec (t / day_us + epoch_ordinal)) as H1.
  destruct (ord2ymd _) as [[y m] d].
  destruct H1 as (Hy & Hm & Hd & Heq & Hlo & Hhi); [unfold epoch_ordinal; lia|].
  split; [done|]. split; [done|]. split; [done|].
  assert (t < max_time <-> t / day_us < 2932897) as ->.
  { unfold max_time, day_us, days, hours, seconds. Z.to_euclidean_division_equations. lia. }
  split.
  - destruct (decide (1970 <= y)); [done|].
    pose proof (days_before_year_mono (y + 1) 1970 ltac:(lia)) as Hmono.
    change (days_before_year 1970) with 719162 in Hmono. unfold epoch_ordinal in *. lia.
  - split; intros.
    + destruct (decide (y <= 9999)); [done|].
      pose proof (days_before_year_mono 10000 y ltac:(lia)) as Hmono.
      change (days_before_year 10000) with 3652059 in Hmono. unfold epoch_ordinal in *. lia.
    + pose proof (days_before_year_mono (y + 1) 10000 ltac:(lia)) as Hmono.
      change (days_before_year 10000) with 3652059 in Hmono. unfold epoch_ordinal in *. lia.
Qed.

Lemma digit_code d : 0 <= d < 10 -> is_digit (dec_digit d) = true /\ Z.of_N (code (dec_digit d)) = 48 + d.
Proof.
  intros Hd.
  assert (d = 0 \/ d = 1 \/ d = 2 \/ d = 3 \/ d = 4 \/ d = 5 \/ d = 6 \/ d = 7 \/ d = 8 \/ d = 9) as H
    by lia.
  repeat (destruct H as [->|H]; [done|]). by subst d.
Qed.

Lemma parse_num_app w1 w2 acc s :
  parse_num (w1 + w2) acc s =
    match parse_num w1 acc s with Some (a, s') => parse_num w2 a s' | None => None end.
Proof.
  revert acc s. induction w1 as [|w1 IH]; intros acc s; simpl; [by destruct s|].
  destruct s as [|c s]; [done|]. by destruct (is_digit c).
Qed.

Lemma parse_num_digits w n acc s :
  0 <= n < 10 ^ Z.of_nat w ->
  parse_num w acc (dec_digits w n +:+ s) = Some (acc * 10 ^ Z.of_nat w + n, s).
Proof.
  revert n acc s. induction w as [|w IH]; intros n acc s Hn.
  - change (10 ^ Z.of_nat 0) with 1 in *. replace (acc * 1 + n) with acc by lia. by destruct s.
  - rewrite Nat2Z.inj_succ, Z.pow_succ_r in * by lia. cbn [dec_digits]. rewrite str_app_assoc.
    replace (S w) with (w + 1)%nat by lia. rewrite parse_num_app, IH; cycle 1.
    { split; [apply Z.div_pos; lia|]. apply Z.div_lt_upper_bound; lia. }
    destruct (digit_code (n mod 10)) as [Hd Hc]; [apply Z.mod_pos_bound; lia|].
    cbn [parse_num]. rewrite str_app_cons. cbn [parse_num]. rewrite Hd, Hc.
    f_equal. f_equal. pose proof (Z.div_mod n 10). lia.
Qed.

Lemma expect_cons c s : expect c (String c s) = Some s.
Proof. simpl. by rewrite bool_decide_eq_true_2. Qed.

Lemma clock_parts us :
  0 <= us < day_us ->
  0 <= us / hours 1 < 24 /\ 0 <= us / seconds 60 mod 60 < 60 /\ 0 <= us / seconds 1 mod 60 < 60
  /\ 0 <= us mod 1000000 < 1000000
  /\ hours (us / hours 1) + seconds (us / seconds 60 mod 60 * 60) + seconds (us / seconds 1 mod 60)
     + us mod 1000000 = us.
Proof.
  unfold day_us, days, hours, seconds. intros. Z.to_euclidean_division_equations. lia.
Qed.

Lemma some_bind {A B} (a : A) (f : A -> option B) : Some a ≫= f = f a.
Proof. done. Qed.

Lemma expect_sep c s : expect c (String c "" +:+ s) = Some s.
Proof. exact (expect_cons c s). Qed.

Lemma parse_fraction_frac fr s :
  0 <= fr < 1000000 ->
  parse_fraction ((if fr =? 0 then "" else "." +:+ dec_digits 6 fr) +:+ String "+" s)
  = Some (fr, String "+" s).
Proof.
  intros Hfr. destruct (fr =? 0) eqn:E; [assert (fr = 0) as -> by lia; done|].
  rewrite str_app_assoc. apply (parse_num_digits 6 fr 0 (String "+" s)). lia.
Qed.

(** [fromisoformat] inverts [isoformat]. *)
Lemma fromisoformat_isoformat t :
  supported_time t -> fromisoformat_ext (isoformat t) = Some (mkIso t (Some 0)).
Proof.
  intros [Ht Hmax]. unfold fromisoformat_ext, isoformat.
  pose proof (date_of_spec t Ht) as Hd. destruct (date_of t) as [[y m] d].
  destruct Hd as (Hm & Hd & Heq & Hy & Hy'). apply Hy' in Hmax.
  assert (days_in_month (is_leap y) m <= 31) as H31
    by (unfold days_in_month; repeat case_match; lia).
  pose proof (Z.mod_pos_bound t day_us eq_refl) as Hus. set (us := t mod day_us) in *.
  destruct (clock_parts us Hus) as (H1 & H2 & H3 & H4 & H5).
  set (hh := us / hours 1) in *. set (mm := us / seconds 60 mod 60) in *.
  set (ss := us / seconds 1 mod 60) in *. set (fr := us mod 1000000) in *.
  assert (forall n s, 0 <= n < 100 -> parse_num 2 0 (dec_digits 2 n +:+ s) = Some (n, s))
    as Htwo by (intros; by apply (parse_num_digits 2)).
  assert (forall n s, 0 <= n < 10000 -> parse_num 4 0 (dec_digits 4 n +:+ s) = Some (n, s))
    as Hfour by (intros; by apply (parse_num_digits 4)).
  rewrite Hfour by lia. rewrite some_bind, expect_sep, some_bind.
  rewrite Htwo by lia. rewrite some_bind, expect_sep, some_bind.
  rewrite Htwo by lia. rewrite some_bind, expect_sep, some_bind.
  rewrite Htwo by lia. rewrite some_bind, expect_sep, some_bind.
  rewrite Htwo by lia. rewrite some_bind, expect_sep, some_bind.
  rewrite Htwo by lia. rewrite some_bind, parse_fraction_frac, some_bind by done.
  change (parse_offset "+00:00") with (Some (Some 0)). rewrite some_bind.
  rewrite !(proj2 (Z.leb_le _ _)), !(proj2 (Z.ltb_lt _ _)) by lia. cbn [andb].
  rewrite Heq. do 2 f_equal. pose proof (Z.div_mod t day_us). unfold day_us in *. lia.
Qed.
