(* ===== verification/Base64.v ===== *)
(** * Base64 ([base64.urlsafe_b64encode], [urlsafe_b64decode])

    The encoder with padding, and CPython's non-strict decoder
    ([binascii.a2b_base64]): characters outside the alphabet are skipped, padding
    ends the data, and a final group that is incomplete or misplaced padding is an
    error.  [urlsafe_b64decode] first maps [-] and [_] to [+] and [/]. *)

From S2P Require Import Prelude PyStr.
From Stdlib Require Import Ascii String.

(** The alphabet with the last two characters [c62] and [c63]. *)
Definition b64_char (c62 c63 : ascii) (v : N) : ascii :=
  if (v <? 26)%N then ascii_of_N (65 + v)
  else if (v <? 52)%N then ascii_of_N (97 + (v - 26))
  else if (v <? 62)%N then ascii_of_N (48 + (v - 52))
  else if (v =? 62)%N then c62 else c63.

Definition b64_value (c62 c63 : ascii) (c : ascii) : option N :=
  let n := code c in
  if ((65 <=? n) && (n <=? 90))%N then Some (n - 65)%N
  else if ((97 <=? n) && (n <=? 122))%N then Some (n - 97 + 26)%N
  else if ((48 <=? n) && (n <=? 57))%N then Some (n - 48 + 52)%N
  else if c =?= c62 then Some 62%N
  else if c =?= c63 then Some 63%N
  else None.

Definition pad : ascii := "=".

Fixpoint b64encode (c62 c63 : ascii) (s : string) : string :=
  let ch := b64_char c62 c63 in
  match s with
  | EmptyString => ""
  | String a EmptyString =>
      let x := code a in
      String (ch (x / 4)%N) (String (ch (x mod 4 * 16)%N) (String pad (String pad "")))
  | String a (String b EmptyString) =>
      let x := code a in let y := code b in
      String (ch (x / 4)%N) (String (ch (x mod 4 * 16 + y / 16)%N)
        (String (ch (y mod 16 * 4)%N) (String pad "")))
  | String a (String b (String c s')) =>
      let x := code a in let y := code b in let z := code c in
      String (ch (x / 4)%N) (String (ch (x mod 4 * 16 + y / 16)%N)
        (String (ch (y mod 16 * 4 + z / 64)%N) (String (ch (z mod 64)%N)
          (b64encode c62 c63 s'))))
  end.

(** The decoder's loop: [quad] is the position in the group of four, [left] the
    bits left over from the previous characters, [pads] the padding characters
    seen in a row.  [None] is [binascii.Error]. *)
Fixpoint a2b_go (quad : nat) (left : N) (pads : nat) (s : string) : option string :=
  match s with
  | EmptyString => match quad with O => Some "" | _ => None end
  | String c s' =>
      if c =?= pad then
        if ((2 <=? quad) && (4 <=? quad + S pads))%nat then Some ""
        else a2b_go quad left (if (2 <=? quad)%nat then S pads else pads) s'
      else match b64_value "+" "/" c with
      | None => a2b_go quad left pads s'
      | Some v =>
          let emit b rest := match rest with Some t => Some (String (ascii_of_N b) t) | None => None end in
          match quad with
          | O => a2b_go 1 v 0 s'
          | 1%nat => emit (left * 4 + v / 16)%N (a2b_go 2 (v mod 16) 0 s')
          | 2%nat => emit (left * 16 + v / 4)%N (a2b_go 3 (v mod 4) 0 s')
          | _ => emit (left * 64 + v)%N (a2b_go 0 0 0 s')
          end
      end
  end.

Definition a2b_base64 (s : string) : option string := a2b_go 0 0 0 s.

(** The translation of [urlsafe_b64decode]. *)
Definition urlsafe_back (c : ascii) : ascii :=
  if c =?= "-"%char then "+"%char else if c =?= "_"%char then "/"%char else c.

Definition urlsafe_b64encode (s : string) : string := b64encode "-" "_" s.
Definition urlsafe_b64decode (s : string) : option string :=
  a2b_base64 (str_map urlsafe_back s).
Definition b64decode (s : string) : option string := a2b_base64 s.

(** ** Round trip *)

Lemma string_ind3 (P : string -> Prop) :
  P "" -> (forall a, P (String a "")) -> (forall a b, P (String a (String b ""))) ->
  (forall a b c s, P s -> P (String a (String b (String c s)))) -> forall s, P s.
Proof.
  intros H0 H1 H2 H3.
  refine (fix go s := match s with
    | EmptyString => H0
    | String a EmptyString => H1 a
    | String a (String b EmptyString) => H2 a b
    | String a (String b (String c s')) => H3 a b c s' (go s')
    end).
Qed.

Definition b64_check (v : N) : bool :=
  negb (b64_char "+" "/" v =?= pad) && (b64_value "+" "/" (b64_char "+" "/" v) =?= Some v)
  && (urlsafe_back (b64_char "-" "_" v) =?= b64_char "+" "/" v)
  && is_ascii (b64_char "-" "_" v).

Lemma b64_char_value v :
  (v < 64)%N ->
  b64_char "+" "/" v <> pad /\ b64_value "+" "/" (b64_char "+" "/" v) = Some v
  /\ urlsafe_back (b64_char "-" "_" v) = b64_char "+" "/" v
  /\ is_ascii (b64_char "-" "_" v) = true.
Proof.
  intros Hv. assert (forallb b64_check (map N.of_nat (seq 0 64)) = true) as H
    by (vm_compute; reflexivity).
  rewrite forallb_forall in H. assert (b64_check v = true) as Hc.
  { apply H, in_map_iff. exists (N.to_nat v). rewrite in_seq. lia. }
  unfold b64_check in Hc. by bool_hyps.
Qed.

Ltac bits := zify; Z.to_euclidean_division_equations; lia.

(** The decoder's step on an encoded 6-bit value. *)
Lemma a2b_go_char quad left pads v s :
  (v < 64)%N ->
  a2b_go quad left pads (String (b64_char "+" "/" v) s) =
    let emit b rest := match rest with Some t => Some (String (ascii_of_N b) t) | None => None end in
    match quad with
    | O => a2b_go 1 v 0 s
    | 1%nat => emit (left * 4 + v / 16)%N (a2b_go 2 (v mod 16) 0 s)
    | 2%nat => emit (left * 16 + v / 4)%N (a2b_go 3 (v mod 4) 0 s)
    | _ => emit (left * 64 + v)%N (a2b_go 0 0 0 s)
    end.
Proof.
  intros Hv. destruct (b64_char_value v Hv) as (Hp & Hval & _). cbn [a2b_go].
  by rewrite bool_decide_eq_false_2, Hval.
Qed.

Lemma a2b_b64encode s : a2b_base64 (b64encode "+" "/" s) = Some s.
Proof.
  unfold a2b_base64. induction s as [|a|a b|a b c s IH] using string_ind3; [done|..].
  - pose proof (code_lt_256 a). cbn [b64encode].
    rewrite !a2b_go_char by (bits).
    cbn -[N.div N.modulo N.mul N.add]. do 2 f_equal.
    apply ascii_of_code. bits.
  - pose proof (code_lt_256 a). pose proof (code_lt_256 b). cbn [b64encode].
    rewrite !a2b_go_char by (bits).
    cbn -[N.div N.modulo N.mul N.add].
    do 2 f_equal; [|f_equal]; apply ascii_of_code; bits.
  - pose proof (code_lt_256 a). pose proof (code_lt_256 b). pose proof (code_lt_256 c). cbn [b64encode].
    rewrite !a2b_go_char by (bits).
    cbn zeta iota. rewrite IH.
    do 2 f_equal; [|f_equal; [|f_equal]]; apply ascii_of_code; bits.
Qed.

Lemma str_map_urlsafe s : str_map urlsafe_back (b64encode "-" "_" s) = b64encode "+" "/" s.
Proof.
  assert (forall v s, (v < 64)%N ->
    str_map urlsafe_back (String (b64_char "-" "_" v) s)
    = String (b64_char "+" "/" v) (str_map urlsafe_back s)) as Hc.
  { intros v s' Hv. cbn [str_map]. by destruct (b64_char_value v Hv) as (_ & _ & -> & _). }
  assert (forall s, str_map urlsafe_back (String pad s) = String pad (str_map urlsafe_back s)) as Hp
    by done.
  induction s as [|a|a b|a b c s IH] using string_ind3; [done|..];
    pose proof (code_lt_256 a); try pose proof (code_lt_256 b); try pose proof (code_lt_256 c);
    cbn [b64encode]; rewrite ?Hc by bits; rewrite ?Hp; [done..|]. by rewrite IH.
Qed.

Lemma urlsafe_roundtrip s : urlsafe_b64decode (urlsafe_b64encode s) = Some s.
Proof. unfold urlsafe_b64decode, urlsafe_b64encode. by rewrite str_map_urlsafe, a2b_b64encode. Qed.

Lemma b64encode_length c62 c63 s : (len (b64encode c62 c63 s) mod 4 = 0)%Z.
Proof.
  unfold len. induction s as [|a|a b|a b c s IH] using string_ind3; [done..|].
  cbn [b64encode String.length]. rewrite !Nat2Z.inj_succ. Z.to_euclidean_division_equations. lia.
Qed.

Lemma b64encode_ascii s : str_forallb is_ascii (b64encode "-" "_" s) = true.
Proof.
  assert (forall v, (v < 64)%N -> is_ascii (b64_char "-" "_" v) = true) as Hc.
  { intros v Hv. by destruct (b64_char_value v Hv) as (_ & _ & _ & ?). }
  induction s as [|a|a b|a b c s IH] using string_ind3; [done|..];
    pose proof (code_lt_256 a); try pose proof (code_lt_256 b); try pose proof (code_lt_256 c);
    cbn [b64encode str_forallb]; rewrite ?Hc by bits; [done..|]. by rewrite IH.
Qed.
