(* ===== verification/Config.v ===== *)
(** * Settings ([apps/api/app/core/config.py])

    The settings record with the defaults of the class, the two derived
    properties and the start-up validation. [os.path] depends on the working
    directory of the process, so the absolute-path function and the repository
    root are arguments. *)

From S2P Require Import Prelude PyStr.
From Stdlib Require Import Ascii String.

Definition DEFAULT_SECRET_ENCRYPTION_KEY : string :=
  "MDEyMzQ1Njc4OTAxMjM0NTY3ODkwMTIzNDU2Nzg5MDE=".

Record Settings := mkSettings {
  ENVIRONMENT : string;
  OUTBOX_DISPATCHER_ENABLED : bool;
  OUTBOX_BATCH_SIZE : Z;
  OUTBOX_MAX_RETRIES : Z;
  SECRET_ENCRYPTION_KEY : string;
  DEFAULT_JOB_TIMEOUT_SECONDS : Z;
  DEFAULT_BUILD_TIMEOUT_SECONDS : Z;
  DEFAULT_WORKSPACE_JOB_CONCURRENCY : Z;
  DEFAULT_WORKSPACE_SERVICE_CAP : Z;
  DEFAULT_WORKSPACE_BUILD_CONCURRENCY : Z;
  DEFAULT_WORKSPACE_PENDING_OPERATIONS : Z;
  RATE_LIMIT_REQUESTS_PER_MINUTE : Z;
  REDIS_FAIL_CLOSED : bool;
  APPROVED_IMAGE_REGISTRIES : list string;
  APPROVED_REPOSITORY_HOSTS : list string;
  OIDC_ISSUER_URL : string;
  OIDC_JWKS_URL : option string;
  OIDC_AUDIENCE : option string;
  OIDC_ALGORITHMS : list string;
  ARTIFACTS_DIR : option string }.

(** The field defaults: [Settings()] with no environment variable set. *)
Definition default_settings : Settings := {|
  ENVIRONMENT := "production";
  OUTBOX_DISPATCHER_ENABLED := true;
  OUTBOX_BATCH_SIZE := 100;
  OUTBOX_MAX_RETRIES := 5;
  SECRET_ENCRYPTION_KEY := DEFAULT_SECRET_ENCRYPTION_KEY;
  DEFAULT_JOB_TIMEOUT_SECONDS := 600;
  DEFAULT_BUILD_TIMEOUT_SECONDS := 900;
  DEFAULT_WORKSPACE_JOB_CONCURRENCY := 2;
  DEFAULT_WORKSPACE_SERVICE_CAP := 2;
  DEFAULT_WORKSPACE_BUILD_CONCURRENCY := 1;
  DEFAULT_WORKSPACE_PENDING_OPERATIONS := 100;
  RATE_LIMIT_REQUESTS_PER_MINUTE := 120;
  REDIS_FAIL_CLOSED := false;
  APPROVED_IMAGE_REGISTRIES :=
    ["registry.example.com/"; "ghcr.io/hami9/"; "docker.io/library/"; "quay.io/"; "gcr.io/";
     "sha256:"];
  APPROVED_REPOSITORY_HOSTS := ["github.com"; "gitlab.com"; "bitbucket.org"];
  OIDC_ISSUER_URL := "http://localhost:8080/realms/hamicloud";
  OIDC_JWKS_URL := None;
  OIDC_AUDIENCE := None;
  OIDC_ALGORITHMS := ["RS256"; "ES256"];
  ARTIFACTS_DIR := None |}.

Definition with_environment (env : string) (c : Settings) : Settings := {|
  ENVIRONMENT := env;
  OUTBOX_DISPATCHER_ENABLED := OUTBOX_DISPATCHER_ENABLED c;
  OUTBOX_BATCH_SIZE := OUTBOX_BATCH_SIZE c;
  OUTBOX_MAX_RETRIES := OUTBOX_MAX_RETRIES c;
  SECRET_ENCRYPTION_KEY := SECRET_ENCRYPTION_KEY c;
  DEFAULT_JOB_TIMEOUT_SECONDS := DEFAULT_JOB_TIMEOUT_SECONDS c;
  DEFAULT_BUILD_TIMEOUT_SECONDS := DEFAULT_BUILD_TIMEOUT_SECONDS c;
  DEFAULT_WORKSPACE_JOB_CONCURRENCY := DEFAULT_WORKSPACE_JOB_CONCURRENCY c;
  DEFAULT_WORKSPACE_SERVICE_CAP := DEFAULT_WORKSPACE_SERVICE_CAP c;
  DEFAULT_WORKSPACE_BUILD_CONCURRENCY := DEFAULT_WORKSPACE_BUILD_CONCURRENCY c;
  DEFAULT_WORKSPACE_PENDING_OPERATIONS := DEFAULT_WORKSPACE_PENDING_OPERATIONS c;
  RATE_LIMIT_REQUESTS_PER_MINUTE := RATE_LIMIT_REQUESTS_PER_MINUTE c;
  REDIS_FAIL_CLOSED := REDIS_FAIL_CLOSED c;
  APPROVED_IMAGE_REGISTRIES := APPROVED_IMAGE_REGISTRIES c;
  APPROVED_REPOSITORY_HOSTS := APPROVED_REPOSITORY_HOSTS c;
  OIDC_ISSUER_URL := OIDC_ISSUER_URL c;
  OIDC_JWKS_URL := OIDC_JWKS_URL c;
  OIDC_AUDIENCE := OIDC_AUDIENCE c;
  OIDC_ALGORITHMS := OIDC_ALGORITHMS c;
  ARTIFACTS_DIR := ARTIFACTS_DIR c |}.

(** Truthiness of an [Optional[str]]. *)
Definition opt_truthy (o : option string) : bool :=
  match o with Some s => truthy s | None => false end.

Definition is_development (c : Settings) : bool := ENVIRONMENT c =?= "development".

(** [effective_jwks_url]. *)
Definition effective_jwks_url (c : Settings) : string :=
  match OIDC_JWKS_URL c with
  | Some u => if truthy u then u
              else rstrip_by (fun a => a =?= "/"%char) (OIDC_ISSUER_URL c)
                   +:+ "/protocol/openid-connect/certs"
  | None => rstrip_by (fun a => a =?= "/"%char) (OIDC_ISSUER_URL c)
            +:+ "/protocol/openid-connect/certs"
  end.

Section Paths.
Context (abspath : string -> string) (repo_root : string).

(** [os.path.join(a, b)] for one more component. *)
Definition path_join (a b : string) : string :=
  if startswith b "/" then b
  else if (a =?= "") || endswith a "/" then a +:+ b
  else a +:+ "/" +:+ b.

(** [effective_artifacts_dir]. *)
Definition effective_artifacts_dir (c : Settings) : string :=
  if opt_truthy (ARTIFACTS_DIR c)
  then abspath (default "" (ARTIFACTS_DIR c))
  else if is_development c then path_join (path_join repo_root "var") "artifacts"
  else "".

(** [validate_runtime_environment]: the error message of the first check that
    fails, [None] when the service may start. *)
Definition validate_runtime_environment (c : Settings) : option string :=
  if negb (is_development c) then
    if negb (opt_truthy (OIDC_AUDIENCE c)) then
      Some "OIDC_AUDIENCE is required when ENVIRONMENT is not development"
    else if negb (truthy (effective_artifacts_dir c)) then
      Some "ARTIFACTS_DIR is required when ENVIRONMENT is not development"
    else if SECRET_ENCRYPTION_KEY c =?= DEFAULT_SECRET_ENCRYPTION_KEY then
      Some "SECRET_ENCRYPTION_KEY must be changed from the default when ENVIRONMENT is not development"
    else None
  else None.

(** A service outside development starts exactly when its audience, its
    artifact directory and a non-default key are configured. *)
Lemma validate_runtime_environment_none c :
  validate_runtime_environment c = None <->
  is_development c = true
  \/ (opt_truthy (OIDC_AUDIENCE c) = true
      /\ truthy (effective_artifacts_dir c) = true
      /\ SECRET_ENCRYPTION_KEY c <> DEFAULT_SECRET_ENCRYPTION_KEY).
Proof.
  unfold validate_runtime_environment.
  destruct (is_development c); simpl; [naive_solver|].
  destruct (opt_truthy _), (truthy (effective_artifacts_dir c)); simpl; try naive_solver.
  case_bool_decide; naive_solver.
Qed.
End Paths.
