(* ===== verification/Session.v ===== *)
(** * Database sessions ([apps/api/app/db/session.py], [core/db_errors.py])

    A request handler runs in one [AsyncSession]: an error monad over the state
    of its transaction.  The session keeps the database other transactions see
    ([committed]), the statements it has executed ([writes]) and the
    unit-of-work changes it has staged but not flushed ([staged]; the factory
    sets [autoflush=False], so a query never sees them).  A query reads the
    committed rows with the session's own writes on top (read committed).

    Other transactions are modelled where they can interfere: [rivals_lock] is
    what they commit before a [SELECT ... FOR UPDATE] or an advisory lock is
    granted, [rivals_commit] what they commit before this session's [COMMIT]
    takes effect.  Both are arbitrary functions on the database; the identity
    gives the sequential behaviour.  Flushing checks the unique and primary-key
    constraints and the VARCHAR widths of the schema. *)

From S2P Require Import Prelude PyStr Uuid Json Models Config.
From Stdlib Require Import String.

(** ** Exceptions *)

Inductive exn :=
| HTTPException (status_code : Z) (detail : json) (headers : list (string * string))
| RequestValidationError (msg : string)
| IntegrityError (constraint_name : option string)
| DataError (* a value too long for its VARCHAR column *)
| MultipleResultsFound
| NoResultFound
| KeyError (k : string)
| ValueError (msg : string)
| TypeError
| AttributeError
| ValidationError. (* a response the handler cannot build *)

Definition http_error (status : Z) (msg : string) : exn := HTTPException status (JStr msg) [].

Inductive outcome (A : Type) := Ok (a : A) | Err (x : exn).
Arguments Ok {A} a.
Arguments Err {A} x.

(** ** The environment of a request *)

Record Env := mkEnv {
  settings : Settings;
  clock : nat -> time;              (* successive readings of the clock *)
  entropy : nat -> N;               (* successive [uuid4] draws *)
  nonces : nat -> string;           (* successive [os.urandom(12)] draws *)
  sha256_hex : string -> string;    (* [hashlib.sha256(.).hexdigest()] *)
  redis : option (string -> option Z);
    (* the Redis client: [None] when absent, otherwise the result of the
       INCR + EXPIRE pipeline on a key, [None] when it raises *)
  trace_context : list (string * string);  (* [get_trace_context()] *)
  rivals_lock : Db -> Db;
  rivals_commit : Db -> Db }.

(** ** Constraints of the schema *)

Definition unique {A K} `{EqDecision K} (key : A -> K) (l : list A) : bool :=
  bool_decide (NoDup (map key l)).

(** The unique and primary-key constraints, in the order they are reported. *)
Definition constraints (db : Db) : list (string * bool) :=
  [ ("workspaces_pkey", unique ws_id (workspaces db));
    ("uq_workspace_slug", unique ws_slug (workspaces db));
    ("workspace_memberships_pkey", unique wm_id (memberships db));
    ("uq_workspace_membership_user",
       unique (fun m => (wm_workspace_id m, wm_user_subject m)) (memberships db));
    ("applications_pkey", unique app_id (applications db));
    ("uq_application_workspace_slug",
       unique (fun a => (app_workspace_id a, app_slug a)) (applications db));
    ("releases_pkey", unique rel_id (releases db));
    ("uq_release_app_number",
       unique (fun r => (rel_application_id r, rel_number r)) (releases db));
    ("jobs_pkey", unique job_id (jobs db));
    ("outbox_events_pkey", unique ob_id (outbox db));
    ("uq_outbox_event_id", unique ob_event_id (outbox db));
    ("quota_reservations_pkey", unique qr_id (reservations db));
    ("idempotency_records_pkey", unique ir_id (idempotency db));
    ("uq_idempotency_workspace_key",
       unique (fun r => (ir_workspace_id r, ir_endpoint r, ir_key r)) (idempotency db));
    ("secret_references_pkey", unique sec_id (secrets db));
    ("uq_secret_reference_workspace_name",
       unique (fun s => (sec_workspace_id s, sec_name s)) (secrets db));
    ("audit_events_pkey", unique aud_id (audit_events db));
    ("repositories_pkey", unique repo_id (repositories db));
    ("uq_repository_workspace_name",
       unique (fun r => (repo_workspace_id r, repo_name r)) (repositories db));
    ("webhook_deliveries_pkey", unique wd_id (deliveries db));
    ("uq_webhook_deliveries_repo_delivery",
       unique (fun d => (wd_repository_id d, wd_delivery_id d)) (deliveries db)) ].

Fixpoint first_violated (cs : list (string * bool)) : option string :=
  match cs with
  | [] => None
  | (name, ok) :: cs' => if ok then first_violated cs' else Some name
  end.

Definition violated (db : Db) : option string := first_violated (constraints db).

(** VARCHAR(n): at most [n] characters. *)
Definition fits (n : Z) (s : string) : bool := (len s <=? n)%Z.
Definition fits_opt (n : Z) (o : option string) : bool :=
  match o with Some s => fits n s | None => true end.

Definition widths (db : Db) : bool :=
  forallb (fun w => fits 100 (ws_name w) && fits 100 (ws_slug w)) (workspaces db)
  && forallb (fun m => fits 255 (wm_user_subject m)) (memberships db)
  && forallb (fun a => fits 100 (app_name a) && fits 100 (app_slug a)
       && fits 255 (app_dockerfile_path a) && fits 255 (app_context_dir a)
       && fits_opt 100 (app_git_branch a)) (applications db)
  && forallb (fun r => fits_opt 40 (rel_commit_sha r) && fits 255 (rel_image_digest r)
       && fits_opt 500 (rel_status_reason r) && fits_opt 100 (rel_git_ref r)
       && fits_opt 255 (rel_commit_message r)) (releases db)
  && forallb (fun j => fits 100 (job_name j) && fits 255 (job_image_digest j)) (jobs db)
  && forallb (fun o => fits 255 (ob_topic o)) (outbox db)
  && forallb (fun r => fits 255 (ir_endpoint r) && fits 255 (ir_key r)
       && fits 64 (ir_request_hash r)) (idempotency db)
  && forallb (fun s => fits 100 (sec_name s)) (secrets db)
  && forallb (fun a => fits 255 (aud_actor_subject a) && fits 100 (aud_action a)
       && fits 50 (aud_target_type a) && fits 100 (aud_target_id a)
       && fits 50 (aud_result a)) (audit_events db)
  && forallb (fun r => fits 100 (repo_name r) && fits 255 (repo_url r)
       && fits 255 (repo_webhook_secret r) && fits 100 (repo_default_branch r)) (repositories db)
  && forallb (fun d => fits 100 (wd_delivery_id d) && fits 50 (wd_event_type d)
       && fits 64 (wd_payload_hash d) && fits 50 (wd_status d)) (deliveries db).

(** ** Sessions *)

Record Sess := mkSess {
  committed : Db;
  writes : list (Db -> Db);
  staged : list (time -> Db -> Db);
  ticks : nat;
  draws : nat }.

Definition apply_all (ws : list (Db -> Db)) (db : Db) : Db := foldl (fun d w => w d) db ws.

(** What a query of the session sees. *)
Definition view (s : Sess) : Db := apply_all (writes s) (committed s).

#[global] Arguments apply_all : simpl never.
#[global] Arguments view : simpl never.

Definition open_session (db : Db) : Sess := mkSess db [] [] 0 0.

(** ** The monad *)

Definition M (A : Type) : Type := Env -> Sess -> outcome A * Sess.

#[export] Instance M_ret : MRet M := fun A a _ s => (Ok a, s).
#[export] Instance M_bind : MBind M := fun A B f m e s =>
  match m e s with
  | (Ok a, s') => f a e s'
  | (Err x, s') => (Err x, s')
  end.

Definition raise {A} (x : exn) : M A := fun _ s => (Err x, s).
Definition ask : M Env := fun e s => (Ok e, s).

(** [if c: raise x]. *)
Definition guard (c : bool) (x : exn) : M unit := if c then raise x else mret tt.

(** [datetime.now(timezone.utc)]. *)
Definition datetime_now : M time := fun e s =>
  (Ok (clock e (ticks s)),
   mkSess (committed s) (writes s) (staged s) (S (ticks s)) (draws s)).

(** [uuid.uuid4()]: 128 random bits. *)
Definition uuid4 : M uuid := fun e s =>
  (Ok (entropy e (draws s) mod 2 ^ 128)%N,
   mkSess (committed s) (writes s) (staged s) (ticks s) (S (draws s))).

(** [db.execute(select(...))]. *)
Definition query {A} (f : Db -> A) : M A := fun _ s => (Ok (f (view s)), s).

(** [db.execute(update(...))] or [delete(...)]: runs at once. *)
Definition execute (w : Db -> Db) : M unit := fun _ s =>
  (Ok tt, mkSess (committed s) (writes s ++ [w]) (staged s) (ticks s) (draws s)).

(** [db.add], [db.delete] and attribute assignments: staged until the flush,
    which gives the timestamp of the column defaults. *)
Definition stage (w : time -> Db -> Db) : M unit := fun _ s =>
  (Ok tt, mkSess (committed s) (writes s) (staged s ++ [w]) (ticks s) (draws s)).

Definition flush : M unit := fun e s =>
  let t := clock e (ticks s) in
  let s' := mkSess (committed s) (writes s ++ map (fun w => w t) (staged s)) []
              (S (ticks s)) (draws s) in
  if negb (widths (view s')) then (Err DataError, s)
  else match violated (view s') with
       | Some c => (Err (IntegrityError (Some c)), s)
       | None => (Ok tt, s')
       end.

(** Other transactions commit. *)
Definition interfere (f : Env -> Db -> Db) : M unit := fun e s =>
  (Ok tt, mkSess (f e (committed s)) (writes s) (staged s) (ticks s) (draws s)).

(** [select(...).with_for_update()] and [pg_advisory_xact_lock]: the lock is
    granted once the transactions that held it have finished. *)
Definition lock : M unit := interfere rivals_lock.

(** The end of the transaction: its writes become visible. *)
Definition end_tx : M unit := fun _ s =>
  (Ok tt, mkSess (view s) [] [] (ticks s) (draws s)).

Definition commit : M unit := interfere rivals_commit ;; flush ;; end_tx.

Definition rollback : M unit := fun _ s =>
  (Ok tt, mkSess (committed s) [] [] (ticks s) (draws s)).

(** [try: m except IntegrityError as exc: h exc]. *)
Definition catch_integrity {A} (m : M A) (h : option string -> M A) : M A := fun e s =>
  match m e s with
  | (Err (IntegrityError c), s') => h c e s'
  | r => r
  end.

(** [result.scalar_one_or_none()] and [scalar_one()]. *)
Definition scalar_one_or_none {A} (rows : list A) : M (option A) :=
  match rows with
  | [] => mret None
  | [r] => mret (Some r)
  | _ => raise MultipleResultsFound
  end.

Definition scalar_one {A} (rows : list A) : M A :=
  match rows with
  | [] => raise NoResultFound
  | [r] => mret r
  | _ => raise MultipleResultsFound
  end.

(** [select(T).where(P)] followed by [scalar_one_or_none()]. *)
Definition select_one {A} (table : Db -> list A) (P : A -> bool) : M (option A) :=
  rows ← query (fun db => where_ P (table db));
  scalar_one_or_none rows.

(** [x = ...; if not x: raise exc]. *)
Definition or_raise {A} (o : option A) (x : exn) : M A :=
  match o with Some a => mret a | None => raise x end.

(** ** Running a handler

    [get_db]: an exception rolls the session back and propagates; closing the
    session discards what was not committed. *)
Definition run {A} (m : M A) (e : Env) (db : Db) : outcome A * Db :=
  let r := m e (open_session db) in (r.1, committed r.2).

(** ** [core/db_errors.py] *)

(** [violated_constraint(exc)]: the constraint the driver names. *)
Definition violated_constraint (c : option string) : option string :=
  match c with Some n => if truthy n then Some n else None | None => None end.

(** [unexpected_integrity_error]: the 500 of an unmapped violation. *)
Definition unexpected_integrity_error : exn :=
  http_error 500 "Database integrity constraint violation".

(** * Reasoning about handlers *)

Lemma bind_ok {A B} (m : M A) (f : A -> M B) e s a s' :
  m e s = (Ok a, s') -> (m ≫= f) e s = f a e s'.
Proof. intros H. unfold mbind, M_bind. by rewrite H. Qed.

Lemma bind_err {A B} (m : M A) (f : A -> M B) e s x s' :
  m e s = (Err x, s') -> (m ≫= f) e s = (Err x, s').
Proof. intros H. unfold mbind, M_bind. by rewrite H. Qed.

(** The primitive operations, as equations for symbolic execution. *)

Definition ticked (n : nat) (s : Sess) : Sess :=
  mkSess (committed s) (writes s) (staged s) (n + ticks s) (draws s).
Definition drawn (n : nat) (s : Sess) : Sess :=
  mkSess (committed s) (writes s) (staged s) (ticks s) (n + draws s).
Definition staging (w : time -> Db -> Db) (s : Sess) : Sess :=
  mkSess (committed s) (writes s) (staged s ++ [w]) (ticks s) (draws s).
Definition executed (w : Db -> Db) (s : Sess) : Sess :=
  mkSess (committed s) (writes s ++ [w]) (staged s) (ticks s) (draws s).
Definition locked (e : Env) (s : Sess) : Sess :=
  mkSess (rivals_lock e (committed s)) (writes s) (staged s) (ticks s) (draws s).

Lemma now_spec e s : datetime_now e s = (Ok (clock e (ticks s)), ticked 1 s).
Proof. done. Qed.
Lemma uuid4_spec e s : uuid4 e s = (Ok (entropy e (draws s) mod 2 ^ 128)%N, drawn 1 s).
Proof. done. Qed.
Lemma query_spec {A} (f : Db -> A) e s : query f e s = (Ok (f (view s)), s).
Proof. done. Qed.
Lemma stage_spec w e s : stage w e s = (Ok tt, staging w s).
Proof. done. Qed.
Lemma execute_spec w e s : execute w e s = (Ok tt, executed w s).
Proof. done. Qed.
Lemma lock_spec e s : lock e s = (Ok tt, locked e s).
Proof. done. Qed.
Lemma ret_spec {A} (a : A) e s : mret (M := M) a e s = (Ok a, s).
Proof. done. Qed.
Lemma raise_spec {A} x e s : @raise A x e s = (Err x, s).
Proof. done. Qed.
Lemma ask_spec e s : ask e s = (Ok e, s).
Proof. done. Qed.

Lemma view_ticked n s : view (ticked n s) = view s.
Proof. done. Qed.
Lemma view_drawn n s : view (drawn n s) = view s.
Proof. done. Qed.
Lemma view_staging w s : view (staging w s) = view s.
Proof. done. Qed.
Lemma view_open db : view (open_session db) = db.
Proof. done. Qed.
Lemma apply_all_app ws ws' db : apply_all (ws ++ ws') db = apply_all ws' (apply_all ws db).
Proof. unfold apply_all. by rewrite foldl_app. Qed.
Lemma view_executed w s : view (executed w s) = w (view s).
Proof. unfold view, executed. simpl. by rewrite apply_all_app. Qed.

#[export] Hint Rewrite now_spec uuid4_spec @query_spec stage_spec execute_spec lock_spec
  @ret_spec @raise_spec ask_spec view_ticked view_drawn view_staging view_executed : hami_eq.

(** What [select_one] returns on the rows it finds. *)
Definition one_or_none {A} (rows : list A) : outcome (option A) :=
  match rows with
  | [] => Ok None | [r] => Ok (Some r) | _ => Err MultipleResultsFound
  end.

Lemma select_one_spec {A} (t : Db -> list A) P e s :
  select_one t P e s = (one_or_none (where_ P (t (view s))), s).
Proof. unfold select_one, mbind, M_bind, query. by destruct (where_ P _) as [|? []]. Qed.

(** One step of symbolic execution of a bind. *)
Lemma bind_step {A B} (m : M A) (f : A -> M B) e s o s' :
  m e s = (o, s') ->
  (m ≫= f) e s = match o with Ok a => f a e s' | Err x => (Err x, s') end.
Proof. intros H. unfold mbind, M_bind. rewrite H. by destruct o. Qed.

(** A bind that succeeds is two successes. *)
Lemma bind_ok_inv {A B} (m : M A) (f : A -> M B) e s b s' :
  (m ≫= f) e s = (Ok b, s') ->
  exists a s1, m e s = (Ok a, s1) /\ f a e s1 = (Ok b, s').
Proof.
  unfold mbind, M_bind. destruct (m e s) as [[a|x] s1]; [|done]. by exists a, s1.
Qed.

(** A bind that fails fails on one side. *)
Lemma bind_err_inv {A B} (m : M A) (f : A -> M B) e s x s' :
  (m ≫= f) e s = (Err x, s') ->
  m e s = (Err x, s') \/ exists a s1, m e s = (Ok a, s1) /\ f a e s1 = (Err x, s').
Proof.
  unfold mbind, M_bind. destruct (m e s) as [[a|y] s1]; [|naive_solver].
  right. by exists a, s1.
Qed.

(** Split a successful run of a sequence of operations into its steps. *)
Ltac inv_bind H :=
  let a := fresh "a" in let s := fresh "s" in let Ha := fresh "Hstep" in
  apply bind_ok_inv in H; destruct H as (a & s & Ha & H).

(** ** Failure leaves no trace

    [rival_step e] is one interference by other transactions; the committed
    database of a failed request is reached by such steps alone. *)

Definition rival_step (e : Env) (d d' : Db) : Prop :=
  d' = rivals_lock e d \/ d' = rivals_commit e d.

(** The computation commits nothing of its own. *)
Class Keeps {A} (m : M A) :=
  keeps : forall e s, rtc (rival_step e) (committed s) (committed (m e s).2).

(** The computation commits nothing of its own when it raises. *)
Class Atomic {A} (m : M A) :=
  atomic : forall e s x s', m e s = (Err x, s') -> rtc (rival_step e) (committed s) (committed s').

#[export] Instance keeps_ret {A} (a : A) : Keeps (mret a).
Proof. intros e s. apply rtc_refl. Qed.
#[export] Instance keeps_raise {A} x : Keeps (@raise A x).
Proof. intros e s. apply rtc_refl. Qed.
#[export] Instance keeps_ask : Keeps ask.
Proof. intros e s. apply rtc_refl. Qed.
#[export] Instance keeps_guard c x : Keeps (guard c x).
Proof. unfold guard. destruct c; apply _. Qed.
#[export] Instance keeps_now : Keeps datetime_now.
Proof. intros e s. apply rtc_refl. Qed.
#[export] Instance keeps_uuid4 : Keeps uuid4.
Proof. intros e s. apply rtc_refl. Qed.
#[export] Instance keeps_query {A} (f : Db -> A) : Keeps (query f).
Proof. intros e s. apply rtc_refl. Qed.
#[export] Instance keeps_execute w : Keeps (execute w).
Proof. intros e s. apply rtc_refl. Qed.
#[export] Instance keeps_stage w : Keeps (stage w).
Proof. intros e s. apply rtc_refl. Qed.
#[export] Instance keeps_flush : Keeps flush.
Proof. intros e s. unfold flush. cases; apply rtc_refl. Qed.
#[export] Instance keeps_lock : Keeps lock.
Proof. intros e s. apply rtc_once. by left. Qed.
#[export] Instance keeps_rivals_commit : Keeps (interfere rivals_commit).
Proof. intros e s. apply rtc_once. by right. Qed.
#[export] Instance keeps_rollback : Keeps rollback.
Proof. intros e s. apply rtc_refl. Qed.
#[export] Instance keeps_scalar_one_or_none {A} (l : list A) : Keeps (scalar_one_or_none l).
Proof. destruct l as [|? []]; apply _. Qed.
#[export] Instance keeps_scalar_one {A} (l : list A) : Keeps (scalar_one l).
Proof. destruct l as [|? []]; apply _. Qed.
#[export] Instance keeps_or_raise {A} (o : option A) x : Keeps (or_raise o x).
Proof. destruct o; apply _. Qed.

#[export] Instance keeps_bind {A B} (m : M A) (f : A -> M B) :
  Keeps m -> (forall a, Keeps (f a)) -> Keeps (m ≫= f).
Proof.
  intros Hm Hf e s. specialize (Hm e s). unfold mbind, M_bind.
  destruct (m e s) as [[a|x] s1]; [|done].
  etrans; [exact Hm | apply Hf].
Qed.

#[export] Instance keeps_select_one {A} (t : Db -> list A) P : Keeps (select_one t P).
Proof. unfold select_one. apply _. Qed.

#[export] Instance keeps_catch_integrity {A} (m : M A) h :
  Keeps m -> (forall c, Keeps (h c)) -> Keeps (catch_integrity m h).
Proof.
  intros Hm Hh e s. unfold catch_integrity. specialize (Hm e s).
  destruct (m e s) as [[a|[]] s1]; try done. etrans; [exact Hm | apply Hh].
Qed.

#[export] Instance atomic_keeps {A} (m : M A) : Keeps m -> Atomic m.
Proof. intros Hm e s x s' H. specialize (Hm e s). by rewrite H in Hm. Qed.

Lemma atomic_bind {A B} (m : M A) (f : A -> M B) :
  Keeps m -> (forall a, Atomic (f a)) -> Atomic (m ≫= f).
Proof.
  intros Hm Hf e s x s' H. specialize (Hm e s). unfold mbind, M_bind in H.
  destruct (m e s) as [[a|y] s1] eqn:E; simpl in *.
  - etrans; [exact Hm | by eapply Hf].
  - by simplify_eq.
Qed.

(** A computation that cannot raise after the commit. *)
Lemma atomic_bind_ret {A B} (m : M A) (f : A -> B) : Atomic m -> Atomic (a ← m; mret (f a)).
Proof.
  intros Hm e s x s' H. unfold mbind, M_bind in H.
  destruct (m e s) as [[a|y] s1] eqn:E; simplify_eq. by eapply Hm.
Qed.

#[export] Instance atomic_commit : Atomic commit.
Proof.
  intros e s x s' H. unfold commit in H.
  apply bind_err_inv in H as [H|(? & s1 & H1 & H)].
  - done.
  - apply bind_err_inv in H as [H|(? & ? & _ & H)]; [|done].
    pose proof (keeps_rivals_commit e s) as Hi. rewrite H1 in Hi.
    pose proof (keeps_flush e s1) as Hk. rewrite H in Hk. etrans; [exact Hi | exact Hk].
Qed.

(** A request that fails leaves the interference of others only. *)
Lemma atomic_run {A} (m : M A) e db x db' :
  Atomic m -> run m e db = (Err x, db') -> rtc (rival_step e) db db'.
Proof.
  unfold run. intros Hm H. destruct (m e (open_session db)) as [o s'] eqn:E. simpl in H.
  simplify_eq. exact (Hm e _ _ _ E).
Qed.

Lemma atomic_catch_integrity {A} (m : M A) h :
  Atomic m -> (forall c, Atomic (h c)) -> Atomic (catch_integrity m h).
Proof.
  intros Hm Hh e s x s' H. unfold catch_integrity in H.
  destruct (m e s) as [[a|y] s1] eqn:E; [done|].
  destruct y; simplify_eq; try by eapply Hm.
  etrans; [by eapply Hm | by eapply Hh].
Qed.

(** ** Schema integrity is an invariant of every handler *)

(** Every unique and primary-key constraint holds and every value fits. *)
Definition integrity (db : Db) : Prop := violated db = None /\ widths db = true.

#[export] Instance integrity_dec db : Decision (integrity db).
Proof. unfold integrity. apply _. Defined.

Class Preserves {A} (I : Db -> Prop) (m : M A) :=
  preserves : forall e s,
    (forall d, I d -> I (rivals_lock e d)) -> (forall d, I d -> I (rivals_commit e d)) ->
    I (committed s) -> I (committed (m e s).2).

#[export] Instance preserves_keeps {A} I (m : M A) : Keeps m -> Preserves I m.
Proof.
  intros Hm e s Hl Hc HI. specialize (Hm e s).
  induction Hm as [|d1 d2 d3 [->| ->] _ IH]; [done| |]; apply IH; auto.
Qed.

#[export] Instance preserves_bind {A B} I (m : M A) (f : A -> M B) :
  Preserves I m -> (forall a, Preserves I (f a)) -> Preserves I (m ≫= f) | 2.
Proof.
  intros Hm Hf e s Hl Hc HI. specialize (Hm e s Hl Hc HI). unfold mbind, M_bind.
  destruct (m e s) as [[a|x] s1]; [|done]. by apply Hf.
Qed.

#[export] Instance preserves_catch_integrity {A} I (m : M A) h :
  Preserves I m -> (forall c, Preserves I (h c)) -> Preserves I (catch_integrity m h) | 2.
Proof.
  intros Hm Hh e s Hl Hc HI. unfold catch_integrity. specialize (Hm e s Hl Hc HI).
  destruct (m e s) as [[a|[]] s1]; try done. by apply Hh.
Qed.

(** The session a successful flush leaves. *)
Definition flushed (e : Env) (s : Sess) : Sess :=
  mkSess (committed s) (writes s ++ map (fun w => w (clock e (ticks s))) (staged s)) []
    (S (ticks s)) (draws s).

(** A flush succeeds exactly on a database with integrity. *)
Lemma flush_spec e s :
  flush e s =
    if negb (widths (view (flushed e s))) then (Err DataError, s)
    else match violated (view (flushed e s)) with
         | Some c => (Err (IntegrityError (Some c)), s)
         | None => (Ok tt, flushed e s)
         end.
Proof. done. Qed.

Lemma flush_ok e s a s' :
  flush e s = (Ok a, s') -> s' = flushed e s /\ integrity (view s').
Proof.
  rewrite flush_spec. unfold integrity.
  destruct (widths _) eqn:Hw; simpl; [|done].
  destruct (violated _) eqn:Hv; intros; by simplify_eq.
Qed.

(** The session [COMMIT] flushes: what the rivals committed has landed. *)
Definition after_rivals (e : Env) (s : Sess) : Sess :=
  mkSess (rivals_commit e (committed s)) (writes s) (staged s) (ticks s) (draws s).

(** [COMMIT] only succeeds on a database with integrity, and publishes the
    session's changes on top of what the rivals committed. *)
Lemma commit_spec e s :
  commit e s =
    match flush e (after_rivals e s) with
    | (Ok _, s') => (Ok tt, mkSess (view s') [] [] (ticks s') (draws s'))
    | (Err x, s') => (Err x, s')
    end.
Proof. done. Qed.

Definition published (e : Env) (s : Sess) : Db := view (flushed e (after_rivals e s)).

Lemma commit_ok e s a s' :
  commit e s = (Ok a, s') ->
  s' = mkSess (published e s) [] [] (S (ticks s)) (draws s) /\ integrity (published e s).
Proof.
  rewrite commit_spec. destruct (flush _ _) as [[[]|x] s1] eqn:E; [|done].
  apply flush_ok in E as [-> Hi]. intros H. by simplify_eq.
Qed.

(** ... and succeeds whenever the result has integrity. *)
Lemma commit_succeeds e s :
  integrity (published e s) ->
  commit e s = (Ok tt, mkSess (published e s) [] [] (S (ticks s)) (draws s)).
Proof.
  intros [Hv Hw]. rewrite commit_spec, flush_spec. unfold published in *.
  by rewrite Hw, Hv.
Qed.

#[export] Instance preserves_commit : Preserves integrity commit.
Proof.
  intros e s Hl Hc HI. destruct (commit e s) as [[[]|x] s'] eqn:E.
  - by apply commit_ok in E as [-> ?].
  - pose proof (atomic_commit e s x s' E) as Hr. simpl.
    induction Hr as [|d1 d2 d3 [->| ->] _ IH]; auto.
Qed.
