(* ===== verification/Sample.v ===== *)
(** * A concrete environment

    The instances the witnesses evaluate on: a clock of one second per reading, an
    entropy source that counts, no Redis in development mode, and no interfering
    transaction. *)

From S2P Require Import Prelude PyStr Uuid Json Models Config Session.
From Stdlib Require Import String.

Definition sample_start : time := 1700000000000000.

Definition sample_env : Env := {|
  settings := with_environment "development" default_settings;
  clock := fun n => sample_start + seconds (Z.of_nat n);
  entropy := fun n => (1000 + N.of_nat n)%N;
  nonces := fun n => hex_digits 12 (N.of_nat n);
  sha256_hex := fun s => hex_digits 64 (N.of_nat (String.length s));
  redis := None;
  trace_context := [];
  rivals_lock := fun d => d;
  rivals_commit := fun d => d |}.

(** A workspace with one member. *)
Definition sample_workspace : uuid := 7%N.
Definition sample_db (role : WorkspaceRole) : Db :=
  on_memberships (fun _ => [mkMembership 8%N sample_workspace "alice" role 0 0])
    (on_workspaces (fun _ => [mkWorkspace sample_workspace "Acme" "acme" 0 0]) empty_db).

(** The same environment with fresh randomness. *)
Definition reseeded (k : N) (e : Env) : Env :=
  mkEnv (settings e) (clock e) (fun n => (entropy e n + 1000 * k)%N) (nonces e) (sha256_hex e)
    (redis e) (trace_context e) (rivals_lock e) (rivals_commit e).
