(* ===== verification/StateMachine.v ===== *)
(** * The job state machine ([apps/api/app/core/state_machine.py])

    The transition table shared with the Go runtime, its validation function,
    and the step relation it induces on job states. *)

From S2P Require Import Prelude PyStr Models.
From Stdlib Require Import String.

Inductive JobTransitionError :=
| TerminalStateError (msg : string)
| InvalidStateTransitionError (msg : string).

(** [str(exc)]. *)
Definition transition_error_message (x : JobTransitionError) : string :=
  match x with TerminalStateError m => m | InvalidStateTransitionError m => m end.

Definition TERMINAL_JOB_STATES : list JobState := [SUCCEEDED; FAILED; CANCELLED].

Definition LEGAL_JOB_TRANSITIONS (s : JobState) : list JobState :=
  match s with
  | QUEUED => [ADMITTED; CANCEL_REQUESTED]
  | ADMITTED => [STARTING; CANCEL_REQUESTED]
  | STARTING => [RUNNING; RETRY_WAIT; FAILED; CANCEL_REQUESTED]
  | RUNNING => [SUCCEEDED; RETRY_WAIT; FAILED; CANCEL_REQUESTED; RECOVERY_PENDING]
  | RETRY_WAIT => [QUEUED; CANCEL_REQUESTED]
  | RECOVERY_PENDING => [RETRY_WAIT; FAILED; CANCEL_REQUESTED]
  | CANCEL_REQUESTED => [CANCELLED]
  | SUCCEEDED => []
  | FAILED => []
  | CANCELLED => []
  end.

Definition is_terminal_job_state (s : JobState) : bool := bool_decide (s ∈ TERMINAL_JOB_STATES).

(** [validate_job_transition]: [None] when the transition is legal, the
    exception it raises otherwise. *)
Definition validate_job_transition (current next : JobState) : option JobTransitionError :=
  if is_terminal_job_state current then
    Some (TerminalStateError
            ("Cannot transition out of terminal state '" +:+ job_state_value current +:+ "'"))
  else if bool_decide (next ∈ LEGAL_JOB_TRANSITIONS current) then None
  else Some (InvalidStateTransitionError
               ("Invalid job state transition from '" +:+ job_state_value current
                +:+ "' to '" +:+ job_state_value next +:+ "'")).

(** ** The step relation *)

(** One validated transition. *)
Definition job_step : relation JobState := fun s s' => validate_job_transition s s' = None.

#[export] Instance job_step_dec : RelDecision job_step.
Proof. intros s s'. unfold job_step. destruct (validate_job_transition s s'); [right|left]; done. Defined.

Lemma job_step_iff s s' : job_step s s' <-> s' ∈ LEGAL_JOB_TRANSITIONS s.
Proof.
  rewrite <- (bool_decide_eq_true (job_step s s')).
  rewrite <- (bool_decide_eq_true (s' ∈ LEGAL_JOB_TRANSITIONS s)).
  by destruct s, s'.
Qed.

(** Terminal states are exactly the states the table lets nothing leave. *)
Lemma is_terminal_iff s :
  is_terminal_job_state s = true <-> forall s', ~ job_step s s'.
Proof.
  setoid_rewrite job_step_iff. unfold is_terminal_job_state. rewrite bool_decide_eq_true.
  split.
  - intros Hs s'. destruct s; simpl; set_solver.
  - intros H. destruct s; simpl in *; try set_solver.
    all: exfalso; eapply H; left.
Qed.

(** From a set of states closed under the table, no run escapes. *)
Lemma closed_set_reach (C : list JobState) :
  forallb (fun s => forallb (fun s' => bool_decide (s' ∈ C)) (LEGAL_JOB_TRANSITIONS s)) C = true ->
  forall s s', rtc job_step s s' -> s ∈ C -> s' ∈ C.
Proof.
  intros HC s s' Hr. induction Hr as [|s1 s2 s3 Hstep _ IH]; [done|]. intros Hs. apply IH.
  apply job_step_iff in Hstep.
  rewrite forallb_forall in HC. apply list_elem_of_In in Hs. specialize (HC _ Hs). simpl in HC.
  rewrite forallb_forall in HC. apply list_elem_of_In in Hstep. specialize (HC _ Hstep).
  by apply bool_decide_eq_true in HC.
Qed.

(** A path whose every edge is legal, checked by computation. *)
Fixpoint legal_path (s : JobState) (path : list JobState) : bool :=
  match path with
  | [] => true
  | s' :: path' => bool_decide (s' ∈ LEGAL_JOB_TRANSITIONS s) && legal_path s' path'
  end.

Lemma legal_path_reach s path :
  legal_path s path = true -> rtc job_step s (List.last path s).
Proof.
  revert s. induction path as [|s' path IH]; intros s H; [apply rtc_refl|].
  cbn [legal_path] in H. bool_hyps.
  assert (List.last (s' :: path) s = List.last path s') as ->.
  { clear. revert s'. induction path as [|x p IHp]; intros; [done|]. simpl in *. by destruct p. }
  eapply rtc_l; [by apply job_step_iff | by apply IH].
Qed.

(** ** Properties *)

(** [validate_job_transition] is exact: it lets a transition through iff the
    table lists it; otherwise it raises [TerminalStateError] when the current
    state is terminal and [InvalidStateTransitionError] when it is not, naming
    the states in the message. *)
Theorem validate_job_transition_exact s s' :
  match validate_job_transition s s' with
  | None => s' ∈ LEGAL_JOB_TRANSITIONS s /\ ~ (s ∈ TERMINAL_JOB_STATES)
  | Some (TerminalStateError m) =>
      s ∈ TERMINAL_JOB_STATES
      /\ m = ("Cannot transition out of terminal state '" +:+ job_state_value s +:+ "'")
  | Some (InvalidStateTransitionError m) =>
      ~ (s ∈ TERMINAL_JOB_STATES) /\ ~ (s' ∈ LEGAL_JOB_TRANSITIONS s)
      /\ m = ("Invalid job state transition from '" +:+ job_state_value s +:+ "' to '"
             +:+ job_state_value s' +:+ "'")
  end.
Proof.
  unfold validate_job_transition, is_terminal_job_state.
  case_bool_decide; [done|]. by case_bool_decide.
Qed.

(** C17: A job that was asked to cancel can only end cancelled, and a terminal
    state is final: no sequence of validated transitions, however long, takes a
    job from [CANCEL_REQUESTED] anywhere but to [CANCELLED], nor out of
    [SUCCEEDED], [FAILED] or [CANCELLED]. *)
Theorem cancellation_is_final s s' :
  rtc job_step s s' ->
  (s = CANCEL_REQUESTED -> s' = CANCEL_REQUESTED \/ s' = CANCELLED)
  /\ (is_terminal_job_state s = true -> s' = s).
Proof.
  intros Hr. split.
  - intros ->. assert (s' ∈ [CANCEL_REQUESTED; CANCELLED]) as H.
    { eapply (closed_set_reach [CANCEL_REQUESTED; CANCELLED]); [done|exact Hr|left]. }
    set_solver.
  - intros Ht. inversion Hr as [|? s1 ? Hstep]; [done|].
    by apply (proj1 (is_terminal_iff s) Ht) in Hstep.
Qed.

Lemma cancellation_is_final_witness :
  rtc job_step CANCEL_REQUESTED CANCELLED /\ is_terminal_job_state CANCELLED = true
  /\ (CANCELLED = CANCEL_REQUESTED \/ CANCELLED = CANCELLED).
Proof.
  assert (rtc job_step CANCEL_REQUESTED CANCELLED) as H by (apply rtc_once; reflexivity).
  split; [exact H|]. split; [reflexivity|].
  exact (proj1 (cancellation_is_final _ _ H) eq_refl).
Defined.

(** No job is ever stuck: from every state some sequence of validated
    transitions reaches a terminal state, and from every live state other than
    [CANCEL_REQUESTED] cancellation can be requested at once. *)
Theorem every_job_can_finish s :
  (exists s', is_terminal_job_state s' = true /\ rtc job_step s s')
  /\ (is_terminal_job_state s = false -> s <> CANCEL_REQUESTED -> job_step s CANCEL_REQUESTED).
Proof.
  split.
  - assert (is_terminal_job_state s = true \/ job_step s CANCEL_REQUESTED
            \/ job_step s CANCELLED) as [H|[H|H]] by (destruct s; vm_compute; auto).
    + by exists s.
    + exists CANCELLED. split; [done|]. eapply rtc_l; [exact H|]. by apply rtc_once.
    + exists CANCELLED. split; [done|]. by apply rtc_once.
  - by destruct s.
Qed.

Lemma every_job_can_finish_witness : job_step RUNNING CANCEL_REQUESTED.
Proof. apply (proj2 (every_job_can_finish RUNNING)); [reflexivity|discriminate]. Defined.
