(* ===== verification/Auth.v ===== *)
(** * Authentication and authorization ([apps/api/app/core/auth.py])

    The caller's identity comes from an OIDC bearer token, or from the
    development header; a request on a workspace needs a membership with a
    sufficient role.  The JWKS client and PyJWT are third-party code and enter
    as the functions [get_signing_key] and [jwt_decode]. *)

From S2P Require Import Prelude PyStr Uuid Json Models Config Session.
From Stdlib Require Import Ascii String.

(** [Caller]; the optional claims keep whatever JSON value the token carries. *)
Record Caller := mkCaller { subject : string; email : json; username : json }.

(** The exceptions of PyJWT the code distinguishes; [OtherError] is any other. *)
Inductive jwt_exn :=
| ExpiredSignatureError | InvalidIssuerError | InvalidAudienceError | PyJWTError | OtherError.

Inductive jwt_result (A : Type) := JwtOk (a : A) | JwtErr (x : jwt_exn).
Arguments JwtOk {A} a.
Arguments JwtErr {A} x.

Definition bearer : list (string * string) := [("WWW-Authenticate", "Bearer")].
Definition unauthorized (msg : string) (header : string) : exn :=
  HTTPException 401 (JStr msg) [("WWW-Authenticate", header)].

(** A double-quoted parameter of the WWW-Authenticate header. *)
Definition quoted (k v : string) : string :=
  k +:+ "=" +:+ String quote (v +:+ String quote "").

Section Tokens.
Context {Key : Type}.
Context (get_signing_key : string -> jwt_result Key).
(** token, key, algorithms, issuer, and the audience to verify ([None]: the
    audience is not verified). *)
Context (jwt_decode : string -> Key -> list string -> string -> option string ->
                      jwt_result (list (string * json))).
(** [str(v)] on a claim that is a list or a dictionary. *)
Context (py_repr : json -> string).

Definition jwt_error (x : jwt_exn) : exn :=
  match x with
  | ExpiredSignatureError =>
      unauthorized "Token has expired"
        ("Bearer " +:+ quoted "error" "invalid_token" +:+ ", "
         +:+ quoted "error_description" "The access token expired")
  | InvalidIssuerError =>
      unauthorized "Invalid token issuer"
        ("Bearer " +:+ quoted "error" "invalid_token" +:+ ", "
         +:+ quoted "error_description" "Invalid issuer")
  | InvalidAudienceError =>
      unauthorized "Invalid token audience"
        ("Bearer " +:+ quoted "error" "invalid_token" +:+ ", "
         +:+ quoted "error_description" "Invalid audience")
  | PyJWTError =>
      unauthorized "Invalid token"
        ("Bearer " +:+ quoted "error" "invalid_token" +:+ ", "
         +:+ quoted "error_description" "Invalid access token")
  | OtherError => unauthorized "Unable to verify token" "Bearer"
  end.

(** [decode_oidc_token]. *)
Definition decode_oidc_token (c : Settings) (token : string)
    : outcome (list (string * json)) :=
  match get_signing_key token with
  | JwtErr x => Err (jwt_error x)
  | JwtOk key =>
      let decode aud :=
        match jwt_decode token key (OIDC_ALGORITHMS c) (OIDC_ISSUER_URL c) aud with
        | JwtErr x => Err (jwt_error x)
        | JwtOk payload => Ok payload
        end in
      if opt_truthy (OIDC_AUDIENCE c) then decode (OIDC_AUDIENCE c)
      else if is_development c then decode None
      else Err (unauthorized "OIDC_AUDIENCE is required in non-development environment" "Bearer")
  end.

(** [str(sub)]. *)
Definition py_str (v : json) : string :=
  match v with
  | JStr s => s
  | JInt z => pretty z
  | JBool true => "True" | JBool false => "False"
  | JNull => "None"
  | _ => py_repr v
  end.

(** [parts = authorization.split(" ", 1)] and the test on it: the token of a
    well-formed bearer header. *)
Definition bearer_token (authorization : string) : option string :=
  match split1 " "%char authorization with
  | Some (scheme, rest) =>
      if (lower scheme =?= "bearer") && truthy (strip rest) then Some (strip rest) else None
  | None => None
  end.

(** [get_caller]. *)
Definition get_caller (c : Settings) (authorization x_dev_subject : option string)
    : outcome Caller :=
  if opt_truthy authorization then
    match bearer_token (default "" authorization) with
    | Some token =>
        match decode_oidc_token c token with
        | Err x => Err x
        | Ok payload =>
            match dict_get "sub" payload with
            | Some sub =>
                if json_truthy sub then
                  Ok (mkCaller (py_str sub) (dict_get_or "email" JNull payload)
                        (dict_get_or "preferred_username" JNull payload))
                else Err (unauthorized "Token missing subject claim" "Bearer")
            | None => Err (unauthorized "Token missing subject claim" "Bearer")
            end
        end
    | None => Err (unauthorized "Invalid authorization header format" "Bearer")
    end
  else
    let subject := if opt_truthy x_dev_subject then strip (default "" x_dev_subject) else "" in
    if is_development c && truthy subject then Ok (mkCaller subject JNull JNull)
    else Err (unauthorized "Authentication required" "Bearer").

(** Outside development a caller is only ever a verified token's subject: the
    development header never authenticates, and the token was decoded with
    the configured audience. *)
Lemma get_caller_production c authorization x_dev caller :
  is_development c = false ->
  get_caller c authorization x_dev = Ok caller ->
  exists token key payload sub,
    bearer_token (default "" authorization) = Some token
    /\ get_signing_key token = JwtOk key
    /\ opt_truthy (OIDC_AUDIENCE c) = true
    /\ jwt_decode token key (OIDC_ALGORITHMS c) (OIDC_ISSUER_URL c) (OIDC_AUDIENCE c)
         = JwtOk payload
    /\ dict_get "sub" payload = Some sub /\ json_truthy sub = true
    /\ subject caller = py_str sub.
Proof.
  intros Hdev. unfold get_caller, decode_oidc_token. rewrite Hdev.
  destruct (opt_truthy authorization); simpl; [|done].
  destruct (bearer_token _) as [token|]; [|done].
  destruct (get_signing_key token) as [key|] eqn:Hkey; [|done].
  destruct (opt_truthy (OIDC_AUDIENCE c)) eqn:Haud; [|done].
  destruct (jwt_decode _ _ _ _ _) as [payload|] eqn:Hdec; [|done].
  destruct (dict_get "sub" payload) as [sub|] eqn:Hsub; [|done].
  destruct (json_truthy sub) eqn:Ht; [|done].
  intros H. simplify_eq. by exists token, key, payload, sub.
Qed.
End Tokens.

(** ** The JWKS client

    The process keeps one client, made at its first use; [PyJWKClient] is its
    constructor, given the URL and the lifespan of its cache. *)

Section JwksClient.
Context {Client : Type} (PyJWKClient : string -> Z -> Client).

Definition get_jwks_client (c : Settings) (cache_ttl : Z) (kept : option Client) : Client * option Client :=
  match kept with
  | Some client => (client, kept)
  | None => let client := PyJWKClient (effective_jwks_url c) cache_ttl in (client, Some client)
  end.

Definition set_jwks_client (client : option Client) : option Client := client.

(** Every use gets the client of the first one, whatever the settings say later. *)
Lemma jwks_client_once c ttl c' ttl' kept :
  get_jwks_client c' ttl' (get_jwks_client c ttl kept).2 = get_jwks_client c ttl (get_jwks_client c ttl kept).2.
Proof. by destruct kept. Qed.
End JwksClient.

(** ** Roles *)

Definition ROLE_RANK (r : WorkspaceRole) : Z :=
  match r with VIEWER => 1 | DEVELOPER => 2 | ADMIN => 3 | OWNER => 4 end.

(** The membership rows of a subject in a workspace. *)
Definition is_membership_of (w : uuid) (sub : string) (m : WorkspaceMembership) : bool :=
  (wm_workspace_id m =?= w) && (wm_user_subject m =?= sub).

(** [authorize_workspace_access]. *)
Definition authorize_workspace_access (caller : Caller) (workspace_id : uuid)
    (min_role : WorkspaceRole) (not_found_detail : string) : M WorkspaceMembership :=
  membership ← select_one memberships (is_membership_of workspace_id (subject caller));
  match membership with
  | None => raise (http_error 404 not_found_detail)
  | Some m =>
      if ROLE_RANK (wm_role m) <? ROLE_RANK min_role
      then raise (http_error 403 "Insufficient role for this operation")
      else mret m
  end.

(** What [authorize_workspace_access] computes from the rows it reads. *)
Definition access (db : Db) (caller : Caller) (workspace_id : uuid)
    (min_role : WorkspaceRole) (not_found_detail : string) : outcome WorkspaceMembership :=
  match where_ (is_membership_of workspace_id (subject caller)) (memberships db) with
  | [] => Err (http_error 404 not_found_detail)
  | [m] => if ROLE_RANK (wm_role m) <? ROLE_RANK min_role
           then Err (http_error 403 "Insufficient role for this operation")
           else Ok m
  | _ => Err MultipleResultsFound
  end.

Lemma authorize_spec caller w role detail e s :
  authorize_workspace_access caller w role detail e s = (access (view s) caller w role detail, s).
Proof.
  unfold authorize_workspace_access, select_one, access, mbind, M_bind, query, scalar_one_or_none.
  destruct (where_ _ _) as [|m [|]]; [done| |done]. simpl.
  by destruct (_ <? _).
Qed.

#[export] Instance keeps_authorize c w r d : Keeps (authorize_workspace_access c w r d).
Proof. intros e s. rewrite authorize_spec. apply rtc_refl. Qed.

(** The caller is a member of the workspace with a role of at least [min_role]. *)
Definition member_with (db : Db) (w : uuid) (sub : string) (min_role : WorkspaceRole) : Prop :=
  exists m, m ∈ memberships db /\ wm_workspace_id m = w /\ wm_user_subject m = sub
    /\ ROLE_RANK min_role <= ROLE_RANK (wm_role m).

Lemma access_ok db caller w role detail m :
  access db caller w role detail = Ok m ->
  m ∈ memberships db /\ wm_workspace_id m = w /\ wm_user_subject m = subject caller
  /\ ROLE_RANK role <= ROLE_RANK (wm_role m).
Proof.
  unfold access. intros H. destruct (where_ _ _) as [|m' [|]] eqn:E; try done.
  assert (m' ∈ where_ (is_membership_of w (subject caller)) (memberships db)) as Hin
    by (rewrite E; left).
  apply elem_of_where in Hin as [Hin Hm]. unfold is_membership_of in Hm.
  destruct (_ <? _) eqn:Hr; simplify_eq. bool_hyps. done.
Qed.

(** A caller without a membership row gets the 404 the missing resource gets. *)
Lemma access_stranger db caller w role detail :
  (forall m, m ∈ memberships db -> is_membership_of w (subject caller) m = false) ->
  access db caller w role detail = Err (http_error 404 detail).
Proof. intros H. unfold access. by rewrite (proj2 (where_nil_iff _ _) H). Qed.

(** Access only depends on the membership table. *)
Lemma access_memberships db db' caller w role detail :
  memberships db' = memberships db -> access db' caller w role detail = access db caller w role detail.
Proof. unfold access. by intros ->. Qed.
