(* ===== verification/AuditLog.v ===== *)
(** * Audit trail ([apps/api/app/core/audit.py])

    The sanitizer that keeps credentials out of the audit details, and the
    staging of an audit row in the active transaction. *)

From S2P Require Import Prelude PyStr Uuid Json Models Session.
From Stdlib Require Import String.

Definition SENSITIVE_KEY_MARKERS : list string :=
  ["secret"; "password"; "passwd"; "token"; "api_key"; "apikey"; "private_key";
   "encrypted_value"].

(** The test on one key of a details dictionary. *)
Definition is_sensitive_key (k : string) : bool :=
  let key_lower := lower k in
  (key_lower =?= "value") || existsb (contains key_lower) SENSITIVE_KEY_MARKERS.

(** [_sanitize_audit_value]; its dictionary case is [sanitize_audit_details]. *)
Fixpoint sanitize_audit_value (v : json) : json :=
  match v with
  | JDict kvs =>
      JDict (map (fun kv =>
        (kv.1, if is_sensitive_key kv.1 then JStr "[REDACTED]" else sanitize_audit_value kv.2)) kvs)
  | JList l => JList (map sanitize_audit_value l)
  | _ => v
  end.

(** [sanitize_audit_details]. *)
Definition sanitize_audit_details (details : list (string * json)) : list (string * json) :=
  map (fun kv =>
    (kv.1, if is_sensitive_key kv.1 then JStr "[REDACTED]" else sanitize_audit_value kv.2)) details.

(** [record_audit_event]: stages one immutable row. *)
Definition record_audit_event (workspace_id : option uuid) (actor_subject action target_type
    target_id : string) (details : list (string * json)) : M unit :=
  id ← uuid4;
  stage (fun t => on_audit_events (fun l => l ++
    [mkAuditEvent id workspace_id actor_subject action target_type target_id "SUCCESS"
       (JDict (sanitize_audit_details details)) t])).

#[export] Instance keeps_record_audit_event w a b c d f : Keeps (record_audit_event w a b c d f).
Proof. unfold record_audit_event. apply _. Qed.

(** ** What redaction means, node by node *)

(** A key that names a credential. *)
Definition sensitive (k : string) : Prop :=
  lower k = "value" \/ exists a marker b, lower k = a +:+ marker +:+ b
    /\ marker ∈ ["secret"; "password"; "passwd"; "token"; "api_key"; "apikey"; "private_key";
                 "encrypted_value"].

(** The node a path of positions leads to, and the way there: the key of each dictionary
    it enters, [None] for a list. *)
Fixpoint at_path (path : list nat) (j : json) : option (list (option string) * json) :=
  match path with
  | [] => Some ([], j)
  | i :: path' =>
      match j with
      | JList l =>
          match l !! i with
          | Some v => match at_path path' v with Some (way, x) => Some (None :: way, x) | None => None end
          | None => None
          end
      | JDict kvs =>
          match kvs !! i with
          | Some (k, v) =>
              match at_path path' v with Some (way, x) => Some (Some k :: way, x) | None => None end
          | None => None
          end
      | _ => None
      end
  end.

(** A way past no sensitive key. *)
Definition open_way (way : list (option string)) : Prop := forall k, Some k ∈ way -> ~ sensitive k.

(** The same value, or a list of the same length, or a dictionary of the same keys. *)
Definition same_node (v v' : json) : Prop :=
  match v with
  | JList l => exists l', v' = JList l' /\ List.length l' = List.length l
  | JDict kvs => exists kvs', v' = JDict kvs' /\ map fst kvs' = map fst kvs
  | _ => v' = v
  end.

(** [d] is [details] with what is under a sensitive key, and nothing else, replaced by the
    marker: every node of [d] is in [details] at the same place; it is the same unless it
    is the first value under a sensitive key, and then it is the marker; and every
    node of [details] that is under no sensitive key is in [d]. *)
Definition redaction (details d : json) : Prop :=
  (forall path way v', at_path path d = Some (way, v') ->
     exists v, at_path path details = Some (way, v)
       /\ ((open_way way /\ same_node v v')
           \/ exists way0 k, way = way0 ++ [Some k] /\ open_way way0 /\ sensitive k
              /\ v' = JStr "[REDACTED]"))
  /\ (forall path way v, at_path path details = Some (way, v) -> open_way way ->
        exists v', at_path path d = Some (way, v')).

(** ** The sanitizer is a redaction *)

Lemma startswith_prefix s p : startswith s p = true <-> exists b, s = p +:+ b.
Proof.
  rewrite startswith_iff. split; intros [b Hb]; by exists b.
Qed.

Lemma contains_iff s p : contains s p = true <-> exists a b, s = a +:+ p +:+ b.
Proof.
  induction s as [|c s IH]; cbn [contains]; rewrite orb_true_iff, startswith_prefix.
  - split; [intros [[b Hb]|[=]]; by exists "", b|]. intros (a & b & Hab). left. exists b.
    destruct a; [done|]. discriminate.
  - rewrite IH. split.
    + intros [[b Hb]|(a & b & ->)]; [by exists "", b|]. exists (String c a), b. by rewrite str_app_cons.
    + intros ([|c' a] & b & Hab); [left; by exists b|]. rewrite str_app_cons in Hab.
      injection Hab as -> ->. right. by exists a, b.
Qed.

Lemma is_sensitive_key_iff k : is_sensitive_key k = true <-> sensitive k.
Proof.
  unfold is_sensitive_key, sensitive. rewrite orb_true_iff, bool_decide_eq_true, existsb_exists.
  apply or_iff_compat_l. split.
  - intros (m & Hm & (a & b & Hab)%contains_iff). exists a, m, b. split; [done|].
    by apply list_elem_of_In.
  - intros (a & m & b & Hab & Hm). exists m. split; [by apply list_elem_of_In|].
    apply contains_iff. by exists a, b.
Qed.

Lemma open_way_cons o way :
  open_way (o :: way) <-> (forall k, o = Some k -> ~ sensitive k) /\ open_way way.
Proof.
  unfold open_way. setoid_rewrite elem_of_cons. split.
  - intros H. split; [intros k ->|intros k Hk]; apply H; auto.
  - intros [H1 H2] k [<-|Hk]; auto.
Qed.

Lemma open_nil : open_way [].
Proof. intros k Hk. by apply not_elem_of_nil in Hk. Qed.

(** Sanitizing keeps every key in place. *)
Lemma sanitize_details_keys d : map fst (sanitize_audit_details d) = map fst d.
Proof. unfold sanitize_audit_details. rewrite map_map. by apply map_ext. Qed.

Lemma sanitize_same_node v : same_node v (sanitize_audit_value v).
Proof.
  destruct v; cbn; try done; eexists; (split; [reflexivity|]).
  - apply length_map.
  - apply sanitize_details_keys.
Qed.

Lemma sanitize_nodes path : forall v way x', at_path path (sanitize_audit_value v) = Some (way, x') ->
  exists x, at_path path v = Some (way, x)
    /\ ((open_way way /\ same_node x x')
        \/ exists way0 k, way = way0 ++ [Some k] /\ open_way way0 /\ sensitive k
           /\ x' = JStr "[REDACTED]").
Proof.
  induction path as [|i path IH]; intros v way x' H.
  { injection H as <- <-. exists v. split; [done|]. left. split; [apply open_nil|apply sanitize_same_node]. }
  destruct v as [| | | |l|kvs]; cbn in H |- *; try done.
  - rewrite list_lookup_fmap in H. destruct (l !! i) as [v|]; [|done]. cbn in H.
    destruct (at_path path (sanitize_audit_value v)) as [[w y]|] eqn:E; [|done]. injection H as <- <-.
    destruct (IH _ _ _ E) as (x & Hx & Hcase). rewrite Hx. exists x. split; [done|].
    destruct Hcase as [[Ho Hs]|(way0 & k & -> & Ho & Hk & Hy)]; [left|right].
    + split; [|done]. by apply open_way_cons.
    + exists (None :: way0), k. split_and!; try done. by apply open_way_cons.
  - rewrite list_lookup_fmap in H. destruct (kvs !! i) as [[k v]|]; [|done]. cbn in H.
    destruct (is_sensitive_key k) eqn:Hk.
    + destruct path as [|]; [|done]. injection H as <- <-. cbn. exists v. split; [done|]. right.
      exists [], k. split_and!; [done|apply open_nil|by apply is_sensitive_key_iff|done].
    + destruct (at_path path (sanitize_audit_value v)) as [[w y]|] eqn:E; [|done]. injection H as <- <-.
      assert (forall k', Some k = Some k' -> ~ sensitive k') as Hns.
      { intros k' [= <-] Hs%is_sensitive_key_iff. congruence. }
      destruct (IH _ _ _ E) as (x & Hx & Hcase). rewrite Hx. exists x. split; [done|].
      destruct Hcase as [[Ho Hs]|(way0 & k' & -> & Ho & Hk' & Hy)]; [left|right].
      * split; [|done]. by apply open_way_cons.
      * exists (Some k :: way0), k'. split_and!; try done. by apply open_way_cons.
Qed.

Lemma sanitize_keeps_open path : forall v way x, at_path path v = Some (way, x) -> open_way way ->
  exists x', at_path path (sanitize_audit_value v) = Some (way, x').
Proof.
  induction path as [|i path IH]; intros v way x H Ho; [injection H as <- <-; by eexists|].
  destruct v as [| | | |l|kvs]; cbn in H |- *; try done; rewrite list_lookup_fmap.
  - destruct (l !! i) as [v|]; [|done]. cbn.
    destruct (at_path path v) as [[w y]|] eqn:E; [|done]. injection H as <- <-.
    apply open_way_cons in Ho as [_ Ho]. destruct (IH _ _ _ E Ho) as (x' & ->). by eexists.
  - destruct (kvs !! i) as [[k v]|]; [|done]. cbn.
    destruct (at_path path v) as [[w y]|] eqn:E; [|done]. injection H as <- <-.
    apply open_way_cons in Ho as [Hk Ho]. destruct (is_sensitive_key k) eqn:Hs.
    { destruct (Hk k eq_refl). by apply is_sensitive_key_iff. }
    destruct (IH _ _ _ E Ho) as (x' & ->). by eexists.
Qed.

(** C34: Auditing always stages exactly one row, with the caller's actor, action and target,
    whose details are the given ones with the values under sensitive keys, at any depth,
    replaced by the redaction marker, and with nothing else changed: [redaction]. *)
Theorem audit_row_redacted w actor action target_type target_id details e s :
  exists id s', record_audit_event w actor action target_type target_id details e s = (Ok tt, s')
    /\ committed s' = committed s /\ writes s' = writes s
    /\ exists d, redaction (JDict details) d
    /\ staged s' = staged s ++ [fun t => on_audit_events (fun l => l ++
         [mkAuditEvent id w actor action target_type target_id "SUCCESS" d t])].
Proof.
  do 2 eexists. split; [reflexivity|]. do 2 (split; [done|]).
  exists (sanitize_audit_value (JDict details)). split; [split|reflexivity].
  - intros path way v'. apply sanitize_nodes.
  - intros path way v. apply sanitize_keeps_open.
Qed.

(** A credential at any depth is replaced, and only that. *)
Example redaction_ex :
  sanitize_audit_details [("name", JStr "db"); ("env", JList [JDict [("API_KEY", JStr "x"); ("n", JInt 1)]])]
  = [("name", JStr "db"); ("env", JList [JDict [("API_KEY", JStr "[REDACTED]"); ("n", JInt 1)]])].
Proof. reflexivity. Qed.
