(* ===== verification/Events.v ===== *)
(** * Outbox events ([apps/api/app/core/events.py]) *)

From S2P Require Import Prelude PyStr Uuid Json Models Session.
From Stdlib Require Import String.

Inductive OutboxTopic :=
| JOB_SUBMITTED | JOB_CANCELLATION_REQUESTED | APP_DEPLOYMENT_REQUESTED | APP_BUILD_REQUESTED
| APP_BUILD_COMPLETED | JOB_ATTEMPT_FAILED | JOB_ATTEMPT_SUCCEEDED
| WORKLOAD_RECONCILIATION_REQUESTED.

Definition topic_value (t : OutboxTopic) : string :=
  match t with
  | JOB_SUBMITTED => "job.submitted.v1"
  | JOB_CANCELLATION_REQUESTED => "job.cancellation.requested.v1"
  | APP_DEPLOYMENT_REQUESTED => "app.deployment.requested.v1"
  | APP_BUILD_REQUESTED => "app.build.requested.v1"
  | APP_BUILD_COMPLETED => "app.build.completed.v1"
  | JOB_ATTEMPT_FAILED => "job.attempt.failed.v1"
  | JOB_ATTEMPT_SUCCEEDED => "job.attempt.succeeded.v1"
  | WORKLOAD_RECONCILIATION_REQUESTED => "workload.reconciliation.requested.v1"
  end.

(** [create_outbox_event]: a PENDING row whose headers are the trace context
    overridden by the caller's; the timestamp columns are filled in when the row
    is flushed. *)
Definition create_outbox_event (workspace_id : uuid) (topic : OutboxTopic)
    (payload : list (string * json)) (headers : list (string * string))
    (event_id : option uuid) : M (time -> OutboxEvent) :=
  e ← ask;
  id ← uuid4;
  eid ← match event_id with Some i => mret i | None => uuid4 end;
  mret (fun t => mkOutboxEvent id eid workspace_id 1 (topic_value topic) (JDict payload)
                   (dict_update (dict_update [] (trace_context e)) headers)
                   PENDING 0 None None t t).

(** [db.add(outbox_event)]. *)
Definition add_outbox_event (mk : time -> OutboxEvent) : M unit :=
  stage (fun t => on_outbox (fun l => l ++ [mk t])).

#[export] Instance keeps_create_outbox_event w t p h i : Keeps (create_outbox_event w t p h i).
Proof. unfold create_outbox_event. destruct i; apply _. Qed.
#[export] Instance keeps_add_outbox_event mk : Keeps (add_outbox_event mk).
Proof. unfold add_outbox_event. apply _. Qed.
