(* ===== verification/Idempotency.v ===== *)
(** * Idempotency records ([apps/api/app/core/idempotency.py])

    Request hashing, the lookup that replays or refuses a key, the record
    written with the request's own changes, and the handling of the race lost at
    the unique constraint. *)

From S2P Require Import Prelude PyStr Uuid Json Models Session.
From Stdlib Require Import String.

(** [schemas.common.AcceptedOperationResponse]. *)
Record AcceptedOperationResponse := mkAccepted {
  operation_id : uuid; acc_status : string; status_url : string }.

(** [compute_payload_hash]: [None] hashes the empty dictionary. *)
Definition compute_payload_hash (payload : option json) : M string :=
  e ← ask;
  mret (sha256_hex e (dumps (default (JDict []) payload))).

Definition is_idempotency_key (w : uuid) (endpoint key : string) (r : IdempotencyRecord) : bool :=
  (ir_workspace_id r =?= w) && (ir_endpoint r =?= endpoint) && (ir_key r =?= key).

(** The response rebuilt from a stored body. *)
Definition stored_response (body : json) : outcome AcceptedOperationResponse :=
  let get k := dict_get k (dict_items body) in
  match get "operation_id" with
  | Some (JStr op) =>
      match uuid_parse op with
      | Some u =>
          match get "status", get "status_url" with
          | Some (JStr st), Some (JStr url) => Ok (mkAccepted u st url)
          | _, _ => Err (KeyError "status")
          end
      | None => Err (ValueError "badly formed hexadecimal UUID string")
      end
  | _ => Err (KeyError "operation_id")
  end.

Definition lift {A} (o : outcome A) : M A := fun _ s => (o, s).

Definition idempotency_conflict : exn :=
  HTTPException 409
    (JDict [("message", JStr "Idempotency key reused with different request payload");
            ("error_code", JStr "IDEMPOTENCY_CONFLICT")]) [].

(** [check_idempotency]: [Some] response to replay, [None] to go on. *)
Definition check_idempotency (w : uuid) (endpoint key payload_hash : string)
    : M (option AcceptedOperationResponse) :=
  now ← datetime_now;
  existing ← select_one idempotency (is_idempotency_key w endpoint key);
  match existing with
  | None => mret None
  | Some r =>
      if ir_expires_at r <=? now then
        stage (fun _ => on_idempotency (delete_where (fun r' => ir_id r' =?= ir_id r))) ;;
        flush ;; mret None
      else if ir_request_hash r =?= payload_hash then
        resp ← lift (stored_response (ir_response_body r)); mret (Some resp)
      else raise idempotency_conflict
  end.

(** The [response_body] of a record. *)
Definition response_data (operation : uuid) : json :=
  JDict [("operation_id", JStr (uuid_str operation)); ("status", JStr "ACCEPTED");
         ("status_url", JStr ("/v1/operations/" +:+ uuid_str operation))].

(** [create_idempotency_record] with its default [ttl_hours=24], and [db.add]. *)
Definition add_idempotency_record (w : uuid) (endpoint key payload_hash : string)
    (response_code : Z) (operation : uuid) : M unit :=
  id ← uuid4;
  now ← datetime_now;
  stage (fun t => on_idempotency (fun l => l ++
    [mkIdempotencyRecord id w endpoint key payload_hash response_code
       (response_data operation) (now + hours 24) t t])).

(** [AcceptedOperationResponse(operation_id=..., status="ACCEPTED", ...)]. *)
Definition accepted (operation : uuid) : AcceptedOperationResponse :=
  mkAccepted operation "ACCEPTED" ("/v1/operations/" +:+ uuid_str operation).

(** [is_idempotency_violation]. *)
Definition is_idempotency_violation (c : option string) : bool :=
  violated_constraint c =?= Some "uq_idempotency_workspace_key".

(** [handle_idempotency_race]. *)
Definition handle_idempotency_race (c : option string) (w : uuid)
    (endpoint key payload_hash : string) : M AcceptedOperationResponse :=
  rollback ;;
  if negb (is_idempotency_violation c) then raise unexpected_integrity_error
  else
    concurrent ← select_one idempotency (is_idempotency_key w endpoint key);
    match concurrent with
    | Some r =>
        if ir_request_hash r =?= payload_hash then lift (stored_response (ir_response_body r))
        else raise idempotency_conflict
    | None => raise idempotency_conflict
    end.

(** [get_idempotency_key]: the header's length limits, then the normalization. *)
Definition get_idempotency_key (header : string) : outcome string :=
  if negb ((1 <=? len header) && (len header <=? 255)) then
    Err (RequestValidationError "string length")
  else let normalized := strip header in
    if truthy normalized then Ok normalized
    else Err (RequestValidationError "Idempotency-Key must not be blank").

(** The commit of an idempotent mutation. *)
Definition commit_idempotent (w : uuid) (endpoint key payload_hash : string) (op : uuid)
    : M AcceptedOperationResponse :=
  catch_integrity (commit ;; mret (accepted op))
    (fun c => handle_idempotency_race c w endpoint key payload_hash).

(** ** Frame *)

#[export] Instance keeps_compute_payload_hash p : Keeps (compute_payload_hash p).
Proof. unfold compute_payload_hash. apply _. Qed.
#[export] Instance keeps_lift {A} (o : outcome A) : Keeps (lift o).
Proof. intros e s. apply rtc_refl. Qed.
#[export] Instance keeps_check_idempotency w ep k h : Keeps (check_idempotency w ep k h).
Proof. unfold check_idempotency. repeat (intros; first [apply keeps_bind | apply _ | case_match]). Qed.
#[export] Instance keeps_add_idempotency_record w ep k h c o :
  Keeps (add_idempotency_record w ep k h c o).
Proof. unfold add_idempotency_record. apply _. Qed.
#[export] Instance keeps_handle_race c w ep k h : Keeps (handle_idempotency_race c w ep k h).
Proof.
  unfold handle_idempotency_race.
  repeat (intros; first [apply keeps_bind | apply _ | case_match]).
Qed.

#[export] Instance atomic_commit_idempotent w ep k h o : Atomic (commit_idempotent w ep k h o).
Proof.
  apply atomic_catch_integrity; [|apply _].
  apply (atomic_bind_ret commit (fun _ => accepted o)). apply _.
Qed.

#[export] Instance preserves_commit_idempotent w ep k h o :
  Preserves integrity (commit_idempotent w ep k h o).
Proof. unfold commit_idempotent. apply _. Qed.

(** ** The stored response round-trips *)

Lemma stored_response_data u :
  (u < 2 ^ 128)%N -> stored_response (response_data u) = Ok (accepted u).
Proof.
  intros Hu. unfold stored_response, response_data. cbn [dict_items dict_get].
  repeat (rewrite bool_decide_eq_true_2 by done || rewrite bool_decide_eq_false_2 by done).
  by rewrite uuid_parse_str.
Qed.

Lemma mod_uuid n : (n mod 2 ^ 128 < 2 ^ 128)%N.
Proof. by apply N.mod_lt. Qed.
#[export] Hint Resolve mod_uuid stored_response_data : hami.

(** ** What the lookup computes *)

(** No record under the key: nothing happens. *)
Lemma check_idempotency_fresh w ep k h e s :
  where_ (is_idempotency_key w ep k) (idempotency (view s)) = [] ->
  check_idempotency w ep k h e s = (Ok None, ticked 1 s).
Proof.
  intros H. unfold check_idempotency. rewrite (bind_step _ _ _ _ _ _ (now_spec e s)).
  erewrite bind_step by apply select_one_spec. by rewrite view_ticked, H.
Qed.

(** An unexpired record replays its response or refuses the key. *)
Lemma check_idempotency_live w ep k h e s r :
  where_ (is_idempotency_key w ep k) (idempotency (view s)) = [r] ->
  clock e (ticks s) < ir_expires_at r ->
  check_idempotency w ep k h e s =
    (if ir_request_hash r =?= h
     then match stored_response (ir_response_body r) with
          | Ok resp => Ok (Some resp) | Err x => Err x end
     else Err idempotency_conflict, ticked 1 s).
Proof.
  intros H Ht. unfold check_idempotency. rewrite (bind_step _ _ _ _ _ _ (now_spec e s)).
  erewrite bind_step by apply select_one_spec. rewrite view_ticked, H. simpl.
  rewrite (proj2 (Z.leb_gt _ _)) by done.
  case_bool_decide; [|done]. unfold lift, mbind, M_bind. by destruct (stored_response _).
Qed.
