(* ===== verification/Quotas.v ===== *)
(** * Workspace quotas ([core/quotas.py], [api/v1/quotas.py], [schemas/quota.py])

    Usage is counted from the jobs, the releases and the unexpired reservations
    of a workspace; an admission takes the workspace's advisory lock, compares
    the usage with the limits and stages a reservation.  [usage] is what the queries
    read, [quota_policy] the reference the admission is proved against: it is
    written from the rows and the settings alone. *)

From S2P Require Import Prelude PyStr Uuid Json Models Config Session Sample Auth.
From Stdlib Require Import String.

Definition ACTIVE_JOB_STATES : list JobState := [ADMITTED; STARTING; RUNNING].
Definition PENDING_JOB_STATES : list JobState :=
  [QUEUED; ADMITTED; STARTING; RUNNING; RETRY_WAIT; RECOVERY_PENDING].
Definition ACTIVE_SERVICE_RELEASE_STATUSES : list ReleaseStatus :=
  [IMAGE_READY; DEPLOYING; HEALTHY].

Definition is_stale (w : uuid) (now : time) (r : QuotaReservation) : bool :=
  (qr_workspace_id r =?= w) && (qr_status r =?= ACTIVE) && (qr_expires_at r <=? now).

Definition expired_row (now : time) (r : QuotaReservation) : QuotaReservation :=
  mkReservation (qr_id r) (qr_workspace_id r) (qr_resource_class r) (qr_units r) EXPIRED
    (qr_expires_at r) (qr_created_at r) now.

(** [expire_stale_reservations]. *)
Definition expire_stale_reservations (w : uuid) : M unit :=
  now ← datetime_now;
  execute (on_reservations (update_where (is_stale w now) (expired_row now))).

Definition is_active_reservation (w : uuid) (now : time) (r : QuotaReservation) : bool :=
  (qr_workspace_id r =?= w) && (qr_status r =?= ACTIVE) && (now <? qr_expires_at r).

(** [res_units[cls]]: the accumulated units of the reservations of a class. *)
Definition res_units (rs : list QuotaReservation) (cls : QuotaResourceClass) : Z :=
  foldl (fun n r => if qr_resource_class r =?= cls then n + qr_units r else n) 0 rs.

Definition is_build (w : uuid) (r : Release) : bool :=
  (rel_workspace_id r =?= w) && bool_decide (is_Some (rel_repository_id r))
  && in_ (rel_status r) [REQUESTED; BUILDING].

Definition is_service (w : uuid) (r : Release) : bool :=
  (rel_workspace_id r =?= w) && in_ (rel_status r) ACTIVE_SERVICE_RELEASE_STATUSES.

(** The tuple the two summary functions return. *)
Record QuotaSummary := mkSummary {
  effective_jobs : Z; effective_builds : Z; effective_services : Z; effective_pending : Z;
  active_reservations : list QuotaReservation }.

(** [order_by(created_at.desc())]; rows of equal timestamps keep their order. *)
Definition newer_reservation (a b : QuotaReservation) : bool := qr_created_at b <=? qr_created_at a.

(** [get_workspace_quota_summary]. *)
Definition get_workspace_quota_summary (w : uuid) : M QuotaSummary :=
  expire_stale_reservations w ;;
  now ← datetime_now;
  active ← query (fun db => order_by newer_reservation
                              (where_ (is_active_reservation w now) (reservations db)));
  running ← query (fun db => count_where
    (fun j => (job_workspace_id j =?= w) && in_ (job_state j) ACTIVE_JOB_STATES) (jobs db));
  pending ← query (fun db => count_where
    (fun j => (job_workspace_id j =?= w) && in_ (job_state j) PENDING_JOB_STATES) (jobs db));
  builds ← query (fun db => count_where (is_build w) (releases db));
  deployed ← query (fun db => count_distinct rel_application_id (where_ (is_service w) (releases db)));
  mret {| effective_jobs := running `max` res_units active CONCURRENT_JOB;
          effective_builds := builds `max` res_units active CONCURRENT_BUILD;
          effective_services := deployed `max` res_units active DEPLOYED_SERVICE;
          effective_pending := pending + builds;
          active_reservations := active |}.

(** [get_workspace_quota_usage_for_admission]. *)
Definition get_workspace_quota_usage_for_admission (w : uuid) (application_id : option uuid)
    : M QuotaSummary :=
  q ← get_workspace_quota_summary w;
  match application_id with
  | None => mret q
  | Some a =>
      other ← query (fun db => count_distinct rel_application_id
        (where_ (fun r => is_service w r && (rel_application_id r <?> a)) (releases db)));
      mret {| effective_jobs := effective_jobs q; effective_builds := effective_builds q;
              effective_services := other; effective_pending := effective_pending q;
              active_reservations := active_reservations q |}
  end.

(** The 429 of an exhausted quota. *)
Definition quota_exceeded (resource : string) (limit : Z) (retry_after : string) : exn :=
  HTTPException 429
    (JDict [("error_code", JStr "QUOTA_EXCEEDED");
            ("message", JStr ("Workspace quota exceeded for " +:+ resource +:+ " (limit="
                              +:+ pretty limit +:+ ")"));
            ("resource_class", JStr resource); ("limit", JInt limit)])
    [("Retry-After", retry_after)].

Definition class_limit (c : Settings) (cls : QuotaResourceClass) : Z :=
  match cls with
  | CONCURRENT_JOB => DEFAULT_WORKSPACE_JOB_CONCURRENCY c
  | CONCURRENT_BUILD => DEFAULT_WORKSPACE_BUILD_CONCURRENCY c
  | DEPLOYED_SERVICE => DEFAULT_WORKSPACE_SERVICE_CAP c
  end.
Definition class_ttl (c : Settings) (cls : QuotaResourceClass) : Z :=
  match cls with
  | CONCURRENT_JOB => DEFAULT_JOB_TIMEOUT_SECONDS c
  | CONCURRENT_BUILD => DEFAULT_BUILD_TIMEOUT_SECONDS c
  | DEPLOYED_SERVICE => 86400
  end.
Definition class_retry_after (cls : QuotaResourceClass) : string :=
  match cls with CONCURRENT_JOB => "15" | CONCURRENT_BUILD => "15" | DEPLOYED_SERVICE => "60" end.
Definition class_usage (q : QuotaSummary) (cls : QuotaResourceClass) : Z :=
  match cls with
  | CONCURRENT_JOB => effective_jobs q
  | CONCURRENT_BUILD => effective_builds q
  | DEPLOYED_SERVICE => effective_services q
  end.

(** The reservation row; the timestamp columns are filled in at the flush. *)
Definition new_reservation (id w : uuid) (cls : QuotaResourceClass) (expires t : time)
    : QuotaReservation :=
  mkReservation id w cls 1 ACTIVE expires t t.

(** [enforce_workspace_quota]: raises, or admits and stages the reservation. *)
Definition enforce_workspace_quota (w : uuid) (cls : QuotaResourceClass)
    (application_id : option uuid) (reserve : bool) : M unit :=
  lock ;;
  q ← get_workspace_quota_usage_for_admission w application_id;
  e ← ask;
  let c := settings e in
  guard (DEFAULT_WORKSPACE_PENDING_OPERATIONS c <=? effective_pending q)
    (quota_exceeded "PENDING_OPERATIONS" (DEFAULT_WORKSPACE_PENDING_OPERATIONS c) "30") ;;
  now ← datetime_now;
  guard (class_limit c cls <=? class_usage q cls)
    (quota_exceeded (resource_class_value cls) (class_limit c cls) (class_retry_after cls)) ;;
  if reserve then
    id ← uuid4;
    stage (fun t => on_reservations (fun l => l ++
      [new_reservation id w cls (now + seconds (class_ttl c cls)) t]))
  else mret tt.

(** ** [api/v1/quotas.py] *)

Record QuotaReservationItem := mkReservationItem {
  qi_id : uuid; qi_workspace_id : uuid; qi_resource_class : QuotaResourceClass; qi_units : Z;
  qi_status : QuotaStatus; qi_expires_at : time; qi_created_at : time }.

Record WorkspaceQuotaResponse := mkQuotaResponse {
  qq_workspace_id : uuid;
  concurrent_jobs_limit : Z; concurrent_jobs_used : Z;
  concurrent_builds_limit : Z; concurrent_builds_used : Z;
  deployed_services_limit : Z; deployed_services_used : Z;
  pending_operations_limit : Z; pending_operations_used : Z;
  qq_reservations : list QuotaReservationItem }.

(** [get_workspace_quotas]. *)
Definition get_workspace_quotas (caller : Caller) (w : uuid) : M WorkspaceQuotaResponse :=
  authorize_workspace_access caller w VIEWER "Workspace not found" ;;
  q ← get_workspace_quota_summary w;
  commit ;;
  e ← ask;
  let c := settings e in
  mret {| qq_workspace_id := w;
          concurrent_jobs_limit := DEFAULT_WORKSPACE_JOB_CONCURRENCY c;
          concurrent_jobs_used := effective_jobs q;
          concurrent_builds_limit := DEFAULT_WORKSPACE_BUILD_CONCURRENCY c;
          concurrent_builds_used := effective_builds q;
          deployed_services_limit := DEFAULT_WORKSPACE_SERVICE_CAP c;
          deployed_services_used := effective_services q;
          pending_operations_limit := DEFAULT_WORKSPACE_PENDING_OPERATIONS c;
          pending_operations_used := effective_pending q;
          qq_reservations := map (fun r => mkReservationItem (qr_id r) (qr_workspace_id r)
            (qr_resource_class r) (qr_units r) (qr_status r) (qr_expires_at r)
            (qr_created_at r)) (active_reservations q) |}.

(** ** What the queries read *)

(** The usage of a workspace in a database, at an instant. *)
Definition usage (db : Db) (w : uuid) (now : time) (application_id : option uuid) : QuotaSummary :=
  let active := order_by newer_reservation
                  (where_ (is_active_reservation w now) (reservations db)) in
  let job_count states := count_where
    (fun j => (job_workspace_id j =?= w) && in_ (job_state j) states) (jobs db) in
  let builds := count_where (is_build w) (releases db) in
  {| effective_jobs := job_count ACTIVE_JOB_STATES `max` res_units active CONCURRENT_JOB;
     effective_builds := builds `max` res_units active CONCURRENT_BUILD;
     effective_services :=
       match application_id with
       | None => count_distinct rel_application_id (where_ (is_service w) (releases db))
                 `max` res_units active DEPLOYED_SERVICE
       | Some a => count_distinct rel_application_id
           (where_ (fun r => is_service w r && (rel_application_id r <?> a)) (releases db))
       end;
     effective_pending := job_count PENDING_JOB_STATES + builds;
     active_reservations := active |}.

(** The first exhausted quota, pending operations before the class. *)
Definition refusal (c : Settings) (q : QuotaSummary) (cls : QuotaResourceClass) : option exn :=
  if DEFAULT_WORKSPACE_PENDING_OPERATIONS c <=? effective_pending q then
    Some (quota_exceeded "PENDING_OPERATIONS" (DEFAULT_WORKSPACE_PENDING_OPERATIONS c) "30")
  else if class_limit c cls <=? class_usage q cls then
    Some (quota_exceeded (resource_class_value cls) (class_limit c cls) (class_retry_after cls))
  else None.

(** The session once the stale reservations are expired. *)
Definition after_expiry (w : uuid) (e : Env) (s : Sess) : Sess :=
  executed (on_reservations (update_where (is_stale w (clock e (ticks s)))
                                          (expired_row (clock e (ticks s))))) (ticked 1 s).

Lemma summary_spec w e s :
  get_workspace_quota_summary w e s =
    (Ok (usage (view (after_expiry w e s)) w (clock e (S (ticks s))) None),
     ticked 1 (after_expiry w e s)).
Proof. reflexivity. Qed.

Lemma admission_usage_spec w a e s :
  get_workspace_quota_usage_for_admission w a e s =
    (Ok (usage (view (after_expiry w e s)) w (clock e (S (ticks s))) a),
     ticked 1 (after_expiry w e s)).
Proof. destruct a; reflexivity. Qed.

(** The usage the admission decides on: once the lock is granted and the stale
    reservations are expired. *)
Definition admission_state (w : uuid) (e : Env) (s : Sess) : Sess := after_expiry w e (locked e s).
Definition admission_usage (w : uuid) (a : option uuid) (e : Env) (s : Sess) : QuotaSummary :=
  usage (view (admission_state w e s)) w (clock e (S (ticks s))) a.

Definition reserving (w : uuid) (cls : QuotaResourceClass) (e : Env) (s : Sess) : Sess :=
  staging (fun t => on_reservations (fun l => l ++
    [new_reservation (entropy e (draws s) mod 2 ^ 128)%N w cls
       (clock e (S (S (ticks s))) + seconds (class_ttl (settings e) cls)) t]))
    (drawn 1 (ticked 2 (admission_state w e s))).

(** What the admission does: the refusal if a quota is exhausted, otherwise the
    reservation. *)
Lemma enforce_spec w cls a reserve e s :
  enforce_workspace_quota w cls a reserve e s =
    match refusal (settings e) (admission_usage w a e s) cls with
    | Some x => (Err x, (enforce_workspace_quota w cls a reserve e s).2)
    | None => (Ok tt, if reserve then reserving w cls e s else ticked 2 (admission_state w e s))
    end.
Proof.
  unfold enforce_workspace_quota.
  rewrite (bind_step _ _ _ _ _ _ (lock_spec e s)).
  rewrite (bind_step _ _ _ _ _ _ (admission_usage_spec w a e (locked e s))).
  change (usage (view (after_expiry w e (locked e s))) w (clock e (S (ticks (locked e s)))) a)
    with (admission_usage w a e s).
  unfold refusal, guard, mbind, M_bind. cbv [ask].
  destruct (_ <=? effective_pending _); [done|].
  cbv [mret M_ret datetime_now].
  destruct (class_limit _ _ <=? _); [done|]. by destruct reserve.
Qed.

#[export] Instance keeps_expire w : Keeps (expire_stale_reservations w).
Proof. unfold expire_stale_reservations. apply _. Qed.
#[export] Instance keeps_summary w : Keeps (get_workspace_quota_summary w).
Proof. unfold get_workspace_quota_summary. apply _. Qed.
#[export] Instance keeps_admission_usage w a : Keeps (get_workspace_quota_usage_for_admission w a).
Proof. unfold get_workspace_quota_usage_for_admission. destruct a; apply _. Qed.
#[export] Instance keeps_enforce w cls a r : Keeps (enforce_workspace_quota w cls a r).
Proof. unfold enforce_workspace_quota. destruct r; apply _. Qed.

(** ** The quota policy

    What a workspace uses, and when an admission is refused, from the rows and the
    settings alone: none of the definitions above is used. *)

Definition jobs_in (db : Db) (w : uuid) (states : list JobState) : Z :=
  Z.of_nat (List.length (filter (fun j => job_workspace_id j = w /\ job_state j ∈ states) (jobs db))).

Definition builds_in (db : Db) (w : uuid) : Z :=
  Z.of_nat (List.length (filter (fun r => rel_workspace_id r = w /\ rel_repository_id r <> None
    /\ (rel_status r = REQUESTED \/ rel_status r = BUILDING)) (releases db))).

(** The applications, [but] one, with a release that is served or about to be. *)
Definition services_of (rs : list Release) (w : uuid) (but : option uuid) : list uuid :=
  map rel_application_id (filter (fun r => rel_workspace_id r = w
    /\ (rel_status r = IMAGE_READY \/ rel_status r = DEPLOYING \/ rel_status r = HEALTHY)
    /\ but <> Some (rel_application_id r)) rs).
Definition services_in (db : Db) (w : uuid) (but : option uuid) : Z :=
  Z.of_nat (List.length (remove_dups (services_of (releases db) w but))).

(** The units of the live reservations of a class. *)
Definition total_units (rs : list QuotaReservation) : Z := foldr Z.add 0 (map qr_units rs).
Definition live (w : uuid) (cls : QuotaResourceClass) (now : time) (r : QuotaReservation) : Prop :=
  qr_workspace_id r = w /\ qr_resource_class r = cls /\ qr_status r = ACTIVE
  /\ now < qr_expires_at r.
#[export] Instance live_dec w cls now r : Decision (live w cls now r).
Proof. unfold live. apply _. Defined.
Definition units_held (db : Db) (w : uuid) (cls : QuotaResourceClass) (now : time) : Z :=
  total_units (filter (live w cls now) (reservations db)).

Inductive verdict :=
| Refuse (resource : string) (limit : Z) (retry_after : string)
| Admit (ttl : Z).

(** A resource of which [used] units are taken. *)
Definition capped (resource : string) (used limit : Z) (retry_after : string) (ttl : Z) : verdict :=
  if decide (used < limit) then Admit ttl else Refuse resource limit retry_after.

(** Pending operations before the class; the application to deploy is not counted
    among the services, and then no reservation is either. *)
Definition quota_policy (c : Settings) (db : Db) (w : uuid) (now : time)
    (cls : QuotaResourceClass) (application_id : option uuid) : verdict :=
  if decide (jobs_in db w [QUEUED; ADMITTED; STARTING; RUNNING; RETRY_WAIT; RECOVERY_PENDING]
             + builds_in db w < DEFAULT_WORKSPACE_PENDING_OPERATIONS c) then
    match cls with
    | CONCURRENT_JOB =>
        capped "CONCURRENT_JOB"
          (jobs_in db w [ADMITTED; STARTING; RUNNING] `max` units_held db w CONCURRENT_JOB now)
          (DEFAULT_WORKSPACE_JOB_CONCURRENCY c) "15" (DEFAULT_JOB_TIMEOUT_SECONDS c)
    | CONCURRENT_BUILD =>
        capped "CONCURRENT_BUILD"
          (builds_in db w `max` units_held db w CONCURRENT_BUILD now)
          (DEFAULT_WORKSPACE_BUILD_CONCURRENCY c) "15" (DEFAULT_BUILD_TIMEOUT_SECONDS c)
    | DEPLOYED_SERVICE =>
        capped "DEPLOYED_SERVICE"
          (match application_id with
           | None => services_in db w None `max` units_held db w DEPLOYED_SERVICE now
           | Some a => services_in db w (Some a)
           end)
          (DEFAULT_WORKSPACE_SERVICE_CAP c) "60" 86400
    end
  else Refuse "PENDING_OPERATIONS" (DEFAULT_WORKSPACE_PENDING_OPERATIONS c) "30".

(** *** The queries compute the policy's figures *)

Lemma jobs_in_count db w states :
  count_where (fun j => (job_workspace_id j =?= w) && in_ (job_state j) states) (jobs db)
  = jobs_in db w states.
Proof.
  unfold count_where, jobs_in. do 2 f_equal. apply where_filter. intros j. unfold in_. row_condition.
Qed.

Lemma builds_in_count db w : count_where (is_build w) (releases db) = builds_in db w.
Proof.
  unfold count_where, builds_in. do 2 f_equal. apply where_filter. intros r.
  unfold is_build, in_. row_condition. rewrite !elem_of_cons, elem_of_nil. rewrite <- not_eq_None_Some. tauto.
Qed.

Lemma is_service_iff w r :
  is_service w r = true <-> rel_workspace_id r = w
    /\ (rel_status r = IMAGE_READY \/ rel_status r = DEPLOYING \/ rel_status r = HEALTHY).
Proof.
  unfold is_service, in_, ACTIVE_SERVICE_RELEASE_STATUSES. row_condition.
  rewrite !elem_of_cons, elem_of_nil. tauto.
Qed.

Lemma services_in_count db w :
  count_distinct rel_application_id (where_ (is_service w) (releases db)) = services_in db w None.
Proof.
  unfold count_distinct, services_in, services_of. do 4 f_equal. apply where_filter. intros r.
  rewrite is_service_iff. intuition congruence.
Qed.

Lemma services_in_other db w a :
  count_distinct rel_application_id
    (where_ (fun r => is_service w r && (rel_application_id r <?> a)) (releases db))
  = services_in db w (Some a).
Proof.
  unfold count_distinct, services_in, services_of. do 4 f_equal. apply where_filter. intros r.
  rewrite andb_true_iff, is_service_iff, negb_true_iff, bool_decide_eq_false. intuition congruence.
Qed.

Lemma res_units_foldl rs cls n :
  foldl (fun n r => if qr_resource_class r =?= cls then n + qr_units r else n) n rs
  = n + total_units (filter (fun r => qr_resource_class r = cls) rs).
Proof.
  revert n. induction rs as [|r rs IH]; intros n; [unfold total_units; simpl; lia|].
  simpl. rewrite IH. rewrite filter_cons. unfold total_units.
  case_bool_decide; case_decide; simpl; lia || done.
Qed.

#[export] Instance total_units_proper : Proper ((≡ₚ) ==> (=)) total_units.
Proof. unfold total_units. intros rs rs' Hp. induction Hp; simpl; lia. Qed.

(** What a summary counts for a class. *)
Lemma res_units_held db w cls now :
  res_units (order_by newer_reservation (where_ (is_active_reservation w now) (reservations db))) cls
  = units_held db w cls now.
Proof.
  unfold res_units. rewrite res_units_foldl, order_by_perm, Z.add_0_l. unfold units_held. f_equal.
  rewrite (where_filter _ (fun r => qr_workspace_id r = w /\ qr_status r = ACTIVE
    /\ now < qr_expires_at r)) by (intros r; unfold is_active_reservation; row_condition; tauto).
  rewrite list_filter_filter. apply list_filter_iff. unfold live. tauto.
Qed.

(** Expiring the stale rows takes away what is no longer live at that instant. *)
Lemma units_held_expired db w cls now1 now :
  units_held (on_reservations (update_where (is_stale w now1) (expired_row now1)) db) w cls now
  = units_held db w cls (now1 `max` now).
Proof.
  unfold units_held. cbn [reservations on_reservations].
  induction (reservations db) as [|r l IH]; [done|]. unfold update_where in *. simpl.
  destruct (is_stale w now1 r) eqn:Hs; unfold is_stale in Hs.
  - assert (~ live w cls now (expired_row now1 r)) by (intros (? & ? & ? & ?); done).
    assert (~ live w cls (now1 `max` now) r) by (unfold live; bool_hyps; lia).
    by rewrite !filter_cons_False.
  - assert (live w cls (now1 `max` now) r <-> live w cls now r).
    { unfold live. split; [intuition lia|]. intros (Hw & ? & Hst & ?).
      rewrite Hw, Hst, !bool_decide_eq_true_2, !andb_true_l in Hs by done. bool_hyps. intuition lia. }
    destruct (decide (live w cls now r)).
    + rewrite !filter_cons_True by tauto. unfold total_units in *. simpl. by rewrite IH.
    + by rewrite !filter_cons_False by tauto.
Qed.

(** The figures of the admission are those of the policy on the database the
    granted lock leaves. *)
Lemma admission_figures w a e s :
  let db := view (locked e s) in
  let now := clock e (ticks s) `max` clock e (S (ticks s)) in
  let q := admission_usage w a e s in
  effective_jobs q = jobs_in db w [ADMITTED; STARTING; RUNNING] `max` units_held db w CONCURRENT_JOB now
  /\ effective_builds q = builds_in db w `max` units_held db w CONCURRENT_BUILD now
  /\ effective_services q =
       match a with
       | None => services_in db w None `max` units_held db w DEPLOYED_SERVICE now
       | Some a => services_in db w (Some a)
       end
  /\ effective_pending q =
       jobs_in db w [QUEUED; ADMITTED; STARTING; RUNNING; RETRY_WAIT; RECOVERY_PENDING]
       + builds_in db w.
Proof.
  intros db now q. unfold q, admission_usage, admission_state, after_expiry. rewrite view_executed.
  rewrite view_ticked. fold db. unfold usage. cbn [effective_jobs effective_builds
    effective_services effective_pending reservations jobs releases on_reservations].
  rewrite !jobs_in_count, !builds_in_count, services_in_count.
  change (update_where _ _ (reservations db)) with (reservations (on_reservations
    (update_where (is_stale w (clock e (ticks s))) (expired_row (clock e (ticks s)))) db)).
  rewrite !res_units_held, !units_held_expired. fold now.
  split_and!; try done. destruct a; [apply services_in_other|done].
Qed.

(** The refusals are those of the policy. *)
Lemma refusal_policy w cls a e s :
  refusal (settings e) (admission_usage w a e s) cls =
    match quota_policy (settings e) (view (locked e s)) w
            (clock e (ticks s) `max` clock e (S (ticks s))) cls a with
    | Refuse resource limit retry => Some (quota_exceeded resource limit retry)
    | Admit _ => None
    end.
Proof.
  destruct (admission_figures w a e s) as (Hj & Hb & Hs & Hp).
  unfold refusal, quota_policy. rewrite Hp.
  destruct (Z.leb_spec (DEFAULT_WORKSPACE_PENDING_OPERATIONS (settings e))
    (jobs_in (view (locked e s)) w [QUEUED; ADMITTED; STARTING; RUNNING; RETRY_WAIT; RECOVERY_PENDING]
     + builds_in (view (locked e s)) w)); case_decide; try lia; [done|].
  unfold capped. destruct cls; cbn [class_limit class_usage]; rewrite ?Hj, ?Hb, ?Hs;
    destruct (_ <=? _) eqn:E; bool_hyps; case_decide; done || lia.
Qed.

Lemma admit_ttl c db w now cls a ttl :
  quota_policy c db w now cls a = Admit ttl -> ttl = class_ttl c cls.
Proof. unfold quota_policy, capped. destruct cls; intros; cases; done. Qed.

(** An admission expires the stale rows and appends its own. *)
Lemma admission_effect w cls a reserve e s s' :
  staged s = [] ->
  enforce_workspace_quota w cls a reserve e s = (Ok tt, s') ->
  view (flushed e s') = on_reservations (fun l =>
    update_where (is_stale w (clock e (ticks s))) (expired_row (clock e (ticks s))) l
    ++ (if reserve then [new_reservation (entropy e (draws s) mod 2 ^ 128)%N w cls
          (clock e (2 + ticks s)%nat + seconds (class_ttl (settings e) cls)) (clock e (3 + ticks s)%nat)]
        else [])) (view (locked e s)).
Proof.
  intros Hst. rewrite enforce_spec. destruct (refusal _ _ _); [done|]. intros H. simplify_eq.
  unfold view, flushed. destruct reserve; simpl; rewrite Hst; simpl; rewrite !apply_all_app;
    destruct (apply_all (writes s) (rivals_lock e (committed s))); unfold on_reservations; simpl;
    unfold apply_all; simpl; by rewrite ?app_nil_r.
Qed.

(** The units held after an admission: at most one more than before, at any instant
    from the counting on. *)
Lemma units_held_admitted db w cls now1 now2 now r :
  Forall (fun r => 0 <= qr_units r) (reservations db) -> now2 <= now -> 0 <= qr_units r <= 1 ->
  units_held (on_reservations (fun l =>
    update_where (is_stale w now1) (expired_row now1) l ++ [r]) db) w cls now
  <= units_held db w cls (now1 `max` now2) + 1.
Proof.
  intros Hu Hnow Hr. trans (units_held (on_reservations
    (update_where (is_stale w now1) (expired_row now1)) db) w cls now + 1).
  - unfold units_held. cbn [reservations on_reservations]. rewrite filter_app.
    unfold total_units. rewrite fmap_app || rewrite map_app. rewrite foldr_app, filter_cons.
    assert (forall l n, foldr Z.add n (map qr_units l) = n + foldr Z.add 0 (map qr_units l)) as ->.
    { intros l. induction l as [|x l IH]; intros n; simpl; [lia|]. rewrite IH. lia. }
    case_decide; simpl; lia.
  - rewrite units_held_expired. unfold units_held. apply Zplus_le_compat_r.
    induction Hu as [|x l Hx _ IH]; [done|]. unfold total_units in *.
    destruct (decide (live w cls (now1 `max` now) x)) as [Hl|Hl].
    + assert (live w cls (now1 `max` now2) x) by (unfold live in *; intuition lia).
      rewrite !filter_cons_True by done. simpl. lia.
    + rewrite (filter_cons_False (live w cls (now1 `max` now))) by done.
      rewrite filter_cons. case_decide; simpl; lia.
Qed.

Lemma units_held_unreserved db w cls now1 now2 now :
  Forall (fun r => 0 <= qr_units r) (reservations db) -> now2 <= now ->
  units_held (on_reservations (fun l => update_where (is_stale w now1) (expired_row now1) l ++ []) db)
    w cls now
  <= units_held db w cls (now1 `max` now2) + 1.
Proof.
  intros Hu Hnow.
  pose proof (units_held_admitted db w cls now1 now2 now
    (mkReservation 0%N w cls 0 EXPIRED 0 0 0) Hu Hnow ltac:(simpl; lia)) as H.
  unfold units_held in *. cbn [reservations on_reservations] in *. rewrite app_nil_r.
  rewrite filter_app, (filter_cons_False (live w cls now)), app_nil_r in H; [done|].
  by intros (? & ? & ? & ?).
Qed.

(** Releases of one application add at most that application to the services. *)
Lemma services_of_app rs rs' w a :
  Forall (fun r => rel_application_id r = a) rs' ->
  (List.length (remove_dups (services_of (rs ++ rs') w None))
   <= S (List.length (remove_dups (services_of rs w (Some a)))))%nat.
Proof.
  intros Hrs. change (S ?n) with (List.length (a :: remove_dups (services_of rs w (Some a)))).
  apply submseteq_length, NoDup_submseteq; [apply NoDup_remove_dups|].
  intros x. rewrite elem_of_cons, !elem_of_remove_dups. unfold services_of.
  rewrite !list_elem_of_fmap. setoid_rewrite list_elem_of_filter. setoid_rewrite elem_of_app.
  intros (r & -> & Hr & Hin). destruct (decide (rel_application_id r = a)) as [|Hne]; [by left|right].
  exists r. split; [done|]. rewrite Forall_forall in Hrs. 
  split; [|destruct Hin as [|Hin]; [done|by destruct Hne; apply Hrs]].
  destruct Hr as (? & ? & _). split_and!; congruence || done.
Qed.

(** ** Properties *)

(** C30: Admission implements the quota policy: on the database that the granted lock
    leaves, [enforce_workspace_quota] raises the 429 that [quota_policy] gives for the
    first exhausted quota, with its limit and Retry-After; when the policy admits, it
    succeeds, and all it changes is that the workspace's stale reservations are EXPIRED
    and, iff asked to, that one ACTIVE reservation of one unit is added which lapses
    when the policy's time to live is over. *)
Theorem enforce_workspace_quota_refines w cls a reserve e s :
  staged s = [] ->
  let now n := clock e (n + ticks s)%nat in
  let db := view (locked e s) in
  let result := enforce_workspace_quota w cls a reserve e s in
  match quota_policy (settings e) db w (now 0%nat `max` now 1%nat) cls a with
  | Refuse resource limit retry_after =>
      result.1 = Err (HTTPException 429
        (JDict [("error_code", JStr "QUOTA_EXCEEDED");
                ("message", JStr ("Workspace quota exceeded for " +:+ resource +:+ " (limit="
                                  +:+ pretty limit +:+ ")"));
                ("resource_class", JStr resource); ("limit", JInt limit)])
        [("Retry-After", retry_after)])
  | Admit ttl =>
      result.1 = Ok tt
      /\ view (flushed e result.2) = on_reservations (fun l =>
           map (fun r =>
             if decide (qr_workspace_id r = w /\ qr_status r = ACTIVE /\ qr_expires_at r <= now 0%nat)
             then mkReservation (qr_id r) w (qr_resource_class r) (qr_units r) EXPIRED
                    (qr_expires_at r) (qr_created_at r) (now 0%nat)
             else r) l
           ++ (if reserve then
                 [mkReservation (entropy e (draws s) mod 2 ^ 128)%N w cls 1 ACTIVE
                    (now 2%nat + ttl * 1000000) (now 3%nat) (now 3%nat)]
               else [])) db
  end.
Proof.
  intros Hst now db result. pose proof (refusal_policy w cls a e s) as Href.
  fold db in Href. change (clock e (ticks s)) with (now 0%nat) in Href.
  change (clock e (S (ticks s))) with (now 1%nat) in Href.
  destruct (quota_policy _ _ _ _ _ _) as [resource limit retry|ttl] eqn:Hp.
  - unfold result. by rewrite enforce_spec, Href.
  - assert (result = (Ok tt, result.2)) as Hok by (unfold result; by rewrite enforce_spec, Href).
    split; [by rewrite Hok|]. rewrite (admission_effect w cls a reserve e s) by done.
    apply admit_ttl in Hp as ->. unfold on_reservations. f_equal. f_equal.
    apply map_ext. intros r. unfold is_stale, expired_row.
    case_decide as Hd.
    + destruct Hd as (<- & -> & ?). rewrite !bool_decide_eq_true_2 by done. simpl.
      by rewrite (proj2 (Z.leb_le _ _)) by done.
    + destruct (_ && _) eqn:E; [|done]. destruct Hd. bool_hyps. done.
Qed.

(** C10: The caps hold. After any successful admission, on the database its flush leaves:
    the jobs in progress, the running builds or the deployed services were below the
    workspace's limit, and the units of the live reservations of the class, the new one
    included, are within it, now and at every later instant; and when a named application
    is admitted to deploy, then whatever releases of it are added, the workspace does not
    serve more applications than its cap. *)
Theorem reservations_within_limit w cls application_id reserve e s s' now :
  staged s = [] ->
  Forall (fun r => 0 <= qr_units r) (reservations (view (locked e s))) ->
  clock e (S (ticks s)) <= now ->
  enforce_workspace_quota w cls application_id reserve e s = (Ok tt, s') ->
  let db := view (flushed e s') in
  match cls, application_id with
  | CONCURRENT_JOB, _ =>
      jobs_in db w [ADMITTED; STARTING; RUNNING] < DEFAULT_WORKSPACE_JOB_CONCURRENCY (settings e)
      /\ units_held db w CONCURRENT_JOB now <= DEFAULT_WORKSPACE_JOB_CONCURRENCY (settings e)
  | CONCURRENT_BUILD, _ =>
      builds_in db w < DEFAULT_WORKSPACE_BUILD_CONCURRENCY (settings e)
      /\ units_held db w CONCURRENT_BUILD now <= DEFAULT_WORKSPACE_BUILD_CONCURRENCY (settings e)
  | DEPLOYED_SERVICE, None =>
      services_in db w None < DEFAULT_WORKSPACE_SERVICE_CAP (settings e)
      /\ units_held db w DEPLOYED_SERVICE now <= DEFAULT_WORKSPACE_SERVICE_CAP (settings e)
  | DEPLOYED_SERVICE, Some a =>
      forall rs, Forall (fun r => rel_application_id r = a) rs ->
        services_in (on_releases (fun l => l ++ rs) db) w None
        <= DEFAULT_WORKSPACE_SERVICE_CAP (settings e)
  end.
Proof.
  intros Hst Hu Hnow H db. pose proof (refusal_policy w cls application_id e s) as Href.
  pose proof (admission_effect _ _ _ _ _ _ _ Hst H) as Hdb. fold db in Hdb.
  assert (units_held db w cls now <= units_held (view (locked e s)) w cls
    (clock e (ticks s) `max` clock e (S (ticks s))) + 1) as Hheld.
  { rewrite Hdb. destruct reserve; [apply units_held_admitted|apply units_held_unreserved];
      done || (simpl; lia). }
  rewrite enforce_spec in H. destruct (refusal _ _ _); [done|]. clear H.
  assert (jobs_in db w = jobs_in (view (locked e s)) w) as -> by (by rewrite Hdb).
  assert (builds_in db w = builds_in (view (locked e s)) w) as -> by (by rewrite Hdb).
  assert (releases db = releases (view (locked e s))) as Hrel by (by rewrite Hdb).
  clearbody db. clear Hdb. unfold quota_policy, capped in Href. destruct cls; cases; try lia.
  - intros rs Hrs. unfold services_in in *. cbn [releases on_releases]. rewrite Hrel.
    pose proof (services_of_app (releases (view (locked e s))) rs w u Hrs). lia.
  - unfold services_in. rewrite Hrel. fold (services_in (view (locked e s)) w None). lia.
Qed.

Lemma enforce_workspace_quota_refines_witness :
  let s := open_session (sample_db OWNER) in
  let now n := clock sample_env n in
  let r := enforce_workspace_quota sample_workspace CONCURRENT_BUILD None true sample_env s in
  staged s = []
  /\ r.1 = Ok tt
  /\ reservations (view (flushed sample_env r.2)) =
       [mkReservation 1000%N sample_workspace CONCURRENT_BUILD 1 ACTIVE
          (now 2%nat + 900 * 1000000) (now 3%nat) (now 3%nat)].
Proof.
  intros s now r. split; [reflexivity|].
  pose proof (enforce_workspace_quota_refines sample_workspace CONCURRENT_BUILD None true sample_env s
    eq_refl) as [H1 H2].
  split; [exact H1|]. etransitivity; [exact (f_equal reservations H2)|]. vm_compute. reflexivity.
Defined.

Lemma reservations_within_limit_witness :
  let s := open_session (sample_db OWNER) in
  let s1 := (enforce_workspace_quota sample_workspace CONCURRENT_JOB None true sample_env s).2 in
  let s2 := (enforce_workspace_quota sample_workspace DEPLOYED_SERVICE (Some 5%N) true sample_env s).2 in
  units_held (view (flushed sample_env s1)) sample_workspace CONCURRENT_JOB (clock sample_env 3) <= 2
  /\ forall rs, Forall (fun r => rel_application_id r = 5%N) rs ->
       services_in (on_releases (fun l => l ++ rs) (view (flushed sample_env s2)))
         sample_workspace None <= 2.
Proof.
  intros s s1 s2. split.
  - apply (reservations_within_limit sample_workspace CONCURRENT_JOB None true sample_env s s1);
      [reflexivity|constructor|vm_compute; discriminate|reflexivity].
  - apply (reservations_within_limit sample_workspace DEPLOYED_SERVICE (Some 5%N) true sample_env s s2
      (clock sample_env 3)); [reflexivity|constructor|vm_compute; discriminate|reflexivity].
Defined.

(** The reservations of deployments are not capped: an application deployed again and
    again keeps passing, as its own releases are left out and no reservation is
    counted, and each deployment holds its reservation for a day; three deployments
    of one application hold three units under a cap of two, which the quota page then
    reports as used. *)
Fixpoint admitted_again (n : nat) (a : uuid) (e : Env) (db : Db) : Db :=
  match n with
  | O => db
  | S n' =>
      let e' := reseeded (N.of_nat n) e in
      match (enforce_workspace_quota sample_workspace DEPLOYED_SERVICE (Some a) true ;; commit)
              e' (open_session db) with
      | (Ok _, s) => admitted_again n' a e (committed s)
      | (Err _, _) => db
      end
  end.

Lemma redeployments_pass_the_cap :
  let db := admitted_again 3 5%N sample_env (sample_db OWNER) in
  DEFAULT_WORKSPACE_SERVICE_CAP (settings sample_env) = 2
  /\ services_in db sample_workspace None = 0
  /\ match run (get_workspace_quotas (mkCaller "alice" JNull JNull) sample_workspace) sample_env db with
     | (Ok q, _) => deployed_services_used q = 3 /\ deployed_services_limit q = 2
     | (Err _, _) => False
     end.
Proof. vm_compute. auto. Qed.
