(* ===== verification/Gates.v ===== *)
(** * Admission gates ([core/rate_limit.py], [core/image_policy.py])

    The fixed-window rate limit of a workspace, counted in Redis, and the
    allowlist of image registries.  Redis is third-party: a request sees the
    result of its INCR through [redis]; the class [CounterStore] states what the
    limiter relies on, and the window theorem is proved against it. *)

From stdpp Require Import gmap.
From S2P Require Import Prelude PyStr Uuid Json Models Config Session Sample.
From Stdlib Require Import Ascii String.

(** ** Rate limiting *)

Definition store_unavailable : exn := http_error 503 "Rate limiter store unavailable".

(** [settings.REDIS_FAIL_CLOSED or settings.ENVIRONMENT != "development"]. *)
Definition fails_closed (c : Settings) : bool := REDIS_FAIL_CLOSED c || negb (is_development c).

Definition rate_limited (limit : Z) : exn :=
  HTTPException 429
    (JDict [("error_code", JStr "RATE_LIMITED");
            ("message", JStr ("Workspace rate limit exceeded (" +:+ pretty limit
                              +:+ " requests/minute)"));
            ("limit", JInt limit)])
    [("Retry-After", "60"); ("X-RateLimit-Limit", pretty limit); ("X-RateLimit-Remaining", "0")].

(** [int(time.time() // 60)]. *)
Definition minute_bucket (t : time) : Z := t / seconds 60.

Definition ratelimit_key (w : uuid) (route_class : string) (bucket : Z) : string :=
  "hc:ratelimit:" +:+ uuid_str w +:+ ":" +:+ route_class +:+ ":" +:+ pretty bucket.

#[global] Arguments ratelimit_key : simpl never.

(** [check_workspace_rate_limit]. *)
Definition check_workspace_rate_limit (w : uuid) (route_class : string) : M unit :=
  e ← ask;
  let c := settings e in
  let limit := RATE_LIMIT_REQUESTS_PER_MINUTE c in
  if limit <=? 0 then mret tt
  else match redis e with
  | None => guard (fails_closed c) store_unavailable
  | Some incr_expire =>
      now ← datetime_now;
      match incr_expire (ratelimit_key w route_class (minute_bucket now)) with
      | None => guard (fails_closed c) store_unavailable
      | Some current => guard (limit <? current) (rate_limited limit)
      end
  end.

#[export] Instance keeps_rate_limit w r : Keeps (check_workspace_rate_limit w r).
Proof.
  unfold check_workspace_rate_limit.
  repeat (intros; first [apply keeps_bind | apply _ | case_match]).
Qed.

(** ** Image policy *)

Definition image_policy_violation (c : Settings) (image_digest : string) : exn :=
  HTTPException 422
    (JDict [("error_code", JStr "IMAGE_POLICY_VIOLATION");
            ("message", JStr ("Image '" +:+ image_digest +:+ "' violates platform image policy."));
            ("image_digest", JStr image_digest);
            ("allowed_registries", JList (map JStr (APPROVED_IMAGE_REGISTRIES c)))]) [].

(** One pattern of the loop. *)
Definition matches_pattern (image_digest pattern : string) : bool :=
  if endswith pattern "*" then startswith image_digest (str_take (String.length pattern - 1) pattern)
  else startswith image_digest pattern.

(** [validate_image_policy]. *)
Definition validate_image_policy (image_digest : string) : M unit :=
  e ← ask;
  let allowed_patterns := APPROVED_IMAGE_REGISTRIES (settings e) in
  if bool_decide ("*" ∈ allowed_patterns) then mret tt
  else if existsb (matches_pattern image_digest) allowed_patterns then mret tt
  else raise (image_policy_violation (settings e) image_digest).

#[export] Instance keeps_image_policy d : Keeps (validate_image_policy d).
Proof.
  unfold validate_image_policy.
  repeat (intros; first [apply keeps_bind | apply _ | case_match]).
Qed.

(** The decision of the policy. *)
Definition image_allowed (c : Settings) (image_digest : string) : bool :=
  bool_decide ("*" ∈ APPROVED_IMAGE_REGISTRIES c)
  || existsb (matches_pattern image_digest) (APPROVED_IMAGE_REGISTRIES c).

Lemma validate_image_policy_spec d e s :
  validate_image_policy d e s =
    if image_allowed (settings e) d then (Ok tt, s)
    else (Err (image_policy_violation (settings e) d), s).
Proof.
  unfold validate_image_policy, image_allowed, mbind, M_bind. simpl.
  destruct (bool_decide _); [done|]. by destruct (existsb _ _).
Qed.

Lemma matches_pattern_iff d p :
  matches_pattern d p = true <->
  (exists prefix rest, p = prefix +:+ "*" /\ d = prefix +:+ rest)
  \/ (endswith p "*" = false /\ exists rest, d = p +:+ rest).
Proof.
  unfold matches_pattern. destruct (endswith p "*") eqn:E; rewrite startswith_iff; cycle 1.
  { split; [intros; by right|]. intros [(q & rest & -> & _)|[_ H]]; [|done].
    by rewrite (proj2 (endswith_iff _ _)) in E by eauto. }
  apply endswith_iff in E as [q ->]. rewrite str_length_app. simpl.
  replace (String.length q + 1 - 1)%nat with (String.length q) by lia.
  rewrite str_take_app. split; [naive_solver|].
  intros [(q' & rest & Hq & ->)|[? _]]; [|done].
  apply str_app_inj_r in Hq as ->; [by exists rest|done].
Qed.

(** ** The counter store *)

(** What the limiter relies on: INCR returns the number of increments of the key,
    this one included.  (The key names its minute and lives sixty seconds from its
    first increment, so it cannot expire while its minute lasts.) *)
Class CounterStore (S : Type) := {
  incr : string -> S -> Z * S;
  hits : string -> S -> Z;
  incr_result k s : (incr k s).1 = hits k s + 1;
  incr_hits k k' s : hits k' (incr k s).2 = hits k' s + (if bool_decide (k' = k) then 1 else 0) }.

(** A map of counters is such a store. *)
#[export] Program Instance map_store : CounterStore (gmap string Z) := {|
  incr k s := (default 0 (s !! k) + 1, <[k := default 0 (s !! k) + 1]> s);
  hits k s := default 0 (s !! k) |}.
Next Obligation. done. Qed.
Next Obligation.
  intros k k' s. simpl. case_bool_decide as E; [subst; by rewrite lookup_insert_eq|].
  rewrite lookup_insert_ne by congruence. lia.
Qed.

(** ** Serving a sequence of requests *)

Record Request := mkRequest { req_workspace : uuid; req_route : string; req_time : time }.

(** The environment of a request that arrives at [t] and whose INCR answers through [client]. *)
Definition with_redis (client : string -> option Z) (t : time) (e : Env) : Env :=
  mkEnv (settings e) (fun _ => t) (entropy e) (nonces e) (sha256_hex e) (Some client)
    (trace_context e) (rivals_lock e) (rivals_commit e).

Section Serve.
Context {St : Type} `{CS : CounterStore St}.

(** Whether the limiter lets one request through, and the store it leaves. *)
Definition serve1 (e : Env) (st : St) (r : Request) : bool * St :=
  let client k := Some (incr k st).1 in
  let outcome := (check_workspace_rate_limit (req_workspace r) (req_route r)
                    (with_redis client (req_time r) e) (open_session empty_db)).1 in
  (match outcome with Ok _ => true | Err _ => false end,
   (incr (ratelimit_key (req_workspace r) (req_route r) (minute_bucket (req_time r))) st).2).

Fixpoint serve (e : Env) (st : St) (rs : list Request) : list (Request * bool) :=
  match rs with
  | [] => []
  | r :: rs' => let (ok, st') := serve1 e st r in (r, ok) :: serve e st' rs'
  end.

Definition in_window (w : uuid) (route : string) (b : Z) (r : Request) : bool :=
  (req_workspace r =?= w) && (req_route r =?= route) && (minute_bucket (req_time r) =?= b).

(** The route classes of the handlers hold no colon. *)
Definition valid_request (r : Request) : Prop :=
  (req_workspace r < 2 ^ 128)%N
  /\ str_forallb (fun c => negb (c =?= ":"%char)) (req_route r) = true.

#[export] Instance valid_request_dec r : Decision (valid_request r).
Proof. unfold valid_request. apply _. Defined.

Lemma ratelimit_key_inj w w' route route' b b' :
  (w < 2 ^ 128)%N -> (w' < 2 ^ 128)%N ->
  str_forallb (fun c => negb (c =?= ":"%char)) route = true ->
  str_forallb (fun c => negb (c =?= ":"%char)) route' = true ->
  ratelimit_key w route b = ratelimit_key w' route' b' -> w = w' /\ route = route' /\ b = b'.
Proof.
  unfold ratelimit_key. intros Hw Hw' Hr Hr' H.
  apply str_app_inj_l in H. apply str_app_inj_length in H as [H1 H2];
    [|by rewrite !uuid_str_length].
  apply uuid_str_inj in H1; [|done..]. apply str_app_inj_l in H2.
  apply (f_equal (split1 ":"%char)) in H2.
  change (":" +:+ pretty b) with (String ":" (pretty b)) in H2.
  change (":" +:+ pretty b') with (String ":" (pretty b')) in H2.
  rewrite !split1_app in H2 by done. injection H2 as H2 H3. by apply (inj pretty) in H3.
Qed.

(** A request passes iff the count of its window was still below the limit. *)
Lemma serve1_spec e st r :
  0 < RATE_LIMIT_REQUESTS_PER_MINUTE (settings e) ->
  (serve1 e st r).1 =
    (hits (ratelimit_key (req_workspace r) (req_route r) (minute_bucket (req_time r))) st
      <? RATE_LIMIT_REQUESTS_PER_MINUTE (settings e)).
Proof.
  intros Hl. unfold serve1, check_workspace_rate_limit, mbind, M_bind. simpl.
  rewrite (proj2 (Z.leb_gt _ _)) by done. simpl. rewrite incr_result. unfold guard.
  destruct (_ <? _) eqn:E1, (hits _ _ <? _) eqn:E2; simpl; bool_hyps; lia.
Qed.

Lemma serve_window e w route b rs st :
  let limit := RATE_LIMIT_REQUESTS_PER_MINUTE (settings e) in
  0 < limit -> valid_request (mkRequest w route 0) -> Forall valid_request rs ->
  count_where (fun x => in_window w route b x.1 && x.2) (serve e st rs)
  = 0 `max` ((limit - hits (ratelimit_key w route b) st) `min` count_where (in_window w route b) rs).
Proof.
  intros limit Hl Hw Hrs. revert st. induction Hrs as [|r rs Hr Hrs IH]; intros st.
  { unfold count_where, where_. simpl. lia. }
  cbn [serve]. destruct (serve1 e st r) as [ok st'] eqn:E.
  change ((r, ok) :: serve e st' rs) with ([(r, ok)] ++ serve e st' rs).
  change (r :: rs) with ([r] ++ rs). rewrite !count_where_app, !count_where_single, IH. simpl.
  pose proof (count_where_nonneg (in_window w route b) rs).
  pose proof (serve1_spec e st r Hl) as Hok. rewrite E in Hok. simpl in Hok.
  assert (st' = (incr (ratelimit_key (req_workspace r) (req_route r) (minute_bucket (req_time r))) st).2)
    as -> by (unfold serve1 in E; by simplify_eq).
  rewrite incr_hits. fold limit in Hok. clear E IH.
  destruct (in_window w route b r) eqn:Ew; cbn [fst snd andb]; unfold in_window in Ew.
  - bool_hyps. subst w route b. rewrite bool_decide_eq_true_2 by done. subst ok.
    destruct (hits _ _ <? limit) eqn:El; bool_hyps; lia.
  - rewrite bool_decide_eq_false_2; [lia|]. intros Heq.
    destruct Hw, Hr. apply ratelimit_key_inj in Heq as (-> & -> & ->); [|done..].
    by rewrite !bool_decide_eq_true_2 in Ew by done.
Qed.
End Serve.

(** ** Properties *)

(** C18: The fixed-window limit is exact: over any sequence of requests served
    against a fresh counter store, each route class of a workspace gets as many of its
    requests of a minute through as the limit and their number allow, the lesser of the
    two, whatever is sent in between to other classes or by other workspaces: the limit
    is one per workspace, minute and route class. *)
Theorem rate_limit_window_exact `{CS : CounterStore St} e (st : St) w route b rs :
  let limit := RATE_LIMIT_REQUESTS_PER_MINUTE (settings e) in
  0 < limit -> valid_request (mkRequest w route 0) -> Forall valid_request rs ->
  (forall k, hits k st = 0) ->
  count_where (fun x => in_window w route b x.1 && x.2) (serve e st rs)
  = limit `min` count_where (in_window w route b) rs.
Proof.
  intros limit Hl Hw Hrs Hfresh. rewrite (serve_window e w route b rs st) by done.
  rewrite Hfresh. pose proof (count_where_nonneg (in_window w route b) rs). lia.
Qed.

Definition sample_requests : list Request :=
  replicate 121 (mkRequest sample_workspace "jobs.submit" sample_start)
  ++ [mkRequest 9%N "jobs.submit" sample_start; mkRequest sample_workspace "jobs.cancel" sample_start].

Lemma rate_limit_window_exact_witness :
  count_where (fun x => in_window sample_workspace "jobs.submit" (minute_bucket sample_start) x.1 && x.2)
    (serve sample_env (∅ : gmap string Z) sample_requests) = 120.
Proof.
  rewrite (rate_limit_window_exact sample_env (∅ : gmap string Z) sample_workspace "jobs.submit"
             (minute_bucket sample_start) sample_requests).
  - vm_compute. reflexivity.
  - vm_compute. reflexivity.
  - split; vm_compute; reflexivity.
  - apply (bool_decide_unpack _). vm_compute. exact I.
  - intros k. reflexivity.
Defined.

(** The counters of the route classes are apart: a workspace that has used up its
    submissions of the minute still has all of its cancellations. *)
Lemma route_classes_counted_apart :
  let in_minute route := replicate 120 (mkRequest sample_workspace route sample_start) in
  forallb snd (serve sample_env (∅ : gmap string Z) (in_minute "jobs.submit" ++ in_minute "jobs.cancel"))
  = true /\ RATE_LIMIT_REQUESTS_PER_MINUTE (settings sample_env) = 120.
Proof. split; vm_compute; reflexivity. Qed.

(** When the counter store is down (absent, or its INCR raises) the limiter
    fails closed: the request is refused with a 503 exactly when [REDIS_FAIL_CLOSED]
    is set or the environment is not development, and let through otherwise; it
    never answers 429 without a count. *)
Theorem rate_limit_store_down e s w route :
  0 < RATE_LIMIT_REQUESTS_PER_MINUTE (settings e) ->
  (forall client, redis e = Some client ->
     client (ratelimit_key w route (minute_bucket (clock e (ticks s)))) = None) ->
  (check_workspace_rate_limit w route e s).1 =
    if REDIS_FAIL_CLOSED (settings e) || negb (ENVIRONMENT (settings e) =?= "development")
    then Err store_unavailable else Ok tt.
Proof.
  intros Hl Hdown. unfold check_workspace_rate_limit, mbind, M_bind. simpl.
  rewrite (proj2 (Z.leb_gt _ _)) by done.
  assert (forall e s, (guard (fails_closed (settings e)) store_unavailable e s).1
    = if REDIS_FAIL_CLOSED (settings e) || negb (ENVIRONMENT (settings e) =?= "development")
      then Err store_unavailable else Ok tt) as Hguard.
  { intros e' s'. unfold guard, fails_closed, is_development. by destruct (_ || _). }
  destruct (redis e) as [client|]; [|apply Hguard]. simpl.
  rewrite (Hdown client eq_refl). apply Hguard.
Qed.

Lemma rate_limit_store_down_witness :
  (check_workspace_rate_limit sample_workspace "write" sample_env (open_session empty_db)).1 = Ok tt.
Proof.
  rewrite (rate_limit_store_down sample_env (open_session empty_db) sample_workspace "write").
  - reflexivity.
  - reflexivity.
  - discriminate.
Defined.

(** The image policy admits a digest iff some approved pattern covers it: the
    wildcard [*], a pattern ending in [*] whose prefix before the star the digest
    starts with, or a pattern the digest starts with.  Otherwise it raises the
    422 [IMAGE_POLICY_VIOLATION]. *)
Theorem validate_image_policy_iff digest e s :
  let allowed := APPROVED_IMAGE_REGISTRIES (settings e) in
  let covered := "*" ∈ allowed
    \/ (exists prefix rest, prefix +:+ "*" ∈ allowed /\ digest = prefix +:+ rest)
    \/ (exists p rest, p ∈ allowed /\ endswith p "*" = false /\ digest = p +:+ rest) in
  (covered -> validate_image_policy digest e s = (Ok tt, s))
  /\ (~ covered -> validate_image_policy digest e s
                   = (Err (image_policy_violation (settings e) digest), s)).
Proof.
  intros allowed covered.
  assert (covered <-> image_allowed (settings e) digest = true) as Hc.
  { unfold image_allowed. rewrite orb_true_iff, bool_decide_eq_true, existsb_exists. unfold covered.
    setoid_rewrite matches_pattern_iff. setoid_rewrite <- list_elem_of_In. naive_solver. }
  rewrite validate_image_policy_spec, Hc. by destruct (image_allowed _ _).
Qed.

Lemma validate_image_policy_iff_witness :
  validate_image_policy "ghcr.io/hami9/app:1" sample_env (open_session empty_db)
  = (Ok tt, open_session empty_db).
Proof.
  apply (proj1 (validate_image_policy_iff "ghcr.io/hami9/app:1" sample_env (open_session empty_db))).
  right. right. exists "ghcr.io/hami9/", "app:1". split; [|split; reflexivity].
  right. left.
Defined.
