(* ===== verification/Pagination.v ===== *)
(** * Cursor pagination ([core/pagination.py], and the list queries of [api/v1])

    A cursor is the base64 of the [created_at] and the id of the last row of a
    page.  Every list endpoint but one runs the same query: the rows of the
    workspace strictly after the cursor in the order (created_at desc, id desc),
    one more than the page.  [fromisoformat] is an argument: the code relies on
    its being the inverse of [isoformat]. *)

From S2P Require Import Prelude PyStr Uuid Json Models DateTime Base64 Session Sample.
From Stdlib Require Import Ascii String.

Definition invalid_cursor : exn := http_error 400 "Invalid pagination cursor".

(** [encode_cursor]. *)
Definition encode_cursor (created_at : time) (item_id : uuid) : string :=
  urlsafe_b64encode (utf8_encode (isoformat created_at +:+ "|" +:+ uuid_str item_id)).

Section Cursors.
Context (fromisoformat : string -> option IsoDateTime).

(** [decode_cursor]; [None] is any of the exceptions of the [try] block. *)
Definition decode_cursor_opt (cursor : string) : option (time * uuid) :=
  let padded := cursor +:+ String.concat "" (repeat "=" (Z.to_nat ((4 - len cursor mod 4) mod 4))) in
  bytes ← urlsafe_b64decode (utf8_encode padded);
  raw ← utf8_decode bytes;
  '(stamp, ident) ← split1 "|" raw;
  iso ← fromisoformat stamp;
  let dt := to_utc iso in
  (* [astimezone] overflows outside the years 1 to 9999; the years before 1970
     are then refused *)
  if (0 <=? dt) && (dt <? max_time) then
    u ← uuid_parse ident; Some (dt, u)
  else None.

Definition decode_cursor (cursor : string) : M (time * uuid) :=
  or_raise (decode_cursor_opt cursor) invalid_cursor.

#[export] Instance keeps_decode_cursor c : Keeps (decode_cursor c).
Proof. unfold decode_cursor. apply _. Qed.

(** ** The list query *)

Section Pages.
Context {A : Type} (created : A -> time) (ident : A -> uuid).

(** The order of a listing: newest first, ties by decreasing id. *)
Definition page_before (a b : A) : bool :=
  (created b <? created a) || ((created a =? created b) && (ident b <=? ident a)%N).

(** The rows after a cursor. *)
Definition after_cursor (c : time * uuid) (a : A) : bool :=
  (created a <? c.1) || ((created a =? c.1) && (ident a <? c.2)%N).

(** The rows of one page and the cursor of the next: [rows] is what the WHERE
    clause on the workspace selects. *)
Definition page_of (rows : list A) (limit : Z) (position : option (time * uuid))
    : list A * option string :=
  let rows := match position with Some c => where_ (after_cursor c) rows | None => rows end in
  let found := limit_ (limit + 1) (order_by page_before rows) in
  if limit <? Z.of_nat (List.length found) then
    (take (Z.to_nat limit) found,
     match found !! Z.to_nat (limit - 1) with
     | Some item => Some (encode_cursor (created item) (ident item))
     | None => None
     end)
  else (found, None).

(** The listing itself: an empty cursor counts as none. *)
Definition list_page (select : Db -> list A) (limit : Z) (cursor : option string)
    : M (list A * option string) :=
  position ← match cursor with
             | Some c => if truthy c then p ← decode_cursor c; mret (Some p) else mret None
             | None => mret None
             end;
  query (fun db => page_of (select db) limit position).

#[export] Instance keeps_list_page select limit cursor : Keeps (list_page select limit cursor).
Proof.
  unfold list_page. apply keeps_bind; [|apply _].
  repeat (intros; first [apply keeps_bind | apply _ | case_match]).
Qed.

(** A client that follows [next_cursor] until there is none. *)
Fixpoint walk (fuel : nat) (rows : list A) (limit : Z) (position : option (time * uuid))
    : option (list A) :=
  match fuel with
  | O => None
  | S fuel' =>
      match page_of rows limit position with
      | (items, None) => Some items
      | (items, Some cursor) =>
          position' ← decode_cursor_opt cursor;
          rest ← walk fuel' rows limit (Some position');
          Some (items ++ rest)
      end
  end.
End Pages.
End Cursors.

(** ** Cursors round-trip *)

(** What the code relies on: [fromisoformat] inverts [isoformat]. *)
Definition inverts_isoformat (fromisoformat : string -> option IsoDateTime) : Prop :=
  forall t, supported_time t -> fromisoformat (isoformat t) = Some (mkIso t (Some 0)).

Lemma dec_digits_forallb P w n :
  str_forallb P "0123456789" = true -> str_forallb P (dec_digits w n) = true.
Proof.
  intros HP. revert n. induction w as [|w IH]; intros n; [done|]. cbn [dec_digits].
  rewrite str_forallb_app, IH. simpl. rewrite andb_true_r.
  pose proof (Z.mod_pos_bound n 10 eq_refl).
  assert (exists d, n mod 10 = d /\ 0 <= d < 10) as (d & -> & Hd) by eauto.
  simpl in HP. rewrite !andb_true_iff in HP. destruct HP as (?&?&?&?&?&?&?&?&?&?&_).
  assert (d = 0 \/ d = 1 \/ d = 2 \/ d = 3 \/ d = 4 \/ d = 5 \/ d = 6 \/ d = 7 \/ d = 8 \/ d = 9) as Hc
    by lia.
  repeat (destruct Hc as [->|Hc]; [done|]). by subst d.
Qed.

(** Every character of an ISO timestamp is a digit or one of [-T:.+]. *)
Lemma isoformat_forallb P t :
  str_forallb P "0123456789-T:.+" = true -> str_forallb P (isoformat t) = true.
Proof.
  intros HP. assert (forall w n, str_forallb P (dec_digits w n) = true) as Hd.
  { intros. apply dec_digits_forallb. simpl in HP |- *. bool_hyps. by rewrite !andb_true_iff. }
  unfold isoformat. destruct (date_of t) as [[y m] d].
  assert (forall c, str_forallb P (String c "") = P c) as H1 by (intros; simpl; by rewrite andb_true_r).
  simpl in HP. rewrite !andb_true_iff in HP.
  destruct HP as (?&?&?&?&?&?&?&?&?&?&?&?&?&?&?&_).
  rewrite !str_forallb_app, !Hd, !H1.
  assert (str_forallb P "+00:00" = true) as ->.
  { simpl. repeat match goal with H : P _ = true |- _ => rewrite !H; clear H end. done. }
  repeat match goal with H : P _ = true |- _ => rewrite ?H; revert H end. intros. cbn [andb].
  rewrite !andb_true_r. destruct (_ =? 0); [done|]. rewrite str_forallb_app, Hd, H1.
  by rewrite andb_true_r.
Qed.

Lemma cursor_payload_ascii t u :
  str_forallb is_ascii (isoformat t +:+ "|" +:+ uuid_str u) = true.
Proof.
  by rewrite !str_forallb_app, isoformat_forallb, uuid_str_ascii by done.
Qed.

Section RoundTrip.
Context (fromisoformat : string -> option IsoDateTime) (Hiso : inverts_isoformat fromisoformat).

Lemma decode_encode_cursor t u :
  supported_time t -> (u < 2 ^ 128)%N ->
  decode_cursor_opt fromisoformat (encode_cursor t u) = Some (t, u).
Proof.
  intros Ht Hu. unfold decode_cursor_opt, encode_cursor.
  pose proof (cursor_payload_ascii t u) as Hascii.
  set (payload := isoformat t +:+ "|" +:+ uuid_str u) in *.
  rewrite (utf8_encode_ascii payload) by done.
  assert (utf8_decode payload = Some payload) as Hdec.
  { rewrite <- (utf8_encode_ascii payload) at 1 by done. apply utf8_roundtrip. }
  pose proof (b64encode_length "-" "_" payload) as Hlen.
  unfold urlsafe_b64encode. rewrite Hlen.
  change (Z.to_nat ((4 - 0) mod 4)) with 0%nat. cbn [repeat String.concat]. rewrite str_app_nil_r.
  rewrite (utf8_encode_ascii (b64encode _ _ _)) by apply b64encode_ascii.
  change (b64encode "-" "_" payload) with (urlsafe_b64encode payload).
  rewrite urlsafe_roundtrip, some_bind, Hdec, some_bind. unfold payload.
  change ("|" +:+ uuid_str u) with (String "|" (uuid_str u)).
  rewrite split1_app by (by apply isoformat_forallb).
  rewrite some_bind, Hiso, some_bind by done.
  unfold to_utc. simpl. rewrite Z.sub_0_r. destruct Ht as [H1 H2].
  rewrite (proj2 (Z.leb_le _ _)), (proj2 (Z.ltb_lt _ _)) by done. simpl.
  by rewrite uuid_parse_str.
Qed.
End RoundTrip.

(** ** Walking the pages *)

Section Walk.
Context (fromisoformat : string -> option IsoDateTime) (Hiso : inverts_isoformat fromisoformat).
Context {A : Type} (created : A -> time) (ident : A -> uuid).

Abbreviation page_before := (page_before created ident).
Abbreviation after_cursor := (after_cursor created ident).

Lemma page_before_total a b : page_before a b = true \/ page_before b a = true.
Proof.
  unfold Pagination.page_before. rewrite !orb_true_iff, !andb_true_iff, !Z.ltb_lt, !Z.eqb_eq, !N.leb_le. lia.
Qed.

Lemma page_before_trans a b c :
  page_before a b = true -> page_before b c = true -> page_before a c = true.
Proof.
  unfold Pagination.page_before. rewrite !orb_true_iff, !andb_true_iff, !Z.ltb_lt, !Z.eqb_eq, !N.leb_le. lia.
Qed.

(** [after_cursor] is strictly after in the order. *)
Lemma after_cursor_iff a b :
  after_cursor (created a, ident a) b = negb (page_before b a).
Proof.
  apply eq_true_iff_eq. unfold Pagination.page_before, Pagination.after_cursor. simpl.
  rewrite negb_true_iff, orb_false_iff, andb_false_iff, orb_true_iff, andb_true_iff,
    !Z.ltb_lt, !Z.ltb_ge, Z.eqb_eq, Z.eqb_neq, N.ltb_lt, N.leb_gt. lia.
Qed.

Context (rows : list A).
Context (Hids : NoDup (map ident rows)).
Context (Hrows : forall a, a ∈ rows -> supported_time (created a) /\ (ident a < 2 ^ 128)%N).

Lemma rows_antisym a b :
  a ∈ rows -> b ∈ rows -> page_before a b = true -> page_before b a = true -> a = b.
Proof.
  intros Ha Hb. unfold Pagination.page_before.
  rewrite !orb_true_iff, !andb_true_iff, !Z.ltb_lt, !Z.eqb_eq, !N.leb_le. intros.
  apply (NoDup_map_inj ident rows); try done. lia.
Qed.

(** The rows after the last row of a prefix of the listing are the rest of it. *)
Lemma after_prefix l x l' :
  StronglySorted (fun a b => page_before a b = true) (l ++ x :: l') ->
  (forall a b, a ∈ l ++ x :: l' -> b ∈ l ++ x :: l' ->
     page_before a b = true -> page_before b a = true -> a = b) ->
  NoDup (l ++ x :: l') ->
  where_ (after_cursor (created x, ident x)) (l ++ x :: l') = l'.
Proof.
  intros Hs Hanti Hnd. apply NoDup_app in Hnd as (_ & _ & Hnd). apply NoDup_cons in Hnd as [Hx _].
  apply StronglySorted_app in Hs as (Hl & _ & Hs). apply StronglySorted_cons in Hs as [Hs _].
  change (x :: l') with ([x] ++ l'). rewrite !where_app.
  assert (where_ (after_cursor (created x, ident x)) l = []) as ->.
  { apply where_nil_iff. intros a Ha. rewrite after_cursor_iff. apply negb_false_iff.
    apply Hl; [done|left]. }
  assert (where_ (after_cursor (created x, ident x)) [x] = []) as ->.
  { apply where_nil_iff. intros a Ha. apply list_elem_of_singleton in Ha as ->.
    rewrite after_cursor_iff. apply negb_false_iff. by destruct (page_before_total x x). }
  simpl. unfold where_. apply filter_all. intros a Ha. rewrite after_cursor_iff. apply negb_true_iff.
  destruct (page_before a x) eqn:E; [|done]. destruct Hx.
  rewrite list.Forall_forall in Hs. rewrite (Hanti x a); auto; set_solver.
Qed.
(** The rows a page query still has in front of it, in order. *)
Definition remaining (position : option (time * uuid)) : list A :=
  order_by page_before (match position with Some c => where_ (after_cursor c) rows | None => rows end).

Lemma page_of_remaining limit position :
  page_of created ident rows limit position =
    let found := limit_ (limit + 1) (remaining position) in
    if limit <? Z.of_nat (List.length found) then
      (take (Z.to_nat limit) found,
       match found !! Z.to_nat (limit - 1) with
       | Some item => Some (encode_cursor (created item) (ident item))
       | None => None
       end)
    else (found, None).
Proof. by destruct position. Qed.

(** The cursor of a row of the listing selects what follows it. *)
Lemma remaining_after l x l' :
  remaining None = l ++ x :: l' -> remaining (Some (created x, ident x)) = l'.
Proof.
  unfold remaining. intros HL.
  rewrite order_by_where;
    [|apply page_before_total|apply page_before_trans|apply rows_antisym].
  pose proof (order_by_perm page_before rows) as Hp.
  pose proof (order_by_sorted page_before page_before_total page_before_trans rows) as Hs.
  rewrite HL in *. apply after_prefix; [done| |].
  - intros a b Ha Hb. rewrite Hp in Ha, Hb. by apply rows_antisym.
  - rewrite Hp. by eapply NoDup_fmap_1.
Qed.

Lemma walk_from limit fuel done_ rest position :
  1 <= limit ->
  remaining None = done_ ++ rest -> remaining position = rest -> (List.length rest < fuel)%nat ->
  walk fromisoformat created ident fuel rows limit position = Some rest.
Proof.
  intros Hlim. revert done_ rest position.
  induction fuel as [|fuel IH]; intros done_ rest position HL Hrest Hf; [lia|].
  cbn [walk]. rewrite page_of_remaining, Hrest. cbv zeta.
  set (n := Z.to_nat limit). unfold limit_.
  replace (Z.to_nat (limit + 1)) with (S n) by lia. replace (Z.to_nat (limit - 1)) with (n - 1)%nat by lia.
  rewrite length_take. destruct (limit <? _) eqn:E; bool_hyps.
  - assert (n < List.length rest)%nat as Hlen by lia.
    rewrite lookup_take_lt by lia. rewrite take_take. replace (n `min` S n)%nat with n by lia.
    destruct (lookup_lt_is_Some_2 rest (n - 1)) as [x Hx]; [lia|]. rewrite Hx.
    assert (rest = take (n - 1) rest ++ x :: drop n rest) as Hsplit.
    { rewrite <- (take_drop_middle rest (n - 1) x Hx) at 1. do 2 f_equal. f_equal. lia. }
    assert (x ∈ rows) as Hin.
    { rewrite <- (order_by_perm page_before rows). fold (remaining None). rewrite HL, Hsplit. set_solver. }
    destruct (Hrows x Hin) as [Ht Hu]. rewrite decode_encode_cursor by done.
    rewrite some_bind. rewrite (IH (done_ ++ take n rest) (drop n rest)).
    + rewrite some_bind. by rewrite take_drop.
    + by rewrite <- app_assoc, take_drop.
    + eapply (remaining_after (done_ ++ take (n - 1) rest)). by rewrite <- app_assoc, <- Hsplit.
    + rewrite length_drop. lia.
  - f_equal. apply take_ge. lia.
Qed.
End Walk.

(** ** Properties *)

(** C13: Walking a listing by its cursors is complete and exact: with any page
    size of at least one, following [next_cursor] from the first page to the last
    ends, and the pages concatenated are all the selected rows, each once, newest
    first with ties by decreasing id. *)
Theorem pagination_complete fromisoformat {A} (created : A -> time) (ident : A -> uuid) rows limit :
  inverts_isoformat fromisoformat -> 1 <= limit ->
  NoDup (map ident rows) ->
  (forall a, a ∈ rows -> supported_time (created a) /\ (ident a < 2 ^ 128)%N) ->
  exists listing,
    walk fromisoformat created ident (S (List.length rows)) rows limit None = Some listing
    /\ listing ≡ₚ rows
    /\ StronglySorted (fun a b => page_before created ident a b = true) listing.
Proof.
  intros Hiso Hlim Hids Hrows. exists (remaining created ident rows None).
  split; [|split].
  - eapply (walk_from fromisoformat Hiso created ident rows Hids Hrows limit _ []); try done.
    unfold remaining. rewrite order_by_perm. lia.
  - apply order_by_perm.
  - apply order_by_sorted; [apply page_before_total | apply page_before_trans].
Qed.

Definition sample_jobs : list Job :=
  map (fun n => mkJob n sample_workspace "job" "sha256:0" [] [] 600 3 0 QUEUED
                  (sample_start + Z.of_N (n mod 3)) sample_start) [1; 2; 3; 4; 5; 6; 7]%N.

Lemma pagination_complete_witness :
  exists listing,
    walk fromisoformat_ext job_created_at job_id 8 sample_jobs 3 None = Some listing
    /\ map job_id listing = [5; 2; 7; 4; 1; 6; 3]%N.
Proof.
  destruct (pagination_complete fromisoformat_ext job_created_at job_id sample_jobs 3)
    as (listing & Hwalk & _ & _).
  - exact fromisoformat_isoformat.
  - lia.
  - apply (bool_decide_unpack _). vm_compute. exact I.
  - intros a Ha. repeat (apply elem_of_cons in Ha as [-> | Ha]; [split; [split|]; vm_compute; congruence|]).
    by apply not_elem_of_nil in Ha.
  - exists listing. split; [exact Hwalk|]. vm_compute in Hwalk. injection Hwalk as <-. reflexivity.
Defined.

(** A cursor round-trips: decoding the cursor of a row created between 1970
    and 9999 gives back exactly its timestamp and its id. *)
Theorem cursor_roundtrip fromisoformat t u e s :
  inverts_isoformat fromisoformat -> supported_time t -> (u < 2 ^ 128)%N ->
  decode_cursor fromisoformat (encode_cursor t u) e s = (Ok (t, u), s).
Proof. intros Hiso Ht Hu. unfold decode_cursor. by rewrite decode_encode_cursor. Qed.

Lemma cursor_roundtrip_witness :
  decode_cursor fromisoformat_ext (encode_cursor 1700000000123456 12345%N) sample_env
    (open_session empty_db) = (Ok (1700000000123456, 12345%N), open_session empty_db).
Proof.
  apply cursor_roundtrip; [exact fromisoformat_isoformat | split; vm_compute; congruence | reflexivity].
Defined.

(** A cursor is never trusted: whatever the client sends, decoding either
    answers 400 [Invalid pagination cursor] or yields an instant between 1970 and
    9999 and a 128-bit id; it raises nothing else and leaves the session alone. *)
Theorem decode_cursor_total fromisoformat cursor e s :
  decode_cursor fromisoformat cursor e s = (Err invalid_cursor, s)
  \/ exists t u, decode_cursor fromisoformat cursor e s = (Ok (t, u), s)
                 /\ supported_time t /\ (u < 2 ^ 128)%N.
Proof.
  unfold decode_cursor. destruct (decode_cursor_opt _ _) as [[t u]|] eqn:E; [right|by left].
  exists t, u. split; [done|]. unfold decode_cursor_opt in E.
  destruct (urlsafe_b64decode _) as [bytes|]; [rewrite some_bind in E|done].
  destruct (utf8_decode bytes) as [raw|]; [rewrite some_bind in E|done].
  destruct (split1 _ raw) as [[stamp id]|]; [rewrite some_bind in E|done].
  destruct (fromisoformat stamp) as [iso|]; [rewrite some_bind in E|done].
  destruct ((0 <=? to_utc iso) && _) eqn:Hr; [|done]. bool_hyps.
  destruct (uuid_parse id) as [v|] eqn:Hv; [rewrite some_bind in E|done].
  simplify_eq. split; [done|]. by eapply uuid_parse_bound.
Qed.
