(* ===== verification/Handlers.v ===== *)
(** * The shape of a mutating handler

    Every mutating endpoint authorizes, consults the idempotency record and the
    gates, stages its changes and commits them with the idempotency record.  The
    first phase only reads, takes locks and does housekeeping (it expires stale
    reservations and forgets a stale idempotency record); [prep] is that frame,
    with one lemma per step.  The last phase is [commit_idempotent_ok]. *)

From S2P Require Import Prelude PyStr Uuid Json Models Config Session Auth AuditLog Events.
From S2P Require Import Idempotency Quotas Gates.
From Stdlib Require Import String.

(** ** Housekeeping *)

Inductive expiry : (Db -> Db) -> Prop :=
| expire w now : expiry (on_reservations (update_where (is_stale w now) (expired_row now))).

Inductive housekeeping : (Db -> Db) -> Prop :=
| hk_expire f : expiry f -> housekeeping f
| hk_forget i : housekeeping (on_idempotency (delete_where (fun r => ir_id r =?= i))).

(** Every table but the reservations and the idempotency records. *)
Definition core (d : Db) : Db := on_reservations (fun _ => []) (on_idempotency (fun _ => []) d).

Lemma same_core {A} (table : Db -> A) d d' :
  (forall d, table (core d) = table d) -> core d = core d' -> table d = table d'.
Proof. intros Ht H. by rewrite <- (Ht d), H, Ht. Qed.

Lemma housekeeping_core W d : Forall housekeeping W -> core (apply_all W d) = core d.
Proof.
  intros HW. revert d. induction HW as [|f W Hf _ IH]; intros d; [done|].
  unfold apply_all in *. simpl. rewrite IH. by destruct Hf as [f []|].
Qed.

(** Housekeeping only deletes idempotency records and marks reservations. *)
Lemma housekeeping_idempotency W d r :
  Forall housekeeping W -> r ∈ idempotency (apply_all W d) -> r ∈ idempotency d.
Proof.
  intros HW. revert d. induction HW as [|f W Hf _ IH]; intros d; [done|].
  unfold apply_all in *. simpl. intros Hr. apply IH in Hr.
  destruct Hf as [f []|]; simpl in Hr; [done|]. by apply elem_of_delete_where in Hr as [? _].
Qed.

(** Expiring reservations leaves every other table alone. *)
Lemma expiry_all {A} (table : Db -> A) W d :
  (forall f d, table (on_reservations f d) = table d) ->
  Forall expiry W -> table (apply_all W d) = table d.
Proof.
  intros Ht HW. revert d. induction HW as [|f W Hf _ IH]; intros d; [done|].
  unfold apply_all in *. simpl. rewrite IH. destruct Hf. apply Ht.
Qed.

(** ** The preparation phase *)

Definition lock_step (e : Env) (d d' : Db) : Prop := d' = rivals_lock e d.

(** The session is as before but for ticks, draws, locks and writes of kind [K]. *)
Record prep (K : (Db -> Db) -> Prop) (e : Env) (s s' : Sess) : Prop := {
  prep_staged : staged s = [] -> staged s' = [];
  prep_writes : exists W, Forall K W /\ writes s' = writes s ++ W;
  prep_committed : rtc (lock_step e) (committed s) (committed s') }.

Section Prep.
Context (K : (Db -> Db) -> Prop) (e : Env).

#[export] Instance prep_preorder : PreOrder (prep K e).
Proof.
  split.
  - intros s. split; [done| |apply rtc_refl]. exists []. by rewrite app_nil_r.
  - intros s1 s2 s3 [H1 (W1 & HW1 & E1) R1] [H2 (W2 & HW2 & E2) R2].
    split; [auto| |by etrans]. exists (W1 ++ W2).
    rewrite E2, E1, app_assoc. split; [|done]. by apply Forall_app.
Qed.

Lemma prep_refl s : prep K e s s.
Proof. reflexivity. Qed.
Lemma prep_ticked n s : prep K e s (ticked n s).
Proof. split; [done| |apply rtc_refl]. exists []. by rewrite app_nil_r. Qed.
Lemma prep_locked s : prep K e s (locked e s).
Proof. split; [done| |by apply rtc_once]. exists []. by rewrite app_nil_r. Qed.
Lemma prep_executed w s : K w -> prep K e s (executed w s).
Proof. intros Hw. split; [done| |apply rtc_refl]. exists [w]. split; [by constructor|done]. Qed.
End Prep.
#[export] Hint Resolve prep_refl prep_ticked prep_locked : hami.

(** When no other transaction interferes with the locks, the database stays. *)
Lemma lock_step_id e d d' :
  (forall d, rivals_lock e d = d) -> rtc (lock_step e) d d' -> d' = d.
Proof. intros Hid. induction 1 as [|d1 d2 d3 -> _ IH]; [done|]. by rewrite IH, Hid. Qed.

(** ** One lemma per step of the preparation *)

(** Read off a finished computation. *)
Ltac done_run H := rewrite ?ret_spec, ?raise_spec in H; simplify_eq/=.

Lemma authorize_ok caller w role detail e s m s' :
  authorize_workspace_access caller w role detail e s = (Ok m, s') ->
  s' = s /\ access (view s) caller w role detail = Ok m.
Proof. rewrite authorize_spec. intros H. by simplify_eq. Qed.

Lemma image_policy_ok digest e s a s' :
  validate_image_policy digest e s = (Ok a, s') ->
  s' = s /\ image_allowed (settings e) digest = true.
Proof. rewrite validate_image_policy_spec. destruct (image_allowed _ _); intros; by simplify_eq. Qed.

(** The hash of a request body. *)
Definition body_hash (e : Env) (body : json) : string := sha256_hex e (dumps body).

Lemma payload_hash_some b e s : compute_payload_hash (Some b) e s = (Ok (body_hash e b), s).
Proof. done. Qed.
Lemma payload_hash_none e s : compute_payload_hash None e s = (Ok (body_hash e (JDict [])), s).
Proof. done. Qed.

Lemma guard_ok c x e s a s' : guard c x e s = (Ok a, s') -> s' = s /\ c = false.
Proof. unfold guard. destruct c; intros H; by done_run H. Qed.

Lemma or_raise_ok {A} (o : option A) x e s a s' :
  or_raise o x e s = (Ok a, s') -> s' = s /\ o = Some a.
Proof. destruct o; simpl; intros H; by done_run H. Qed.

Lemma one_or_none_some {A} (l : list A) a : one_or_none l = Ok (Some a) -> l = [a].
Proof. destruct l as [|? []]; intros; by simplify_eq/=. Qed.

Lemma select_one_ok {A} (t : Db -> list A) P e s o s' :
  select_one t P e s = (Ok o, s') -> s' = s /\ one_or_none (where_ P (t (view s))) = Ok o.
Proof. rewrite select_one_spec. intros H. by simplify_eq. Qed.

Lemma scalar_one_ok {A} (l : list A) e s a s' :
  scalar_one l e s = (Ok a, s') -> s' = s /\ l = [a].
Proof. destruct l as [|? []]; simpl; intros H; by done_run H. Qed.

Lemma rate_limit_ok w route e s a s' :
  check_workspace_rate_limit w route e s = (Ok a, s') -> exists n, s' = ticked n s.
Proof.
  unfold check_workspace_rate_limit, mbind, M_bind. simpl. intros H.
  destruct (_ <=? 0); [exists 0%nat; done_run H; by destruct s'|].
  destruct (redis e) as [f|].
  - simpl in H. exists 1%nat. destruct (f _); by apply guard_ok in H as [-> _].
  - exists 0%nat. apply guard_ok in H as [-> _]. by destruct s.
Qed.

Lemma enforce_ok w cls a e s x s' :
  enforce_workspace_quota w cls a false e s = (Ok x, s') ->
  s' = ticked 2 (admission_state w e s)
  /\ refusal (settings e) (admission_usage w a e s) cls = None.
Proof. rewrite enforce_spec. destruct (refusal _ _ _); intros; by simplify_eq/=. Qed.

Lemma enforce_reserve_ok w cls a e s x s' :
  enforce_workspace_quota w cls a true e s = (Ok x, s') ->
  s' = reserving w cls e s
  /\ refusal (settings e) (admission_usage w a e s) cls = None.
Proof. rewrite enforce_spec. destruct (refusal _ _ _); intros; by simplify_eq/=. Qed.

Lemma prep_admission e w s n : prep expiry e s (ticked n (admission_state w e s)).
Proof.
  etrans; [apply prep_locked|]. etrans; [apply prep_ticked|].
  etrans; [apply prep_executed, expire|]. apply prep_ticked.
Qed.
#[export] Hint Resolve prep_admission : hami.

(** ** The idempotency record *)

(** A live answer to a key: the record under it was made for the same request
    and stores [resp]. *)
Definition answered (d : Db) (w : uuid) (ep key hash : string)
    (resp : AcceptedOperationResponse) : Prop :=
  exists r, where_ (is_idempotency_key w ep key) (idempotency d) = [r]
    /\ ir_request_hash r = hash /\ stored_response (ir_response_body r) = Ok resp.

Lemma check_idempotency_some w ep key h e s resp s' :
  check_idempotency w ep key h e s = (Ok (Some resp), s') ->
  s' = ticked 1 s /\ answered (view s) w ep key h resp.
Proof.
  unfold check_idempotency. intros H. rewrite (bind_step _ _ _ _ _ _ (now_spec e s)) in H.
  erewrite bind_step in H by apply select_one_spec. rewrite view_ticked in H.
  destruct (where_ _ _) as [|r []] eqn:Hw; simpl in H; [by done_run H| |done].
  destruct (_ <=? _).
  - inv_bind H. inv_bind H. by done_run H.
  - case_bool_decide; [|by done_run H]. inv_bind H. unfold lift in Hstep. done_run H.
    split; [done|]. by exists r.
Qed.

(** No record holds the key. *)
Definition key_free (d : Db) (w : uuid) (ep key : string) : Prop :=
  where_ (is_idempotency_key w ep key) (idempotency d) = [].

Lemma check_idempotency_none w ep key h e s s' :
  staged s = [] -> check_idempotency w ep key h e s = (Ok None, s') ->
  prep housekeeping e s s' /\ (key_free (view s) w ep key -> s' = ticked 1 s).
Proof.
  unfold check_idempotency, key_free. intros Hst H.
  rewrite (bind_step _ _ _ _ _ _ (now_spec e s)) in H.
  erewrite bind_step in H by apply select_one_spec. rewrite view_ticked in H.
  destruct (where_ _ _) as [|r []] eqn:Hw; simpl in H; [done_run H; by split; [apply prep_ticked|]| |done].
  split; [|done]. destruct (_ <=? _).
  - inv_bind H. rewrite stage_spec in Hstep. simplify_eq. inv_bind H.
    apply flush_ok in Hstep as [-> _]. done_run H. split; [done| |apply rtc_refl].
    simpl. rewrite Hst. exists [on_idempotency (delete_where (fun r' => ir_id r' =?= ir_id r))].
    split; [|done]. constructor; [|constructor]. apply hk_forget.
  - case_bool_decide; [|by done_run H]. inv_bind H. by done_run H.
Qed.

Lemma check_idempotency_none_core w ep key h e s s' :
  staged s = [] -> check_idempotency w ep key h e s = (Ok None, s') -> core (view s') = core (view s).
Proof.
  unfold check_idempotency. intros Hst H. rewrite (bind_step _ _ _ _ _ _ (now_spec e s)) in H.
  erewrite bind_step in H by apply select_one_spec. rewrite view_ticked in H.
  destruct (where_ _ _) as [|r []] eqn:Hw; simpl in H; [by done_run H| |done].
  destruct (_ <=? _).
  - inv_bind H. rewrite stage_spec in Hstep. simplify_eq. inv_bind H.
    apply flush_ok in Hstep as [-> _]. done_run H. unfold view. simpl.
    by rewrite Hst, apply_all_app.
  - case_bool_decide; [|by done_run H]. inv_bind H. by done_run H.
Qed.

(** The preparation of a request on a free key, or not: the writes before the
    staging phase. *)
Lemma prep_request e db w ep key s s1 :
  prep housekeeping e (open_session db) s ->
  (key_free db w ep key -> s = ticked 1 (open_session db)) ->
  prep expiry e s s1 ->
  staged s1 = [] /\ rtc (lock_step e) db (committed s1)
  /\ Forall housekeeping (writes s1) /\ (key_free db w ep key -> Forall expiry (writes s1)).
Proof.
  intros [H1 (W1 & HW1 & E1) R1] Hfree [H2 (W2 & HW2 & E2) R2]. simpl in *.
  split; [auto|]. split; [by etrans|]. rewrite E2, E1. simpl. split.
  - apply Forall_app. split; [done|]. by eapply Forall_impl; [exact HW2|apply hk_expire].
  - intros Hf. rewrite (Hfree Hf) in E1. simpl in E1. subst W1. done.
Qed.

(** ** The staging phase *)

Definition audit_row (id : uuid) (w : option uuid) (actor action target_type target_id : string)
    (details : list (string * json)) (t : time) : AuditEvent :=
  mkAuditEvent id w actor action target_type target_id "SUCCESS"
    (JDict (sanitize_audit_details details)) t.

Lemma record_audit_spec w actor action tt' tid details e s :
  record_audit_event w actor action tt' tid details e s =
    (Ok tt, staging (fun t => on_audit_events (fun l => l ++
       [audit_row (entropy e (draws s) mod 2 ^ 128)%N w actor action tt' tid details t]))
       (drawn 1 s)).
Proof. done. Qed.

Definition event_row (id eid w : uuid) (topic : OutboxTopic) (payload : list (string * json))
    (headers : list (string * string)) (t : time) : OutboxEvent :=
  mkOutboxEvent id eid w 1 (topic_value topic) (JDict payload) headers PENDING 0 None None t t.

Lemma create_event_spec w topic payload headers eid e s :
  create_outbox_event w topic payload headers (Some eid) e s =
    (Ok (event_row (entropy e (draws s) mod 2 ^ 128)%N eid w topic payload
           (dict_update (dict_update [] (trace_context e)) headers)), drawn 1 s).
Proof. done. Qed.

Lemma create_fresh_event_spec w topic payload headers e s :
  create_outbox_event w topic payload headers None e s =
    (Ok (event_row (entropy e (draws s) mod 2 ^ 128)%N (entropy e (draws (drawn 1 s)) mod 2 ^ 128)%N
           w topic payload (dict_update (dict_update [] (trace_context e)) headers)), drawn 2 s).
Proof. done. Qed.

Definition record_row (id w : uuid) (ep key h : string) (code : Z) (op : uuid) (expires t : time)
    : IdempotencyRecord :=
  mkIdempotencyRecord id w ep key h code (response_data op) expires t t.

Lemma add_idempotency_spec w ep key h code op e s :
  add_idempotency_record w ep key h code op e s =
    (Ok tt, staging (fun t => on_idempotency (fun l => l ++
       [record_row (entropy e (draws s) mod 2 ^ 128)%N w ep key h code op
          (clock e (ticks s) + hours 24) t])) (ticked 1 (drawn 1 s))).
Proof. done. Qed.

(** ** The commit *)

Lemma published_eq e s :
  published e s = apply_all (map (fun w => w (clock e (ticks s))) (staged s))
                    (apply_all (writes s) (rivals_commit e (committed s))).
Proof. unfold published, view, flushed, after_rivals. simpl. apply apply_all_app. Qed.

(** Either the transaction is published whole, or it lost the race for its key
    and publishes nothing, answering with the winner's response. *)
Lemma commit_idempotent_ok w ep key h op e s r s' :
  commit_idempotent w ep key h op e s = (Ok r, s') ->
  (r = accepted op /\ committed s' = published e s /\ integrity (published e s))
  \/ (answered (rivals_commit e (committed s)) w ep key h r
      /\ committed s' = rivals_commit e (committed s)).
Proof.
  unfold commit_idempotent, catch_integrity, mbind at 1, M_bind at 1.
  destruct (commit e s) as [[u|x] s1] eqn:Hc.
  - apply commit_ok in Hc as [-> Hi]. intros H. done_run H. by left.
  - intros H. right.
    assert (committed s1 = rivals_commit e (committed s)) as Hs1.
    { rewrite commit_spec, flush_spec in Hc.
      destruct (negb _); [by simplify_eq|]. destruct (violated _); by simplify_eq. }
    destruct x; try done. unfold handle_idempotency_race in H.
    inv_bind H. unfold rollback in Hstep. simplify_eq. destruct (negb _); [by done_run H|].
    erewrite bind_step in H by apply select_one_spec.
    unfold view in H. simpl in H. rewrite Hs1 in *. unfold apply_all in H. simpl in H.
    destruct (where_ _ _) as [|rec []] eqn:Hw; simpl in H; [by done_run H| |done].
    case_bool_decide; [|by done_run H]. unfold lift in H. simplify_eq.
    split; [by exists rec|done].
Qed.

Lemma add_event_spec mk e s :
  add_outbox_event mk e s = (Ok tt, staging (fun t => on_outbox (fun l => l ++ [mk t])) s).
Proof. done. Qed.

(** Symbolic execution of the steps whose result is known. *)
Ltac run_steps H :=
  repeat first
    [ rewrite (bind_step _ _ _ _ _ _ (uuid4_spec _ _)) in H
    | rewrite (bind_step _ _ _ _ _ _ (now_spec _ _)) in H
    | rewrite (bind_step _ _ _ _ _ _ (ask_spec _ _)) in H
    | rewrite (bind_step _ _ _ _ _ _ (stage_spec _ _ _)) in H
    | rewrite (bind_step _ _ _ _ _ _ (ret_spec _ _ _)) in H
    | rewrite (bind_step _ _ _ _ _ _ (lock_spec _ _)) in H
    | rewrite (bind_step _ _ _ _ _ _ (query_spec _ _ _)) in H
    | rewrite (bind_step _ _ _ _ _ _ (payload_hash_some _ _ _)) in H
    | rewrite (bind_step _ _ _ _ _ _ (payload_hash_none _ _)) in H
    | rewrite (bind_step _ _ _ _ _ _ (record_audit_spec _ _ _ _ _ _ _ _)) in H
    | rewrite (bind_step _ _ _ _ _ _ (create_event_spec _ _ _ _ _ _ _)) in H
    | rewrite (bind_step _ _ _ _ _ _ (create_fresh_event_spec _ _ _ _ _ _)) in H
    | rewrite (bind_step _ _ _ _ _ _ (add_event_spec _ _ _)) in H
    | rewrite (bind_step _ _ _ _ _ _ (add_idempotency_spec _ _ _ _ _ _ _ _)) in H ].

Ltac run_steps_goal :=
  repeat first
    [ rewrite (bind_step _ _ _ _ _ _ (uuid4_spec _ _))
    | rewrite (bind_step _ _ _ _ _ _ (now_spec _ _))
    | rewrite (bind_step _ _ _ _ _ _ (stage_spec _ _ _))
    | rewrite (bind_step _ _ _ _ _ _ (record_audit_spec _ _ _ _ _ _ _ _))
    | rewrite (bind_step _ _ _ _ _ _ (create_event_spec _ _ _ _ _ _ _))
    | rewrite (bind_step _ _ _ _ _ _ (add_event_spec _ _ _))
    | rewrite (bind_step _ _ _ _ _ _ (add_idempotency_spec _ _ _ _ _ _ _ _)) ].

(** The next step of a successful run, read through its lemma. *)
Tactic Notation "step" hyp(H) "with" constr(lem) "as" simple_intropattern(p) :=
  let Hs := fresh in
  apply bind_ok_inv in H; destruct H as (? & ? & Hs & H); apply lem in Hs; revert Hs; intros p.

Lemma record_row_key id w ep key h code op expires t :
  is_idempotency_key w ep key (record_row id w ep key h code op expires t) = true.
Proof. unfold is_idempotency_key, record_row. simpl. by rewrite !bool_decide_eq_true_2. Qed.

(** Evaluate a lookup in a literal dictionary. *)
Ltac dict_lookup :=
  cbn [dict_get dict_items ob_payload_json event_row];
  repeat (rewrite bool_decide_eq_true_2 by done || rewrite bool_decide_eq_false_2 by done).

(** A request that stages its changes and commits: what it leaves, once the
    preparation is described by [prep_request]. *)
Lemma commit_request_at db w ep key h op e s1 s r s' :
  staged s1 = [] /\ rtc (lock_step e) db (committed s1)
    /\ Forall housekeeping (writes s1) /\ (key_free db w ep key -> Forall expiry (writes s1)) ->
  committed s = committed s1 -> writes s = writes s1 ->
  commit_idempotent w ep key h op e s = (Ok r, s') ->
  (r = accepted op /\ integrity (committed s') /\
    exists W t, Forall housekeeping W /\ (key_free db w ep key -> Forall expiry W)
      /\ committed s' = apply_all (map (fun c => c t) (staged s))
                          (apply_all W (rivals_commit e (committed s1))))
  \/ (committed s' = rivals_commit e (committed s1) /\ answered (committed s') w ep key h r).
Proof.
  intros (_ & Hl & HW & Hf) Hc Hw H.
  apply commit_idempotent_ok in H as [(-> & Hp & Hi)|[Hans Hp]].
  - left. rewrite Hp at 1. split; [done|]. split; [done|].
    exists (writes s1), (clock e (ticks s)). by rewrite Hp, published_eq, Hc, Hw.
  - right. rewrite Hp, Hc in *. done.
Qed.

Lemma commit_request db w ep key h op e s1 s r s' :
  staged s1 = [] /\ rtc (lock_step e) db (committed s1)
    /\ Forall housekeeping (writes s1) /\ (key_free db w ep key -> Forall expiry (writes s1)) ->
  committed s = committed s1 -> writes s = writes s1 ->
  commit_idempotent w ep key h op e s = (Ok r, s') ->
  exists d0, rtc (lock_step e) db d0 /\
  ((r = accepted op /\ integrity (committed s') /\
    exists W t, Forall housekeeping W /\ (key_free db w ep key -> Forall expiry W)
      /\ committed s' = apply_all (map (fun c => c t) (staged s)) (apply_all W (rivals_commit e d0)))
   \/ (committed s' = rivals_commit e d0 /\ answered (committed s') w ep key h r)).
Proof.
  intros Hp Hc Hw H. exists (committed s1). split; [apply Hp|]. by eapply commit_request_at.
Qed.

(** ** Uniqueness from integrity *)

Lemma first_violated_none cs : first_violated cs = None <-> Forall (fun c => c.2 = true) cs.
Proof.
  induction cs as [|[n []] cs IH]; simpl.
  - split; [constructor|done].
  - rewrite IH. split; [by constructor|]. intros H. by inversion H.
  - split; [done|]. intros H. by inversion H.
Qed.

Lemma integrity_constraint db name b :
  integrity db -> (name, b) ∈ constraints db -> b = true.
Proof.
  intros [Hv _] Hin. apply first_violated_none in Hv. rewrite list.Forall_forall in Hv.
  exact (Hv _ Hin).
Qed.

(** At most one record per idempotency key. *)
Lemma integrity_key_unique db l rec r w ep key :
  integrity db -> idempotency db = l ++ [rec] -> r ∈ l ->
  is_idempotency_key w ep key r = true -> is_idempotency_key w ep key rec = true -> False.
Proof.
  intros Hi Hl Hr H1 H2.
  assert (unique (fun r => (ir_workspace_id r, ir_endpoint r, ir_key r)) (idempotency db) = true) as Hu.
  { eapply (integrity_constraint db "uq_idempotency_workspace_key"); [done|].
    unfold constraints. set_solver. }
  unfold unique in Hu. bool_hyps. rewrite Hl in Hu. apply NoDup_map_app_single in Hu as [_ Hu].
  apply Hu, list_elem_of_In, in_map_iff. exists r. split; [|by apply list_elem_of_In].
  unfold is_idempotency_key in H1, H2. bool_hyps. congruence.
Qed.

(** ** Callers without a membership *)


(** The caller has no membership in the workspace. *)
Definition stranger (db : Db) (caller : Caller) (w : uuid) : Prop :=
  forall m, m ∈ memberships db -> is_membership_of w (subject caller) m = false.

Lemma authorize_stranger caller w role detail e s :
  stranger (view s) caller w ->
  authorize_workspace_access caller w role detail e s = (Err (http_error 404 detail), s).
Proof. intros H. by rewrite authorize_spec, access_stranger. Qed.

(** The prefix of every endpoint on a single row: missing and foreign rows are
    answered alike. *)
Lemma foreign_row {A B} (table : Db -> list A) P (ws : A -> uuid) caller role detail
    (k : A -> M B) e s :
  (forall r, where_ P (table (view s)) = [r] -> stranger (view s) caller (ws r)) ->
  (List.length (where_ P (table (view s))) <= 1)%nat ->
  (found ← select_one table P; row ← or_raise found (http_error 404 detail);
   authorize_workspace_access caller (ws row) role detail ;; k row) e s
  = (Err (http_error 404 detail), s).
Proof.
  intros Hstr Hlen. erewrite bind_step by apply select_one_spec.
  destruct (where_ P (table (view s))) as [|r []]; [done| |simpl in Hlen; lia].
  simpl one_or_none. cbv iota. simpl or_raise. erewrite bind_ok by reflexivity.
  erewrite bind_err by (apply authorize_stranger; by apply Hstr). done.
Qed.

(** ** Automation for the frame of a whole handler *)

(** [Keeps m] for a computation that never commits. *)
Ltac solve_keeps :=
  lazymatch goal with
  | |- forall _, _ => intros; solve_keeps
  | |- Keeps (mbind _ _) => apply keeps_bind; solve_keeps
  | |- Keeps (match ?x with _ => _ end) => destruct x; solve_keeps
  | |- _ => apply _
  end.

(** [Atomic m]: nothing can raise after the commit. *)
Ltac solve_atomic :=
  lazymatch goal with
  | |- forall _, _ => intros; solve_atomic
  | |- Atomic (mbind _ _) =>
      first [ apply atomic_bind; [solve [solve_keeps]|]; solve_atomic
            | apply atomic_bind_ret; solve_atomic ]
  | |- Atomic (match ?x with _ => _ end) => destruct x; solve_atomic
  | |- _ => first [ apply atomic_commit_idempotent | apply atomic_commit | apply _ ]
  end.

(** [Preserves I m]. *)
Ltac solve_preserves :=
  lazymatch goal with
  | |- forall _, _ => intros; solve_preserves
  | |- Preserves _ (mbind _ _) =>
      apply preserves_bind; [first [apply preserves_keeps; solve [solve_keeps] | solve_preserves]|];
      solve_preserves
  | |- Preserves _ (match ?x with _ => _ end) => destruct x; solve_preserves
  | |- _ => apply _
  end.

(** ** A caller for the witnesses *)

Definition alice : Caller := mkCaller "alice" JNull JNull.
Definition mallory : Caller := mkCaller "mallory" JNull JNull.

Lemma catch_integrity_ok {A} (m : M A) h e s a s' :
  catch_integrity m h e s = (Ok a, s') ->
  m e s = (Ok a, s') \/ exists c s1, m e s = (Err (IntegrityError c), s1) /\ h c e s1 = (Ok a, s').
Proof.
  unfold catch_integrity. destruct (m e s) as [[b|x] s1] eqn:E; [by left|].
  destruct x; try done. right. by exists constraint_name, s1.
Qed.

(** ** Invariants of the committed database

    [leaves I e s m]: run from [s], the computation leaves a committed database
    with [I], whether it returns or raises. *)

Section Leaves.
Context (I : Db -> Prop) (e : Env).
Context (HL : forall d, I d -> I (rivals_lock e d)) (HC : forall d, I d -> I (rivals_commit e d)).

Definition leaves {A} (s : Sess) (m : M A) : Prop := I (committed (m e s).2).

Lemma rivals_leave d d' : rtc (rival_step e) d d' -> I d -> I d'.
Proof. induction 1 as [|d1 d2 d3 [->| ->] _ IH]; [done| |]; intros Hd; apply IH; auto. Qed.
Lemma locks_leave d d' : rtc (lock_step e) d d' -> I d -> I d'.
Proof. induction 1 as [|d1 d2 d3 -> _ IH]; [done|]. intros Hd; apply IH; auto. Qed.

Lemma leaves_keeps {A} s (m : M A) : Keeps m -> I (committed s) -> leaves s m.
Proof. intros Hm. apply rivals_leave, Hm. Qed.

Lemma leaves_bind {A B} s (m : M A) (f : A -> M B) :
  Keeps m -> I (committed s) ->
  (forall a s', m e s = (Ok a, s') -> I (committed s') -> leaves s' (f a)) -> leaves s (m ≫= f).
Proof.
  intros Hm Hs Hf. pose proof (leaves_keeps s m Hm Hs) as H. unfold leaves, mbind, M_bind in *.
  destruct (m e s) as [[a|x] s']; [|done]. by apply Hf.
Qed.

(** The commit publishes, or fails leaving the interference of others. *)
Lemma leaves_commit s :
  I (committed s) -> (integrity (published e s) -> I (published e s)) -> leaves s commit.
Proof.
  intros Hs Hp. unfold leaves. destruct (commit e s) as [[u|x] s'] eqn:E.
  - apply commit_ok in E as [-> Hi]. by apply Hp.
  - eapply rivals_leave; [by eapply atomic_commit|done].
Qed.

Lemma leaves_commit_then {B} s (f : unit -> M B) :
  (forall u, Keeps (f u)) ->
  I (committed s) -> (integrity (published e s) -> I (published e s)) -> leaves s (commit ≫= f).
Proof.
  intros Hf Hs Hp. pose proof (leaves_commit s Hs Hp) as H. unfold leaves, mbind, M_bind in *.
  destruct (commit e s) as [[u|x] s']; [|done]. by apply leaves_keeps.
Qed.
End Leaves.

(** ** Computations that only read *)

(** The computation leaves the session as it is. *)
Class Still {A} (m : M A) := still : forall e s, (m e s).2 = s.

#[export] Instance still_ret {A} (a : A) : Still (mret a).
Proof. done. Qed.
#[export] Instance still_raise {A} x : Still (@raise A x).
Proof. done. Qed.
#[export] Instance still_ask : Still ask.
Proof. done. Qed.
#[export] Instance still_query {A} (f : Db -> A) : Still (query f).
Proof. done. Qed.
#[export] Instance still_guard c x : Still (guard c x).
Proof. by destruct c. Qed.
#[export] Instance still_or_raise {A} (o : option A) x : Still (or_raise o x).
Proof. by destruct o. Qed.
#[export] Instance still_scalar_one {A} (l : list A) : Still (scalar_one l).
Proof. by destruct l as [|? []]. Qed.
#[export] Instance still_select_one {A} (t : Db -> list A) P : Still (select_one t P).
Proof. intros e s. by rewrite select_one_spec. Qed.
#[export] Instance still_authorize c w r d : Still (authorize_workspace_access c w r d).
Proof. intros e s. by rewrite authorize_spec. Qed.
#[export] Instance still_bind {A B} (m : M A) (f : A -> M B) :
  Still m -> (forall a, Still (f a)) -> Still (m ≫= f).
Proof.
  intros Hm Hf e s. specialize (Hm e s). unfold mbind, M_bind.
  destruct (m e s) as [[a|x] s1]; simpl in *; subst; [apply Hf|done].
Qed.

Ltac solve_still :=
  lazymatch goal with
  | |- forall _, _ => intros; solve_still
  | |- Still (mbind _ _) => apply still_bind; solve_still
  | |- Still (match ?x with _ => _ end) => destruct x; solve_still
  | |- _ => apply _
  end.

(** A reading step fails on the spot or goes on from the same session. *)
Lemma still_step {A B} (m : M A) (f : A -> M B) e s :
  Still m ->
  (exists x, (m ≫= f) e s = (Err x, s))
  \/ exists a, m e s = (Ok a, s) /\ (m ≫= f) e s = f a e s.
Proof.
  intros Hm. specialize (Hm e s). destruct (m e s) as [[a|x] s1] eqn:E; simpl in Hm; subst;
    rewrite (bind_step _ _ _ _ _ _ E); [right|left]; by eexists.
Qed.

(** ** Losing the race for a key *)

(** The environment in which a rival's commit also leaves a record. *)
Definition and_record (rec : IdempotencyRecord) (e : Env) : Env :=
  mkEnv (settings e) (clock e) (entropy e) (nonces e) (sha256_hex e) (redis e) (trace_context e)
    (rivals_lock e) (fun d => on_idempotency (fun l => l ++ [rec]) (rivals_commit e d)).

Lemma unique_true {A K} `{EqDecision K} (f : A -> K) l : NoDup (map f l) -> unique f l = true.
Proof. intros H. by apply bool_decide_eq_true_2. Qed.

(** A second record under the key is all that is wrong with the database. *)
Lemma violated_by_record db L rec new :
  integrity db -> idempotency db = L ++ [new] ->
  NoDup (map ir_id (L ++ [rec])) -> ir_id rec <> ir_id new ->
  (ir_workspace_id rec, ir_endpoint rec, ir_key rec) = (ir_workspace_id new, ir_endpoint new, ir_key new) ->
  violated (on_idempotency (fun _ => L ++ [rec; new]) db) = Some "uq_idempotency_workspace_key".
Proof.
  intros Hi Hdb Hrec Hne Hkey.
  assert (unique ir_id (L ++ [rec; new]) = true) as Hids.
  { assert (unique ir_id (idempotency db) = true) as H
      by (eapply (integrity_constraint db "idempotency_records_pkey"); [done|unfold constraints; set_solver]).
    unfold unique in H. bool_hyps. rewrite Hdb in H. apply NoDup_map_app_single in H as [_ H].
    apply unique_true. change [rec; new] with ([rec] ++ [new]). rewrite app_assoc.
    apply NoDup_map_app_single. split; [done|]. rewrite map_app, elem_of_app. intros [Hin|Hin]; [done|].
    apply list_elem_of_singleton in Hin. congruence. }
  assert (unique (fun r => (ir_workspace_id r, ir_endpoint r, ir_key r)) (L ++ [rec; new]) = false) as Hdup.
  { apply bool_decide_eq_false_2. change [rec; new] with ([rec] ++ [new]). rewrite app_assoc.
    intros [_ Hn]%NoDup_map_app_single. apply Hn. rewrite map_app, elem_of_app. right.
    apply list_elem_of_singleton. by rewrite Hkey. }
  destruct Hi as [Hv _]. unfold violated, constraints in *.
  apply first_violated_none in Hv.
  repeat (apply Forall_cons in Hv as [? Hv]). cbn [fst snd] in *.
  cbn [first_violated idempotency on_idempotency workspaces memberships applications releases jobs
    outbox reservations secrets audit_events repositories deliveries].
  repeat match goal with H : ?u = true |- context [if ?u then _ else _] => rewrite H end.
  by rewrite Hdup.
Qed.

Lemma widths_with_records db L rec new d0 :
  widths db = true -> idempotency db = L ++ [new] ->
  widths d0 = true -> idempotency d0 = L ++ [rec] ->
  widths (on_idempotency (fun _ => L ++ [rec; new]) db) = true.
Proof.
  unfold widths. intros H Hdb H0 Hd0. rewrite Hdb in H. rewrite Hd0 in H0.
  cbn [idempotency on_idempotency workspaces memberships applications releases jobs
    outbox secrets audit_events repositories deliveries].
  repeat match goal with H : _ && _ = true |- _ => apply andb_prop in H as [? ?] end.
  rewrite ?forallb_app in *. cbn [forallb] in *.
  repeat match goal with H : _ && _ = true |- _ => apply andb_prop in H as [? ?] end.
  repeat (apply andb_true_intro; split); try done.
Qed.

(** When the commit alone would publish, and a rival has published a record for the key,
    the transaction publishes nothing and the answer is the record's: its response for
    the same request, the conflict for another one. *)
Lemma commit_idempotent_lost w ep key h op e rec s new :
  integrity (published e s) ->
  idempotency (published e s) = idempotency (rivals_commit e (committed s)) ++ [new] ->
  published (and_record rec e) s =
    on_idempotency (fun _ => idempotency (rivals_commit e (committed s)) ++ [rec; new]) (published e s) ->
  integrity (rivals_commit (and_record rec e) (committed s)) ->
  is_idempotency_key w ep key new = true -> is_idempotency_key w ep key rec = true ->
  ir_id rec <> ir_id new ->
  let r := commit_idempotent w ep key h op (and_record rec e) s in
  committed r.2 = rivals_commit (and_record rec e) (committed s)
  /\ r.1 = if ir_request_hash rec =?= h then stored_response (ir_response_body rec)
           else Err idempotency_conflict.
Proof.
  intros Hi Hidem Hpub Hriv Hnew Hrec Hne r. set (e' := and_record rec e) in *.
  set (L := idempotency (rivals_commit e (committed s))) in *.
  assert ((ir_workspace_id rec, ir_endpoint rec, ir_key rec)
          = (ir_workspace_id new, ir_endpoint new, ir_key new)) as Hkeys.
  { unfold is_idempotency_key in Hnew, Hrec. bool_hyps. congruence. }
  assert (NoDup (map ir_id (L ++ [rec]))) as Hids.
  { assert (unique ir_id (idempotency (rivals_commit e' (committed s))) = true) as H
      by (eapply (integrity_constraint _ "idempotency_records_pkey"); [done|unfold constraints; set_solver]).
    unfold unique in H. by bool_hyps. }
  assert (commit e' s = (Err (IntegrityError (Some "uq_idempotency_workspace_key")), after_rivals e' s)) as Hc.
  { rewrite commit_spec, flush_spec. fold (published e' s). rewrite Hpub.
    rewrite (violated_by_record _ L rec new) by done.
    rewrite (widths_with_records _ L rec new (rivals_commit e' (committed s)));
      done || apply Hi || apply Hriv. }
  assert (where_ (is_idempotency_key w ep key) (L ++ [rec]) = [rec]) as Hw.
  { rewrite where_app. replace (where_ _ L) with (@nil IdempotencyRecord).
    - unfold where_. cbn. by rewrite Hrec.
    - symmetry. apply where_nil_iff. intros x Hx. destruct (is_idempotency_key w ep key x) eqn:E; [|done].
      exfalso. by eapply (integrity_key_unique (published e s) L new x). }
  unfold r, commit_idempotent, catch_integrity.
  rewrite (bind_step _ _ _ _ _ _ Hc). unfold handle_idempotency_race.
  erewrite bind_ok by reflexivity.
  change (negb (is_idempotency_violation _)) with false. cbv iota.
  erewrite bind_step by apply select_one_spec.
  change (idempotency (view _)) with (L ++ [rec]). rewrite Hw. cbn [one_or_none].
  by destruct (ir_request_hash rec =?= h).
Qed.

(** A computation before the commit does not depend on what the rivals commit. *)
Class Precommit {A} (m : M A) := precommit : forall rec e s, m (and_record rec e) s = m e s.

#[export] Instance precommit_ret {A} (a : A) : Precommit (mret a).
Proof. done. Qed.
#[export] Instance precommit_raise {A} x : Precommit (@raise A x).
Proof. done. Qed.
#[export] Instance precommit_guard c x : Precommit (guard c x).
Proof. by destruct c. Qed.
#[export] Instance precommit_now : Precommit datetime_now.
Proof. done. Qed.
#[export] Instance precommit_uuid4 : Precommit uuid4.
Proof. done. Qed.
#[export] Instance precommit_query {A} (f : Db -> A) : Precommit (query f).
Proof. done. Qed.
#[export] Instance precommit_execute f : Precommit (execute f).
Proof. done. Qed.
#[export] Instance precommit_stage f : Precommit (stage f).
Proof. done. Qed.
#[export] Instance precommit_flush : Precommit flush.
Proof. done. Qed.
#[export] Instance precommit_lock : Precommit lock.
Proof. done. Qed.
#[export] Instance precommit_lift {A} (o : outcome A) : Precommit (lift o).
Proof. done. Qed.
#[export] Instance precommit_select_one {A} (t : Db -> list A) P : Precommit (select_one t P).
Proof. intros rec e s. by rewrite !select_one_spec. Qed.
#[export] Instance precommit_bind {A B} (m : M A) (f : A -> M B) :
  Precommit m -> (forall a, Precommit (f a)) -> Precommit (m ≫= f).
Proof.
  intros Hm Hf rec e s. unfold mbind, M_bind. rewrite Hm. destruct (m e s) as [[a|x] s']; [apply Hf|done].
Qed.
Lemma precommit_ask {B} (f : Env -> M B) :
  (forall rec e, f (and_record rec e) = f e) -> (forall e, Precommit (f e)) -> Precommit (ask ≫= f).
Proof. intros Hf Hp rec e s. unfold mbind, M_bind, ask. by rewrite Hf, Hp. Qed.

Ltac solve_precommit :=
  lazymatch goal with
  | |- forall _, _ => intros; solve_precommit
  | |- Precommit (mbind _ ask) => apply precommit_ask; [intros; reflexivity|solve_precommit]
  | |- Precommit (mbind _ _) => apply precommit_bind; solve_precommit
  | |- Precommit (match ?x with _ => _ end) => destruct x; solve_precommit
  | |- _ => apply _
  end.

#[export] Instance precommit_authorize c w r d : Precommit (authorize_workspace_access c w r d).
Proof. unfold authorize_workspace_access. solve_precommit. Qed.
#[export] Instance precommit_image_policy d : Precommit (validate_image_policy d).
Proof. unfold validate_image_policy. solve_precommit. Qed.
#[export] Instance precommit_payload_hash p : Precommit (compute_payload_hash p).
Proof. unfold compute_payload_hash. solve_precommit. Qed.
#[export] Instance precommit_check w ep k h : Precommit (check_idempotency w ep k h).
Proof. unfold check_idempotency. solve_precommit. Qed.
#[export] Instance precommit_rate_limit w r : Precommit (check_workspace_rate_limit w r).
Proof. unfold check_workspace_rate_limit. solve_precommit. Qed.
#[export] Instance precommit_admission_usage w a :
  Precommit (get_workspace_quota_usage_for_admission w a).
Proof.
  unfold get_workspace_quota_usage_for_admission, get_workspace_quota_summary,
    expire_stale_reservations. solve_precommit.
Qed.
#[export] Instance precommit_enforce w cls a r : Precommit (enforce_workspace_quota w cls a r).
Proof. unfold enforce_workspace_quota. destruct r; solve_precommit. Qed.

(** The next step of a run is the same step under the rivals' record. *)
Ltac same_step H Hs :=
  apply bind_ok_inv in H; destruct H as (? & ? & Hs & H);
  match goal with |- context [(?m ≫= ?f) (and_record ?rec ?e) ?s] =>
    rewrite (bind_ok m f (and_record rec e) _ _ _ (eq_trans (precommit rec e s) Hs)) end.

Lemma expiry_record W g d :
  Forall expiry W -> apply_all W (on_idempotency g d) = on_idempotency g (apply_all W d).
Proof.
  intros HW. revert d. induction HW as [|f W Hf _ IH]; intros d; [done|].
  unfold apply_all in *. simpl. destruct Hf as [w now]. by rewrite <- IH.
Qed.
