(* ===== verification/Jobs.v ===== *)
(** * Jobs ([api/v1/jobs.py], [schemas/job.py], [schemas/dead_letter.py])

    Submission, cancellation and rerun as one transaction each (the job, its
    audit row, its outbox event and the idempotency record), the reads, and the
    two paginated listings.  The file system enters [get_job_output] as the
    functions [abspath] and [isfile]. *)

From S2P Require Import Prelude PyStr Uuid Json Models DateTime Config Session Sample.
From S2P Require Import StateMachine Auth AuditLog Events Idempotency Quotas Gates Handlers.
From S2P Require Import Pagination.
From Stdlib Require Import String.

(** ** Schemas *)

Record SubmitJobRequest := mkSubmitJob {
  sj_name : string; sj_image_digest : string; sj_command_args : list string;
  sj_env_vars : list (string * string); sj_timeout_seconds : Z; sj_max_retries : Z }.

(** The field constraints of [SubmitJobRequest]. *)
Definition submit_job_valid (p : SubmitJobRequest) : bool :=
  (1 <=? len (sj_name p)) && (len (sj_name p) <=? 100) && (5 <=? len (sj_image_digest p))
  && (10 <=? sj_timeout_seconds p) && (sj_timeout_seconds p <=? 3600)
  && (0 <=? sj_max_retries p) && (sj_max_retries p <=? 5).

Definition json_strings (l : list string) : json := JList (map JStr l).
Definition json_pairs (l : list (string * string)) : json :=
  JDict (map (fun kv => (kv.1, JStr kv.2)) l).

(** [payload.model_dump(mode="json")]. *)
Definition submit_job_json (p : SubmitJobRequest) : json :=
  JDict [("name", JStr (sj_name p)); ("image_digest", JStr (sj_image_digest p));
         ("command_args", json_strings (sj_command_args p));
         ("env_vars", json_pairs (sj_env_vars p));
         ("timeout_seconds", JInt (sj_timeout_seconds p));
         ("max_retries", JInt (sj_max_retries p))].

Record JobAttemptItem := mkAttemptItem {
  ai_number : Z; ai_state : JobState; ai_resource_uid : option string; ai_lease_epoch : Z;
  ai_exit_code : option Z; ai_failure_reason : option string;
  ai_started_at : option time; ai_finished_at : option time }.

Record JobDetailsResponse := mkJobDetails {
  jd_id : uuid; jd_workspace_id : uuid; jd_name : string; jd_state : JobState;
  jd_current_attempt_number : Z; jd_attempts : list JobAttemptItem; jd_created_at : time }.

Record JobListResponse := mkJobList {
  jl_items : list JobDetailsResponse; jl_next_cursor : option string }.

Record DeadLetterRecordItem := mkDeadLetterItem {
  di_id : uuid; di_job_id : uuid; di_workspace_id : uuid; di_job_name : string;
  di_last_attempt : Z; di_exit_code : option Z; di_failure_reason : option string;
  di_created_at : time }.

Record DeadLetterRecordListResponse := mkDeadLetterList {
  dll_items : list DeadLetterRecordItem; dll_next_cursor : option string }.

(** The 404 every job endpoint answers for a job that is missing or foreign. *)
Definition job_not_found : exn := http_error 404 "Job not found".

Definition has_job_id (id : uuid) (j : Job) : bool := job_id j =?= id.

(** [Job(id=..., ...)] with its column defaults. *)
Definition new_job (id w : uuid) (name image : string) (args : list string)
    (env : list (string * string)) (timeout retries : Z) (t : time) : Job :=
  mkJob id w name image args env timeout retries 0 QUEUED t t.

(** ** [submit_job] *)

Definition submit_endpoint (w : uuid) : string := "/v1/workspaces/" +:+ uuid_str w +:+ "/jobs".

Definition submit_job (caller : Caller) (w : uuid) (payload : SubmitJobRequest) (key : string)
    : M AcceptedOperationResponse :=
  authorize_workspace_access caller w DEVELOPER "Workspace not found" ;;
  validate_image_policy (sj_image_digest payload) ;;
  payload_hash ← compute_payload_hash (Some (submit_job_json payload));
  cached ← check_idempotency w (submit_endpoint w) key payload_hash;
  match cached with
  | Some response => mret response
  | None =>
      check_workspace_rate_limit w "jobs.submit" ;;
      enforce_workspace_quota w CONCURRENT_JOB None false ;;
      job_id ← uuid4;
      stage (fun t => on_jobs (fun l => l ++
        [new_job job_id w (sj_name payload) (sj_image_digest payload) (sj_command_args payload)
           (sj_env_vars payload) (sj_timeout_seconds payload) (sj_max_retries payload) t])) ;;
      record_audit_event (Some w) (subject caller) "job.submitted" "JOB" (uuid_str job_id)
        [("name", JStr (sj_name payload)); ("image_digest", JStr (sj_image_digest payload))] ;;
      event_id ← uuid4;
      now ← datetime_now;
      event ← create_outbox_event w JOB_SUBMITTED
        [("event_id", JStr (uuid_str event_id)); ("timestamp", JStr (isoformat now));
         ("workspace_id", JStr (uuid_str w)); ("job_id", JStr (uuid_str job_id));
         ("name", JStr (sj_name payload)); ("image_digest", JStr (sj_image_digest payload));
         ("command_args", json_strings (sj_command_args payload));
         ("timeout_seconds", JInt (sj_timeout_seconds payload));
         ("max_retries", JInt (sj_max_retries payload))]
        [("idempotency_key", key)] (Some event_id);
      add_outbox_event event ;;
      add_idempotency_record w (submit_endpoint w) key payload_hash 202 job_id ;;
      commit_idempotent w (submit_endpoint w) key payload_hash job_id
  end.

(** ** [get_job] *)

Definition attempt_item (a : JobAttempt) : JobAttemptItem :=
  mkAttemptItem (att_number a) (att_state a) (att_resource_uid a) (att_lease_epoch a)
    (att_exit_code a) (att_failure_reason a) (att_started_at a) (att_finished_at a).

Definition job_details (j : Job) (attempts : list JobAttempt) : JobDetailsResponse :=
  mkJobDetails (job_id j) (job_workspace_id j) (job_name j) (job_state j)
    (job_current_attempt_number j) (map attempt_item attempts) (job_created_at j).

(** The attempts of a job by attempt number. *)
Definition attempts_of (id : uuid) (db : Db) : list JobAttempt :=
  order_by (fun a b => att_number a <=? att_number b)
    (where_ (fun a => att_job_id a =?= id) (job_attempts db)).

Definition get_job (caller : Caller) (id : uuid) : M JobDetailsResponse :=
  found ← select_one jobs (has_job_id id);
  job ← or_raise found job_not_found;
  authorize_workspace_access caller (job_workspace_id job) VIEWER "Job not found" ;;
  attempts ← query (attempts_of id);
  mret (job_details job attempts).

(** ** [cancel_job] *)

Definition cancel_endpoint (id : uuid) : string := "/v1/jobs/" +:+ uuid_str id +:+ "/cancel".

Definition with_job_state (s : JobState) (t : time) (j : Job) : Job :=
  mkJob (job_id j) (job_workspace_id j) (job_name j) (job_image_digest j) (job_command_args j)
    (job_env_vars j) (job_timeout_seconds j) (job_max_retries j) (job_current_attempt_number j)
    s (job_created_at j) t.

(** The workspace of a job, then the caller's access to it, then the row lock and
    the job as it is once the lock is granted. *)
Definition lock_job (caller : Caller) (id : uuid) : M (uuid * Job) :=
  found ← select_one jobs (has_job_id id);
  unlocked ← or_raise found job_not_found;
  authorize_workspace_access caller (job_workspace_id unlocked) DEVELOPER "Job not found" ;;
  lock ;;
  rows ← query (fun db => where_ (has_job_id id) (jobs db));
  job ← scalar_one rows;
  mret (job_workspace_id unlocked, job).

(** The transition, its audit row and its event; [id] is [job.id]. *)
Definition request_cancellation (caller : Caller) (w id : uuid) (job : Job) (key : string) : M unit :=
  match validate_job_transition (job_state job) CANCEL_REQUESTED with
  | Some exc => raise (http_error 409 ("Cannot cancel job: " +:+ transition_error_message exc))
  | None =>
      stage (fun t => on_jobs (update_where (has_job_id id) (with_job_state CANCEL_REQUESTED t))) ;;
      record_audit_event (Some w) (subject caller) "job.cancel.requested" "JOB"
        (uuid_str id) [("name", JStr (job_name job))] ;;
      event_id ← uuid4;
      now ← datetime_now;
      event ← create_outbox_event w JOB_CANCELLATION_REQUESTED
        [("event_id", JStr (uuid_str event_id)); ("timestamp", JStr (isoformat now));
         ("workspace_id", JStr (uuid_str w)); ("job_id", JStr (uuid_str id))]
        [("idempotency_key", key)] (Some event_id);
      add_outbox_event event
  end.

Definition cancel_job (caller : Caller) (id : uuid) (key : string) : M AcceptedOperationResponse :=
  '(w, job) ← lock_job caller id;
  payload_hash ← compute_payload_hash None;
  cached ← check_idempotency w (cancel_endpoint id) key payload_hash;
  match cached with
  | Some response => mret response
  | None =>
      check_workspace_rate_limit w "jobs.cancel" ;;
      (if job_state job <?> CANCEL_REQUESTED then request_cancellation caller w id job key
       else mret tt) ;;
      add_idempotency_record w (cancel_endpoint id) key payload_hash 202 id ;;
      commit_idempotent w (cancel_endpoint id) key payload_hash id
  end.

(** ** [rerun_job] *)

Definition rerun_endpoint (id : uuid) : string := "/v1/jobs/" +:+ uuid_str id +:+ "/reruns".

(** [f"{original_job.name[:94]}-rerun"]. *)
Definition rerun_name (name : string) : string := str_take 94 name +:+ "-rerun".

Definition rerun_job (caller : Caller) (id : uuid) (key : string) : M AcceptedOperationResponse :=
  '(w, original) ← lock_job caller id;
  payload_hash ← compute_payload_hash None;
  cached ← check_idempotency w (rerun_endpoint id) key payload_hash;
  match cached with
  | Some response => mret response
  | None =>
      guard (negb (is_terminal_job_state (job_state original)))
        (http_error 409 ("Cannot rerun job while active in state '"
                         +:+ job_state_value (job_state original) +:+ "'")) ;;
      check_workspace_rate_limit w "jobs.rerun" ;;
      enforce_workspace_quota w CONCURRENT_JOB None false ;;
      new_job_id ← uuid4;
      let name := rerun_name (job_name original) in
      stage (fun t => on_jobs (fun l => l ++
        [new_job new_job_id w name (job_image_digest original) (job_command_args original)
           (job_env_vars original) (job_timeout_seconds original) (job_max_retries original) t])) ;;
      record_audit_event (Some w) (subject caller) "job.rerun.submitted" "JOB"
        (uuid_str new_job_id) [("parent_job_id", JStr (uuid_str id)); ("name", JStr name)] ;;
      event_id ← uuid4;
      now ← datetime_now;
      event ← create_outbox_event w JOB_SUBMITTED
        [("event_id", JStr (uuid_str event_id)); ("timestamp", JStr (isoformat now));
         ("workspace_id", JStr (uuid_str w)); ("job_id", JStr (uuid_str new_job_id));
         ("name", JStr name); ("image_digest", JStr (job_image_digest original));
         ("command_args", json_strings (job_command_args original));
         ("timeout_seconds", JInt (job_timeout_seconds original));
         ("max_retries", JInt (job_max_retries original));
         ("parent_job_id", JStr (uuid_str id))]
        [("rerun_from", uuid_str id); ("idempotency_key", key)] (Some event_id);
      add_outbox_event event ;;
      add_idempotency_record w (rerun_endpoint id) key payload_hash 202 new_job_id ;;
      commit_idempotent w (rerun_endpoint id) key payload_hash new_job_id
  end.

(** ** Listings *)

Section Listings.
Context (fromisoformat : string -> option IsoDateTime).

Definition list_workspace_jobs (caller : Caller) (w : uuid) (limit : Z) (cursor : option string)
    : M JobListResponse :=
  authorize_workspace_access caller w VIEWER "Workspace not found" ;;
  '(page, next) ← list_page fromisoformat job_created_at job_id
    (fun db => where_ (fun j => job_workspace_id j =?= w) (jobs db)) limit cursor;
  items ← query (fun db => map (fun j => job_details j (attempts_of (job_id j) db)) page);
  mret (mkJobList items next).

Definition dead_letter_item (db : Db) (r : DeadLetterRecord) : DeadLetterRecordItem :=
  mkDeadLetterItem (dl_id r) (dl_job_id r) (dl_workspace_id r)
    (match where_ (has_job_id (dl_job_id r)) (jobs db) with
     | j :: _ => job_name j | [] => "unknown" end)
    (dl_last_attempt r) (dl_exit_code r) (dl_failure_reason r) (dl_created_at r).

Definition list_workspace_dead_letter_records (caller : Caller) (w : uuid) (limit : Z)
    (cursor : option string) : M DeadLetterRecordListResponse :=
  authorize_workspace_access caller w VIEWER "Workspace not found" ;;
  '(page, next) ← list_page fromisoformat dl_created_at dl_id
    (fun db => where_ (fun r => dl_workspace_id r =?= w) (dead_letters db)) limit cursor;
  items ← query (fun db => map (dead_letter_item db) page);
  mret (mkDeadLetterList items next).
End Listings.

(** ** [get_job_output] *)

Record FileResponse := mkFileResponse { fr_path : string; fr_media_type : string; fr_filename : string }.

Section Output.
Context (abspath : string -> string) (repo_root : string) (isfile : string -> bool).

Definition artifact_path (base : string) (w id : uuid) : string :=
  path_join (path_join (path_join base (uuid_str w)) (uuid_str id)) "output.txt".

Definition get_job_output (caller : Caller) (id : uuid) : M FileResponse :=
  found ← select_one jobs (has_job_id id);
  job ← or_raise found job_not_found;
  authorize_workspace_access caller (job_workspace_id job) VIEWER "Job not found" ;;
  guard (negb (is_terminal_job_state (job_state job)))
    (http_error 409 "Job is still executing, output is not yet available") ;;
  e ← ask;
  let base := effective_artifacts_dir abspath repo_root (settings e) in
  guard (negb (truthy base)) (http_error 500 "Artifacts storage directory is not configured") ;;
  let path := artifact_path base (job_workspace_id job) (job_id job) in
  guard (negb (isfile path)) (http_error 404 "Job output artifact not found") ;;
  mret (mkFileResponse path "text/plain; charset=utf-8"
          ("job-" +:+ uuid_str (job_id job) +:+ "-output.txt")).
End Output.

(** ** What a submission does *)

(** [d'] is [d] with one more job, its event, its audit row and its record. *)
Definition is_submission (w : uuid) (subject : string) (p : SubmitJobRequest)
    (key h : string) (id : uuid) (expires : time) (d d' : Db) : Prop :=
  (exists t, jobs d' = jobs d ++
     [new_job id w (sj_name p) (sj_image_digest p) (sj_command_args p) (sj_env_vars p)
        (sj_timeout_seconds p) (sj_max_retries p) t])
  /\ (exists ev, outbox d' = outbox d ++ [ev] /\ ob_workspace_id ev = w /\ ob_status ev = PENDING
        /\ ob_topic ev = "job.submitted.v1"
        /\ dict_get "job_id" (dict_items (ob_payload_json ev)) = Some (JStr (uuid_str id)))
  /\ (exists au, audit_events d' = audit_events d ++ [au] /\ aud_workspace_id au = Some w
        /\ aud_actor_subject au = subject /\ aud_action au = "job.submitted"
        /\ aud_target_id au = uuid_str id)
  /\ (exists rid t, idempotency d' = idempotency d ++
        [record_row rid w (submit_endpoint w) key h 202 id expires t])
  /\ workspaces d' = workspaces d /\ memberships d' = memberships d
  /\ applications d' = applications d /\ releases d' = releases d
  /\ job_attempts d' = job_attempts d /\ intents d' = intents d
  /\ reservations d' = reservations d /\ secrets d' = secrets d
  /\ repositories d' = repositories d /\ deliveries d' = deliveries d
  /\ dead_letters d' = dead_letters d.

(** The hash of a submission. *)
Definition submission_hash (e : Env) (p : SubmitJobRequest) : string :=
  body_hash e (submit_job_json p).

(** The three ways a submission succeeds: it replays an answer, it publishes the
    whole submission, or it loses the race for its key and answers what the
    winner stored. *)
Lemma submit_job_inv caller w p key e db r db' :
  run (submit_job caller w p key) e db = (Ok r, db') ->
  (answered db w (submit_endpoint w) key (submission_hash e p) r /\ db' = db)
  \/ exists d0, rtc (lock_step e) db d0 /\
     ((exists id W n, r = accepted id /\ integrity db' /\ (id < 2 ^ 128)%N
        /\ Forall housekeeping W /\ (key_free db w (submit_endpoint w) key -> Forall expiry W)
        /\ is_submission w (subject caller) p key (submission_hash e p) id (clock e n + hours 24)
             (apply_all W (rivals_commit e d0)) db')
      \/ (db' = rivals_commit e d0 /\ answered db' w (submit_endpoint w) key (submission_hash e p) r)).
Proof.
  intros Hrun. unfold run, submit_job in Hrun.
  match type of Hrun with context [?m e (open_session db)] =>
    destruct (m e (open_session db)) as [o s'] eqn:H end.
  simpl in Hrun. simplify_eq.
  step H with authorize_ok as [-> _].
  step H with image_policy_ok as [-> _].
  run_steps H. change (body_hash e (submit_job_json p)) with (submission_hash e p) in H.
  apply bind_ok_inv in H as ([resp|] & s & Hstep & H).
  { apply check_idempotency_some in Hstep as [-> Hans]. done_run H. left. by split. }
  apply check_idempotency_none in Hstep as [Hp1 Hp2]; [|done].
  step H with rate_limit_ok as [n ->].
  step H with enforce_ok as [-> _].
  assert (prep expiry e s (ticked 2 (admission_state w e (ticked n s)))) as Hp3
    by (etrans; [apply prep_ticked|apply prep_admission]).
  set (s1 := ticked 2 (admission_state w e (ticked n s))) in *. clearbody s1.
  pose proof (prep_request e db w (submit_endpoint w) key s s1 Hp1 Hp2 Hp3) as Hprep.
  run_steps H. right. pose proof (mod_uuid (entropy e (draws s1))) as Hid.
  set (id := (entropy e (draws s1) mod 2 ^ 128)%N) in *. clearbody id.
  eapply commit_request in H; [|exact Hprep|reflexivity|reflexivity].
  destruct H as (d0 & Hl & [(-> & Hi & W & t & HW & Hf & Hc)|Hrace]); exists d0; (split; [done|]);
    [left|by right].
  exists id, W. eexists. do 5 (split; [done|]).
  destruct Hprep as [Hst _]. simpl in Hc. rewrite Hst in Hc.
  set (d := apply_all W (rivals_commit e d0)) in *. unfold apply_all in Hc. simpl in Hc.
  rewrite Hc. unfold is_submission. cbn -[N.modulo Z.add].
  split; [by eexists|]. split.
  { eexists. split; [reflexivity|]. do 3 (split; [reflexivity|]). by dict_lookup. }
  split; [eexists; do 4 (split; [reflexivity|]); reflexivity|].
  split; [by do 2 eexists|]. by split_and!.
Qed.

(** ** The frame of the mutating endpoints *)

#[export] Instance keeps_lock_job c id : Keeps (lock_job c id).
Proof. unfold lock_job. solve_keeps. Qed.

#[export] Instance keeps_request_cancellation c w id j k : Keeps (request_cancellation c w id j k).
Proof. unfold request_cancellation. solve_keeps. Qed.

#[export] Instance atomic_submit_job c w p k : Atomic (submit_job c w p k).
Proof. unfold submit_job. solve_atomic. Qed.
#[export] Instance atomic_cancel_job c id k : Atomic (cancel_job c id k).
Proof. unfold cancel_job. solve_atomic. Qed.
#[export] Instance atomic_rerun_job c id k : Atomic (rerun_job c id k).
Proof. unfold rerun_job. solve_atomic. Qed.

#[export] Instance preserves_submit_job c w p k : Preserves integrity (submit_job c w p k).
Proof. unfold submit_job. solve_preserves. Qed.
#[export] Instance preserves_cancel_job c id k : Preserves integrity (cancel_job c id k).
Proof. unfold cancel_job. solve_preserves. Qed.
#[export] Instance preserves_rerun_job c id k : Preserves integrity (rerun_job c id k).
Proof. unfold rerun_job. solve_preserves. Qed.

(** ** Replays *)

(** A submission that succeeds was authorized and its image approved. *)
Lemma submit_job_admitted caller w p key e db r db' :
  run (submit_job caller w p key) e db = (Ok r, db') ->
  (exists m, access db caller w DEVELOPER "Workspace not found" = Ok m)
  /\ image_allowed (settings e) (sj_image_digest p) = true.
Proof.
  unfold run, submit_job. intros Hrun.
  match type of Hrun with context [?m e (open_session db)] =>
    destruct (m e (open_session db)) as [o s'] eqn:H end.
  simpl in Hrun. simplify_eq.
  step H with authorize_ok as [-> Hm]. step H with image_policy_ok as [-> Hi].
  split; [by eexists|done].
Qed.

(** An authorized submission under a live record of its own hash is answered
    from the record, and changes nothing. *)
Lemma submit_job_replay caller w p key e db rec m resp :
  access db caller w DEVELOPER "Workspace not found" = Ok m ->
  image_allowed (settings e) (sj_image_digest p) = true ->
  where_ (is_idempotency_key w (submit_endpoint w) key) (idempotency db) = [rec] ->
  ir_request_hash rec = submission_hash e p -> clock e 0 < ir_expires_at rec ->
  stored_response (ir_response_body rec) = Ok resp ->
  run (submit_job caller w p key) e db = (Ok resp, db).
Proof.
  intros Hm Hi Hrec Hh Ht Hresp. unfold run, submit_job.
  erewrite bind_ok by (rewrite authorize_spec, view_open, Hm; reflexivity).
  erewrite bind_ok by (rewrite validate_image_policy_spec, Hi; reflexivity).
  erewrite bind_ok by apply payload_hash_some.
  erewrite bind_step by (by eapply check_idempotency_live).
  change (body_hash e (submit_job_json p)) with (submission_hash e p).
  rewrite Hh, bool_decide_eq_true_2, Hresp by done. done.
Qed.

Definition sample_submission : SubmitJobRequest :=
  mkSubmitJob "train" "ghcr.io/hami9/train:1" ["python"; "train.py"] [] 600 3.
Definition submit_sample (e : Env) (db : Db) : outcome AcceptedOperationResponse * Db :=
  run (submit_job alice sample_workspace sample_submission "key-1") e db.

(** ** Properties *)

(** C2: A submission is one transaction.  If it succeeds, it replayed the answer
    of an earlier request and changed nothing, or it published one QUEUED job
    together with its [job.submitted.v1] event, its audit row and its idempotency
    record, every other table but the expired reservations and a stale record
    being untouched and every constraint of the schema holding, or it lost the
    race for its key, published nothing and answered what the winner stored.  If
    it fails, whatever the error, it published nothing: only other transactions
    changed the database. *)
Theorem submit_job_transactional caller w p key e db :
  match run (submit_job caller w p key) e db with
  | (Ok r, db') =>
      (answered db w (submit_endpoint w) key (submission_hash e p) r /\ db' = db)
      \/ exists d0, rtc (lock_step e) db d0 /\
         ((exists id W n, r = accepted id /\ integrity db' /\ (id < 2 ^ 128)%N
            /\ Forall housekeeping W
            /\ (key_free db w (submit_endpoint w) key -> Forall expiry W)
            /\ is_submission w (subject caller) p key (submission_hash e p) id
                 (clock e n + hours 24) (apply_all W (rivals_commit e d0)) db')
          \/ (db' = rivals_commit e d0
              /\ answered db' w (submit_endpoint w) key (submission_hash e p) r))
  | (Err x, db') => rtc (rival_step e) db db'
  end.
Proof.
  destruct (run _ e db) as [[r|x] db'] eqn:H; [by apply submit_job_inv|].
  unfold run in H. destruct (submit_job _ _ _ _ e (open_session db)) as [o s'] eqn:E.
  simpl in H. simplify_eq. exact (atomic_submit_job _ _ _ _ e _ _ _ E).
Qed.

(** A submission alone under a free key, if it succeeds, publishes its job. *)
Lemma submit_job_fresh caller w p key e db r db' :
  (forall d, rivals_lock e d = d) -> (forall d, rivals_commit e d = d) ->
  key_free db w (submit_endpoint w) key ->
  run (submit_job caller w p key) e db = (Ok r, db') ->
  exists id W n, r = accepted id /\ (id < 2 ^ 128)%N /\ Forall expiry W
    /\ is_submission w (subject caller) p key (submission_hash e p) id (clock e n + hours 24)
         (apply_all W db) db'.
Proof.
  unfold key_free. intros Hlock Hcommit Hfree H.
  apply submit_job_inv in H as [[(rec & Hrec & _) _]|(d0 & Hd0 & [H|[-> (rec & Hrec & _)]])];
    [by rewrite Hfree in Hrec| |];
    apply lock_step_id in Hd0 as ->; try done; rewrite Hcommit in *; [|by rewrite Hfree in Hrec].
  destruct H as (id & W & n & -> & _ & Hid & _ & HW & Hsub). by exists id, W, n; auto.
Qed.

(** Retrying is safe: after a submission under a free key, with no interfering
    transaction, the same request sent again within the day is answered with the same
    operation and changes nothing. *)
Lemma submit_job_retry caller w p key e1 e2 db r db' :
  (forall d, rivals_lock e1 d = d) -> (forall d, rivals_commit e1 d = d) ->
  settings e2 = settings e1 -> (forall x, sha256_hex e2 x = sha256_hex e1 x) ->
  (forall n, clock e2 0 < clock e1 n + hours 24) ->
  key_free db w (submit_endpoint w) key ->
  run (submit_job caller w p key) e1 db = (Ok r, db') ->
  run (submit_job caller w p key) e2 db' = (Ok r, db').
Proof.
  intros Hlock Hcommit Hset Hsha Hclock Hfree H.
  apply submit_job_admitted in H as Hadm. destruct Hadm as [[m Hm] Himg].
  apply submit_job_fresh in H as (id & W & n & -> & Hid & HW & Hsub); [|done..].
  destruct Hsub as (_ & _ & _ & (rid & t & Hrec) & _ & Hmem & _).
  rewrite (expiry_all idempotency W) in Hrec by done.
  rewrite (expiry_all memberships W) in Hmem by done.
  eapply (submit_job_replay _ _ _ _ _ _ (record_row rid w (submit_endpoint w) key
    (submission_hash e1 p) 202 id (clock e1 n + hours 24) t) m).
  - by rewrite (access_memberships db).
  - by rewrite Hset.
  - rewrite Hrec, where_app. unfold key_free in Hfree. rewrite Hfree. unfold where_. cbn [List.filter app].
    by rewrite record_row_key.
  - unfold submission_hash, body_hash. by rewrite Hsha.
  - apply Hclock.
  - by apply stored_response_data.
Qed.

(** A submission that publishes alone reaches its commit in the race. *)
Lemma submit_job_lost caller w p key e rec db r db' :
  key_free db w (submit_endpoint w) key ->
  (forall d0, rtc (lock_step e) db d0 -> integrity (rivals_commit (and_record rec e) d0)) ->
  is_idempotency_key w (submit_endpoint w) key rec = true ->
  (forall n, ir_id rec <> (entropy e n mod 2 ^ 128)%N) ->
  run (submit_job caller w p key) e db = (Ok r, db') ->
  exists d0, rtc (lock_step e) db d0 /\
    run (submit_job caller w p key) (and_record rec e) db
    = (if ir_request_hash rec =?= submission_hash e p then stored_response (ir_response_body rec)
       else Err idempotency_conflict, rivals_commit (and_record rec e) d0).
Proof.
  intros Hfree Hriv Hrec Hid Hrun. unfold run, submit_job in Hrun |- *.
  match type of Hrun with context [?m e (open_session db)] =>
    destruct (m e (open_session db)) as [o s'] eqn:H end.
  simpl in Hrun. simplify_eq.
  cbv zeta. same_step H H1. apply authorize_ok in H1 as [-> _].
  same_step H H1. apply image_policy_ok in H1 as [-> _].
  same_step H H1. rewrite payload_hash_some in H1. simplify_eq.
  change (body_hash e (submit_job_json p)) with (submission_hash e p) in *.
  same_step H H1. match type of H1 with _ = (Ok ?c, _) => destruct c as [resp|] end.
  { apply check_idempotency_some in H1 as [_ (rec0 & Hrec0 & _)]. unfold key_free in Hfree.
    rewrite view_open in Hrec0. by rewrite Hfree in Hrec0. }
  apply check_idempotency_none in H1 as [Hp1 Hp2]; [|done].
  same_step H H1. apply rate_limit_ok in H1 as [n ->].
  same_step H H1. apply enforce_ok in H1 as [-> _].
  match type of H with context [admission_state w e (ticked n ?s)] =>
    assert (prep expiry e s (ticked 2 (admission_state w e (ticked n s)))) as Hp3
      by (etrans; [apply prep_ticked|apply prep_admission]) end.
  match type of H with context [ticked 2 (admission_state ?a ?b ?c)] =>
    set (s1 := ticked 2 (admission_state a b c)) in * end. clearbody s1.
  pose proof (prep_request e db w (submit_endpoint w) key _ s1 Hp1 Hp2 Hp3) as (Hst & Hl & _ & HW).
  specialize (HW Hfree). run_steps H.
  run_steps_goal. change (entropy (and_record rec e)) with (entropy e).
  change (clock (and_record rec e)) with (clock e).
  change (trace_context (and_record rec e)) with (trace_context e).
  match type of H with commit_idempotent _ _ _ _ _ e ?sF = _ => set (st := sF) in * end.
  assert (committed st = committed s1) as Hc by done.
  assert (writes st = writes s1) as Hw by done.
  exists (committed s1). split; [done|].
  set (d0 := committed s1) in *.
  assert (exists t, published e st = apply_all (map (fun c => c t) (staged st)) (apply_all (writes s1) (rivals_commit e d0))
    /\ published (and_record rec e) st = apply_all (map (fun c => c t) (staged st))
         (apply_all (writes s1) (on_idempotency (fun l => l ++ [rec]) (rivals_commit e d0))))
    as (t & Hp & Hp').
  { exists (clock e (ticks st)). by rewrite !published_eq. }
  rewrite expiry_record in Hp' by done.
  pose proof (expiry_all idempotency (writes s1) (rivals_commit e d0) (fun _ _ => eq_refl) HW) as HD.
  set (D := apply_all (writes s1) (rivals_commit e d0)) in *. clearbody D.
  cbn [staged st staging drawn ticked map app] in Hp, Hp'. rewrite Hst in Hp, Hp'.
  unfold apply_all in Hp, Hp'. cbn [foldl map app] in Hp, Hp'.
  match type of Hp with context [record_row ?i ?a ?b ?c ?d ?f ?g ?h t] =>
    set (new := record_row i a b c d f g h t) in * end.
  assert (idempotency (published e st) = idempotency (rivals_commit e d0) ++ [new]) as Hidem.
  { rewrite Hp. cbn [idempotency on_idempotency on_outbox on_audit_events on_jobs]. by rewrite HD. }
  assert (is_idempotency_key w (submit_endpoint w) key new = true) as Hnew by apply record_row_key.
  assert (integrity (published e st)) as Hpub.
  { apply commit_idempotent_ok in H as [(_ & _ & Hi)|[Hans _]]; [done|]. exfalso.
    rewrite Hc in Hans. destruct Hans as (rec0 & Hrec0 & _).
    assert (rec0 ∈ idempotency (rivals_commit e d0) /\ is_idempotency_key w (submit_endpoint w) key rec0 = true)
      as [Hin Hk] by (apply elem_of_where; rewrite Hrec0; by left).
    by eapply (integrity_key_unique (rivals_commit (and_record rec e) d0)); [by apply Hriv|reflexivity|..]. }
  destruct (commit_idempotent_lost w (submit_endpoint w) key (submission_hash e p)
    (entropy e (draws s1) mod 2 ^ 128)%N e rec st new) as [H1 H2]; try done.
  - rewrite Hp, Hp'. change (committed st) with d0. unfold on_idempotency, on_outbox, on_audit_events, on_jobs.
    cbn. by rewrite HD, <- app_assoc.
  - by apply Hriv.
  - apply Hid.
  - rewrite H1. by f_equal.
Qed.

Lemma lock_steps_then_commit e d d0 :
  rtc (lock_step e) d d0 -> rtc (rival_step e) d (rivals_commit e d0).
Proof.
  induction 1 as [|d1 d2 d3 -> _ IH]; [apply rtc_once; by right|]. eapply rtc_l; [by left|exact IH].
Qed.

(** C26: Two concurrent submissions under one key make one job.  When a rival commits a
    record for the key before this transaction commits, the submission publishes nothing;
    it can only succeed with the response the winner stored for the same request; and when
    the submission would have been accepted without that record, it reaches its commit and
    is answered exactly so: with the winner's response if its request is the same, with
    the 409 of a reused key if not. *)
Theorem submit_job_race caller w p key e rec db :
  key_free db w (submit_endpoint w) key ->
  is_idempotency_key w (submit_endpoint w) key rec = true ->
  (forall n, ir_id rec <> (entropy e n mod 2 ^ 128)%N) ->
  (forall d0, rtc (lock_step e) db d0 -> integrity (rivals_commit (and_record rec e) d0)) ->
  let race := run (submit_job caller w p key) (and_record rec e) db in
  rtc (rival_step (and_record rec e)) db race.2
  /\ (forall r, race.1 = Ok r ->
        ir_request_hash rec = submission_hash e p /\ stored_response (ir_response_body rec) = Ok r)
  /\ (forall r db', run (submit_job caller w p key) e db = (Ok r, db') ->
        race.1 = if decide (ir_request_hash rec = submission_hash e p)
                 then stored_response (ir_response_body rec) else Err idempotency_conflict).
Proof.
  intros Hfree Hrec Hid Hriv race.
  assert (forall r, race.1 = Ok r -> exists d0, rtc (lock_step e) db d0
    /\ race.2 = rivals_commit (and_record rec e) d0
    /\ answered race.2 w (submit_endpoint w) key (submission_hash e p) r) as Hok.
  { intros r Hr. assert (race = (Ok r, race.2)) as H by (rewrite <- Hr; apply surjective_pairing).
    apply submit_job_inv in H as [[(rec0 & Hrec0 & _) _]|(d0 & Hd0 & [H|H])].
    - unfold key_free in Hfree. by rewrite Hfree in Hrec0.
    - destruct H as (id & W & n & _ & Hi & _ & _ & HW & Hsub). specialize (HW Hfree).
      destruct Hsub as (_ & _ & _ & (rid & t & Hnew) & _). exfalso.
      rewrite (expiry_all idempotency W) in Hnew by done.
      eapply (integrity_key_unique race.2); [done|exact Hnew| |exact Hrec|apply record_row_key].
      simpl. apply elem_of_app. right. by left.
    - by exists d0. }
  split_and!.
  - destruct (race.1) as [r|x] eqn:Hr.
    + destruct (Hok r) as (d0 & Hd0 & -> & _); [done|].
      by apply lock_steps_then_commit.
    + unfold race, run in *.
      destruct (submit_job _ _ _ _ _ (open_session db)) as [o s'] eqn:E. simpl in *. subst o.
      exact (atomic_submit_job _ _ _ _ _ _ _ _ E).
  - intros r Hr. destruct (Hok r Hr) as (d0 & Hd0 & Hdb & (rec0 & Hw & Hh & Hresp)).
    assert (rec ∈ where_ (is_idempotency_key w (submit_endpoint w) key) (idempotency race.2)) as Hin.
    { apply elem_of_where. split; [|done]. rewrite Hdb. simpl. apply elem_of_app. right. by left. }
    rewrite Hw in Hin. apply list_elem_of_singleton in Hin as ->. done.
  - intros r db' H. destruct (submit_job_lost _ _ _ _ _ _ _ _ _ Hfree Hriv Hrec Hid H) as (d0 & _ & Hrun).
    unfold race. rewrite Hrun. simpl. by case_bool_decide; case_decide.
Qed.

(** A winner for the same request. *)
Definition winner : IdempotencyRecord :=
  record_row 55%N sample_workspace (submit_endpoint sample_workspace) "key-1"
    (submission_hash sample_env sample_submission) 202 77%N (sample_start + hours 24) sample_start.
Definition racing_env : Env :=
  mkEnv (settings sample_env) (clock sample_env) (fun n => (1000 + N.of_nat (Nat.min n 100))%N)
    (nonces sample_env) (sha256_hex sample_env) None [] (fun d => d) (fun d => d).

Lemma submit_job_race_witness :
  let race p := run (submit_job alice sample_workspace p "key-1") (and_record winner racing_env)
                  (sample_db OWNER) in
  (race sample_submission).1 = Ok (accepted 77%N)
  /\ (race (mkSubmitJob "evaluation" "ghcr.io/hami9/train:1" ["python"; "train.py"] [] 600 3)).1
     = Err idempotency_conflict.
Proof.
  assert (forall p r db', run (submit_job alice sample_workspace p "key-1") racing_env (sample_db OWNER)
            = (Ok r, db') ->
          (run (submit_job alice sample_workspace p "key-1") (and_record winner racing_env)
             (sample_db OWNER)).1
          = if decide (ir_request_hash winner = submission_hash racing_env p)
            then stored_response (ir_response_body winner) else Err idempotency_conflict) as H.
  { intros p r db' Hp.
    apply (submit_job_race alice sample_workspace p "key-1" racing_env winner (sample_db OWNER))
      with (r := r) (db' := db'); [vm_compute; reflexivity|vm_compute; reflexivity| | |exact Hp].
    - intros n. cbn [ir_id winner record_row entropy racing_env]. rewrite N.mod_small; lia.
    - intros d0 Hd0. apply lock_step_id in Hd0 as ->; [|done]. split; vm_compute; reflexivity. }
  split.
  - etransitivity; [eapply H; vm_compute; reflexivity|]. vm_compute. reflexivity.
  - etransitivity; [eapply H; vm_compute; reflexivity|]. vm_compute. reflexivity.
Defined.

(** ** What a cancellation does *)

Definition is_cancellation (w id : uuid) (subject key h : string) (expires : time) (j : Job)
    (d d' : Db) : Prop :=
  (if job_state j <?> CANCEL_REQUESTED then
     (exists t, jobs d' = update_where (has_job_id id) (with_job_state CANCEL_REQUESTED t) (jobs d))
     /\ (exists ev, outbox d' = outbox d ++ [ev] /\ ob_workspace_id ev = w /\ ob_status ev = PENDING
           /\ ob_topic ev = "job.cancellation.requested.v1"
           /\ dict_get "job_id" (dict_items (ob_payload_json ev)) = Some (JStr (uuid_str id)))
     /\ (exists au, audit_events d' = audit_events d ++ [au] /\ aud_workspace_id au = Some w
           /\ aud_actor_subject au = subject /\ aud_action au = "job.cancel.requested"
           /\ aud_target_id au = uuid_str id)
   else jobs d' = jobs d /\ outbox d' = outbox d /\ audit_events d' = audit_events d)
  /\ (exists rid t, idempotency d' = idempotency d ++
        [record_row rid w (cancel_endpoint id) key h 202 id expires t])
  /\ workspaces d' = workspaces d /\ memberships d' = memberships d
  /\ applications d' = applications d /\ releases d' = releases d
  /\ job_attempts d' = job_attempts d /\ reservations d' = reservations d
  /\ secrets d' = secrets d /\ repositories d' = repositories d.

Lemma lock_job_ok caller id e s w j s' :
  lock_job caller id e s = (Ok (w, j), s') ->
  s' = locked e s
  /\ (exists j0 m, where_ (has_job_id id) (jobs (view s)) = [j0] /\ w = job_workspace_id j0
        /\ access (view s) caller w DEVELOPER "Job not found" = Ok m)
  /\ where_ (has_job_id id) (jobs (view (locked e s))) = [j].
Proof.
  unfold lock_job. intros H. step H with @select_one_ok as [-> Hj0].
  step H with @or_raise_ok as [-> ->]. apply one_or_none_some in Hj0.
  step H with authorize_ok as [-> Hm]. run_steps H.
  step H with @scalar_one_ok as [-> Hj]. done_run H. split; [done|]. split; [|done].
  by eexists _, _.
Qed.

(** A cancellation adds its changes to the session, and is legal. *)
Lemma request_cancellation_ok caller w id j key e s u s' :
  request_cancellation caller w id j key e s = (Ok u, s') ->
  job_step (job_state j) CANCEL_REQUESTED
  /\ committed s' = committed s /\ writes s' = writes s
  /\ exists aid oid eid stamp headers, staged s' = staged s ++
       [(fun t => on_jobs (update_where (has_job_id id) (with_job_state CANCEL_REQUESTED t)));
        (fun t => on_audit_events (fun l => l ++
           [audit_row aid (Some w) (subject caller) "job.cancel.requested" "JOB" (uuid_str id)
              [("name", JStr (job_name j))] t]));
        (fun t => on_outbox (fun l => l ++
           [event_row oid eid w JOB_CANCELLATION_REQUESTED
              [("event_id", JStr (uuid_str eid)); ("timestamp", JStr stamp);
               ("workspace_id", JStr (uuid_str w)); ("job_id", JStr (uuid_str id))] headers t]))].
Proof.
  unfold request_cancellation. intros H.
  destruct (validate_job_transition _ _) eqn:Hv; [by done_run H|].
  run_steps H. rewrite add_event_spec in H. simplify_eq.
  split; [done|]. split; [done|]. split; [done|].
  do 5 eexists. unfold staging. cbn [staged drawn ticked]. by rewrite <- !app_assoc.
Qed.

Lemma cancel_job_inv caller id key e db r db' :
  run (cancel_job caller id key) e db = (Ok r, db') ->
  exists j0, where_ (has_job_id id) (jobs db) = [j0] /\
  let w := job_workspace_id j0 in let h := body_hash e (JDict []) in
  let d1 := rivals_lock e db in
  (exists m, access db caller w DEVELOPER "Job not found" = Ok m) /\
  ((answered d1 w (cancel_endpoint id) key h r /\ db' = d1)
   \/ exists j d0, where_ (has_job_id id) (jobs d1) = [j] /\ rtc (lock_step e) d1 d0 /\
      ((r = accepted id /\ integrity db'
        /\ (job_state j = CANCEL_REQUESTED \/ job_step (job_state j) CANCEL_REQUESTED)
        /\ exists W n, Forall housekeeping W
             /\ is_cancellation w id (subject caller) key h (clock e n + hours 24) j
                  (apply_all W (rivals_commit e d0)) db')
       \/ (db' = rivals_commit e d0 /\ answered db' w (cancel_endpoint id) key h r))).
Proof.
  unfold run, cancel_job. intros Hrun.
  match type of Hrun with context [?m e (open_session db)] =>
    destruct (m e (open_session db)) as [o s'] eqn:H end.
  simpl in Hrun. simplify_eq.
  apply bind_ok_inv in H as ([w j] & s & Hstep & H).
  apply lock_job_ok in Hstep as (-> & (j0 & m & Hj0 & -> & Hm) & Hj).
  rewrite view_open in Hj0, Hm. exists j0. split; [done|]. cbn zeta. split; [by exists m|].
  set (w := job_workspace_id j0) in *. run_steps H. set (h := body_hash e (JDict [])) in *.
  set (d1 := rivals_lock e db) in *.
  apply bind_ok_inv in H as ([resp|] & s & Hstep & H).
  { apply check_idempotency_some in Hstep as [-> Hans]. done_run H. left. by split. }
  apply check_idempotency_none in Hstep as [Hp1 Hp2]; [|done].
  step H with rate_limit_ok as [n ->].
  assert (prep expiry e s (ticked n s)) as Hp3 by apply prep_ticked.
  set (s1 := ticked n s) in *. clearbody s1.
  pose proof (prep_request e d1 w (cancel_endpoint id) key s s1 Hp1 Hp2 Hp3) as Hprep.
  right. exists j. apply bind_ok_inv in H as (u & s2 & Hbr & H). run_steps H.
  assert (committed s2 = committed s1 /\ writes s2 = writes s1) as [Hc2 Hw2].
  { destruct (_ <?> _); [by apply request_cancellation_ok in Hbr as (_ & -> & -> & _)|by done_run Hbr]. }
  eapply commit_request in H; [|exact Hprep|exact Hc2|exact Hw2].
  destruct H as (d0 & Hl & [(-> & Hi & W & t & HW & Hf & Hc)|Hrace]); exists d0;
    (split; [done|]); (split; [done|]); [left|by right].
  split; [done|]. split; [done|]. destruct Hprep as [Hst _].
  cbn [staged staging ticked drawn] in Hc. rewrite map_app in Hc. rewrite apply_all_app in Hc.
  set (d := apply_all W (rivals_commit e d0)) in *.
  unfold is_cancellation. case_bool_decide as Hcr; cbn [negb] in Hbr |- *.
  - done_run Hbr. split; [by left|]. exists W, (ticks s2). split; [done|]. fold d.
    rewrite Hst in Hc. rewrite Hc. unfold apply_all. cbn -[N.modulo Z.add].
    split; [done|]. split; [by do 2 eexists|]. by split_and!.
  - apply request_cancellation_ok in Hbr as (Hstep & _ & _ & aid & oid & eid & stamp & hdr & Hs2).
    split; [by right|]. exists W, (ticks s2). split; [done|]. fold d.
    rewrite Hs2, Hst in Hc. rewrite Hc. unfold apply_all. cbn -[N.modulo Z.add].
    split; [|split; [by do 2 eexists|by split_and!]].
    split; [by eexists|]. split; [|eexists; do 4 (split; [reflexivity|]); reflexivity].
    eexists. split; [reflexivity|]. do 3 (split; [reflexivity|]). by dict_lookup.
Qed.

(** C16: A cancellation is one legal transition.  If it succeeds without replaying an
    answer or losing the race for its key, the job it locked was live (its state
    stepped to [CANCEL_REQUESTED] legally) or already asked to cancel; in the first
    case the transaction sets exactly that job's state and publishes one event and
    one audit row, in the second it publishes only the idempotency record.  The
    caller was a DEVELOPER or more of the job's workspace.  A failed cancellation
    publishes nothing. *)
Theorem cancel_job_transactional caller id key e db :
  match run (cancel_job caller id key) e db with
  | (Ok r, db') => exists j0, where_ (has_job_id id) (jobs db) = [j0] /\
      let w := job_workspace_id j0 in let h := body_hash e (JDict []) in
      let d1 := rivals_lock e db in
      (exists m, access db caller w DEVELOPER "Job not found" = Ok m) /\
      ((answered d1 w (cancel_endpoint id) key h r /\ db' = d1)
       \/ exists j d0, where_ (has_job_id id) (jobs d1) = [j] /\ rtc (lock_step e) d1 d0 /\
          ((r = accepted id /\ integrity db'
            /\ (job_state j = CANCEL_REQUESTED \/ job_step (job_state j) CANCEL_REQUESTED)
            /\ exists W n, Forall housekeeping W
                 /\ is_cancellation w id (subject caller) key h (clock e n + hours 24) j
                      (apply_all W (rivals_commit e d0)) db')
           \/ (db' = rivals_commit e d0 /\ answered db' w (cancel_endpoint id) key h r)))
  | (Err x, db') => rtc (rival_step e) db db'
  end.
Proof.
  destruct (run _ e db) as [[r|x] db'] eqn:H; [by apply cancel_job_inv|].
  unfold run in H. destruct (cancel_job _ _ _ e (open_session db)) as [o s'] eqn:E.
  simpl in H. simplify_eq. exact (atomic_cancel_job _ _ _ e _ _ _ E).
Qed.

(** A finished job cannot be cancelled: on a job in a terminal state, whatever the
    other transactions do as long as they leave the locked row alone, an authorized
    request that is not a replay never succeeds and never changes the job. *)
Theorem cancel_job_terminal_refused caller id key e db j r db' :
  where_ (has_job_id id) (jobs db) = [j] -> is_terminal_job_state (job_state j) = true ->
  where_ (has_job_id id) (jobs (rivals_lock e db)) = [j] ->
  run (cancel_job caller id key) e db = (Ok r, db') ->
  exists d, (d = rivals_lock e db \/ exists d0, d = rivals_commit e d0)
    /\ db' = d
    /\ answered d (job_workspace_id j) (cancel_endpoint id) key (body_hash e (JDict [])) r.
Proof.
  intros Hj Hterm Hlocked H.
  apply cancel_job_inv in H as (j0 & Hj0 & _ & H). rewrite Hj in Hj0. simplify_eq.
  destruct H as [[Hans ->]|(j & d0 & Hj' & _ & H)]; [by eexists; split; [left|]|].
  rewrite Hlocked in Hj'. simplify_eq.
  destruct H as [(_ & _ & Hlegal & _)|[-> Hans]]; [|by eexists; split; [right; eexists|]].
  exfalso. destruct Hlegal as [Heq|Hstep]; [by rewrite Heq in Hterm|].
  by apply (proj1 (is_terminal_iff _) Hterm) in Hstep.
Qed.

Definition sample_job (s : JobState) : Job :=
  mkJob 42%N sample_workspace "train" "ghcr.io/hami9/train:1" [] [] 600 3 1 s 0 0.
Definition sample_job_db (s : JobState) : Db :=
  on_jobs (fun _ => [sample_job s]) (sample_db DEVELOPER).

(** A replayable cancellation of a job that has finished since. *)
Definition cancelled_db : Db :=
  on_jobs (fun _ => [sample_job CANCELLED])
    (run (cancel_job alice 42%N "key-2") sample_env (sample_job_db RUNNING)).2.

Lemma cancel_job_terminal_refused_witness :
  (run (cancel_job alice 42%N "key-3") sample_env cancelled_db).1
    = Err (http_error 409 "Cannot cancel job: Cannot transition out of terminal state 'CANCELLED'")
  /\ exists d, (d = cancelled_db \/ exists d0, d = rivals_commit sample_env d0)
     /\ cancelled_db = d
     /\ answered d sample_workspace (cancel_endpoint 42%N) "key-2"
          (body_hash sample_env (JDict [])) (accepted 42%N).
Proof.
  split; [vm_compute; reflexivity|].
  apply (cancel_job_terminal_refused alice 42%N "key-2" sample_env cancelled_db (sample_job CANCELLED)).
  - vm_compute. reflexivity.
  - reflexivity.
  - vm_compute. reflexivity.
  - vm_compute. reflexivity.
Defined.

(** ** Tenant isolation *)

(** C11: Jobs are isolated between tenants: to a caller without a membership in the
    job's workspace every endpoint on the job (read, output, cancel, rerun) gives
    the very answer it gives for a job that does not exist, the 404 [Job not
    found], and changes nothing; no lock is taken. *)
Theorem job_tenant_isolation abspath repo_root isfile caller id key e db :
  (List.length (where_ (has_job_id id) (jobs db)) <= 1)%nat ->
  (forall j, j ∈ jobs db -> job_id j = id -> stranger db caller (job_workspace_id j)) ->
  run (get_job caller id) e db = (Err job_not_found, db)
  /\ run (get_job_output abspath repo_root isfile caller id) e db = (Err job_not_found, db)
  /\ run (cancel_job caller id key) e db = (Err job_not_found, db)
  /\ run (rerun_job caller id key) e db = (Err job_not_found, db).
Proof.
  intros Hlen Hstr.
  assert (forall j, where_ (has_job_id id) (jobs (view (open_session db))) = [j] ->
            stranger (view (open_session db)) caller (job_workspace_id j)) as Hfor.
  { rewrite view_open. intros j Hj. assert (j ∈ where_ (has_job_id id) (jobs db)) as Hin
      by (rewrite Hj; left).
    apply elem_of_where in Hin as [Hin Hid]. unfold has_job_id in Hid. bool_hyps. by apply Hstr. }
  assert (lock_job caller id e (open_session db) = (Err job_not_found, open_session db)) as Hlock
    by (by apply foreign_row).
  unfold run. split_and!.
  - unfold get_job. rewrite (foreign_row jobs (has_job_id id) job_workspace_id); done.
  - unfold get_job_output. rewrite (foreign_row jobs (has_job_id id) job_workspace_id); done.
  - unfold cancel_job. by rewrite (bind_err _ _ _ _ _ _ Hlock).
  - unfold rerun_job. by rewrite (bind_err _ _ _ _ _ _ Hlock).
Qed.

Lemma job_tenant_isolation_witness :
  run (cancel_job mallory 42%N "key") sample_env (sample_job_db RUNNING)
    = (Err job_not_found, sample_job_db RUNNING)
  /\ run (cancel_job mallory 43%N "key") sample_env (sample_job_db RUNNING)
    = (Err job_not_found, sample_job_db RUNNING).
Proof.
  assert (forall j, j ∈ jobs (sample_job_db RUNNING) ->
            stranger (sample_job_db RUNNING) mallory (job_workspace_id j)) as Hstr.
  { intros j _ m Hm. apply list_elem_of_singleton in Hm as ->. unfold is_membership_of. simpl.
    apply andb_false_r. }
  split.
  - exact (proj1 (proj2 (proj2 (job_tenant_isolation (fun p => p) "" (fun _ => true) mallory 42%N
      "key" sample_env (sample_job_db RUNNING) (le_n 1) (fun j Hj _ => Hstr j Hj))))).
  - exact (proj1 (proj2 (proj2 (job_tenant_isolation (fun p => p) "" (fun _ => true) mallory 43%N
      "key" sample_env (sample_job_db RUNNING) (le_S _ _ (le_n 0)) (fun j Hj _ => Hstr j Hj))))).
Defined.

(** ** Reruns *)

(** [d'] is [d] with one more job, a QUEUED copy of the parent, its event and its
    record. *)
Definition is_rerun (w id : uuid) (parent : Job) (key h : string) (new_id : uuid) (expires : time)
    (d d' : Db) : Prop :=
  (exists t, jobs d' = jobs d ++
     [new_job new_id w (rerun_name (job_name parent)) (job_image_digest parent)
        (job_command_args parent) (job_env_vars parent) (job_timeout_seconds parent)
        (job_max_retries parent) t])
  /\ (exists ev, outbox d' = outbox d ++ [ev] /\ ob_workspace_id ev = w /\ ob_status ev = PENDING
        /\ ob_topic ev = "job.submitted.v1"
        /\ dict_get "job_id" (dict_items (ob_payload_json ev)) = Some (JStr (uuid_str new_id))
        /\ dict_get "parent_job_id" (dict_items (ob_payload_json ev)) = Some (JStr (uuid_str id)))
  /\ (exists rid t, idempotency d' = idempotency d ++
        [record_row rid w (rerun_endpoint id) key h 202 new_id expires t])
  /\ memberships d' = memberships d /\ releases d' = releases d /\ job_attempts d' = job_attempts d
  /\ reservations d' = reservations d.

Lemma len_take n s : len (str_take n s) <= Z.of_nat n.
Proof.
  revert s. unfold len. induction n as [|n IH]; intros [|c s]; simpl; try lia. specialize (IH s). lia.
Qed.

Lemma rerun_name_fits name : len (rerun_name name) <= 100.
Proof.
  pose proof (len_take 94 name). unfold len, rerun_name in *. rewrite str_length_app.
  change (String.length "-rerun") with 6%nat. lia.
Qed.

(** A rerun makes a fresh job out of a finished one: if it succeeds without
    replaying or losing the race, the job it locked is in a terminal state and
    stays as it is; the new job is QUEUED with attempt number 0, copies the image,
    arguments, environment, timeout and retries, and is named after its parent
    within the 100 characters of the column; its event names both jobs. *)
Theorem rerun_job_effect caller id key e db r db' :
  run (rerun_job caller id key) e db = (Ok r, db') ->
  exists w d1, d1 = rivals_lock e db /\
  ((answered d1 w (rerun_endpoint id) key (body_hash e (JDict [])) r /\ db' = d1)
   \/ exists parent d0, where_ (has_job_id id) (jobs d1) = [parent] /\ rtc (lock_step e) d1 d0
      /\ is_terminal_job_state (job_state parent) = true
      /\ len (rerun_name (job_name parent)) <= 100
      /\ ((exists new_id W n, r = accepted new_id /\ integrity db' /\ Forall housekeeping W
             /\ is_rerun w id parent key (body_hash e (JDict [])) new_id (clock e n + hours 24)
                  (apply_all W (rivals_commit e d0)) db')
          \/ (db' = rivals_commit e d0
              /\ answered db' w (rerun_endpoint id) key (body_hash e (JDict [])) r))).
Proof.
  unfold run, rerun_job. intros Hrun.
  match type of Hrun with context [?m e (open_session db)] =>
    destruct (m e (open_session db)) as [o s'] eqn:H end.
  simpl in Hrun. simplify_eq.
  apply bind_ok_inv in H as ([w j] & s & Hstep & H).
  apply lock_job_ok in Hstep as (-> & _ & Hj). exists w, (rivals_lock e db). split; [done|].
  run_steps H. apply bind_ok_inv in H as ([resp|] & s & Hstep & H).
  { apply check_idempotency_some in Hstep as [-> Hans]. done_run H. left. by split. }
  apply check_idempotency_none in Hstep as [Hp1 Hp2]; [|done].
  step H with guard_ok as [-> Hterm]. apply negb_false_iff in Hterm.
  step H with rate_limit_ok as [n ->].
  step H with enforce_ok as [-> _].
  assert (prep expiry e s (ticked 2 (admission_state w e (ticked n s)))) as Hp3
    by (etrans; [apply prep_ticked|apply prep_admission]).
  set (s1 := ticked 2 (admission_state w e (ticked n s))) in *. clearbody s1.
  pose proof (prep_request e (rivals_lock e db) w (rerun_endpoint id) key s s1 Hp1 Hp2 Hp3) as Hprep.
  right. run_steps H.
  set (new_id := (entropy e (draws s1) mod 2 ^ 128)%N) in *. clearbody new_id.
  eapply commit_request in H; [|exact Hprep|reflexivity|reflexivity].
  destruct H as (d0 & Hl & H). exists j, d0. split; [done|]. split; [done|]. split; [done|].
  split; [apply rerun_name_fits|].
  destruct H as [(-> & Hi & W & t & HW & Hf & Hc)|Hrace]; [left|by right].
  exists new_id, W. eexists. do 3 (split; [done|]).
  destruct Hprep as [Hst _]. simpl in Hc. rewrite Hst in Hc.
  set (d := apply_all W (rivals_commit e d0)) in *. unfold apply_all in Hc. simpl in Hc.
  rewrite Hc. unfold is_rerun. cbn -[N.modulo Z.add].
  split; [by eexists|]. split.
  { eexists. split; [reflexivity|]. do 3 (split; [reflexivity|]). split; by dict_lookup. }
  split; [by do 2 eexists|]. by split_and!.
Qed.

Lemma rerun_job_effect_witness :
  exists w d1, d1 = sample_job_db SUCCEEDED /\ exists parent,
    where_ (has_job_id 42%N) (jobs d1) = [parent]
    /\ (answered d1 w (rerun_endpoint 42%N) "k" (body_hash sample_env (JDict [])) (accepted 1000%N)
        \/ is_terminal_job_state (job_state parent) = true).
Proof.
  destruct (rerun_job_effect alice 42%N "k" sample_env (sample_job_db SUCCEEDED) (accepted 1000%N)
    (run (rerun_job alice 42%N "k") sample_env (sample_job_db SUCCEEDED)).2) as (w & d1 & -> & H).
  - vm_compute. reflexivity.
  - exists w, (sample_job_db SUCCEEDED). split; [reflexivity|].
    destruct H as [[H _]|(parent & d0 & Hp & _ & Ht & _)].
    + exists (sample_job SUCCEEDED). split; [reflexivity|]. by left.
    + exists parent. split; [exact Hp|]. by right.
Defined.
