(* ===== verification/Workspaces.v ===== *)
(** * Workspaces ([api/v1/workspaces.py], [schemas/workspace.py])

    Workspaces and their memberships, with the rule the endpoints enforce on
    owners: every workspace keeps at least one. *)

From S2P Require Import Prelude PyStr Uuid Json Models Config Session Sample Auth AuditLog.
From S2P Require Import Handlers.
From Stdlib Require Import Ascii String.

(** ** Schemas *)

Record CreateWorkspaceRequest := mkCreateWorkspace { cw_name : string; cw_slug : string }.

Definition slug_char (c : ascii) : bool :=
  let n := code c in ((97 <=? n) && (n <=? 122))%N || is_digit c || (c =?= "-"%char).

(** The field constraints; the pattern is [^[a-z0-9-]+$]. *)
Definition create_workspace_valid (p : CreateWorkspaceRequest) : bool :=
  (1 <=? len (cw_name p)) && (len (cw_name p) <=? 100)
  && (3 <=? len (cw_slug p)) && (len (cw_slug p) <=? 100) && str_forallb slug_char (cw_slug p).

Record WorkspaceResponse := mkWorkspaceResponse {
  wr_id : uuid; wr_name : string; wr_slug : string; wr_created_at : time }.

Record UpsertWorkspaceMemberRequest := mkUpsertMember { um_user_subject : string; um_role : WorkspaceRole }.

Definition upsert_member_valid (p : UpsertWorkspaceMemberRequest) : bool :=
  (1 <=? len (um_user_subject p)) && (len (um_user_subject p) <=? 255).

Record WorkspaceMemberResponse := mkMemberResponse {
  mr_id : uuid; mr_workspace_id : uuid; mr_user_subject : string; mr_role : WorkspaceRole;
  mr_created_at : time }.

Record RemoveWorkspaceMemberResponse := mkRemoved { rm_status : string; rm_user_subject : string }.

Definition workspace_response (w : Workspace) : WorkspaceResponse :=
  mkWorkspaceResponse (ws_id w) (ws_name w) (ws_slug w) (ws_created_at w).
Definition member_response (m : WorkspaceMembership) : WorkspaceMemberResponse :=
  mkMemberResponse (wm_id m) (wm_workspace_id m) (wm_user_subject m) (wm_role m) (wm_created_at m).

(** ** [create_workspace] *)

Definition slug_taken (slug : string) : exn :=
  http_error 409 ("Workspace with slug '" +:+ slug +:+ "' already exists").

(** [db.refresh(row)]: the row as the database has it. *)
Definition refresh {A} (table : Db -> list A) (P : A -> bool) : M A :=
  rows ← query (fun db => where_ P (table db));
  scalar_one rows.

Lemma refresh_ok {A} (table : Db -> list A) P e s a s' :
  refresh table P e s = (Ok a, s') -> s' = s.
Proof.
  unfold refresh. intros H. run_steps H. by apply scalar_one_ok in H as [-> _].
Qed.

Definition create_workspace (caller : Caller) (payload : CreateWorkspaceRequest) : M WorkspaceResponse :=
  existing ← select_one workspaces (fun w => ws_slug w =?= cw_slug payload);
  guard (bool_decide (is_Some existing)) (slug_taken (cw_slug payload)) ;;
  id ← uuid4;
  stage (fun t => on_workspaces (fun l => l ++
    [mkWorkspace id (cw_name payload) (cw_slug payload) t t])) ;;
  member_id ← uuid4;
  stage (fun t => on_memberships (fun l => l ++
    [mkMembership member_id id (subject caller) OWNER t t])) ;;
  catch_integrity
    (flush ;;
     record_audit_event (Some id) (subject caller) "workspace.created" "WORKSPACE" (uuid_str id)
       [("slug", JStr (cw_slug payload)); ("name", JStr (cw_name payload))] ;;
     commit)
    (fun c =>
       rollback ;;
       guard (negb (violated_constraint c =?= Some "uq_workspace_slug"))
         unexpected_integrity_error ;;
       raise (slug_taken (cw_slug payload))) ;;
  row ← refresh workspaces (fun w => ws_id w =?= id);
  mret (workspace_response row).

(** ** Reads *)

Definition get_workspace (caller : Caller) (w : uuid) : M WorkspaceResponse :=
  authorize_workspace_access caller w VIEWER "Workspace not found" ;;
  found ← select_one workspaces (fun r => ws_id r =?= w);
  row ← or_raise found (http_error 404 "Workspace not found");
  mret (workspace_response row).

Definition list_workspace_members (caller : Caller) (w : uuid) : M (list WorkspaceMemberResponse) :=
  authorize_workspace_access caller w VIEWER "Workspace not found" ;;
  members ← query (fun db => order_by (fun a b => wm_created_at a <=? wm_created_at b)
                               (where_ (fun m => wm_workspace_id m =?= w) (memberships db)));
  mret (map member_response members).

(** ** [upsert_workspace_member] *)

Definition is_owner_of (w : uuid) (m : WorkspaceMembership) : bool :=
  (wm_workspace_id m =?= w) && (wm_role m =?= OWNER).

Definition with_role (role : WorkspaceRole) (t : time) (m : WorkspaceMembership) : WorkspaceMembership :=
  mkMembership (wm_id m) (wm_workspace_id m) (wm_user_subject m) role (wm_created_at m) t.

(** The lock on the workspace row and the owner count behind it. *)
Definition guard_last_owner (w : uuid) (detail : string) : M unit :=
  lock ;;
  owner_count ← query (fun db => count_where (is_owner_of w) (memberships db));
  guard (owner_count <=? 1) (http_error 422 detail).

(** The change of the membership: the id of the row changed or added. *)
Definition stage_member (caller : Caller) (w : uuid) (payload : UpsertWorkspaceMemberRequest) : M uuid :=
  mine ← authorize_workspace_access caller w ADMIN "Workspace not found";
  guard ((um_role payload =?= OWNER) && (wm_role mine <?> OWNER))
    (http_error 403 "Only workspace OWNER can grant OWNER role") ;;
  existing ← select_one memberships (is_membership_of w (strip (um_user_subject payload)));
  match existing with
  | Some m =>
      guard ((wm_role m =?= OWNER) && (wm_role mine <?> OWNER))
        (http_error 403 "Only workspace OWNER can modify an existing OWNER membership") ;;
      (if (wm_role m =?= OWNER) && (um_role payload <?> OWNER)
       then guard_last_owner w "Cannot demote the last OWNER of a workspace" else mret tt) ;;
      (* assigning the value the column has emits no UPDATE *)
      (if wm_role m =?= um_role payload then mret tt
       else stage (fun t => on_memberships
              (update_where (fun r => wm_id r =?= wm_id m) (with_role (um_role payload) t)))) ;;
      mret (wm_id m)
  | None =>
      id ← uuid4;
      stage (fun t => on_memberships (fun l => l ++
        [mkMembership id w (strip (um_user_subject payload)) (um_role payload) t t])) ;;
      mret id
  end.

Definition upsert_workspace_member (caller : Caller) (w : uuid)
    (payload : UpsertWorkspaceMemberRequest) : M WorkspaceMemberResponse :=
  id ← stage_member caller w payload;
  let user := strip (um_user_subject payload) in
  record_audit_event (Some w) (subject caller) "workspace.member.upserted" "WORKSPACE_MEMBER" user
    [("user_subject", JStr user); ("role", JStr (role_value (um_role payload)))] ;;
  catch_integrity commit
    (fun c =>
       rollback ;;
       guard (violated_constraint c =?= Some "uq_workspace_membership_user")
         (http_error 409 ("Membership for '" +:+ user +:+ "' already exists in this workspace")) ;;
       raise unexpected_integrity_error) ;;
  row ← refresh memberships (fun m => wm_id m =?= id);
  mret (member_response row).

(** ** [remove_workspace_member] *)

(** The checks and the deletion: the row that goes. *)
Definition stage_removal (caller : Caller) (w : uuid) (user : string) : M WorkspaceMembership :=
  mine ← authorize_workspace_access caller w ADMIN "Workspace not found";
  found ← select_one memberships (is_membership_of w user);
  target ← or_raise found (http_error 404 "Workspace member not found");
  (if wm_role target =?= OWNER then
     guard (wm_role mine <?> OWNER)
       (http_error 403 "Only workspace OWNER can remove an OWNER member") ;;
     guard_last_owner w "Cannot remove the last OWNER of a workspace"
   else mret tt) ;;
  stage (fun _ => on_memberships (delete_where (fun r => wm_id r =?= wm_id target))) ;;
  mret target.

Definition remove_workspace_member (caller : Caller) (w : uuid) (user : string)
    : M RemoveWorkspaceMemberResponse :=
  target ← stage_removal caller w user;
  record_audit_event (Some w) (subject caller) "workspace.member.removed" "WORKSPACE_MEMBER" user
    [("user_subject", JStr user); ("previous_role", JStr (role_value (wm_role target)))] ;;
  commit ;;
  mret (mkRemoved "REMOVED" user).

(** ** Every workspace keeps an owner *)

Definition owned (db : Db) : Prop :=
  forall ws, ws ∈ workspaces db -> exists m, m ∈ memberships db /\ is_owner_of (ws_id ws) m = true.

Lemma integrity_membership_ids db : integrity db -> NoDup (map wm_id (memberships db)).
Proof.
  intros Hi. apply (bool_decide_eq_true (NoDup (map wm_id (memberships db)))).
  eapply (integrity_constraint db "workspace_memberships_pkey"); [done|].
  unfold constraints. set_solver.
Qed.

(** Two owners cannot both be the row [i]. *)
Lemma two_owners w l i :
  NoDup (map wm_id l) -> 2 <= count_where (is_owner_of w) l ->
  exists m, m ∈ l /\ is_owner_of w m = true /\ wm_id m <> i.
Proof.
  unfold count_where. intros Hnd Hc.
  assert (NoDup (map wm_id (where_ (is_owner_of w) l))) as Hnd' by by apply NoDup_map_where.
  destruct (where_ (is_owner_of w) l) as [|a [|b r]] eqn:E; simpl in Hc; [lia..|].
  assert (forall m, m ∈ a :: b :: r -> m ∈ l /\ is_owner_of w m = true) as Hin
    by (intros m Hm; apply elem_of_where; by rewrite E).
  simpl in Hnd'. apply NoDup_cons in Hnd' as [Hab _].
  assert (wm_id a <> wm_id b) as Hne by (intros Heq; apply Hab; rewrite Heq; left).
  destruct (decide (wm_id a = i)) as [Ha|Ha].
  - exists b. destruct (Hin b) as [? ?]; [right; left|]. split; [done|]. split; [done|]. congruence.
  - exists a. destruct (Hin a) as [? ?]; [left|]. by split.
Qed.

(** What licenses taking row [m] away from the owners of [w]: it is not an owner in
    the database the change applies to, or two owners were counted. *)
Definition expendable (w : uuid) (m : WorkspaceMembership) (d : Db) : Prop :=
  wm_workspace_id m = w /\
  ((m ∈ memberships d /\ wm_role m <> OWNER) \/ 2 <= count_where (is_owner_of w) (memberships d)).

(** The row keeps its workspace. *)
Definition row_keeps_workspace (m : WorkspaceMembership) (d : Db) : Prop :=
  forall m', m' ∈ memberships d -> wm_id m' = wm_id m -> wm_workspace_id m' = wm_workspace_id m.

Lemma other_owner w m d ws :
  NoDup (map wm_id (memberships d)) -> owned d -> expendable w m d -> row_keeps_workspace m d ->
  ws ∈ workspaces d ->
  exists m', m' ∈ memberships d /\ is_owner_of (ws_id ws) m' = true /\ wm_id m' <> wm_id m.
Proof.
  intros Hnd Ho [Hw Hexp] Hkeep Hws. destruct (Ho ws Hws) as (m0 & Hm0 & Hown).
  destruct (decide (wm_id m0 = wm_id m)) as [Heq|Hne]; [|by exists m0].
  destruct Hexp as [[Hm Hrole]|Htwo].
  - assert (m0 = m) as -> by (by eapply (NoDup_map_inj wm_id)).
    unfold is_owner_of in Hown. bool_hyps. done.
  - unfold is_owner_of in Hown. bool_hyps. rewrite (Hkeep m0) in * by done. subst w.
    rewrite H in Htwo. by apply two_owners.
Qed.

(** Removing an expendable row, or changing its role, keeps the owners. *)
Lemma owned_delete w m d d' :
  NoDup (map wm_id (memberships d)) -> owned d -> expendable w m d -> row_keeps_workspace m d ->
  workspaces d' = workspaces d ->
  memberships d' = delete_where (fun r => wm_id r =?= wm_id m) (memberships d) -> owned d'.
Proof.
  intros Hnd Ho Hexp Hkeep Hw Hm ws Hws. rewrite Hw in Hws.
  destruct (other_owner w m d ws Hnd Ho Hexp Hkeep Hws) as (m' & Hin & Hown & Hne).
  exists m'. split; [|done]. rewrite Hm. apply elem_of_delete_where. split; [done|].
  by apply bool_decide_eq_false.
Qed.

Lemma owned_update w m role t d d' :
  NoDup (map wm_id (memberships d)) -> owned d -> (role = OWNER \/ expendable w m d) ->
  row_keeps_workspace m d ->
  workspaces d' = workspaces d ->
  memberships d' = update_where (fun r => wm_id r =?= wm_id m) (with_role role t) (memberships d) ->
  owned d'.
Proof.
  intros Hnd Ho Hexp Hkeep Hw Hm ws Hws. rewrite Hw in Hws.
  destruct Hexp as [->|Hexp].
  - destruct (Ho ws Hws) as (m0 & Hm0 & Hown).
    exists (if wm_id m0 =?= wm_id m then with_role OWNER t m0 else m0). split.
    + rewrite Hm. apply elem_of_update_where. by exists m0.
    + case_bool_decide; [|done]. unfold is_owner_of in *. simpl. bool_hyps.
      by rewrite !bool_decide_eq_true_2.
  - destruct (other_owner w m d ws Hnd Ho Hexp Hkeep Hws) as (m' & Hin & Hown & Hne).
    exists m'. split; [|done]. rewrite Hm. apply elem_of_update_where. exists m'.
    split; [done|]. by rewrite bool_decide_eq_false_2.
Qed.

Lemma owned_more d d' :
  owned d -> workspaces d' = workspaces d -> (forall m, m ∈ memberships d -> m ∈ memberships d') ->
  owned d'.
Proof. intros Ho Hw Hm ws Hws. rewrite Hw in Hws. destruct (Ho ws Hws) as (m & ? & ?). eauto. Qed.

(** ** The invariant of the membership table *)

Definition members_ok (d : Db) : Prop := NoDup (map wm_id (memberships d)) /\ owned d.

(** What the other transactions may do: anything that keeps the invariant and the
    workspace of a row while this one waits for a lock; nothing to the memberships
    and the workspaces once it has decided, until it commits. *)
Record tame_rivals (e : Env) : Prop := {
  tame_lock d : members_ok d -> members_ok (rivals_lock e d);
  tame_rows d m : m ∈ memberships d -> members_ok d -> row_keeps_workspace m (rivals_lock e d);
  tame_memberships d : memberships (rivals_commit e d) = memberships d;
  tame_workspaces d : workspaces (rivals_commit e d) = workspaces d }.

Section Invariant.
Context (e : Env) (He : tame_rivals e).

Lemma members_ok_commit d : members_ok d -> members_ok (rivals_commit e d).
Proof.
  intros [Hnd Ho]. split; [by rewrite tame_memberships|].
  eapply owned_more; [exact Ho| |]; [by rewrite tame_workspaces|by rewrite tame_memberships].
Qed.

Lemma members_ok_rivals d d' : rtc (rival_step e) d d' -> members_ok d -> members_ok d'.
Proof.
  induction 1 as [|d1 d2 d3 [->| ->] _ IH]; [done| |]; intros H; apply IH;
    [by apply tame_lock | by apply members_ok_commit].
Qed.

Lemma members_ok_keeps {A} (m : M A) s :
  Keeps m -> members_ok (committed s) -> members_ok (committed (m e s).2).
Proof. intros Hm. apply members_ok_rivals, Hm. Qed.

(** The end of a handler: what is published is sound, and nothing else commits. *)
Lemma members_ok_tail {A B} (m : M A) h (k : A -> M B) s :
  Atomic m -> (forall c, Keeps (h c)) -> (forall a, Keeps (k a)) -> members_ok (committed s) ->
  (forall a s', m e s = (Ok a, s') -> members_ok (committed s')) ->
  members_ok (committed ((catch_integrity m h ≫= k) e s).2).
Proof.
  intros Hm Hh Hk Hs Hok. unfold mbind, M_bind, catch_integrity.
  destruct (m e s) as [[a|x] s1] eqn:E.
  - apply members_ok_keeps; [apply Hk|by eapply Hok].
  - assert (members_ok (committed s1)) as H1 by (eapply members_ok_rivals; [by eapply Hm|done]).
    destruct x; try done. pose proof (members_ok_keeps (h constraint_name) s1 (Hh _) H1) as H2.
    destruct (h constraint_name e s1) as [[b|y] s2]; [by apply members_ok_keeps|done].
Qed.

(** A published change, from what it does to the two tables. *)
Lemma members_ok_published s u s' :
  commit e s = (Ok u, s') -> (integrity (published e s) -> owned (published e s)) ->
  members_ok (committed s').
Proof.
  intros Hc Ho. apply commit_ok in Hc as [-> Hi]. simpl.
  split; [by apply integrity_membership_ids|by apply Ho].
Qed.
End Invariant.

(** ** The two changes of a membership *)

(** The session is on the database [d], with the changes [cs] staged. *)
Definition staged_on (s : Sess) (d : Db) (cs : list (time -> Db -> Db)) : Prop :=
  committed s = d /\ writes s = [] /\ staged s = cs.

Lemma published_staged_on e s d cs :
  staged_on s d cs ->
  published e s = apply_all (map (fun c => c (clock e (ticks s))) cs) (rivals_commit e d).
Proof. intros (<- & Hw & <-). by rewrite published_eq, Hw. Qed.

Lemma guard_last_owner_ok w detail e s u s' :
  guard_last_owner w detail e s = (Ok u, s') ->
  s' = locked e s /\ 2 <= count_where (is_owner_of w) (memberships (view (locked e s))).
Proof.
  unfold guard_last_owner. intros H. run_steps H. apply guard_ok in H as [-> Hc]. bool_hyps.
  split; [done|lia].
Qed.

(** The row a selection by (workspace, subject) finds. *)
Lemma selected_membership w user db m :
  where_ (is_membership_of w user) (memberships db) = [m] ->
  m ∈ memberships db /\ wm_workspace_id m = w /\ wm_user_subject m = user.
Proof.
  intros H. assert (m ∈ where_ (is_membership_of w user) (memberships db)) as Hin
    by (rewrite H; left).
  apply elem_of_where in Hin as [Hin Hm]. unfold is_membership_of in Hm. by bool_hyps.
Qed.

Lemma stage_removal_ok caller w user e db m s' :
  tame_rivals e -> members_ok db ->
  stage_removal caller w user e (open_session db) = (Ok m, s') ->
  exists d, staged_on s' d [fun _ => on_memberships (delete_where (fun r => wm_id r =?= wm_id m))]
    /\ members_ok d /\ expendable w m d /\ row_keeps_workspace m d.
Proof.
  intros He Hok H. unfold stage_removal in H.
  step H with authorize_ok as [-> _]. step H with @select_one_ok as [-> Hsel].
  step H with @or_raise_ok as [-> ->]. apply one_or_none_some in Hsel. rewrite view_open in Hsel.
  apply bind_ok_inv in H as (u & s1 & Hbr & H). run_steps H. done_run H.
  destruct (selected_membership _ _ _ _ Hsel) as (Hin & Hw & _).
  case_bool_decide as Hrole.
  - step Hbr with guard_ok as [-> _]. apply guard_last_owner_ok in Hbr as [-> Htwo].
    exists (rivals_lock e db). split; [done|]. split; [by apply tame_lock|].
    split; [|by apply tame_rows]. split; [done|]. right. exact Htwo.
  - done_run Hbr. exists db. split; [done|]. split; [done|]. split; [split; [done|by left]|].
    intros m' Hm' Heq. assert (m' = m) as -> by (destruct Hok; by eapply (NoDup_map_inj wm_id)). done.
Qed.

(** The three changes an upsert stages. *)
Inductive member_change (w : uuid) (d : Db) : list (time -> Db -> Db) -> Prop :=
| no_change : member_change w d []
| role_change m role :
    (role = OWNER \/ expendable w m d) -> row_keeps_workspace m d ->
    member_change w d [fun t => on_memberships
      (update_where (fun r => wm_id r =?= wm_id m) (with_role role t))]
| new_member id user role :
    member_change w d [fun t => on_memberships (fun l => l ++ [mkMembership id w user role t t])].

Lemma stage_member_ok caller w p e db id s' :
  tame_rivals e -> members_ok db ->
  stage_member caller w p e (open_session db) = (Ok id, s') ->
  exists d cs, staged_on s' d cs /\ members_ok d /\ member_change w d cs.
Proof.
  intros He Hok H. unfold stage_member in H.
  step H with authorize_ok as [-> _]. step H with guard_ok as [-> _].
  step H with @select_one_ok as [-> Hsel]. rewrite view_open in Hsel.
  destruct (where_ _ _) as [|m []] eqn:Hm; simpl in Hsel; simplify_eq.
  { run_steps H. done_run H. exists db. eexists. split; [done|]. split; [done|]. constructor. }
  destruct (selected_membership _ _ _ _ Hm) as (Hin & Hw & _).
  step H with guard_ok as [-> _].
  apply bind_ok_inv in H as (u & s1 & Hbr & H). apply bind_ok_inv in H as (u' & s2 & Hst & H).
  assert (exists d, staged_on s1 d [] /\ members_ok d /\ row_keeps_workspace m d
            /\ (um_role p = OWNER \/ expendable w m d)) as (d & (Hc & Hwr & Hs) & Hd & Hk & Hexp).
  { destruct ((wm_role m =?= OWNER) && _) eqn:E.
    - apply guard_last_owner_ok in Hbr as [-> Htwo]. exists (rivals_lock e db). split; [done|].
      split; [by apply tame_lock|]. split; [by apply tame_rows|]. right. split; [done|]. right. exact Htwo.
    - rewrite ret_spec in Hbr. injection Hbr as _ <-. exists db. split; [done|]. split; [done|]. split.
      + intros m' Hm' Heq. assert (m' = m) as -> by (destruct Hok; by eapply (NoDup_map_inj wm_id)). done.
      + apply andb_false_iff in E as [E|E]; bool_hyps; [|by left]. right. split; [done|by left]. }
  rewrite ret_spec in H. injection H as _ <-. case_bool_decide.
  - rewrite ret_spec in Hst. injection Hst as _ <-. exists d, []. split; [done|]. split; [done|constructor].
  - rewrite stage_spec in Hst. injection Hst as _ <-. exists d. eexists.
    split; [split; [done|]; split; [done|]; unfold staging; simpl; by rewrite Hs|].
    split; [done|]. by constructor.
Qed.

#[export] Instance keeps_guard_last_owner w d : Keeps (guard_last_owner w d).
Proof. unfold guard_last_owner. solve_keeps. Qed.
#[export] Instance keeps_stage_member c w p : Keeps (stage_member c w p).
Proof. unfold stage_member. solve_keeps. Qed.
#[export] Instance keeps_stage_removal c w u : Keeps (stage_removal c w u).
Proof. unfold stage_removal. solve_keeps. Qed.
#[export] Instance keeps_refresh {A} (t : Db -> list A) P : Keeps (refresh t P).
Proof. unfold refresh. solve_keeps. Qed.

(** What an upsert publishes keeps the owners. *)
Lemma upsert_published e s d cs extra w :
  tame_rivals e -> members_ok d -> member_change w d cs -> staged_on s d (cs ++ [extra]) ->
  (forall t db, workspaces (extra t db) = workspaces db /\ memberships (extra t db) = memberships db) ->
  owned (published e s).
Proof.
  intros He [Hnd Ho] Hch Hs Hx. rewrite (published_staged_on _ _ _ _ Hs), map_app, apply_all_app.
  set (t := clock e (ticks s)). unfold apply_all at 1. cbn [map foldl].
  set (d1 := rivals_commit e d).
  assert (owned (apply_all (map (fun c => c t) cs) d1)) as Ho1.
  { assert (memberships d1 = memberships d) as Hm by apply tame_memberships, He.
    assert (workspaces d1 = workspaces d) as Hw by apply tame_workspaces, He.
    destruct Hch as [|m role Hexp Hk|id user role]; unfold apply_all; cbn [map foldl].
    - eapply owned_more; [exact Ho|done|by rewrite Hm].
    - eapply (owned_update w m role t d); try done. simpl. by rewrite Hm.
    - eapply owned_more; [exact Ho|done|]. simpl. rewrite Hm. intros m Hin. apply elem_of_app. by left. }
  destruct (Hx t (apply_all (map (fun c => c t) cs) d1)) as [Hw Hm].
  eapply owned_more; [exact Ho1|done|by rewrite Hm].
Qed.

Lemma upsert_keeps_owners e caller w p db :
  tame_rivals e -> members_ok db -> members_ok (run (upsert_workspace_member caller w p) e db).2.
Proof.
  intros He Hok. unfold run, upsert_workspace_member. simpl. unfold mbind at 1, M_bind at 1.
  pose proof (members_ok_keeps e He (stage_member caller w p) (open_session db) _ Hok) as Hk.
  destruct (stage_member _ _ _ _ _) as [[id|x] s1] eqn:E; [|done]. simpl in Hk.
  destruct (stage_member_ok _ _ _ _ _ _ _ He Hok E) as (d & cs & (Hc & Hw & Hs) & Hd & Hch).
  erewrite bind_ok by apply record_audit_spec.
  apply members_ok_tail; [done|apply _|solve_keeps|solve_keeps|done|].
  intros [] s' Hcom. eapply members_ok_published; [exact Hcom|]. intros _.
  eapply upsert_published; [done|exact Hd|exact Hch| |].
  - unfold staged_on, staging, drawn. cbn [committed writes staged]. by rewrite Hs.
  - done.
Qed.

Lemma remove_keeps_owners e caller w user db :
  tame_rivals e -> members_ok db -> members_ok (run (remove_workspace_member caller w user) e db).2.
Proof.
  intros He Hok. unfold run, remove_workspace_member. simpl. unfold mbind at 1, M_bind at 1.
  pose proof (members_ok_keeps e He (stage_removal caller w user) (open_session db) _ Hok) as Hk.
  destruct (stage_removal _ _ _ _ _) as [[m|x] s1] eqn:E; [|done]. simpl in Hk.
  destruct (stage_removal_ok _ _ _ _ _ _ _ He Hok E) as (d & (Hc & Hw & Hs) & [Hnd Ho] & Hexp & Hrow).
  erewrite bind_ok by apply record_audit_spec.
  match goal with |- members_ok (committed ((commit ≫= _) e ?s).2) => set (s2 := s) end.
  unfold mbind, M_bind. destruct (commit e s2) as [[u|x] s3] eqn:Hcom; simpl.
  - eapply members_ok_published; [exact Hcom|]. intros _. rewrite published_eq.
    unfold s2, staging, drawn. cbn [committed writes staged ticks]. rewrite Hc, Hw, Hs.
    pose proof (tame_memberships e He d) as Hm. pose proof (tame_workspaces e He d) as Hws.
    apply (owned_delete w m d); try done. unfold apply_all. simpl. by rewrite Hm.
  - eapply members_ok_rivals; [done|by eapply atomic_commit|done].
Qed.

Lemma create_keeps_owners e caller p db :
  tame_rivals e -> members_ok db -> members_ok (run (create_workspace caller p) e db).2.
Proof.
  intros He Hok. unfold run, create_workspace. cbn [fst snd].
  erewrite bind_step by apply select_one_spec. rewrite view_open.
  destruct (one_or_none _) as [existing|x]; [|done].
  destruct existing as [w0|]; [done|]. unfold guard at 1. simpl bool_decide. cbv iota.
  erewrite bind_ok by reflexivity. erewrite bind_ok by apply uuid4_spec.
  erewrite bind_ok by apply stage_spec. erewrite bind_ok by apply uuid4_spec.
  erewrite bind_ok by apply stage_spec.
  set (id := (entropy e _ mod 2 ^ 128)%N). set (mid := (entropy e (draws (staging _ _)) mod 2 ^ 128)%N).
  clearbody id mid.
  apply members_ok_tail; [done| |solve_keeps|solve_keeps|done|].
  { apply atomic_bind; [apply _|intros _]. apply atomic_bind; [apply _|intros _]. apply _. }
  intros [] s' H. apply bind_ok_inv in H as (u & s1 & Hf & H). apply flush_ok in Hf as [-> _].
  run_steps H. eapply members_ok_published; [exact H|]. intros _. rewrite published_eq. clear H s'.
  unfold flushed, staging, drawn. cbn [committed writes staged ticks draws map app open_session].
  unfold apply_all. cbn [foldl]. destruct Hok as [_ Ho].
  pose proof (tame_memberships e He db) as Hm. pose proof (tame_workspaces e He db) as Hws.
  intros ws Hin. simpl in Hin |- *. rewrite Hws in Hin. rewrite Hm.
  apply elem_of_app in Hin as [Hin|Hin].
  - destruct (Ho ws Hin) as (m & Hm' & Hown). exists m. split; [|done]. apply elem_of_app. by left.
  - apply list_elem_of_singleton in Hin as ->. eexists. split; [apply elem_of_app; right; left|].
    unfold is_owner_of. simpl. by rewrite !bool_decide_eq_true_2.
Qed.

(** ** Properties *)

(** A request on workspaces and members. *)
Inductive member_request :=
| CreateWorkspace (p : CreateWorkspaceRequest)
| UpsertMember (w : uuid) (p : UpsertWorkspaceMemberRequest)
| RemoveMember (w : uuid) (user : string).

Definition serve_member_request (caller : Caller) (r : member_request) (e : Env) (db : Db) : Db :=
  match r with
  | CreateWorkspace p => (run (create_workspace caller p) e db).2
  | UpsertMember w p => (run (upsert_workspace_member caller w p) e db).2
  | RemoveMember w user => (run (remove_workspace_member caller w user) e db).2
  end.

(** C3: Every workspace always has an OWNER: over any sequence of workspace
    creations, member upserts and removals by any callers, each with rivals that
    keep the invariant while it waits for the owner lock and leave memberships
    alone afterwards, no workspace loses its last OWNER and no membership id is
    duplicated. *)
Theorem every_workspace_has_an_owner db requests :
  members_ok db -> Forall (fun x => tame_rivals x.2) requests ->
  members_ok (foldl (fun d x => serve_member_request x.1.1 x.1.2 x.2 d) db requests).
Proof.
  intros Hok Hr. revert db Hok. induction Hr as [|[[caller r] e] rs He _ IH]; intros db Hok; [done|].
  simpl. apply IH. destruct r; simpl;
    [by apply create_keeps_owners|by apply upsert_keeps_owners|by apply remove_keeps_owners].
Qed.

Lemma sample_env_tame k : tame_rivals (reseeded k sample_env).
Proof.
  split; try done. intros d m Hin [Hnd _] m' Hm' Heq.
  assert (m' = m) as -> by (by eapply (NoDup_map_inj wm_id)). done.
Qed.

Definition create_sample : member_request := CreateWorkspace (mkCreateWorkspace "Beta" "beta").
Definition remove_alice : member_request := RemoveMember sample_workspace "alice".

(** Alice may not remove herself while she is the last owner. *)
Lemma every_workspace_has_an_owner_witness :
  let requests := [(alice, create_sample, reseeded 1 sample_env);
                   (alice, remove_alice, reseeded 2 sample_env)] in
  let db := sample_db OWNER in
  members_ok (foldl (fun d x => serve_member_request x.1.1 x.1.2 x.2 d) db requests)
  /\ (run (remove_workspace_member alice sample_workspace "alice") sample_env db).1
     = Err (http_error 422 "Cannot remove the last OWNER of a workspace").
Proof.
  intros requests db. split; [|vm_compute; reflexivity].
  apply (every_workspace_has_an_owner db requests).
  - split.
    + apply (bool_decide_unpack _). vm_compute. exact I.
    + intros ws Hws. apply list_elem_of_singleton in Hws as ->.
      eexists. split; [apply list_elem_of_singleton; reflexivity|]. vm_compute. reflexivity.
  - constructor; [apply sample_env_tame|]. constructor; [apply sample_env_tame|]. constructor.
Defined.

(** ** A race the checks do not cover *)

Definition olga : Caller := mkCaller "olga" JNull JNull.
Definition dave : Caller := mkCaller "dave" JNull JNull.

Definition team_db : Db :=
  on_memberships (fun _ =>
    [mkMembership 1%N sample_workspace "olga" OWNER 0 0;
     mkMembership 2%N sample_workspace "alice" ADMIN 0 0;
     mkMembership 3%N sample_workspace "dave" DEVELOPER 0 0]) (sample_db OWNER).

(** Olga promotes Dave and Dave removes Olga: two requests that succeed. *)
Definition hand_over (d : Db) : Db :=
  serve_member_request dave (RemoveMember sample_workspace "olga") (reseeded 1 sample_env)
    (serve_member_request olga (UpsertMember sample_workspace (mkUpsertMember "dave" OWNER))
       (reseeded 2 sample_env) d).

Definition handing_over_env : Env :=
  mkEnv (settings sample_env) (clock sample_env) (entropy sample_env) (nonces sample_env)
    (sha256_hex sample_env) (redis sample_env) (trace_context sample_env) (fun d => d) hand_over.

(** The owner check is only made when the membership is read as an OWNER's: an
    ADMIN who demotes a DEVELOPER, decided before and committed after that member
    becomes the only OWNER, succeeds and leaves the workspace without one, although
    every other request respected the invariant. *)
Theorem demotion_race_loses_the_last_owner :
  members_ok team_db /\ members_ok (hand_over team_db)
  /\ exists resp, (run (upsert_workspace_member alice sample_workspace (mkUpsertMember "dave" VIEWER))
                     handing_over_env team_db).1 = Ok resp
  /\ ~ owned (run (upsert_workspace_member alice sample_workspace (mkUpsertMember "dave" VIEWER))
                handing_over_env team_db).2.
Proof.
  assert (members_ok team_db) as Hteam.
  { split; [apply (bool_decide_unpack _); vm_compute; exact I|].
    intros ws Hws. apply list_elem_of_singleton in Hws as ->.
    eexists. split; [left|vm_compute; reflexivity]. }
  split; [done|]. split.
  { unfold hand_over, serve_member_request. apply remove_keeps_owners; [apply sample_env_tame|].
    apply upsert_keeps_owners; [apply sample_env_tame|done]. }
  eexists. split; [vm_compute; reflexivity|]. intros Ho.
  destruct (Ho (mkWorkspace sample_workspace "Acme" "acme" 0 0)) as (m & Hm & Hown).
  { vm_compute. left. }
  assert (forallb (fun m => negb (is_owner_of sample_workspace m)) (memberships
    (run (upsert_workspace_member alice sample_workspace (mkUpsertMember "dave" VIEWER))
       handing_over_env team_db).2) = true) as Hall by (vm_compute; reflexivity).
  rewrite forallb_forall in Hall. apply list_elem_of_In, Hall in Hm. simpl in Hown. by rewrite Hown in Hm.
Qed.

(** ** Owners are managed by owners *)

Definition owners (db : Db) (w : uuid) : list uuid := map wm_id (where_ (is_owner_of w) (memberships db)).

(** A change of a row that is not an owner's leaves the owners alone. *)
Lemma owners_update l w m role t :
  NoDup (map wm_id l) -> m ∈ l -> wm_role m <> OWNER -> role <> OWNER ->
  where_ (is_owner_of w) (update_where (fun r => wm_id r =?= wm_id m) (with_role role t) l)
  = where_ (is_owner_of w) l.
Proof.
  intros Hnd Hm Hold Hnew.
  assert (forall r, r ∈ l -> wm_id r = wm_id m -> wm_role r <> OWNER) as H.
  { intros r Hr Heq. assert (r = m) as -> by (by eapply (NoDup_map_inj wm_id)). done. }
  clear Hnd Hm. unfold where_, update_where. induction l as [|r l IH]; [done|]. simpl.
  rewrite IH by (intros r' Hr'; apply H; by right). case_bool_decide as Heq; [|done].
  assert (is_owner_of w (with_role role t r) = false) as ->.
  { unfold is_owner_of. simpl. by rewrite (bool_decide_eq_false_2 (role = OWNER)), andb_false_r. }
  assert (is_owner_of w r = false) as ->; [|done].
  unfold is_owner_of. rewrite (bool_decide_eq_false_2 (wm_role r = OWNER)), andb_false_r; [done|].
  apply H; [left|done].
Qed.

Lemma owners_delete l w m :
  NoDup (map wm_id l) -> m ∈ l -> wm_role m <> OWNER ->
  where_ (is_owner_of w) (delete_where (fun r => wm_id r =?= wm_id m) l) = where_ (is_owner_of w) l.
Proof.
  intros Hnd Hm Hold.
  assert (forall r, r ∈ l -> wm_id r = wm_id m -> wm_role r <> OWNER) as H.
  { intros r Hr Heq. assert (r = m) as -> by (by eapply (NoDup_map_inj wm_id)). done. }
  clear Hnd Hm. unfold where_, delete_where. induction l as [|r l IH]; [done|]. simpl.
  assert (forall r', r' ∈ l -> wm_id r' = wm_id m -> wm_role r' <> OWNER) as H'
    by (intros r' Hr'; apply H; by right).
  case_bool_decide as Heq; simpl; rewrite IH by done; [|done].
  assert (is_owner_of w r = false) as ->; [|done].
  unfold is_owner_of. rewrite (bool_decide_eq_false_2 (wm_role r = OWNER)), andb_false_r; [done|].
  apply H; [left|done].
Qed.

Lemma stage_member_by_admin caller w p e db mine id s' :
  access db caller w ADMIN "Workspace not found" = Ok mine -> wm_role mine <> OWNER ->
  stage_member caller w p e (open_session db) = (Ok id, s') ->
  exists cs, staged_on s' db cs /\ um_role p <> OWNER /\
    (cs = [] \/ (exists m, m ∈ memberships db /\ wm_role m <> OWNER /\ cs = [fun t => on_memberships
        (update_where (fun r => wm_id r =?= wm_id m) (with_role (um_role p) t))])
     \/ (exists mid user, cs = [fun t => on_memberships
           (fun l => l ++ [mkMembership mid w user (um_role p) t t])])).
Proof.
  intros Hacc Hmine H. unfold stage_member in H.
  step H with authorize_ok as [-> Ha]. rewrite view_open, Hacc in Ha. injection Ha as <-.
  step H with guard_ok as [-> Hg]. rewrite (bool_decide_eq_false_2 (wm_role mine = OWNER)) in Hg by done.
  simpl in Hg. rewrite andb_true_r in Hg. bool_hyps.
  step H with @select_one_ok as [-> Hsel]. rewrite view_open in Hsel.
  destruct (where_ _ _) as [|m []] eqn:Hm; simpl in Hsel; simplify_eq.
  { run_steps H. done_run H. eexists. split; [done|]. split; [done|]. right. right. by do 2 eexists. }
  destruct (selected_membership _ _ _ _ Hm) as (Hin & _).
  step H with guard_ok as [-> Hg']. rewrite (bool_decide_eq_false_2 (wm_role mine = OWNER)) in Hg' by done.
  simpl in Hg'. rewrite andb_true_r in Hg'. bool_hyps.
  rewrite (bool_decide_eq_false_2 (wm_role m = OWNER)) in H by done. cbn [andb] in H. run_steps H.
  apply bind_ok_inv in H as (u & s1 & Hst & H). done_run H. case_bool_decide.
  - done_run Hst. exists []. split; [done|]. split; [done|by left].
  - rewrite stage_spec in Hst. simplify_eq. eexists. split; [done|]. split; [done|]. right. left. by exists m.
Qed.

Lemma upsert_by_admin caller w e db mine w' p r db' :
  (forall d, rivals_commit e d = d) -> NoDup (map wm_id (memberships db)) ->
  access db caller w ADMIN "Workspace not found" = Ok mine -> wm_role mine <> OWNER ->
  run (upsert_workspace_member caller w p) e db = (Ok r, db') -> owners db' w' = owners db w'.
Proof.
  intros Hc Hnd Hacc Hmine Hrun. unfold run, upsert_workspace_member in Hrun.
  match type of Hrun with context [?m e (open_session db)] =>
    destruct (m e (open_session db)) as [o s'] eqn:H end.
  simpl in Hrun. simplify_eq. apply bind_ok_inv in H as (id & s1 & Hst & H).
  eapply stage_member_by_admin in Hst as (cs & (Hc1 & Hw1 & Hs1) & Hrole & Hcs); [|done..].
  run_steps H. apply bind_ok_inv in H as (u & s2 & Hcom & H).
  apply catch_integrity_ok in Hcom as [Hcom|(c & s3 & _ & Hcom)]; cycle 1.
  { apply bind_ok_inv in Hcom as (? & ? & _ & Hcom). step Hcom with guard_ok as [-> _]. done_run Hcom. }
  apply commit_ok in Hcom as [-> _].
  step H with @refresh_ok as ->. done_run H. rewrite published_eq.
  unfold staging, drawn. cbn [committed writes staged ticks]. rewrite Hw1, Hc, map_app, apply_all_app.
  unfold apply_all at 1. cbn [map foldl]. unfold owners. simpl.
  destruct Hcs as [->|[(m & Hm & Hold & ->)|(mid & user & ->)]]; unfold apply_all; simpl; [done| |].
  - by rewrite owners_update.
  - rewrite where_app. unfold where_ at 2, is_owner_of at 2. simpl.
    rewrite (bool_decide_eq_false_2 (um_role p = OWNER)), andb_false_r by done. simpl. by rewrite app_nil_r.
Qed.

Lemma removal_by_admin caller w e db mine w' user r db' :
  (forall d, rivals_commit e d = d) -> NoDup (map wm_id (memberships db)) ->
  access db caller w ADMIN "Workspace not found" = Ok mine -> wm_role mine <> OWNER ->
  run (remove_workspace_member caller w user) e db = (Ok r, db') -> owners db' w' = owners db w'.
Proof.
  intros Hc Hnd Hacc Hmine Hrun. unfold run, remove_workspace_member in Hrun.
  match type of Hrun with context [?m e (open_session db)] =>
    destruct (m e (open_session db)) as [o s'] eqn:H end.
  simpl in Hrun. simplify_eq. apply bind_ok_inv in H as (m & s1 & Hst & H).
  unfold stage_removal in Hst. step Hst with authorize_ok as [-> Ha].
  rewrite view_open, Hacc in Ha. injection Ha as <-.
  step Hst with @select_one_ok as [-> Hsel]. step Hst with @or_raise_ok as [-> ->].
  apply one_or_none_some in Hsel. rewrite view_open in Hsel.
  destruct (selected_membership _ _ _ _ Hsel) as (Hin & _).
  rewrite (bool_decide_eq_true_2 (wm_role mine <> OWNER)) in Hst || idtac.
  apply bind_ok_inv in Hst as (u & s2 & Hbr & Hst). case_bool_decide as Hm.
  { step Hbr with guard_ok as [-> Hg]. by rewrite (bool_decide_eq_false_2 (wm_role mine = OWNER)) in Hg. }
  done_run Hbr. run_steps Hst. done_run Hst. run_steps H.
  apply bind_ok_inv in H as (u' & s3 & Hcom & H). apply commit_ok in Hcom as [-> _]. done_run H.
  rewrite published_eq. unfold staging, drawn. cbn [committed writes staged ticks open_session].
  rewrite Hc. unfold apply_all, owners. simpl. by rewrite owners_delete.
Qed.

(** C32: Only owners manage owners: whatever an ADMIN asks for, a successful upsert or
    removal by a caller whose role in the workspace is not OWNER leaves the list of
    owners of every workspace exactly as it was (no rivals interfering). *)
Theorem only_owners_manage_owners caller w e db mine w' :
  (forall d, rivals_commit e d = d) ->
  NoDup (map wm_id (memberships db)) ->
  access db caller w ADMIN "Workspace not found" = Ok mine -> wm_role mine <> OWNER ->
  (forall p r db', run (upsert_workspace_member caller w p) e db = (Ok r, db') ->
     owners db' w' = owners db w')
  /\ (forall user r db', run (remove_workspace_member caller w user) e db = (Ok r, db') ->
     owners db' w' = owners db w').
Proof.
  intros Hc Hnd Hacc Hmine. split; intros.
  - by eapply upsert_by_admin.
  - by eapply removal_by_admin.
Qed.

Lemma only_owners_manage_owners_witness :
  let db' := (run (upsert_workspace_member alice sample_workspace (mkUpsertMember "dave" VIEWER))
                sample_env team_db).2 in
  owners db' sample_workspace = [1%N].
Proof.
  intros db'. transitivity (owners team_db sample_workspace); [|reflexivity].
  assert (NoDup (map wm_id (memberships team_db))) as Hnd
    by (apply (bool_decide_unpack _); vm_compute; exact I).
  eapply (proj1 (only_owners_manage_owners alice sample_workspace sample_env team_db
            (mkMembership 2%N sample_workspace "alice" ADMIN 0 0) sample_workspace
            (fun d => eq_refl) Hnd eq_refl ltac:(discriminate))
            (mkUpsertMember "dave" VIEWER)).
  vm_compute. reflexivity.
Defined.

(** The audit row is narrower than the membership: [audit_events.target_id] holds
    100 characters, a member subject 255, and an upsert writes the subject to
    both, so inviting a member with a longer subject never succeeds, although the
    request is valid (the flush fails on the column width). *)
Theorem long_subject_never_added caller w p e db r db' :
  100 < len (strip (um_user_subject p)) ->
  run (upsert_workspace_member caller w p) e db <> (Ok r, db').
Proof.
  intros Hlen Hrun. unfold run, upsert_workspace_member in Hrun.
  match type of Hrun with context [?m e (open_session db)] =>
    destruct (m e (open_session db)) as [o s'] eqn:H end.
  simpl in Hrun. simplify_eq. apply bind_ok_inv in H as (id & s1 & Hst & H). run_steps H.
  apply bind_ok_inv in H as (u & s2 & Hcom & H).
  apply catch_integrity_ok in Hcom as [Hcom|(c & s3 & _ & Hcom)]; cycle 1.
  { apply bind_ok_inv in Hcom as (? & ? & _ & Hcom). step Hcom with guard_ok as [-> _]. done_run Hcom. }
  apply commit_ok in Hcom as [_ Hint]. destruct Hint as [_ Hwidths]. rewrite published_eq in Hwidths.
  unfold staging, drawn in Hwidths. cbn [committed writes staged ticks] in Hwidths.
  rewrite map_app, apply_all_app in Hwidths. unfold apply_all at 1 in Hwidths. cbn [map foldl] in Hwidths.
  unfold widths in Hwidths. rewrite !andb_true_iff in Hwidths.
  destruct Hwidths as [[[_ Haud] _] _]. cbn [audit_events on_audit_events] in Haud.
  rewrite forallb_app in Haud. apply andb_prop in Haud as [_ Haud].
  cbn [forallb] in Haud. rewrite !andb_true_iff in Haud. destruct Haud as [[[_ Hfit] _] _].
  unfold fits, audit_row in Hfit. cbn [aud_target_id] in Hfit. bool_hyps. lia.
Qed.

Lemma long_subject_never_added_witness :
  let p := mkUpsertMember (String.concat "" (repeat "x" 101)) DEVELOPER in
  upsert_member_valid p = true
  /\ forall r db', run (upsert_workspace_member alice sample_workspace p) sample_env (sample_db OWNER)
                   <> (Ok r, db').
Proof.
  split; [vm_compute; reflexivity|]. intros r db'.
  apply (long_subject_never_added alice sample_workspace). vm_compute. reflexivity.
Defined.
