(* ===== verification/Apps.v ===== *)
(** * Applications and releases ([api/v1/apps.py], [schemas/application.py])

    Creating and updating applications; deployments, rollbacks and builds, each of
    which appends a numbered release under the application's row lock; and the
    listings. *)

From S2P Require Import Prelude PyStr Uuid Json Models DateTime Config Session Sample Auth.
From S2P Require Import AuditLog Events Idempotency Quotas Gates Handlers Pagination.
From S2P Require Import Workspaces.
From Stdlib Require Import Ascii String.

(** ** Schemas *)

Record CreateApplicationRequest := mkCreateApp {
  ca_name : string; ca_slug : string; ca_workload_type : WorkloadType;
  ca_repository_id : option uuid; ca_dockerfile_path : string; ca_context_dir : string;
  ca_git_branch : option string }.

(** [ua_repository_id] is [None] when the field is absent and [Some None] when it is
    explicitly null. *)
Record UpdateApplicationRequest := mkUpdateApp {
  ua_name : option string; ua_repository_id : option (option uuid);
  ua_dockerfile_path : option string; ua_context_dir : option string;
  ua_git_branch : option string }.

Record ApplicationResponse := mkAppResponse {
  ar_id : uuid; ar_workspace_id : uuid; ar_name : string; ar_slug : string;
  ar_workload_type : string; ar_desired_generation : Z; ar_current_release_id : option uuid;
  ar_repository_id : option uuid; ar_dockerfile_path : string; ar_context_dir : string;
  ar_git_branch : option string; ar_created_at : time }.

Record DeployReleaseRequest := mkDeploy {
  dp_image_digest : string; dp_port : Z; dp_health_path : string;
  dp_env_vars : list (string * string); dp_cpu_limit : string; dp_memory_limit : string }.

Record RollbackRequest := mkRollback { rb_target_release_id : uuid }.

Record TriggerBuildRequest := mkTriggerBuild {
  tb_commit_sha : option string; tb_git_ref : string; tb_commit_message : option string;
  tb_port : option Z; tb_health_path : option string }.

Record ReleaseResponse := mkReleaseResponse {
  rr_id : uuid; rr_application_id : uuid; rr_workspace_id : uuid; rr_release_number : Z;
  rr_image_digest : string; rr_config_json : json; rr_status : ReleaseStatus;
  rr_status_reason : option string; rr_commit_sha : option string; rr_git_ref : option string;
  rr_commit_message : option string; rr_build_duration_ms : option Z;
  rr_build_logs : option string; rr_created_at : time }.

Record ReleaseListResponse := mkReleaseList {
  rl_items : list ReleaseResponse; rl_next_cursor : option string }.
Record ApplicationListResponse := mkAppList {
  al_items : list ApplicationResponse; al_next_cursor : option string }.

(** [payload.model_dump(mode="json")]. *)
Definition deploy_json (p : DeployReleaseRequest) : json :=
  JDict [("image_digest", JStr (dp_image_digest p)); ("port", JInt (dp_port p));
         ("health_path", JStr (dp_health_path p));
         ("env_vars", JDict (map (fun kv => (kv.1, JStr kv.2)) (dp_env_vars p)));
         ("cpu_limit", JStr (dp_cpu_limit p)); ("memory_limit", JStr (dp_memory_limit p))].
Definition rollback_json (p : RollbackRequest) : json :=
  JDict [("target_release_id", JStr (uuid_str (rb_target_release_id p)))].

Definition app_response (a : Application) : ApplicationResponse :=
  mkAppResponse (app_id a) (app_workspace_id a) (app_name a) (app_slug a)
    (workload_type_value (app_workload_type a)) (app_desired_generation a)
    (app_current_release_id a) (app_repository_id a) (app_dockerfile_path a) (app_context_dir a)
    (app_git_branch a) (app_created_at a).

(** [config_json or {}]. *)
Definition config_or_empty (c : json) : json := if json_truthy c then c else JDict [].

Definition release_response (r : Release) : ReleaseResponse :=
  mkReleaseResponse (rel_id r) (rel_application_id r) (rel_workspace_id r) (rel_number r)
    (rel_image_digest r) (config_or_empty (rel_config_json r)) (rel_status r)
    (rel_status_reason r) (rel_commit_sha r) (rel_git_ref r) (rel_commit_message r)
    (rel_build_duration_ms r) (rel_build_logs r) (rel_created_at r).

Definition app_not_found : exn := http_error 404 "Application not found".
Definition has_app_id (id : uuid) (a : Application) : bool := app_id a =?= id.

(** ** [create_application] *)

Definition app_slug_taken (slug : string) : exn :=
  http_error 409 ("Application with slug '" +:+ slug +:+ "' already exists in this workspace").

(** The repository must belong to the workspace. *)
Definition check_repository (w : uuid) (repository : uuid) : M unit :=
  repo ← select_one repositories (fun r => (repo_id r =?= repository) && (repo_workspace_id r =?= w));
  guard (bool_decide (repo = None)) (http_error 404 "Repository not found in this workspace").

Definition create_application (caller : Caller) (w : uuid) (payload : CreateApplicationRequest)
    : M ApplicationResponse :=
  authorize_workspace_access caller w DEVELOPER "Workspace not found" ;;
  existing ← select_one applications
    (fun a => (app_workspace_id a =?= w) && (app_slug a =?= ca_slug payload));
  guard (bool_decide (is_Some existing)) (app_slug_taken (ca_slug payload)) ;;
  match ca_repository_id payload with Some r => check_repository w r | None => mret tt end ;;
  id ← uuid4;
  stage (fun t => on_applications (fun l => l ++
    [mkApplication id w (ca_name payload) (ca_slug payload) (ca_workload_type payload) 1 None
       (ca_repository_id payload) (ca_dockerfile_path payload) (ca_context_dir payload)
       (ca_git_branch payload) t t])) ;;
  record_audit_event (Some w) (subject caller) "app.created" "APPLICATION" (uuid_str id)
    [("slug", JStr (ca_slug payload));
     ("workload_type", JStr (workload_type_value (ca_workload_type payload)))] ;;
  catch_integrity commit
    (fun c =>
       rollback ;;
       guard (negb (violated_constraint c =?= Some "uq_application_workspace_slug"))
         unexpected_integrity_error ;;
       raise (app_slug_taken (ca_slug payload))) ;;
  row ← refresh applications (has_app_id id);
  mret (app_response row).

(** ** Releases *)

(** [select(coalesce(max(release_number), 0)).where(application_id == a)]. *)
Definition max_release_number (a : uuid) (db : Db) : Z :=
  match map rel_number (where_ (fun r => rel_application_id r =?= a) (releases db)) with
  | [] => 0
  | n :: ns => foldl Z.max n ns
  end.

(** [Release(...)] with the defaults of the columns a request leaves out. *)
Definition new_release (id a w : uuid) (number : Z) (image : string) (config : json)
    (status : ReleaseStatus) (t : time) : Release :=
  mkRelease id a w number None image config status None None None None None None t t.

(** [app.desired_generation += 1]. *)
Definition with_generation (g : Z) (t : time) (a : Application) : Application :=
  mkApplication (app_id a) (app_workspace_id a) (app_name a) (app_slug a) (app_workload_type a)
    g (app_current_release_id a) (app_repository_id a) (app_dockerfile_path a) (app_context_dir a)
    (app_git_branch a) (app_created_at a) t.

(** The application's workspace and the caller's access to it, before the lock. *)
Definition find_app (caller : Caller) (id : uuid) : M uuid :=
  found ← select_one applications (has_app_id id);
  row ← or_raise found app_not_found;
  authorize_workspace_access caller (app_workspace_id row) DEVELOPER "Application not found" ;;
  mret (app_workspace_id row).

(** The row lock, and the application as it is once the lock is granted. *)
Definition lock_app (id : uuid) : M Application :=
  lock ;;
  rows ← query (fun db => where_ (has_app_id id) (applications db));
  scalar_one rows.

(** ** [deploy_release] *)

Definition deploy_endpoint (id : uuid) : string := "/v1/apps/" +:+ uuid_str id +:+ "/deployments".

Definition deploy_config (p : DeployReleaseRequest) : json :=
  JDict [("port", JInt (dp_port p)); ("health_path", JStr (dp_health_path p));
         ("env_vars", JDict (map (fun kv => (kv.1, JStr kv.2)) (dp_env_vars p)));
         ("cpu_limit", JStr (dp_cpu_limit p)); ("memory_limit", JStr (dp_memory_limit p))].

Definition deploy_release (caller : Caller) (id : uuid) (payload : DeployReleaseRequest)
    (key : string) : M AcceptedOperationResponse :=
  w ← find_app caller id;
  validate_image_policy (dp_image_digest payload) ;;
  app ← lock_app id;
  payload_hash ← compute_payload_hash (Some (deploy_json payload));
  cached ← check_idempotency w (deploy_endpoint id) key payload_hash;
  match cached with
  | Some response => mret response
  | None =>
      check_workspace_rate_limit w "apps.deploy" ;;
      enforce_workspace_quota w DEPLOYED_SERVICE (Some id) true ;;
      release_max ← query (max_release_number id);
      let number := release_max + 1 in
      let generation := app_desired_generation app + 1 in
      stage (fun t => on_applications (update_where (has_app_id id) (with_generation generation t))) ;;
      release_id ← uuid4;
      stage (fun t => on_releases (fun l => l ++
        [new_release release_id id w number (dp_image_digest payload) (deploy_config payload)
           IMAGE_READY t])) ;;
      record_audit_event (Some w) (subject caller) "app.release.deployed" "RELEASE"
        (uuid_str release_id)
        [("application_id", JStr (uuid_str id)); ("release_number", JInt number);
         ("image_digest", JStr (dp_image_digest payload))] ;;
      event_id ← uuid4;
      now ← datetime_now;
      event ← create_outbox_event w APP_DEPLOYMENT_REQUESTED
        [("event_id", JStr (uuid_str event_id)); ("timestamp", JStr (isoformat now));
         ("workspace_id", JStr (uuid_str w)); ("application_id", JStr (uuid_str id));
         ("release_id", JStr (uuid_str release_id)); ("generation", JInt generation);
         ("image_digest", JStr (dp_image_digest payload)); ("port", JInt (dp_port payload));
         ("health_path", JStr (dp_health_path payload))]
        [("idempotency_key", key)] (Some event_id);
      add_outbox_event event ;;
      add_idempotency_record w (deploy_endpoint id) key payload_hash 202 release_id ;;
      commit_idempotent w (deploy_endpoint id) key payload_hash release_id
  end.

(** ** [rollback_release] *)

Definition rollback_endpoint (id : uuid) : string := "/v1/apps/" +:+ uuid_str id +:+ "/rollbacks".

Definition rollback_release (caller : Caller) (id : uuid) (payload : RollbackRequest)
    (key : string) : M AcceptedOperationResponse :=
  w ← find_app caller id;
  app ← lock_app id;
  payload_hash ← compute_payload_hash (Some (rollback_json payload));
  cached ← check_idempotency w (rollback_endpoint id) key payload_hash;
  match cached with
  | Some response => mret response
  | None =>
      found ← select_one releases (fun r => (rel_id r =?= rb_target_release_id payload)
                                            && (rel_application_id r =?= id));
      target ← or_raise found (http_error 404 "Target release not found for this application");
      check_workspace_rate_limit w "apps.rollback" ;;
      enforce_workspace_quota w DEPLOYED_SERVICE (Some id) true ;;
      let generation := app_desired_generation app + 1 in
      stage (fun t => on_applications (update_where (has_app_id id) (with_generation generation t))) ;;
      release_max ← query (max_release_number id);
      let number := release_max + 1 in
      release_id ← uuid4;
      stage (fun t => on_releases (fun l => l ++
        [new_release release_id id w number (rel_image_digest target) (rel_config_json target)
           IMAGE_READY t])) ;;
      record_audit_event (Some w) (subject caller) "app.release.rolled_back" "RELEASE"
        (uuid_str release_id)
        [("application_id", JStr (uuid_str id)); ("target_release_id", JStr (uuid_str (rel_id target)));
         ("release_number", JInt number)] ;;
      let target_config := dict_items (rel_config_json target) in
      let port := dict_get_or "port" (JInt 8080) target_config in
      let health_path := dict_get_or "health_path" (JStr "/healthz") target_config in
      event_id ← uuid4;
      now ← datetime_now;
      event ← create_outbox_event w APP_DEPLOYMENT_REQUESTED
        [("event_id", JStr (uuid_str event_id)); ("timestamp", JStr (isoformat now));
         ("workspace_id", JStr (uuid_str w)); ("application_id", JStr (uuid_str id));
         ("release_id", JStr (uuid_str release_id)); ("generation", JInt generation);
         ("image_digest", JStr (rel_image_digest target)); ("port", port);
         ("health_path", health_path); ("is_rollback", JBool true);
         ("target_release_id", JStr (uuid_str (rel_id target)))]
        [("rollback_from", uuid_str (rel_id target)); ("idempotency_key", key)] (Some event_id);
      add_outbox_event event ;;
      add_idempotency_record w (rollback_endpoint id) key payload_hash 202 release_id ;;
      commit_idempotent w (rollback_endpoint id) key payload_hash release_id
  end.

(** ** [trigger_build] *)

(** [re.match(r"^[0-9a-fA-F]{7,40}$", s)] on a stripped string. *)
Definition is_commit_sha (s : string) : bool :=
  str_forallb is_hex s && (7 <=? len s) && (len s <=? 40).

(** The commit of the request, stripped and checked when it is not empty. *)
Definition checked_commit_sha (commit_sha : option string) : M (option string) :=
  match commit_sha with
  | Some c =>
      if truthy c then
        guard (negb (is_commit_sha (strip c)))
          (http_error 422 "Invalid commit_sha format; expected 7-40 hex characters") ;;
        mret (Some (strip c))
      else mret commit_sha
  | None => mret None
  end.

(** [a or b]. *)
Definition or_str (a : option string) (b : string) : string :=
  match a with Some s => if truthy s then s else b | None => b end.

(** The configuration of the application's latest release, with the request's port
    and health path. *)
Definition build_config (latest : option Release) (p : TriggerBuildRequest) : list (string * json) :=
  let config :=
    match latest with
    | Some r => if json_truthy (rel_config_json r) then dict_items (rel_config_json r)
                else [("port", JInt 8080); ("health_path", JStr "/healthz")]
    | None => [("port", JInt 8080); ("health_path", JStr "/healthz")]
    end in
  let config := match tb_port p with Some n => dict_set "port" (JInt n) config | None => config end in
  match tb_health_path p with Some h => dict_set "health_path" (JStr h) config | None => config end.

(** The handler up to its commit; the new release's id. *)
Definition stage_build (caller : Caller) (id : uuid) (payload : TriggerBuildRequest) : M uuid :=
  find_app caller id ;;
  app ← lock_app id;
  let w := app_workspace_id app in
  repository ← or_raise (app_repository_id app)
                 (http_error 422 "Application has no connected Git repository");
  release_max ← query (max_release_number id);
  let number := release_max + 1 in
  commit_sha ← checked_commit_sha (tb_commit_sha payload);
  let git_ref := or_str (Some (tb_git_ref payload)) (or_str (app_git_branch app) "main") in
  check_workspace_rate_limit w "apps.build" ;;
  enforce_workspace_quota w CONCURRENT_BUILD None true ;;
  latest ← query (fun db => head (order_by (fun a b => rel_number b <=? rel_number a)
                    (where_ (fun r => rel_application_id r =?= id) (releases db))));
  release_id ← uuid4;
  stage (fun t => on_releases (fun l => l ++
    [mkRelease release_id id w number commit_sha "pending" (JDict (build_config latest payload))
       REQUESTED None (Some repository) (Some git_ref)
       (Some (or_str (tb_commit_message payload) "Manual trigger build")) None None t t])) ;;
  record_audit_event (Some w) (subject caller) "app.build.triggered" "RELEASE" (uuid_str release_id)
    [("application_id", JStr (uuid_str id)); ("release_number", JInt number);
     ("commit_sha", jopt JStr commit_sha); ("git_ref", JStr git_ref)] ;;
  event ← create_outbox_event w APP_BUILD_REQUESTED
    [("release_id", JStr (uuid_str release_id)); ("application_id", JStr (uuid_str id));
     ("workspace_id", JStr (uuid_str w)); ("repository_id", JStr (uuid_str repository));
     ("commit_sha", jopt JStr commit_sha); ("git_ref", JStr git_ref);
     ("dockerfile_path", JStr (app_dockerfile_path app)); ("context_dir", JStr (app_context_dir app))]
    [] None;
  add_outbox_event event ;;
  mret release_id.

Definition trigger_build (caller : Caller) (id : uuid) (payload : TriggerBuildRequest)
    : M ReleaseResponse :=
  release_id ← stage_build caller id payload;
  commit ;;
  row ← refresh releases (fun r => rel_id r =?= release_id);
  mret (release_response row).

(** ** [get_application], [update_application] and the listings *)

Definition get_application (caller : Caller) (id : uuid) : M ApplicationResponse :=
  found ← select_one applications (has_app_id id);
  app ← or_raise found app_not_found;
  authorize_workspace_access caller (app_workspace_id app) VIEWER "Application not found" ;;
  mret (app_response app).

(** One assigned attribute: the UPDATE sets the column only if the value differs
    from the one loaded. *)
Definition assign {A} `{EqDecision A} (new : option A) (loaded stored : A) : A :=
  match new with Some v => if v =?= loaded then stored else v | None => stored end.
Definition assigns {A} `{EqDecision A} (new : option A) (loaded : A) : bool :=
  match new with Some v => v <?> loaded | None => false end.

(** The columns the payload changes, on the row as the UPDATE finds it. *)
Definition updated_app (p : UpdateApplicationRequest) (loaded : Application) (t : time)
    (a : Application) : Application :=
  mkApplication (app_id a) (app_workspace_id a)
    (assign (ua_name p) (app_name loaded) (app_name a)) (app_slug a) (app_workload_type a)
    (app_desired_generation a) (app_current_release_id a)
    (assign (ua_repository_id p) (app_repository_id loaded) (app_repository_id a))
    (assign (ua_dockerfile_path p) (app_dockerfile_path loaded) (app_dockerfile_path a))
    (assign (ua_context_dir p) (app_context_dir loaded) (app_context_dir a))
    (assign (option_map Some (ua_git_branch p)) (app_git_branch loaded) (app_git_branch a))
    (app_created_at a) t.
Definition updates_app (p : UpdateApplicationRequest) (loaded : Application) : bool :=
  assigns (ua_name p) (app_name loaded) || assigns (ua_repository_id p) (app_repository_id loaded)
  || assigns (ua_dockerfile_path p) (app_dockerfile_path loaded)
  || assigns (ua_context_dir p) (app_context_dir loaded)
  || assigns (option_map Some (ua_git_branch p)) (app_git_branch loaded).

Definition update_application (caller : Caller) (id : uuid) (payload : UpdateApplicationRequest)
    : M ApplicationResponse :=
  found ← select_one applications (has_app_id id);
  app ← or_raise found app_not_found;
  authorize_workspace_access caller (app_workspace_id app) DEVELOPER "Application not found" ;;
  match ua_repository_id payload with
  | Some (Some r) => check_repository (app_workspace_id app) r
  | _ => mret tt
  end ;;
  (if updates_app payload app
   then stage (fun t => on_applications (update_where (has_app_id id) (updated_app payload app t)))
   else mret tt) ;;
  commit ;;
  row ← refresh applications (has_app_id id);
  mret (app_response row).

Section Listings.
Context (fromisoformat : string -> option IsoDateTime).

Definition list_releases (caller : Caller) (id : uuid) (limit : Z) (cursor : option string)
    : M ReleaseListResponse :=
  found ← select_one applications (has_app_id id);
  app ← or_raise found app_not_found;
  authorize_workspace_access caller (app_workspace_id app) VIEWER "Application not found" ;;
  '(page, next) ← list_page fromisoformat rel_created_at rel_id
    (fun db => where_ (fun r => rel_application_id r =?= id) (releases db)) limit cursor;
  mret (mkReleaseList (map release_response page) next).

Definition list_workspace_applications (caller : Caller) (w : uuid) (limit : Z)
    (cursor : option string) : M ApplicationListResponse :=
  authorize_workspace_access caller w VIEWER "Workspace not found" ;;
  '(page, next) ← list_page fromisoformat app_created_at app_id
    (fun db => where_ (fun a => app_workspace_id a =?= w) (applications db)) limit cursor;
  mret (mkAppList (map app_response page) next).
End Listings.

(** ** The frame of the mutating endpoints *)

#[export] Instance keeps_check_repository w r : Keeps (check_repository w r).
Proof. unfold check_repository. solve_keeps. Qed.
#[export] Instance keeps_find_app c id : Keeps (find_app c id).
Proof. unfold find_app. solve_keeps. Qed.
#[export] Instance keeps_lock_app id : Keeps (lock_app id).
Proof. unfold lock_app. solve_keeps. Qed.
#[export] Instance keeps_checked_commit_sha c : Keeps (checked_commit_sha c).
Proof. unfold checked_commit_sha. solve_keeps. Qed.

#[export] Instance atomic_deploy_release c id p k : Atomic (deploy_release c id p k).
Proof. unfold deploy_release. solve_atomic. Qed.
#[export] Instance atomic_rollback_release c id p k : Atomic (rollback_release c id p k).
Proof. unfold rollback_release. solve_atomic. Qed.

#[export] Instance preserves_deploy_release c id p k : Preserves integrity (deploy_release c id p k).
Proof. unfold deploy_release. solve_preserves. Qed.
#[export] Instance preserves_rollback_release c id p k : Preserves integrity (rollback_release c id p k).
Proof. unfold rollback_release. solve_preserves. Qed.
#[export] Instance preserves_trigger_build c id p : Preserves integrity (trigger_build c id p).
Proof. unfold trigger_build, stage_build. solve_preserves. Qed.
#[export] Instance preserves_create_application c w p : Preserves integrity (create_application c w p).
Proof. unfold create_application. solve_preserves. Qed.
#[export] Instance preserves_update_application c id p : Preserves integrity (update_application c id p).
Proof. unfold update_application. solve_preserves. Qed.

(** ** Release numbers *)

(** The release numbers of an application, in insertion order. *)
Definition numbers (a : uuid) (db : Db) : list Z :=
  map rel_number (where_ (fun r => rel_application_id r =?= a) (releases db)).

(** Numbered 1, 2, ..., n without gaps or repetition. *)
Definition dense (a : uuid) (db : Db) : Prop :=
  numbers a db ≡ₚ seqZ 1 (Z.of_nat (List.length (numbers a db))).

Lemma foldl_max_spec l m : foldl Z.max m l ∈ m :: l /\ forall x, x ∈ m :: l -> x <= foldl Z.max m l.
Proof.
  revert m. induction l as [|y l IH]; intros m; simpl.
  - split; [left|]. intros x Hx. apply list_elem_of_singleton in Hx. lia.
  - destruct (IH (m `max` y)) as [Hin Hmax]. split.
    + apply elem_of_cons in Hin as [->|Hin]; [|by do 2 right].
      destruct (Z.max_spec m y) as [[_ ->]|[_ ->]]; [by right; left|by left].
    + intros x Hx. pose proof (Hmax (m `max` y) ltac:(left)) as H0.
      apply elem_of_cons in Hx as [->|Hx]; [lia|]. apply elem_of_cons in Hx as [->|Hx]; [lia|].
      apply Hmax. by right.
Qed.

(** In a dense numbering the maximum is the count. *)
Lemma max_dense a db : dense a db -> max_release_number a db = Z.of_nat (List.length (numbers a db)).
Proof.
  unfold dense, max_release_number. fold (numbers a db).
  destruct (numbers a db) as [|n ns] eqn:E; [done|]. intros Hd.
  destruct (foldl_max_spec ns n) as [Hin Hmax]. rewrite Hd in Hin. apply elem_of_seqZ in Hin.
  set (len := Z.of_nat (List.length (n :: ns))) in *.
  assert (len ∈ n :: ns) as Hlen.
  { rewrite Hd. apply elem_of_seqZ. unfold len. simpl. lia. }
  specialize (Hmax _ Hlen). lia.
Qed.

(** ** What a deployment or a rollback does *)

(** [d'] is [d] with one more release of the application, its generation raised, a
    service reservation, the event that names both and the idempotency record. *)
Definition is_deployment (w id : uuid) (ep key h : string) (rid : uuid) (number generation : Z)
    (image : string) (config : json) (expires : time) (d d' : Db) : Prop :=
  (exists t, releases d' = releases d ++ [new_release rid id w number image config IMAGE_READY t]
     /\ applications d' = update_where (has_app_id id) (with_generation generation t) (applications d))
  /\ (exists ev, outbox d' = outbox d ++ [ev] /\ ob_workspace_id ev = w /\ ob_status ev = PENDING
        /\ ob_topic ev = "app.deployment.requested.v1"
        /\ dict_get "release_id" (dict_items (ob_payload_json ev)) = Some (JStr (uuid_str rid))
        /\ dict_get "generation" (dict_items (ob_payload_json ev)) = Some (JInt generation)
        /\ dict_get "image_digest" (dict_items (ob_payload_json ev)) = Some (JStr image))
  /\ (exists qid qexp t, reservations d' = reservations d ++
        [new_reservation qid w DEPLOYED_SERVICE qexp t])
  /\ (exists irid t, idempotency d' = idempotency d ++ [record_row irid w ep key h 202 rid expires t])
  /\ workspaces d' = workspaces d /\ memberships d' = memberships d /\ jobs d' = jobs d
  /\ job_attempts d' = job_attempts d /\ secrets d' = secrets d /\ repositories d' = repositories d.

Lemma find_app_ok caller id e s w s' :
  find_app caller id e s = (Ok w, s') ->
  s' = s /\ exists a m, where_ (has_app_id id) (applications (view s)) = [a]
    /\ app_workspace_id a = w /\ access (view s) caller w DEVELOPER "Application not found" = Ok m.
Proof.
  unfold find_app. intros H. step H with @select_one_ok as [-> Ha].
  step H with @or_raise_ok as [-> ->]. apply one_or_none_some in Ha.
  step H with authorize_ok as [-> Hm]. done_run H. split; [done|]. by do 2 eexists.
Qed.

Lemma lock_app_ok id e s a s' :
  lock_app id e s = (Ok a, s') ->
  s' = locked e s /\ where_ (has_app_id id) (applications (view (locked e s))) = [a].
Proof.
  unfold lock_app. intros H. run_steps H. by apply scalar_one_ok in H.
Qed.

(** What the session sees of the releases is what is committed. *)
Lemma max_release_number_prep id s :
  Forall housekeeping (writes s) -> max_release_number id (view s) = max_release_number id (committed s).
Proof.
  intros HW. unfold max_release_number, view.
  by rewrite (same_core releases _ _ (fun d => eq_refl) (housekeeping_core (writes s) (committed s) HW)).
Qed.

(** The outcome of a release endpoint on the application locked as [app]: a replay,
    the deployment of the next number, or a lost race. *)
Definition release_outcome (w id : uuid) (ep key h : string) (image : string) (config : json)
    (app : Application) (e : Env) (d1 : Db) (r : AcceptedOperationResponse) (db' : Db) : Prop :=
  (answered d1 w ep key h r /\ db' = d1)
  \/ exists d0, rtc (lock_step e) d1 d0 /\
     ((exists rid W n, r = accepted rid /\ integrity db' /\ Forall housekeeping W
        /\ is_deployment w id ep key h rid (max_release_number id d0 + 1)
             (app_desired_generation app + 1) image config (clock e n + hours 24)
             (apply_all W (rivals_commit e d0)) db')
      \/ (db' = rivals_commit e d0 /\ answered db' w ep key h r)).

Lemma deploy_release_inv caller id p key e db r db' :
  run (deploy_release caller id p key) e db = (Ok r, db') ->
  exists a0 app, where_ (has_app_id id) (applications db) = [a0]
    /\ where_ (has_app_id id) (applications (rivals_lock e db)) = [app]
    /\ image_allowed (settings e) (dp_image_digest p) = true
    /\ release_outcome (app_workspace_id a0) id (deploy_endpoint id) key (body_hash e (deploy_json p))
         (dp_image_digest p) (deploy_config p) app e (rivals_lock e db) r db'.
Proof.
  unfold run, deploy_release. intros Hrun.
  match type of Hrun with context [?m e (open_session db)] =>
    destruct (m e (open_session db)) as [o s'] eqn:H end.
  simpl in Hrun. simplify_eq. apply bind_ok_inv in H as (w & s & Hstep & H).
  apply find_app_ok in Hstep as (-> & a0 & m & Ha0 & <- & Hm).
  step H with image_policy_ok as [-> Himg].
  apply bind_ok_inv in H as (app & s & Hstep & H). apply lock_app_ok in Hstep as [-> Happ].
  exists a0, app. split; [done|]. split; [exact Happ|]. split; [done|].
  set (w := app_workspace_id a0) in *. set (d1 := rivals_lock e db) in *. run_steps H.
  apply bind_ok_inv in H as ([resp|] & s & Hstep & H).
  { apply check_idempotency_some in Hstep as [-> Hans]. done_run H. left. by split. }
  apply check_idempotency_none in Hstep as [Hp1 Hp2]; [|done].
  step H with rate_limit_ok as [n ->]. step H with enforce_reserve_ok as [-> _].
  assert (prep expiry e s (ticked 2 (admission_state w e (ticked n s)))) as Hp3
    by (etrans; [apply prep_ticked|apply prep_admission]).
  unfold reserving in H. set (s1 := ticked 2 (admission_state w e (ticked n s))) in *.
  clearbody s1. pose proof (prep_request e d1 w (deploy_endpoint id) key s s1 Hp1 Hp2 Hp3) as Hprep.
  right. exists (committed s1). split; [apply Hprep|].
  run_steps H. rewrite view_staging, view_drawn, max_release_number_prep in H by apply Hprep.
  set (number := max_release_number id (committed s1) + 1) in *.
  eapply commit_request_at in H; [|exact Hprep|reflexivity|reflexivity].
  destruct H as [(-> & Hi & W & t & HW & Hf & Hc)|Hrace]; [left|by right].
  do 3 eexists. split; [reflexivity|]. split; [done|]. split; [exact HW|].
  destruct Hprep as [Hst _]. simpl in Hc. rewrite Hst in Hc.
  set (d := apply_all W (rivals_commit e (committed s1))) in *. unfold apply_all in Hc. simpl in Hc.
  rewrite Hc. unfold is_deployment. cbn -[N.modulo Z.add].
  split; [by eexists|]. split.
  { eexists. split; [reflexivity|]. do 3 (split; [reflexivity|]). split_and!; by dict_lookup. }
  split; [by do 3 eexists|]. split; [by do 2 eexists|]. by split_and!.
Qed.

Lemma rollback_release_inv caller id p key e db r db' :
  run (rollback_release caller id p key) e db = (Ok r, db') ->
  exists a0 app, where_ (has_app_id id) (applications db) = [a0]
    /\ where_ (has_app_id id) (applications (rivals_lock e db)) = [app]
    /\ ((answered (rivals_lock e db) (app_workspace_id a0) (rollback_endpoint id) key
           (body_hash e (rollback_json p)) r /\ db' = rivals_lock e db)
        \/ exists target,
             where_ (fun r => (rel_id r =?= rb_target_release_id p) && (rel_application_id r =?= id))
               (releases (rivals_lock e db)) = [target]
             /\ release_outcome (app_workspace_id a0) id (rollback_endpoint id) key
                  (body_hash e (rollback_json p)) (rel_image_digest target) (rel_config_json target)
                  app e (rivals_lock e db) r db').
Proof.
  unfold run, rollback_release. intros Hrun.
  match type of Hrun with context [?m e (open_session db)] =>
    destruct (m e (open_session db)) as [o s'] eqn:H end.
  simpl in Hrun. simplify_eq. apply bind_ok_inv in H as (w & s & Hstep & H).
  apply find_app_ok in Hstep as (-> & a0 & m & Ha0 & <- & Hm).
  apply bind_ok_inv in H as (app & s & Hstep & H). apply lock_app_ok in Hstep as [-> Happ].
  exists a0, app. split; [done|]. split; [exact Happ|].
  set (w := app_workspace_id a0) in *. set (d1 := rivals_lock e db) in *. run_steps H.
  apply bind_ok_inv in H as ([resp|] & s & Hstep & H).
  { apply check_idempotency_some in Hstep as [-> Hans]. done_run H. left. by split. }
  pose proof Hstep as Hchk. apply check_idempotency_none in Hstep as [Hp1 Hp2]; [|done]. right.
  step H with @select_one_ok as [-> Htarget]. step H with @or_raise_ok as [-> ->].
  apply one_or_none_some in Htarget.
  assert (releases (view s) = releases d1) as Hrel.
  { by apply check_idempotency_none_core, (same_core releases) in Hchk. }
  rewrite Hrel in Htarget.
  match type of Htarget with _ = [?t] => set (target := t) in * end.
  exists target. split; [done|].
  step H with rate_limit_ok as [n ->]. step H with enforce_reserve_ok as [-> _].
  assert (prep expiry e s (ticked 2 (admission_state w e (ticked n s)))) as Hp3
    by (etrans; [apply prep_ticked|apply prep_admission]).
  unfold reserving in H. set (s1 := ticked 2 (admission_state w e (ticked n s))) in *.
  clearbody s1. pose proof (prep_request e d1 w (rollback_endpoint id) key s s1 Hp1 Hp2 Hp3) as Hprep.
  right. exists (committed s1). split; [apply Hprep|].
  run_steps H. rewrite view_staging, max_release_number_prep in H by apply Hprep.
  set (number := max_release_number id (committed s1) + 1) in *.
  eapply commit_request_at in H; [|exact Hprep|reflexivity|reflexivity].
  destruct H as [(-> & Hi & W & t & HW & Hf & Hc)|Hrace]; [left|by right].
  do 3 eexists. split; [reflexivity|]. split; [done|]. split; [exact HW|].
  destruct Hprep as [Hst _]. simpl in Hc. rewrite Hst in Hc.
  set (d := apply_all W (rivals_commit e (committed s1))) in *. unfold apply_all in Hc. simpl in Hc.
  rewrite Hc. unfold is_deployment. cbn -[N.modulo Z.add].
  split; [by eexists|]. split.
  { eexists. split; [reflexivity|]. do 3 (split; [reflexivity|]). split_and!; by dict_lookup. }
  split; [by do 3 eexists|]. split; [by do 2 eexists|]. by split_and!.
Qed.

(** ** What a build does *)

Definition is_build (w id rid : uuid) (number : Z) (repository : uuid) (sha : option string)
    (git_ref : string) (d d' : Db) : Prop :=
  (exists config msg t, releases d' = releases d ++
     [mkRelease rid id w number sha "pending" config REQUESTED None (Some repository)
        (Some git_ref) msg None None t t])
  /\ (exists ev, outbox d' = outbox d ++ [ev] /\ ob_workspace_id ev = w /\ ob_status ev = PENDING
        /\ ob_topic ev = "app.build.requested.v1"
        /\ dict_get "release_id" (dict_items (ob_payload_json ev)) = Some (JStr (uuid_str rid))
        /\ dict_get "repository_id" (dict_items (ob_payload_json ev)) = Some (JStr (uuid_str repository)))
  /\ (exists qid qexp t, reservations d' = reservations d ++
        [new_reservation qid w CONCURRENT_BUILD qexp t])
  /\ applications d' = applications d /\ idempotency d' = idempotency d
  /\ workspaces d' = workspaces d /\ memberships d' = memberships d /\ jobs d' = jobs d.

(** The steps of a build up to its commit. *)
Lemma checked_commit_sha_ok c e s a s' :
  checked_commit_sha c e s = (Ok a, s') ->
  s' = s /\ match a with Some x => truthy x = true -> is_commit_sha x = true | None => c = None end.
Proof.
  unfold checked_commit_sha. destruct c as [c|]; [|intros H; by done_run H].
  destruct (truthy c) eqn:Hc; [|intros H; done_run H; by rewrite Hc]. intros H.
  step H with guard_ok as [-> Hg]. done_run H. split; [done|]. intros _. by apply negb_false_iff in Hg.
Qed.

(** The end of a handler that commits and reads its row back. *)
Lemma commit_refresh_ok {A B} (table : Db -> list A) P (f : A -> B) e s r s' :
  (commit ;; row ← refresh table P; mret (f row)) e s = (Ok r, s') ->
  exists row t, P row = true /\ r = f row /\ integrity (committed s')
    /\ committed s' = apply_all (map (fun c => c t) (staged s))
                        (apply_all (writes s) (rivals_commit e (committed s))).
Proof.
  intros H. step H with commit_ok as [-> Hi]. unfold refresh in H. run_steps H.
  inv_bind H. apply scalar_one_ok in Hstep as [-> Hrow]. rewrite ret_spec in H. injection H as <- <-.
  match type of Hrow with _ = [?x] => exists x; assert (x ∈ [x]) as Hin by left end.
  exists (clock e (ticks s)). rewrite <- Hrow in Hin. apply elem_of_where in Hin as [_ Hin].
  split; [done|]. split; [done|]. split; [exact Hi|]. apply published_eq.
Qed.

(** The four changes a build stages are a build. *)
Lemma staged_build w id rid number repository sha git_ref config msg qid qexp au
    eid ev_id payload headers t d :
  dict_get "release_id" payload = Some (JStr (uuid_str rid)) ->
  dict_get "repository_id" payload = Some (JStr (uuid_str repository)) ->
  is_build w id rid number repository sha git_ref d
    (apply_all (map (fun c => c t)
       [fun t => on_reservations (fun l => l ++ [new_reservation qid w CONCURRENT_BUILD qexp t]);
        fun t => on_releases (fun l => l ++
          [mkRelease rid id w number sha "pending" config REQUESTED None (Some repository)
             (Some git_ref) msg None None t t]);
        fun t => on_audit_events (fun l => l ++ [au t]);
        fun t => on_outbox (fun l => l ++
          [event_row ev_id eid w APP_BUILD_REQUESTED payload headers t])]) d).
Proof.
  intros Hrel Hrepo. unfold is_build, apply_all. simpl.
  split; [by do 3 eexists|]. split; [|split; [by do 3 eexists|by split_and!]].
  eexists. split; [reflexivity|]. by do 3 (split; [reflexivity|]).
Qed.

(** A build staged: the release is numbered after those seen once the application
    is locked, and committing the changes is a build. *)
Definition build_staged (id : uuid) (p : TriggerBuildRequest) (e : Env) (db : Db) (rid : uuid)
    (s' : Sess) : Prop :=
  exists app repository sha,
    where_ (has_app_id id) (applications (rivals_lock e db)) = [app]
    /\ app_repository_id app = Some repository
    /\ rtc (lock_step e) (rivals_lock e db) (committed s') /\ Forall housekeeping (writes s')
    /\ forall t d, is_build (app_workspace_id app) id rid
         (max_release_number id (rivals_lock e db) + 1)
         repository sha (or_str (Some (tb_git_ref p)) (or_str (app_git_branch app) "main"))
         d (apply_all (map (fun c => c t) (staged s')) d).

Lemma stage_build_ok caller id p e db rid s' :
  stage_build caller id p e (open_session db) = (Ok rid, s') -> build_staged id p e db rid s'.
Proof.
  unfold stage_build. intros H. apply bind_ok_inv in H as (w & s & Hstep & H).
  apply find_app_ok in Hstep as (-> & _).
  apply bind_ok_inv in H as (app & s & Hstep & H). apply lock_app_ok in Hstep as [-> Happ].
  set (d1 := rivals_lock e db) in *.
  apply bind_ok_inv in H as (repository & s & Hstep & H). apply or_raise_ok in Hstep as [-> Hrepo].
  run_steps H. change (view (locked e (open_session db))) with d1 in H.
  set (number := max_release_number id d1 + 1) in *.
  apply bind_ok_inv in H as (sha & s & Hstep & H). apply checked_commit_sha_ok in Hstep as [-> _].
  step H with rate_limit_ok as [n ->]. step H with enforce_reserve_ok as [-> _].
  unfold reserving in H.
  set (s1 := ticked 2 (admission_state (app_workspace_id app) e (ticked n (locked e (open_session db))))) in *.
  assert (prep expiry e (locked e (open_session db)) s1) as [Hst (W & HW & Hwr) Hcom]
    by (etrans; [apply prep_ticked|apply prep_admission]).
  clearbody s1. run_steps H. rewrite ret_spec in H. injection H as <- <-.
  exists app, repository, sha.
  split; [exact Happ|]. split; [done|]. split; [exact Hcom|].
  cbn [writes staged staging drawn]. rewrite Hwr, Hst by done.
  split; [by eapply Forall_impl; [exact HW|apply hk_expire]|].
  intros t d. eapply staged_build; reflexivity.
Qed.

#[export] Instance keeps_stage_build c id p : Keeps (stage_build c id p).
Proof. unfold stage_build. solve_keeps. Qed.

(** A successful build. *)
Lemma trigger_build_inv caller id p e db r db' :
  run (trigger_build caller id p) e db = (Ok r, db') ->
  exists app repository sha d0 W,
    where_ (has_app_id id) (applications (rivals_lock e db)) = [app]
    /\ app_repository_id app = Some repository
    /\ rtc (lock_step e) (rivals_lock e db) d0 /\ Forall housekeeping W /\ integrity db'
    /\ is_build (app_workspace_id app) id (rr_id r) (max_release_number id (rivals_lock e db) + 1)
         repository sha (or_str (Some (tb_git_ref p)) (or_str (app_git_branch app) "main"))
         (apply_all W (rivals_commit e d0)) db'.
Proof.
  unfold run, trigger_build. intros Hrun.
  match type of Hrun with context [?m e (open_session db)] =>
    destruct (m e (open_session db)) as [o s'] eqn:H end.
  simpl in Hrun. simplify_eq. apply bind_ok_inv in H as (rid & s & Hstep & H).
  apply stage_build_ok in Hstep as (app & repository & sha & Happ & Hr & Hl & HW & Hb).
  apply commit_refresh_ok in H as (row & t & Hid & -> & Hi & Hc). bool_hyps.
  exists app, repository, sha, (committed s), (writes s).
  do 4 (split; [done|]). split; [exact Hi|].
  cbn [rr_id release_response]. rewrite Hid, Hc. apply Hb.
Qed.

(** ** Release numbers stay dense *)

Definition well_numbered (db : Db) : Prop := forall a, dense a db.

(** What is assumed of the other transactions: they keep the numbering and delete no
    release (they may well release the same application). *)
Record tame_releases (e : Env) : Prop := {
  tame_release_lock : forall d, well_numbered d -> well_numbered (rivals_lock e d);
  tame_release_commit : forall d, well_numbered d -> well_numbered (rivals_commit e d);
  only_more_lock : forall a d,
    (List.length (numbers a d) <= List.length (numbers a (rivals_lock e d)))%nat;
  only_more_commit : forall a d,
    (List.length (numbers a d) <= List.length (numbers a (rivals_commit e d)))%nat }.

(** The schema forbids a number twice. *)
Lemma NoDup_second {A B C} `{EqDecision B} (f : A -> B) (g : A -> C) a (l : list A) :
  NoDup (map (fun r => (f r, g r)) l) -> NoDup (map g (where_ (fun r => f r =?= a) l)).
Proof.
  unfold where_. induction l as [|r l IH]; simpl; intros Hnd; [constructor|].
  apply NoDup_cons in Hnd as [Hr Hnd]. case_bool_decide as Ha; [|by apply IH].
  simpl. apply NoDup_cons. split; [|by apply IH]. intros Hin. destruct Hr.
  apply list_elem_of_In, in_map_iff in Hin as (r' & Hg & Hr'). apply filter_In in Hr' as [Hin' Hf].
  bool_hyps. apply list_elem_of_In, in_map_iff. exists r'. split; [congruence|done].
Qed.

Lemma integrity_release_pairs db :
  integrity db -> NoDup (map (fun r => (rel_application_id r, rel_number r)) (releases db)).
Proof.
  intros Hi.
  apply (bool_decide_eq_true (NoDup (map (fun r => (rel_application_id r, rel_number r)) (releases db)))).
  eapply (integrity_constraint db "uq_release_app_number"); [done|].
  unfold constraints. set_solver.
Qed.

Lemma integrity_numbers a db : integrity db -> NoDup (numbers a db).
Proof. intros Hi. by apply NoDup_second, integrity_release_pairs. Qed.

(** A release numbered after a possibly stale count, at most one per application:
    if the schema accepts it, its number was the next one. *)
Lemma appended_numbered d rs d' :
  well_numbered d -> integrity d' -> releases d' = releases d ++ rs ->
  NoDup (map rel_application_id rs) ->
  (forall r, r ∈ rs -> exists n, rel_number r = Z.of_nat n + 1
     /\ (n <= List.length (numbers (rel_application_id r) d))%nat) ->
  well_numbered d'.
Proof.
  intros Hd Hi Hr Hnd Hrs a. specialize (Hd a). pose proof (integrity_numbers a d' Hi) as Hn'.
  unfold dense, numbers in *. rewrite Hr, where_app, map_app in *.
  destruct (where_ (fun r => rel_application_id r =?= a) rs) as [|r l] eqn:E.
  { by rewrite app_nil_r. }
  assert (r ∈ rs /\ rel_application_id r = a) as [Hin Ha].
  { assert (r ∈ where_ (fun r => rel_application_id r =?= a) rs) as H by (rewrite E; left).
    apply elem_of_where in H as [H1 H2]. by bool_hyps. }
  rewrite <- Ha, where_key_unique in E by done. injection E as <-.
  destruct (Hrs r Hin) as (n & Hn & Hle). rewrite Ha in Hle.
  set (ns := map rel_number (where_ (fun r => rel_application_id r =?= a) (releases d))) in *.
  assert (Z.of_nat (List.length ns) = Z.of_nat n) as Hlen.
  { apply NoDup_app in Hn' as (_ & Hdis & _).
    destruct (decide (rel_number r ∈ ns)) as [Hx|Hx].
    - destruct (Hdis _ Hx). left.
    - rewrite Hd, elem_of_seqZ, Hn in Hx. lia. }
  rewrite length_app. cbn [map List.length]. rewrite Nat2Z.inj_add, seqZ_app by lia.
  rewrite Hd at 1. f_equiv. rewrite (seqZ_cons _ (Z.of_nat 1)) by lia. rewrite seqZ_nil by lia.
  rewrite Hn, Hlen. f_equiv. lia.
Qed.

Section Numbering.
Context (id : uuid) (e : Env) (He : tame_releases e).

Lemma rivals_numbered d d' : rtc (rival_step e) d d' -> well_numbered d -> well_numbered d'.
Proof.
  intros H. apply (rivals_leave well_numbered e); [apply He|apply He|done].
Qed.

Lemma locks_more a d d' :
  rtc (lock_step e) d d' -> (List.length (numbers a d) <= List.length (numbers a d'))%nat.
Proof.
  induction 1 as [|d1 d2 d3 -> _ IH]; [done|]. etrans; [by apply (only_more_lock e He)|exact IH].
Qed.

(** Publishing the release numbered after those of [d1]. *)
Lemma published_numbered d1 d0 W r db' :
  well_numbered d1 -> rtc (lock_step e) d1 d0 -> Forall housekeeping W -> integrity db' ->
  releases db' = releases (apply_all W (rivals_commit e d0)) ++ [r] ->
  rel_number r = max_release_number (rel_application_id r) d1 + 1 -> well_numbered db'.
Proof.
  intros Hd Hl HW Hi Hr Hn.
  rewrite (same_core releases _ _ (fun d => eq_refl) (housekeeping_core W _ HW)) in Hr.
  assert (well_numbered d0) as Hd0 by (eapply locks_leave; [apply He|exact Hl|done]).
  eapply (appended_numbered (rivals_commit e d0) [r]); try done.
  - by apply He.
  - apply NoDup_singleton.
  - intros x Hx. apply list_elem_of_singleton in Hx as ->.
    exists (List.length (numbers (rel_application_id r) d1)). split; [by rewrite Hn, max_dense|].
    etrans; [by apply locks_more|]. by apply (only_more_commit e He).
Qed.

Lemma release_outcome_numbered w ep key h image config app d1 r db' :
  well_numbered d1 -> release_outcome w id ep key h image config app e d1 r db' -> well_numbered db'.
Proof.
  intros Hd [[_ ->]|(d0 & Hd0 & H)]; [done|].
  assert (well_numbered d0) as Hd0' by (eapply locks_leave; [apply He|exact Hd0|done]).
  destruct H as [(rid & W & n & _ & Hi & HW & (t & Hr & _) & _)|[-> _]]; [|by apply He].
  eapply published_numbered; [exact Hd0'|apply rtc_refl|exact HW|exact Hi|exact Hr|]. reflexivity.
Qed.

Lemma deploy_keeps_numbers caller p key db :
  well_numbered db -> well_numbered (run (deploy_release caller id p key) e db).2.
Proof.
  intros Hd. destruct (run _ e db) as [[r|x] db'] eqn:H; simpl.
  - apply deploy_release_inv in H as (a0 & app & _ & _ & _ & H).
    eapply release_outcome_numbered; [|exact H]. by apply He.
  - eapply rivals_numbered; [|exact Hd]. exact (atomic_run _ _ _ _ _ _ H).
Qed.

Lemma rollback_keeps_numbers caller p key db :
  well_numbered db -> well_numbered (run (rollback_release caller id p key) e db).2.
Proof.
  intros Hd. destruct (run _ e db) as [[r|x] db'] eqn:H; simpl.
  - apply rollback_release_inv in H as (a0 & app & _ & _ & [[_ ->]|(t & _ & H)]); [by apply He|].
    eapply release_outcome_numbered; [|exact H]. by apply He.
  - eapply rivals_numbered; [|exact Hd]. exact (atomic_run _ _ _ _ _ _ H).
Qed.

Lemma build_keeps_numbers caller p db :
  well_numbered db -> well_numbered (run (trigger_build caller id p) e db).2.
Proof.
  intros Hd. unfold run, trigger_build. cbn [snd].
  apply (leaves_bind well_numbered e); [apply He|apply He|apply _|exact Hd|].
  intros rid s H Hs. apply stage_build_ok in H as (app & repository & sha & _ & _ & Hl & HW & Hb).
  apply leaves_commit_then; [apply He|apply He|solve_keeps|exact Hs|]. intros Hi.
  destruct (Hb (clock e (ticks s))
    (apply_all (writes s) (rivals_commit e (committed s)))) as ((config & msg & t & Hr) & _).
  eapply published_numbered; [|exact Hl|exact HW|exact Hi| |]; [by apply He|..].
  - rewrite published_eq. exact Hr.
  - reflexivity.
Qed.
End Numbering.

(** ** Sample *)

Definition sample_app : Application :=
  mkApplication 50%N sample_workspace "site" "site" HTTP_SERVICE 1 None (Some 60%N) "Dockerfile" "."
    None 0 0.
Definition sample_apps_db : Db := on_applications (fun _ => [sample_app]) (sample_db DEVELOPER).
Definition sample_deployment : DeployReleaseRequest :=
  mkDeploy "ghcr.io/hami9/site:1" 8080 "/healthz" [] "500m" "512Mi".
Definition sample_build : TriggerBuildRequest :=
  mkTriggerBuild (Some " abcdef1 ") "main" None None None.

(** ** Properties *)

(** C6: A deployment is one transaction.  If it succeeds, the image was approved, and
    either it replayed an earlier answer and changed nothing; or it published one
    IMAGE_READY release with the next number of the application and the requested
    image and configuration, the application's generation raised by one, one
    service reservation, the [app.deployment.requested.v1] event that names the
    release and the generation and the idempotency record, every other table and
    row being untouched but for expired reservations and a stale record; or it
    lost the race for its key and published nothing.  If it fails, it published
    nothing. *)
Theorem deploy_release_transactional caller id p key e db :
  match run (deploy_release caller id p key) e db with
  | (Ok r, db') =>
      exists a0 app, where_ (has_app_id id) (applications db) = [a0]
        /\ where_ (has_app_id id) (applications (rivals_lock e db)) = [app]
        /\ image_allowed (settings e) (dp_image_digest p) = true
        /\ release_outcome (app_workspace_id a0) id (deploy_endpoint id) key
             (body_hash e (deploy_json p)) (dp_image_digest p) (deploy_config p) app e
             (rivals_lock e db) r db'
  | (Err x, db') => rtc (rival_step e) db db'
  end.
Proof.
  destruct (run _ e db) as [[r|x] db'] eqn:H; [by eapply deploy_release_inv|].
  exact (atomic_run _ _ _ _ _ _ H).
Qed.

(** C28: A rollback redeploys an earlier release: if it succeeds without being a replay,
    the target is a release of this very application, and what is published is a
    deployment of the target's image and configuration under the next number and
    the next generation.  If it fails, it published nothing. *)
Theorem rollback_release_restores caller id p key e db :
  match run (rollback_release caller id p key) e db with
  | (Ok r, db') =>
      exists a0 app, where_ (has_app_id id) (applications db) = [a0]
        /\ where_ (has_app_id id) (applications (rivals_lock e db)) = [app]
        /\ ((answered (rivals_lock e db) (app_workspace_id a0) (rollback_endpoint id) key
               (body_hash e (rollback_json p)) r /\ db' = rivals_lock e db)
            \/ exists target,
                 where_ (fun r => (rel_id r =?= rb_target_release_id p) && (rel_application_id r =?= id))
                   (releases (rivals_lock e db)) = [target]
                 /\ release_outcome (app_workspace_id a0) id (rollback_endpoint id) key
                      (body_hash e (rollback_json p)) (rel_image_digest target)
                      (rel_config_json target) app e (rivals_lock e db) r db')
  | (Err x, db') => rtc (rival_step e) db db'
  end.
Proof.
  destruct (run _ e db) as [[r|x] db'] eqn:H; [by eapply rollback_release_inv|].
  exact (atomic_run _ _ _ _ _ _ H).
Qed.

(** A build that succeeds publishes one REQUESTED release of the connected
    repository, numbered after the releases of the locked application, its
    [app.build.requested.v1] event and a build reservation, and nothing else but
    expired reservations; every constraint of the schema holds. *)
Theorem trigger_build_effect caller id p e db r db' :
  run (trigger_build caller id p) e db = (Ok r, db') ->
  exists app repository sha d0 W,
    where_ (has_app_id id) (applications (rivals_lock e db)) = [app]
    /\ app_repository_id app = Some repository
    /\ rtc (lock_step e) (rivals_lock e db) d0 /\ Forall housekeeping W /\ integrity db'
    /\ is_build (app_workspace_id app) id (rr_id r) (max_release_number id (rivals_lock e db) + 1)
         repository sha (or_str (Some (tb_git_ref p)) (or_str (app_git_branch app) "main"))
         (apply_all W (rivals_commit e d0)) db'.
Proof. apply trigger_build_inv. Qed.

Lemma trigger_build_effect_witness :
  let out := run (trigger_build alice 50%N sample_build) sample_env sample_apps_db in
  map rel_commit_sha (releases out.2) = [Some "abcdef1"]
  /\ exists app, where_ (has_app_id 50%N) (applications sample_apps_db) = [app].
Proof.
  split; [vm_compute; reflexivity|].
  destruct (run (trigger_build alice 50%N sample_build) sample_env sample_apps_db)
    as [[r|x] db'] eqn:E; [|vm_compute in E; discriminate].
  destruct (trigger_build_effect alice 50%N sample_build sample_env sample_apps_db r db' E)
    as (app & _ & _ & _ & _ & H & _).
  exists app. exact H.
Defined.

(** C33: Applications are isolated between tenants: to a caller without a membership in
    the application's workspace every endpoint on the application gives the very
    answer it gives for an application that does not exist, the 404 [Application
    not found], and changes nothing; no lock is taken. *)
Theorem app_tenant_isolation fromiso caller id dp rb tb up key limit cursor e db :
  (List.length (where_ (has_app_id id) (applications db)) <= 1)%nat ->
  (forall a, a ∈ applications db -> app_id a = id -> stranger db caller (app_workspace_id a)) ->
  run (get_application caller id) e db = (Err app_not_found, db)
  /\ run (update_application caller id up) e db = (Err app_not_found, db)
  /\ run (list_releases fromiso caller id limit cursor) e db = (Err app_not_found, db)
  /\ run (deploy_release caller id dp key) e db = (Err app_not_found, db)
  /\ run (rollback_release caller id rb key) e db = (Err app_not_found, db)
  /\ run (trigger_build caller id tb) e db = (Err app_not_found, db).
Proof.
  intros Hlen Hstr.
  assert (forall a, where_ (has_app_id id) (applications (view (open_session db))) = [a] ->
            stranger (view (open_session db)) caller (app_workspace_id a)) as Hfor.
  { rewrite view_open. intros a Ha. assert (a ∈ where_ (has_app_id id) (applications db)) as Hin
      by (rewrite Ha; left).
    apply elem_of_where in Hin as [Hin Hid]. unfold has_app_id in Hid. bool_hyps. by apply Hstr. }
  assert (find_app caller id e (open_session db) = (Err app_not_found, open_session db)) as Hfind
    by (by apply foreign_row).
  unfold run. split_and!.
  - unfold get_application. by rewrite (foreign_row applications (has_app_id id) app_workspace_id).
  - unfold update_application. by rewrite (foreign_row applications (has_app_id id) app_workspace_id).
  - unfold list_releases. by rewrite (foreign_row applications (has_app_id id) app_workspace_id).
  - unfold deploy_release. by rewrite (bind_err _ _ _ _ _ _ Hfind).
  - unfold rollback_release. by rewrite (bind_err _ _ _ _ _ _ Hfind).
  - unfold trigger_build, stage_build. by rewrite !(bind_err _ _ _ _ _ _ (bind_err _ _ _ _ _ _ Hfind)).
Qed.

Lemma app_tenant_isolation_witness :
  run (get_application mallory 50%N) sample_env sample_apps_db = (Err app_not_found, sample_apps_db)
  /\ run (deploy_release mallory 50%N sample_deployment "key") sample_env sample_apps_db
     = (Err app_not_found, sample_apps_db).
Proof.
  assert (forall a, a ∈ applications sample_apps_db -> app_id a = 50%N ->
            stranger sample_apps_db mallory (app_workspace_id a)) as Hstr.
  { intros a _ _ m Hm. apply list_elem_of_singleton in Hm as ->. unfold is_membership_of. simpl.
    apply andb_false_r. }
  pose proof (app_tenant_isolation (fun _ => None) mallory 50%N sample_deployment (mkRollback 1%N)
    sample_build (mkUpdateApp None None None None None) "key" 20 None sample_env sample_apps_db
    (le_n 1) Hstr) as (H1 & _ & _ & H4 & _).
  split; [exact H1|exact H4].
Defined.
