(* ===== verification/Outbox.v ===== *)
(** * The outbox dispatcher ([workers/outbox_dispatcher.py])

    A worker fetches the due PENDING events it can lock, publishes each to the
    broker and records the outcome; published events are purged after a week and
    failed ones can be requeued.  [drain_batch] is the worker's batch as one
    transaction; [step] interleaves several workers, crashes, the handlers that
    append events, purges and requeues. *)

From S2P Require Import Prelude PyStr Uuid Json Models DateTime Config Session Sample Events.
From S2P Require Import Handlers.
From Stdlib Require Import Ascii String.

(** ** Messages and the broker's answers *)

Record message := mkMessage {
  msg_subject : string; msg_payload : string; msg_headers : list (string * string) }.
#[export] Instance message_eq_dec : EqDecision message.
Proof. solve_decision. Defined.

(** What [js.publish] does: an acknowledgment, or an exception, of which the
    dispatcher looks at the class and the text.  NATS is a parameter. *)
Inductive publish_result :=
| Acked
| Raised (value_or_type_error no_stream_response : bool) (text : string).

Definition message_headers (ev : OutboxEvent) : list (string * string) :=
  dict_update [("Nats-Msg-Id", uuid_str (ob_event_id ev));
               ("X-Schema-Version", pretty (ob_schema_version ev));
               ("X-Workspace-Id", uuid_str (ob_workspace_id ev))] (ob_headers_json ev).

Definition message_of (ev : OutboxEvent) : message :=
  mkMessage (ob_topic ev) (utf8_encode (dumps_plain (ob_payload_json ev))) (message_headers ev).

(** ** One event *)

Definition is_permanent (value_or_type_error no_stream_response : bool) (text : string) : bool :=
  let err_str := lower text in
  if value_or_type_error then true
  else if contains err_str "no stream"
          || (contains err_str "no responders" && contains err_str "stream") then true
  else no_stream_response.

Definition backoff_seconds (retry_count : Z) : Z := Z.min 300 (2 ^ Z.min retry_count 8).

(** The row of an event once its publication was tried at [now], and the
    transaction flushed at [t]. *)
Definition with_outcome (status : OutboxStatus) (retries : Z) (next published : option time)
    (t : time) (ev : OutboxEvent) : OutboxEvent :=
  mkOutboxEvent (ob_id ev) (ob_event_id ev) (ob_workspace_id ev) (ob_schema_version ev)
    (ob_topic ev) (ob_payload_json ev) (ob_headers_json ev) status retries next published
    (ob_created_at ev) t.

Definition dispatched (now : time) (r : publish_result) (t : time) (ev : OutboxEvent) : OutboxEvent :=
  match r with
  | Acked => with_outcome PUBLISHED (ob_retry_count ev) (ob_next_attempt_at ev) (Some now) t ev
  | Raised c n text =>
      if is_permanent c n text
      then with_outcome OUTBOX_FAILED (ob_retry_count ev) (ob_next_attempt_at ev)
             (ob_published_at ev) t ev
      else
        let retries := ob_retry_count ev + 1 in
        with_outcome PENDING retries (Some (now + seconds (backoff_seconds retries)))
          (ob_published_at ev) t ev
  end.

Definition is_acked (r : publish_result) : bool := match r with Acked => true | _ => false end.

(** ** One batch *)

Definition due (now : time) (ev : OutboxEvent) : bool :=
  (ob_status ev =?= PENDING)
  && match ob_next_attempt_at ev with None => true | Some n => n <=? now end.

Definition older (a b : OutboxEvent) : bool := ob_created_at a <=? ob_created_at b.

(** [select ... order_by(created_at).limit(n).with_for_update(skip_locked=True)]:
    rows another transaction holds are passed over. *)
Definition fetch (now : time) (limit : Z) (held : OutboxEvent -> bool) (db : Db) : list OutboxEvent :=
  limit_ limit (order_by older (where_ (fun ev => due now ev && negb (held ev)) (outbox db))).

Definition has_ob_id (id : uuid) (ev : OutboxEvent) : bool := ob_id ev =?= id.

(** The write of one event's outcome. *)
Definition write_outcome (now : time) (ev : OutboxEvent) (r : publish_result) (t : time) : Db -> Db :=
  on_outbox (update_where (has_ob_id (ob_id ev)) (dispatched now r t)).

Section Drain.
Context (publish : message -> publish_result).

(** The loop over the batch: how many were published. *)
Fixpoint process (now : time) (events : list OutboxEvent) : M Z :=
  match events with
  | [] => mret 0
  | ev :: rest =>
      let r := publish (message_of ev) in
      stage (write_outcome now ev r) ;;
      n ← process now rest;
      mret ((if is_acked r then 1 else 0) + n)
  end.

(** [a or b] on a count. *)
Definition or_count (a : option Z) (b : Z) : Z :=
  match a with Some n => if n =?= 0 then b else n | None => b end.

Definition drain_batch (self_batch_size : Z) (batch_size : option Z) (held : OutboxEvent -> bool)
    : M Z :=
  let limit := or_count batch_size self_batch_size in
  now ← datetime_now;
  events ← query (fetch now limit held);
  match events with
  | [] => mret 0
  | _ =>
      published_count ← process now events;
      flush ;;
      commit ;;
      mret published_count
  end.
End Drain.

(** ** Purging and requeuing *)

Definition is_expired_event (cutoff : time) (ev : OutboxEvent) : bool :=
  (ob_status ev =?= PUBLISHED)
  && match ob_published_at ev with Some p => p <? cutoff | None => false end.

Definition purge_expired_outbox_events (retention_days : Z) : M Z :=
  now ← datetime_now;
  let cutoff := now - hours (24 * retention_days) in
  n ← query (fun db => count_where (is_expired_event cutoff) (outbox db));
  execute (on_outbox (delete_where (is_expired_event cutoff))) ;;
  commit ;;
  mret n.

(** [event_ids] restricts the update when it is not empty. *)
Definition is_requeued (event_ids : option (list uuid)) (ev : OutboxEvent) : bool :=
  (ob_status ev =?= OUTBOX_FAILED)
  && match event_ids with Some ((_ :: _) as ids) => in_ (ob_event_id ev) ids | _ => true end.

Definition requeued_row (now t : time) (ev : OutboxEvent) : OutboxEvent :=
  with_outcome PENDING 0 (Some now) (ob_published_at ev) t ev.

Definition requeue_failed_outbox_events (event_ids : option (list uuid)) : M Z :=
  now ← datetime_now;
  n ← query (fun db => count_where (is_requeued event_ids) (outbox db));
  t ← datetime_now;
  execute (on_outbox (update_where (is_requeued event_ids) (requeued_row now t))) ;;
  commit ;;
  mret n.

(** ** The worker loop ([OutboxDispatcher.run])

    One turn: the daily purge if it is due, a batch, and whether the next turn
    starts at once (or after the poll interval).  A database error in either is
    logged and the loop goes on; [now] is read once per turn. *)

Record LoopState := mkLoop { last_purge_at : option time; loop_db : Db }.

Definition purge_due (last : option time) (now : time) : bool :=
  match last with None => true | Some p => seconds 86400 <=? now - p end.

Definition run_turn (publish : message -> publish_result) (held : OutboxEvent -> bool)
    (e_purge e_drain : Env) (now : time) (s : LoopState) : LoopState * bool :=
  let s :=
    if purge_due (last_purge_at s) now then
      match run (purge_expired_outbox_events 7) e_purge (loop_db s) with
      | (Ok _, db) => mkLoop (Some now) db
      | (Err _, db) => mkLoop (last_purge_at s) db
      end
    else s in
  match run (drain_batch publish (OUTBOX_BATCH_SIZE (settings e_drain)) None held) e_drain (loop_db s) with
  | (Ok n, db) => (mkLoop (last_purge_at s) db, 0 <? n)
  | (Err _, db) => (mkLoop (last_purge_at s) db, false)
  end.

(** ** Several workers

    A worker holds the rows of its batch from the fetch to the end of its
    transaction; it publishes them one by one, and commits the outcomes together
    or crashes, losing them (and publishing again later). *)

Record batch := mkBatch {
  b_now : time;
  b_todo : list OutboxEvent;
  b_done : list (OutboxEvent * publish_result) }.

Definition batch_rows (b : batch) : list OutboxEvent := map fst (b_done b) ++ b_todo b.

(** [history] is every event ever appended, as appended; [stream] every message
    the broker has acknowledged. *)
Record system := mkSystem {
  sys_db : Db; stream : list message; workers : nat -> option batch;
  history : list OutboxEvent }.

Definition set_worker (w : nat) (b : option batch) (ws : nat -> option batch) : nat -> option batch :=
  fun w' => if w' =?= w then b else ws w'.

(** The row is locked by some worker. *)
Definition locked_by_some (ws : nat -> option batch) (ev : OutboxEvent) : Prop :=
  exists w b row, ws w = Some b /\ row ∈ batch_rows b /\ ob_id row = ob_id ev.

Definition write_batch (now t : time) (done : list (OutboxEvent * publish_result)) (db : Db) : Db :=
  foldl (fun db x => write_outcome now x.1 x.2 t db) db done.

(** A new event, as [create_outbox_event] makes it. *)
Definition fresh_event (ev : OutboxEvent) : Prop := ob_status ev = PENDING.

Inductive step : system -> system -> Prop :=
| step_append ev db st ws hist :
    fresh_event ev -> ob_id ev ∉ map ob_id (outbox db) ->
    step (mkSystem db st ws hist)
         (mkSystem (on_outbox (fun l => l ++ [ev]) db) st ws (ev :: hist))
| step_fetch w now limit held db st ws hist :
    ws w = None ->
    (forall ev, ev ∈ outbox db -> held ev = true <-> locked_by_some ws ev) ->
    step (mkSystem db st ws hist)
         (mkSystem db st (set_worker w (Some (mkBatch now (fetch now limit held db) [])) ws) hist)
| step_publish w now ev rest done r stored db st ws hist :
    ws w = Some (mkBatch now (ev :: rest) done) ->
    (r = Acked -> stored = true) ->
    step (mkSystem db st ws hist)
         (mkSystem db (if stored : bool then st ++ [message_of ev] else st)
            (set_worker w (Some (mkBatch now rest (done ++ [(ev, r)]))) ws) hist)
| step_commit w now done t db st ws hist :
    ws w = Some (mkBatch now [] done) ->
    step (mkSystem db st ws hist)
         (mkSystem (write_batch now t done db) st (set_worker w None ws) hist)
| step_crash w b db st ws hist :
    ws w = Some b ->
    step (mkSystem db st ws hist) (mkSystem db st (set_worker w None ws) hist)
| step_purge cutoff db st ws hist :
    step (mkSystem db st ws hist)
         (mkSystem (on_outbox (delete_where (is_expired_event cutoff)) db) st ws hist)
| step_requeue ids now t db st ws hist :
    step (mkSystem db st ws hist)
         (mkSystem (on_outbox (update_where (is_requeued ids) (requeued_row now t)) db) st ws hist).

(** What identifies an event and its message, unchanged by every update. *)
Definition same_message (a b : OutboxEvent) : Prop :=
  ob_id a = ob_id b /\ ob_event_id a = ob_event_id b /\ message_of a = message_of b.

(** The row of [db] for an event, or its message in the stream. *)
Definition kept_or_delivered (s : system) (ev : OutboxEvent) : Prop :=
  (exists row, row ∈ outbox (sys_db s) /\ same_message ev row) \/ message_of ev ∈ stream s.

Record system_ok (s : system) : Prop := {
  ok_ids : NoDup (map ob_id (outbox (sys_db s)));
  ok_published : forall row, row ∈ outbox (sys_db s) -> ob_status row = PUBLISHED ->
    message_of row ∈ stream s;
  ok_history : forall ev, ev ∈ history s -> kept_or_delivered s ev;
  ok_rows : forall w b row, workers s w = Some b -> row ∈ batch_rows b ->
    row ∈ outbox (sys_db s) /\ ob_status row = PENDING;
  ok_batch : forall w b, workers s w = Some b -> NoDup (map ob_id (batch_rows b));
  ok_disjoint : forall w1 w2 b1 b2 r1 r2, workers s w1 = Some b1 -> workers s w2 = Some b2 ->
    r1 ∈ batch_rows b1 -> r2 ∈ batch_rows b2 -> ob_id r1 = ob_id r2 -> w1 = w2;
  ok_acked : forall w b ev, workers s w = Some b -> (ev, Acked) ∈ b_done b ->
    message_of ev ∈ stream s }.

(** *** What the updates keep *)

Lemma same_message_refl ev : same_message ev ev.
Proof. done. Qed.
Lemma same_message_trans a b c : same_message a b -> same_message b c -> same_message a c.
Proof. unfold same_message. intuition congruence. Qed.

Lemma outcome_same status retries next published t ev :
  same_message ev (with_outcome status retries next published t ev).
Proof. done. Qed.
Lemma dispatched_same now r t ev : same_message ev (dispatched now r t ev).
Proof. unfold dispatched. repeat case_match; apply outcome_same. Qed.
#[local] Hint Resolve same_message_refl same_message_trans outcome_same dispatched_same : core.

Definition outcome_row (now t : time) (done : list (OutboxEvent * publish_result)) (row : OutboxEvent)
    : OutboxEvent :=
  foldl (fun row x => if has_ob_id (ob_id x.1) row then dispatched now x.2 t row else row) row done.

Lemma write_batch_map now t done db :
  outbox (write_batch now t done db) = map (outcome_row now t done) (outbox db).
Proof.
  revert db. induction done as [|x done IH]; intros db; simpl; [by rewrite map_id|].
  rewrite IH. simpl. unfold update_where. by rewrite map_map.
Qed.

Lemma outcome_row_same now t done row : same_message row (outcome_row now t done row).
Proof.
  revert row. induction done as [|x done IH]; intros row; simpl; [done|].
  destruct (has_ob_id _ _); [|apply IH]. by eapply same_message_trans; [|apply IH].
Qed.

Lemma outcome_row_other now t done row :
  ob_id row ∉ map (fun x => ob_id x.1) done -> outcome_row now t done row = row.
Proof.
  induction done as [|x done IH]; simpl; [done|]. intros Hn. apply not_elem_of_cons in Hn as [Hn Hd].
  unfold has_ob_id. rewrite bool_decide_eq_false_2 by done. by apply IH.
Qed.

Lemma outcome_row_in now t done row ev r :
  NoDup (map (fun x => ob_id x.1) done) -> (ev, r) ∈ done -> ob_id row = ob_id ev ->
  outcome_row now t done row = dispatched now r t row.
Proof.
  induction done as [|x done IH]; simpl; intros Hnd Hin Hid; [by apply not_elem_of_nil in Hin|].
  apply NoDup_cons in Hnd as [Hx Hnd]. apply elem_of_cons in Hin as [<-|Hin].
  - unfold has_ob_id. simpl in *. rewrite bool_decide_eq_true_2 by done. fold (outcome_row now t done).
    apply outcome_row_other. destruct (dispatched_same now r t row) as [<- _]. by rewrite Hid.
  - unfold has_ob_id. rewrite bool_decide_eq_false_2; [by apply IH|]. intros Heq. destruct Hx.
    rewrite <- Heq, Hid. apply list_elem_of_In, in_map_iff. exists (ev, r). split; [done|].
    by apply list_elem_of_In.
Qed.

Lemma ids_of_images f l :
  (forall row, same_message row (f row)) -> map ob_id (map f l) = map ob_id l.
Proof. intros Hf. rewrite map_map. apply map_ext. intros row. by destruct (Hf row) as [-> _]. Qed.

(** *** Facts of a sound system *)

Section Sound.
Context (s : system) (Hok : system_ok s).

Lemma batch_row_unique w b ev row :
  workers s w = Some b -> ev ∈ batch_rows b -> row ∈ outbox (sys_db s) -> ob_id row = ob_id ev -> row = ev.
Proof.
  intros Hw He Hr Hid. eapply NoDup_map_inj; [apply Hok|done| |done]. by eapply ok_rows.
Qed.

(** Updating rows in place keeps the history. *)
Lemma history_images f ev st ws :
  (forall row, same_message row (f row)) -> st = stream s -> ev ∈ history s ->
  kept_or_delivered (mkSystem (on_outbox (map f) (sys_db s)) st ws (history s)) ev.
Proof.
  intros Hf -> He. destruct (ok_history s Hok ev He) as [(row & Hr & Hs)|Hd]; [left|by right].
  exists (f row). split; [|by eapply same_message_trans]. simpl.
  apply list_elem_of_In, in_map, list_elem_of_In, Hr.
Qed.
End Sound.

Lemma elem_of_map_iff {A B} (f : A -> B) l y : y ∈ map f l <-> exists x, y = f x /\ x ∈ l.
Proof.
  rewrite list_elem_of_In, in_map_iff. split.
  - intros (x & <- & Hx). exists x. by rewrite list_elem_of_In.
  - intros (x & -> & Hx). exists x. by rewrite <- list_elem_of_In.
Qed.

(** *** Each step keeps the system sound *)

Lemma append_ok ev db st ws hist :
  fresh_event ev -> ob_id ev ∉ map ob_id (outbox db) ->
  system_ok (mkSystem db st ws hist) ->
  system_ok (mkSystem (on_outbox (fun l => l ++ [ev]) db) st ws (ev :: hist)).
Proof.
  intros Hf Hid [Hids Hp Hh Hr Hb Hd Ha]. split; simpl in *.
  - rewrite map_app. apply NoDup_app. split; [done|]. split; [|apply NoDup_singleton].
    intros x Hx Hx'. apply list_elem_of_singleton in Hx' as ->. done.
  - intros row Hin Hpub. apply elem_of_app in Hin as [Hin|Hin]; [by apply Hp|].
    apply list_elem_of_singleton in Hin as ->. unfold fresh_event in Hf. congruence.
  - intros x Hx. apply elem_of_cons in Hx as [->|Hx].
    + left. exists ev. split; [|done]. simpl. apply elem_of_app. right. left.
    + destruct (Hh x Hx) as [(row & Hin & Hs)|Hdel]; [left|by right].
      exists row. split; [|done]. simpl. apply elem_of_app. by left.
  - intros w b row Hw Hin. destruct (Hr w b row Hw Hin) as [H1 H2]. split; [|done].
    apply elem_of_app. by left.
  - done.
  - done.
  - done.
Qed.

Lemma purge_ok cutoff db st ws hist :
  system_ok (mkSystem db st ws hist) ->
  system_ok (mkSystem (on_outbox (delete_where (is_expired_event cutoff)) db) st ws hist).
Proof.
  intros [Hids Hp Hh Hr Hb Hd Ha]. split; simpl in *; [by apply NoDup_map_delete_where| | | |done..].
  - intros row Hin. apply elem_of_delete_where in Hin as [Hin _]. by apply Hp.
  - intros x Hx. destruct (Hh x Hx) as [(row & Hin & Hs)|Hdel]; [|by right].
    destruct (is_expired_event cutoff row) eqn:E.
    + right. simpl. destruct Hs as (_ & _ & ->). apply Hp; [done|].
      unfold is_expired_event in E. apply andb_true_iff in E as [E _]. by bool_hyps.
    + left. exists row. split; [|done]. by apply elem_of_delete_where.
  - intros w b row Hw Hin. destruct (Hr w b row Hw Hin) as [H1 H2]. split; [|done].
    apply elem_of_delete_where. split; [done|]. unfold is_expired_event. by rewrite H2.
Qed.

Lemma requeue_ok ids now t db st ws hist :
  system_ok (mkSystem db st ws hist) ->
  system_ok (mkSystem (on_outbox (update_where (is_requeued ids) (requeued_row now t)) db) st ws hist).
Proof.
  intros Hok. pose proof Hok as [Hids Hp Hh Hr Hb Hd Ha].
  assert (forall row, same_message row (if is_requeued ids row then requeued_row now t row else row)) as Hf
    by (intros row; by destruct (is_requeued _ _)).
  split; simpl in *; [| | | |done..].
  - unfold update_where. by rewrite ids_of_images.
  - intros row Hin Hpub. unfold update_where in Hin. apply elem_of_map_iff in Hin as (x & -> & Hx).
    destruct (is_requeued ids x) eqn:E; [done|]. by apply Hp.
  - intros x Hx. by apply (history_images _ Hok _ x st ws Hf).
  - intros w b row Hw Hin. destruct (Hr w b row Hw Hin) as [H1 H2]. split; [|done].
    apply elem_of_map_iff. exists row. split; [|done]. unfold is_requeued. by rewrite H2.
Qed.

Lemma set_worker_same w b ws : set_worker w b ws w = b.
Proof. unfold set_worker. by rewrite bool_decide_eq_true_2. Qed.
Lemma set_worker_other w b ws w' : w' <> w -> set_worker w b ws w' = ws w'.
Proof. intros H. unfold set_worker. by rewrite bool_decide_eq_false_2. Qed.

(** Releasing the locks of a worker. *)
Lemma release_ok w db st ws hist :
  system_ok (mkSystem db st ws hist) -> system_ok (mkSystem db st (set_worker w None ws) hist).
Proof.
  intros [Hids Hp Hh Hr Hb Hd Ha].
  assert (forall w' b, set_worker w None ws w' = Some b -> ws w' = Some b) as Hws.
  { intros w' b. unfold set_worker. by case_bool_decide. }
  split; simpl in *; eauto.
Qed.

Lemma fetch_sublist now limit held db :
  fetch now limit held db `sublist_of`
    order_by older (where_ (fun ev => due now ev && negb (held ev)) (outbox db)).
Proof. apply sublist_take. Qed.

Lemma fetch_row now limit held db ev :
  ev ∈ fetch now limit held db -> ev ∈ outbox db /\ due now ev = true /\ held ev = false.
Proof.
  intros H. eapply elem_of_submseteq in H; [|apply sublist_submseteq, fetch_sublist].
  rewrite order_by_perm in H. apply elem_of_where in H as [Hin Hd].
  apply andb_true_iff in Hd as [Hdue Hheld]. by apply negb_true_iff in Hheld.
Qed.

Lemma fetch_ids now limit held db :
  NoDup (map ob_id (outbox db)) -> NoDup (map ob_id (fetch now limit held db)).
Proof.
  intros Hnd. eapply sublist_NoDup; [|apply (fmap_sublist ob_id), fetch_sublist].
  change (NoDup (map ob_id (order_by older (where_ (fun ev => due now ev && negb (held ev)) (outbox db))))).
  rewrite order_by_perm. by apply NoDup_map_where.
Qed.

Lemma due_pending now ev : due now ev = true -> ob_status ev = PENDING.
Proof. unfold due. intros H. apply andb_true_iff in H as [H _]. by bool_hyps. Qed.

(** Replacing the batch of one worker. *)
Lemma worker_ok w b db st st' ws hist :
  system_ok (mkSystem db st ws hist) -> (forall m, m ∈ st -> m ∈ st') ->
  (forall row, row ∈ batch_rows b -> row ∈ outbox db /\ ob_status row = PENDING) ->
  NoDup (map ob_id (batch_rows b)) ->
  (forall w' b' r r', w' <> w -> ws w' = Some b' -> r ∈ batch_rows b -> r' ∈ batch_rows b' ->
     ob_id r <> ob_id r') ->
  (forall ev, (ev, Acked) ∈ b_done b -> message_of ev ∈ st') ->
  system_ok (mkSystem db st' (set_worker w (Some b) ws) hist).
Proof.
  intros [Hids Hp Hh Hr Hb Hd Ha] Hst Hrows Hnd Hdis Hack.
  assert (forall w' b', set_worker w (Some b) ws w' = Some b' ->
            (w' = w /\ b' = b) \/ (w' <> w /\ ws w' = Some b')) as Hws.
  { intros w' b'. unfold set_worker. case_bool_decide; [left|right]; [by simplify_eq|done]. }
  split; simpl in *.
  - done.
  - auto.
  - intros ev He. destruct (Hh ev He) as [H|H]; [by left|right]. by apply Hst.
  - intros w' b' row Hw. destruct (Hws _ _ Hw) as [[-> ->]|[_ Hw']]; [apply Hrows|by eapply Hr].
  - intros w' b' Hw. destruct (Hws _ _ Hw) as [[-> ->]|[_ Hw']]; [done|by eapply Hb].
  - intros w1 w2 b1 b2 r1 r2 H1 H2 Hr1 Hr2 Heq.
    destruct (Hws _ _ H1) as [[-> ->]|[N1 H1']], (Hws _ _ H2) as [[-> ->]|[N2 H2']]; [done| | |eauto].
    + by destruct (Hdis w2 b2 r1 r2).
    + by destruct (Hdis w1 b1 r2 r1).
  - intros w' b' ev Hw Hin. destruct (Hws _ _ Hw) as [[-> ->]|[_ Hw']]; [by apply Hack|].
    apply Hst. by eapply Ha.
Qed.

Lemma fetch_ok w now limit held db st ws hist :
  (forall ev, ev ∈ outbox db -> held ev = true <-> locked_by_some ws ev) ->
  system_ok (mkSystem db st ws hist) ->
  system_ok (mkSystem db st (set_worker w (Some (mkBatch now (fetch now limit held db) [])) ws) hist).
Proof.
  intros Hheld Hok. apply (worker_ok _ _ _ st); simpl; try done.
  - intros row Hin. apply fetch_row in Hin as (Hin & Hdue & _). split; [done|by eapply due_pending].
  - apply fetch_ids, Hok.
  - intros w' b' r r' _ Hw' Hin Hin' Heq. apply fetch_row in Hin as (Hin & _ & Hf).
    apply not_true_iff_false in Hf. apply Hf, Hheld; [done|]. by exists w', b', r'.
  - intros ev H. by apply not_elem_of_nil in H.
Qed.

Lemma publish_ok w now ev rest done r (stored : bool) db st ws hist :
  ws w = Some (mkBatch now (ev :: rest) done) -> (r = Acked -> stored = true) ->
  system_ok (mkSystem db st ws hist) ->
  system_ok (mkSystem db (if stored then st ++ [message_of ev] else st)
    (set_worker w (Some (mkBatch now rest (done ++ [(ev, r)]))) ws) hist).
Proof.
  intros Hw Hs Hok.
  assert (batch_rows (mkBatch now rest (done ++ [(ev, r)])) = batch_rows (mkBatch now (ev :: rest) done))
    as Hrows by (unfold batch_rows; simpl; by rewrite map_app, <- app_assoc).
  apply (worker_ok _ _ _ st); rewrite ?Hrows; try done.
  - intros m Hm. destruct stored; [apply elem_of_app; by left|done].
  - intros row Hin. by apply (ok_rows _ Hok w _ row Hw).
  - exact (ok_batch _ Hok w _ Hw).
  - intros w' b' r1 r2 Hne Hw' H1 H2 Heq. destruct Hne.
    exact (ok_disjoint _ Hok w' w b' _ r2 r1 Hw' Hw H2 H1 (eq_sym Heq)).
  - simpl. intros x Hx. apply elem_of_app in Hx as [Hx|Hx].
    + pose proof (ok_acked _ Hok w _ x Hw Hx) as Hm. simpl in Hm.
      destruct stored; [apply elem_of_app; by left|done].
    + apply list_elem_of_singleton in Hx. simplify_eq. rewrite Hs by done.
      apply elem_of_app. right. left.
Qed.

Lemma batch_commit_ok w now done t db st ws hist :
  ws w = Some (mkBatch now [] done) ->
  system_ok (mkSystem db st ws hist) ->
  system_ok (mkSystem (write_batch now t done db) st (set_worker w None ws) hist).
Proof.
  intros Hw Hok. pose proof (release_ok w _ _ _ _ Hok) as [Hids Hp Hh Hr Hb Hd Ha].
  pose proof (ok_batch _ Hok w _ Hw) as Hnd. unfold batch_rows in Hnd. simpl in Hnd.
  rewrite app_nil_r, map_map in Hnd.
  assert (Hout : outbox (write_batch now t done db) = map (outcome_row now t done) (outbox db))
    by apply write_batch_map.
  split; cbn [sys_db stream workers history] in *; rewrite ?Hout; try done.
  - rewrite ids_of_images; [done|]. intros row. apply outcome_row_same.
  - intros row Hin Hpub. apply elem_of_map_iff in Hin as (x & -> & Hx).
    destruct (outcome_row_same now t done x) as (_ & _ & <-).
    destruct (decide (ob_id x ∈ map (fun y => ob_id y.1) done)) as [Hi|Hn].
    + apply elem_of_map_iff in Hi as ([ev r] & Hid & Hin).
      rewrite (outcome_row_in now t done x ev r) in Hpub by done.
      assert (x = ev) as ->.
      { apply (batch_row_unique _ Hok w _ ev x Hw); [|done|done]. unfold batch_rows. simpl.
        rewrite app_nil_r. apply elem_of_map_iff. by exists (ev, r). }
      destruct r as [|c n text]; [by apply (ok_acked _ Hok w _ ev Hw)|].
      unfold dispatched in Hpub. by destruct (is_permanent c n text).
    + rewrite outcome_row_other in Hpub by done. by apply Hp.
  - intros x Hx. destruct (ok_history _ Hok x Hx) as [(row & Hin & Hs)|Hdel]; [left|by right].
    exists (outcome_row now t done row). cbn [sys_db]. rewrite Hout. split.
    + apply elem_of_map_iff. by exists row.
    + eapply same_message_trans; [done|]. apply outcome_row_same.
  - intros w' b row Hw' Hin. destruct (Hr w' b row Hw' Hin) as [H1 H2]. split; [|done].
    apply elem_of_map_iff. exists row. split; [|done]. symmetry. apply outcome_row_other.
    intros Hi. apply elem_of_map_iff in Hi as ([ev r] & Hid & Hi). simpl in Hid.
    assert (w' = w) as ->.
    { apply (ok_disjoint _ Hok w' w b (mkBatch now [] done) row ev); try done.
      - simpl. unfold set_worker in Hw'. by case_bool_decide.
      - unfold batch_rows. simpl. rewrite app_nil_r. apply elem_of_map_iff. by exists (ev, r). }
    by rewrite set_worker_same in Hw'.
Qed.

Lemma step_ok s s' : step s s' -> system_ok s -> system_ok s'.
Proof.
  destruct 1.
  - by apply append_ok.
  - by apply fetch_ok.
  - by apply publish_ok.
  - by apply batch_commit_ok.
  - by apply release_ok.
  - by apply purge_ok.
  - by apply requeue_ok.
Qed.

Lemma steps_ok s s' : rtc step s s' -> system_ok s -> system_ok s'.
Proof. induction 1 as [|s1 s2 s3 Hs _ IH]; [done|]. intros H. by eapply IH, step_ok. Qed.

(** ** A batch as one transaction *)

Lemma on_outbox_map g f db :
  on_outbox (map g) (on_outbox (map f) db) = on_outbox (map (fun row => g (f row))) db.
Proof. unfold on_outbox. simpl. by rewrite map_map. Qed.

Lemma write_batch_eq now t done db :
  write_batch now t done db = on_outbox (map (outcome_row now t done)) db.
Proof.
  revert db. induction done as [|x done IH]; intros db; simpl.
  - destruct db. unfold on_outbox. simpl. by rewrite map_id.
  - rewrite IH. unfold write_outcome, update_where. by rewrite on_outbox_map.
Qed.

(** Rewriting rows in place, keeping what identifies them, keeps integrity. *)
Lemma integrity_images f db :
  (forall row, same_message row (f row)) -> (forall row, ob_topic (f row) = ob_topic row) ->
  integrity db -> integrity (on_outbox (map f) db).
Proof.
  intros Hf Ht [Hv Hw]. unfold integrity, violated, constraints, widths, unique in *.
  cbn [on_outbox workspaces memberships applications releases jobs job_attempts intents outbox
       reservations idempotency secrets audit_events repositories deliveries dead_letters].
  rewrite !map_map.
  rewrite (map_ext (fun row => ob_id (f row)) ob_id) by (intros row; by destruct (Hf row) as [-> _]).
  rewrite (map_ext (fun row => ob_event_id (f row)) ob_event_id)
    by (intros row; by destruct (Hf row) as (_ & -> & _)).
  split; [exact Hv|]. rewrite <- Hw.
  assert (forallb (fun o => fits 255 (ob_topic o)) (map f (outbox db))
          = forallb (fun o => fits 255 (ob_topic o)) (outbox db)) as ->; [|done].
  clear Hv Hw. induction (outbox db) as [|row l IH]; simpl; [done|].
  f_equal; [by rewrite Ht|done].
Qed.

Lemma dispatched_topic now r t ev : ob_topic (dispatched now r t ev) = ob_topic ev.
Proof. unfold dispatched. by repeat case_match. Qed.

Lemma outcome_row_topic now t done row : ob_topic (outcome_row now t done row) = ob_topic row.
Proof.
  revert row. induction done as [|x done IH]; intros row; simpl; [done|].
  rewrite IH. destruct (has_ob_id _ _); [apply dispatched_topic|done].
Qed.

Lemma integrity_batch now t done db : integrity db -> integrity (write_batch now t done db).
Proof.
  rewrite write_batch_eq. apply integrity_images; [intros row; apply outcome_row_same|].
  intros row. apply outcome_row_topic.
Qed.

Section Batch.
Context (publish : message -> publish_result).

(** The outcomes of a batch. *)
Definition outcomes (evs : list OutboxEvent) : list (OutboxEvent * publish_result) :=
  map (fun ev => (ev, publish (message_of ev))) evs.

Definition published_of (evs : list OutboxEvent) : Z :=
  count_where (fun ev => is_acked (publish (message_of ev))) evs.

Lemma process_spec now evs e s :
  process publish now evs e s =
    (Ok (published_of evs),
     mkSess (committed s) (writes s)
       (staged s ++ map (fun x => write_outcome now x.1 x.2) (outcomes evs)) (ticks s) (draws s)).
Proof.
  revert s. induction evs as [|ev evs IH]; intros s.
  { simpl. rewrite app_nil_r. by destruct s. }
  cbn [process]. erewrite bind_ok by apply stage_spec. unfold mbind at 1, M_bind at 1. rewrite IH.
  unfold published_of, count_where, where_. cbn [List.filter]. cbv [mret M_ret]. f_equal.
  - f_equal. destruct (is_acked _); simpl List.length; lia.
  - simpl. by rewrite <- app_assoc.
Qed.

Lemma apply_outcomes now t xs db :
  apply_all (map (fun w => w t) (map (fun x => write_outcome now x.1 x.2) xs)) db = write_batch now t xs db.
Proof. revert db. induction xs as [|x xs IH]; intros db; [done|]. unfold apply_all in *. simpl. by rewrite IH. Qed.

(** The whole batch: an idle poll, or the outcomes of the batch written together
    on top of what others committed. *)
Lemma drain_batch_run size size' held e db :
  integrity db -> integrity (rivals_commit e db) ->
  let now := clock e 0 in
  let evs := fetch now (or_count size' size) held db in
  run (drain_batch publish size size' held) e db =
    match evs with
    | [] => (Ok 0, db)
    | _ => (Ok (published_of evs), write_batch now (clock e 1) (outcomes evs) (rivals_commit e db))
    end.
Proof.
  intros Hdb Hrc now evs. unfold run, drain_batch.
  erewrite bind_ok by apply now_spec. erewrite bind_ok by apply query_spec.
  rewrite view_ticked, view_open. change (clock e (ticks (open_session db))) with now. fold evs.
  assert (forall d, integrity d -> integrity (write_batch now (clock e 1) (outcomes evs) d)) as Hmine
    by (intros d; apply integrity_batch).
  destruct evs as [|ev evs'] eqn:E; [done|]. rewrite <- E in *. clearbody evs.
  erewrite bind_ok by apply process_spec. set (s := mkSess _ _ _ _ _).
  assert (view (flushed e s) = write_batch now (clock e 1) (outcomes evs) db) as Hv
    by (unfold view; simpl; apply apply_outcomes).
  assert (flush e s = (Ok tt, flushed e s)) as Hf.
  { rewrite flush_spec, Hv. destruct (Hmine db Hdb) as [-> ->]. done. }
  erewrite bind_ok by exact Hf.
  assert (published e (flushed e s)
          = write_batch now (clock e 1) (outcomes evs) (rivals_commit e db)) as Hp.
  { rewrite published_eq. unfold s. simpl. unfold apply_all at 1. simpl. apply apply_outcomes. }
  erewrite bind_ok by (apply commit_succeeds; rewrite Hp; by apply Hmine).
  cbn [fst snd mret M_ret committed]. by rewrite Hp.
Qed.
End Batch.

(** ** Draining a backlog *)

(** The loop's fast path ([if drained > 0: continue]): batches one after the other,
    the [k]-th in the environment [es k], until one publishes nothing.  [fuel]
    bounds the number of productive batches. *)
Fixpoint drain_backlog (publish : message -> publish_result) (es : nat -> Env) (fuel k : nat)
    (db : Db) : option (nat * Db) :=
  match run (drain_batch publish (OUTBOX_BATCH_SIZE (settings (es k))) None (fun _ => false)) (es k) db with
  | (Ok n, db') =>
      if 0 <? n then
        match fuel with O => None | S f => drain_backlog publish es f (S k) db' end
      else Some (k, db')
  | (Err _, _) => None
  end.

Definition pending_count (db : Db) : nat :=
  List.length (where_ (fun ev => ob_status ev =?= PENDING) (outbox db)).

Lemma pending_images f l :
  (forall row, row ∈ l -> ob_status (f row) = PENDING -> ob_status row = PENDING) ->
  (List.length (where_ (fun ev => ob_status ev =?= PENDING) (map f l))
   <= List.length (where_ (fun ev => ob_status ev =?= PENDING) l))%nat.
Proof.
  unfold where_. induction l as [|row l IH]; intros Hf; simpl; [done|].
  assert (forall row', row' ∈ l -> ob_status (f row') = PENDING -> ob_status row' = PENDING) as Hf'
    by (intros; apply Hf; [by right|done]).
  specialize (IH Hf'). pose proof (Hf row ltac:(left)) as H.
  destruct (bool_decide (ob_status (f row) = PENDING)) eqn:E1; bool_hyps.
  - rewrite bool_decide_eq_true_2 by auto. simpl. lia.
  - case_bool_decide; simpl; lia.
Qed.

(** One row stopped being pending. *)
Lemma pending_images_lt f l x :
  (forall row, row ∈ l -> ob_status (f row) = PENDING -> ob_status row = PENDING) ->
  x ∈ l -> ob_status x = PENDING -> ob_status (f x) <> PENDING ->
  (List.length (where_ (fun ev => ob_status ev =?= PENDING) (map f l))
   < List.length (where_ (fun ev => ob_status ev =?= PENDING) l))%nat.
Proof.
  intros Hf Hin Hx Hfx. apply list_elem_of_split in Hin as (l1 & l2 & ->).
  assert (forall row, row ∈ l1 -> ob_status (f row) = PENDING -> ob_status row = PENDING) as H1
    by (intros row Hr; apply Hf; set_solver).
  assert (forall row, row ∈ l2 -> ob_status (f row) = PENDING -> ob_status row = PENDING) as H2
    by (intros row Hr; apply Hf; set_solver).
  apply pending_images in H1, H2. rewrite map_app. cbn [map]. rewrite !where_app, !length_app.
  unfold where_ at 2 4. cbn [List.filter]. rewrite bool_decide_eq_false_2 by done.
  rewrite bool_decide_eq_true_2 by done. cbn [List.length].
  unfold where_ in *. lia.
Qed.

Section Backlog.
Context (publish : message -> publish_result) (publish_acks : forall m, publish m = Acked).

Lemma published_all evs : published_of publish evs = Z.of_nat (List.length evs).
Proof.
  unfold published_of, count_where, where_. f_equal.
  rewrite filter_all; [done|]. intros ev _. by rewrite publish_acks.
Qed.

(** With every publication acknowledged, a batch leaves a row alone or publishes it. *)
Lemma acked_row now t evs row :
  let f := outcome_row now t (outcomes publish evs) in
  (ob_id row ∈ map ob_id evs /\ ob_status (f row) = PUBLISHED /\ ob_published_at (f row) = Some now)
  \/ ((ob_id row ∉ map ob_id evs) /\ f row = row).
Proof.
  simpl. destruct (decide (ob_id row ∈ map ob_id evs)) as [Hin|Hn]; [left|right]; split; try done.
  - revert row Hin. induction evs as [|ev evs IH]; intros row Hin; [by apply not_elem_of_nil in Hin|].
    set (row' := if has_ob_id (ob_id ev) row then dispatched now Acked t row else row).
    assert (outcome_row now t (outcomes publish (ev :: evs)) row
            = outcome_row now t (outcomes publish evs) row') as ->
      by (unfold row'; rewrite <- (publish_acks (message_of ev)); reflexivity).
    destruct (decide (ob_id row ∈ map ob_id evs)) as [Hin'|Hn].
    + apply IH. unfold row'. destruct (has_ob_id _ _); [|done].
      by destruct (dispatched_same now Acked t row) as [<- _].
    + simpl in Hin. apply elem_of_cons in Hin as [Hid|]; [|done].
      unfold row', has_ob_id. rewrite bool_decide_eq_true_2 by done.
      rewrite outcome_row_other; [done|]. unfold outcomes. rewrite map_map. simpl. exact Hn.
  - apply outcome_row_other. unfold outcomes. by rewrite map_map.
Qed.

Lemma fetch_none now limit db :
  0 < limit -> fetch now limit (fun _ => false) db = [] ->
  forall ev, ev ∈ outbox db -> due now ev = false.
Proof.
  unfold fetch, limit_. intros Hl H ev Hin. destruct (due now ev) eqn:E; [|done].
  assert (ev ∈ order_by older (where_ (fun ev => due now ev && negb false) (outbox db))) as Hev.
  { rewrite order_by_perm. apply elem_of_where. by rewrite E. }
  destruct (order_by _ _) as [|x l]; [by apply not_elem_of_nil in Hev|].
  destruct (Z.to_nat limit) eqn:En; [lia|done].
Qed.

(** What a productive batch does to the rows. *)
Lemma batch_step e db :
  integrity db -> (forall d, rivals_commit e d = d) -> 0 < OUTBOX_BATCH_SIZE (settings e) ->
  exists n f, run (drain_batch publish (OUTBOX_BATCH_SIZE (settings e)) None (fun _ => false)) e db
    = (Ok n, on_outbox (map f) db)
  /\ (forall row, same_message row (f row)) /\ integrity (on_outbox (map f) db)
  /\ (forall row, f row = row \/ ob_status (f row) = PUBLISHED)
  /\ (n <= 0 -> f = id /\ forall ev, ev ∈ outbox db -> due (clock e 0) ev = false)
  /\ (0 < n -> (pending_count (on_outbox (map f) db) < pending_count db)%nat).
Proof.
  intros Hi Hq Hsize. rewrite drain_batch_run by (rewrite ?Hq; done). cbn [or_count].
  set (now := clock e 0). set (t := clock e 1).
  set (evs := fetch now (OUTBOX_BATCH_SIZE (settings e)) (fun _ => false) db).
  destruct evs as [|ev evs'] eqn:E.
  - exists 0, id. split; [|split_and!; try done].
    + f_equal. destruct db. unfold on_outbox. simpl. by rewrite map_id.
    + assert (on_outbox (map id) db = db) as ->; [|done].
      destruct db. unfold on_outbox. simpl. by rewrite map_id.
    + auto.
    + intros _. split; [done|]. intros x Hx. by eapply fetch_none.
  - rewrite <- E. exists (published_of publish evs), (outcome_row now t (outcomes publish evs)).
    rewrite write_batch_eq, Hq. split; [done|]. split; [intros row; apply outcome_row_same|].
    split; [rewrite <- write_batch_eq; by apply integrity_batch|].
    assert (forall row, outcome_row now t (outcomes publish evs) row = row
      \/ ob_status (outcome_row now t (outcomes publish evs) row) = PUBLISHED) as Hrow.
    { intros row. destruct (acked_row now t evs row) as [(_ & H & _)|[_ H]]; auto. }
    split; [done|]. rewrite published_all. split; [rewrite E; simpl; lia|]. intros _.
    unfold pending_count. simpl. assert (ev ∈ evs) as Hev by (rewrite E; left).
    destruct (fetch_row _ _ _ _ _ Hev) as (Hin & Hdue & _). apply due_pending in Hdue.
    apply (pending_images_lt _ _ ev); try done.
    + intros row _ Hp. destruct (Hrow row) as [H|H]; congruence.
    + destruct (acked_row now t evs ev) as [(_ & H & _)|[Hn _]]; [congruence|].
      destruct Hn. apply elem_of_map_iff. by exists ev.
Qed.

Lemma due_mono a b ev : a <= b -> due a ev = true -> due b ev = true.
Proof.
  unfold due. intros Hab H. apply andb_true_iff in H as [-> H]. destruct (ob_next_attempt_at ev); [|done].
  simpl. bool_hyps. apply Z.leb_le. lia.
Qed.

Lemma drain_backlog_spec es fuel : forall k db,
  (forall j d, rivals_commit (es j) d = d) ->
  (forall j, 0 < OUTBOX_BATCH_SIZE (settings (es j))) ->
  (forall j, clock (es j) 0 <= clock (es (S j)) 0) ->
  integrity db -> (pending_count db <= fuel)%nat ->
  exists k' db', drain_backlog publish es fuel k db = Some (k', db') /\ (k' <= k + fuel)%nat
    /\ (forall ev, ev ∈ outbox db' -> due (clock (es k') 0) ev = false)
    /\ exists f, db' = on_outbox (map f) db /\ (forall row, same_message row (f row))
       /\ (forall row, row ∈ outbox db -> due (clock (es k) 0) row = true -> ob_status (f row) = PUBLISHED)
       /\ (forall row, f row = row \/ ob_status (f row) = PUBLISHED).
Proof.
  induction fuel as [|fuel IH]; intros k db Hq Hsize Hclock Hi Hfuel;
    destruct (batch_step (es k) db Hi (Hq k) (Hsize k)) as (n & f & Hrun & Hf & Hi' & Hrow & Hidle & Hlt);
    cbn [drain_backlog]; rewrite Hrun; destruct (Z.ltb_spec 0 n) as [Hn|Hn].
  1: { specialize (Hlt Hn). lia. }
  1, 3: destruct (Hidle Hn) as [-> Hdue]; exists k; eexists; split; [reflexivity|];
    split; [lia|]; split; [intros ev Hev; apply Hdue; unfold on_outbox in Hev; simpl in Hev;
      by rewrite map_id in Hev|]; exists id; split; [done|]; split; [done|]; split;
    [intros row Hr Hd; by rewrite Hdue in Hd|auto].
  destruct (IH (S k) (on_outbox (map f) db) Hq Hsize Hclock Hi') as
    (k' & db' & Hd & Hk & Hdue & g & -> & Hg & Hgpub & Hgrow); [specialize (Hlt Hn); lia|].
  rewrite Hd. exists k'. eexists. split; [reflexivity|]. split; [lia|]. split; [done|].
  exists (fun row => g (f row)). split; [apply on_outbox_map|].
  split; [intros row; by eapply same_message_trans|]. split.
  - intros row Hr Hdr. destruct (Hrow row) as [Hfr|Hfr].
    + apply Hgpub; [apply elem_of_map_iff; by exists row|]. rewrite Hfr.
      eapply due_mono; [apply Hclock|done].
    + destruct (Hgrow (f row)) as [->|]; done.
  - intros row. destruct (Hgrow (f row)) as [->|]; auto.
Qed.
End Backlog.

(** ** The backoff *)

(** The delay doubles from 2 s and stops at 256 s: the bound of 300 s is never the
    smaller one. *)
Lemma backoff_bounds n : 1 <= n -> 2 <= backoff_seconds n <= 256.
Proof.
  intros Hn. unfold backoff_seconds. split.
  - apply Z.min_glb; [lia|]. change 2 with (2 ^ 1) at 1. apply Z.pow_le_mono_r; lia.
  - etrans; [apply Z.le_min_r|]. change 256 with (2 ^ 8). apply Z.pow_le_mono_r; lia.
Qed.

Lemma backoff_mono a b : a <= b -> backoff_seconds a <= backoff_seconds b.
Proof.
  intros H. unfold backoff_seconds. apply Z.min_le_compat_l, Z.pow_le_mono_r; lia.
Qed.

(** ** An uninterrupted batch is a path of the system *)

Section Path.
Context (publish : message -> publish_result) (w : nat) (now t : time).

Definition acked_messages (evs : list OutboxEvent) : list message :=
  filter (fun m => is_acked (publish m) = true) (map message_of evs).

Lemma publish_path evs done db st ws hist :
  ws w = Some (mkBatch now evs done) ->
  exists ws', rtc step (mkSystem db st ws hist)
                (mkSystem db (st ++ acked_messages evs) ws' hist)
    /\ ws' w = Some (mkBatch now [] (done ++ outcomes publish evs))
    /\ forall w', w' <> w -> ws' w' = ws w'.
Proof.
  revert done st ws. induction evs as [|ev evs IH]; intros done st ws Hw.
  { exists ws. simpl. rewrite !app_nil_r. split; [apply rtc_refl|done]. }
  set (r := publish (message_of ev)).
  destruct (IH (done ++ [(ev, r)]) (if is_acked r then st ++ [message_of ev] else st)
              (set_worker w (Some (mkBatch now evs (done ++ [(ev, r)]))) ws)) as (ws' & Hp & Hw' & Ho).
  { apply set_worker_same. }
  exists ws'. split; [|split].
  - eapply rtc_l; [apply (step_publish w now ev evs done r (is_acked r)); [done|by intros ->]|].
    unfold acked_messages in *. cbn [map filter list_filter].
    fold r.
    destruct (is_acked r) eqn:E; case_decide; try congruence; [|exact Hp].
    by rewrite <- app_assoc in Hp.
  - rewrite Hw'. unfold outcomes. cbn [map]. by rewrite <- app_assoc.
  - intros w' Hne. by rewrite Ho, set_worker_other.
Qed.
End Path.

(** ** Properties *)

Definition initial : system := mkSystem empty_db [] (fun _ => None) [].

Lemma initial_ok : system_ok initial.
Proof.
  split; simpl; try done.
  - apply NoDup_nil_2.
  - intros row H. by apply not_elem_of_nil in H.
  - intros ev H. by apply not_elem_of_nil in H.
Qed.

(** C1: No event is lost: whatever the interleaving of the handlers that append events,
    any number of dispatcher workers, their crashes, the broker's failures, purges
    and requeues, every event ever appended either still has its row, with its id,
    event id and message unchanged, or has had its message acknowledged by the
    broker; every PUBLISHED row was acknowledged; and two workers never hold the
    same event. *)
Theorem outbox_no_event_lost s :
  rtc step initial s ->
  (forall ev, ev ∈ history s -> kept_or_delivered s ev)
  /\ (forall row, row ∈ outbox (sys_db s) -> ob_status row = PUBLISHED -> message_of row ∈ stream s)
  /\ (forall w1 w2 b1 b2 r1 r2, workers s w1 = Some b1 -> workers s w2 = Some b2 ->
        r1 ∈ batch_rows b1 -> r2 ∈ batch_rows b2 -> ob_id r1 = ob_id r2 -> w1 = w2).
Proof.
  intros H. apply steps_ok in H as Hok; [|apply initial_ok].
  split; [apply Hok|]. split; [apply Hok|apply Hok].
Qed.

Definition sample_event : OutboxEvent :=
  event_row 70%N 71%N sample_workspace JOB_SUBMITTED [] [] 0.

(** Appended, fetched, published, recorded and purged. *)
Lemma outbox_no_event_lost_witness :
  exists s, rtc step initial s /\ outbox (sys_db s) = [] /\ kept_or_delivered s sample_event.
Proof.
  assert (exists s, rtc step initial s /\ outbox (sys_db s) = [] /\ history s = [sample_event])
    as (s & Hs & Hout & Hhist).
  { eexists. split; [|split].
    - eapply rtc_l; [apply (step_append sample_event); [reflexivity|by apply not_elem_of_nil]|].
      eapply rtc_l; [apply (step_fetch 0 5 10 (fun _ => false)); [reflexivity|]|].
      { intros ev _. split; [done|]. by intros (w & b & row & Hw & _). }
      eapply rtc_l; [apply (step_publish 0 5 sample_event [] [] Acked true); [reflexivity|done]|].
      eapply rtc_l; [apply (step_commit 0 5 [(sample_event, Acked)] 6); reflexivity|].
      apply rtc_once, (step_purge 100).
    - vm_compute. reflexivity.
    - reflexivity. }
  exists s. split; [done|]. split; [done|].
  apply (proj1 (outbox_no_event_lost s Hs)). rewrite Hhist. left.
Defined.

Lemma integrity_outbox_ids db : integrity db -> NoDup (map ob_id (outbox db)).
Proof.
  intros Hi. apply (bool_decide_eq_true (NoDup (map ob_id (outbox db)))).
  eapply (integrity_constraint db "outbox_events_pkey"); [done|].
  unfold constraints. set_solver.
Qed.

(** The fate of one row in a batch. *)
Definition batch_outcome (publish : message -> publish_result) (now t : time)
    (evs : list OutboxEvent) (row row' : OutboxEvent) : Prop :=
  if decide (ob_id row ∈ map ob_id evs) then
    same_message row row' /\
    match publish (message_of row) with
    | Acked => ob_status row' = PUBLISHED /\ ob_published_at row' = Some now
    | Raised c n text =>
        if is_permanent c n text then ob_status row' = OUTBOX_FAILED
        else ob_status row' = PENDING /\ ob_retry_count row' = ob_retry_count row + 1
             /\ exists next, ob_next_attempt_at row' = Some next
                /\ (0 <= ob_retry_count row -> now + seconds 2 <= next <= now + seconds 256)
    end
  else row' = row.

(** What a batch does: on a sound database whose rows no one else touches, the
    dispatcher takes at most a batch of due PENDING events no other worker holds,
    oldest first; every one acknowledged becomes PUBLISHED at the time of the
    batch, a permanent error makes it FAILED, and any other failure leaves it
    PENDING, one retry later, with a delay between 2 and 256 seconds; no other row
    changes, and the result counts the acknowledgments. *)
Theorem drain_batch_outcomes publish size held e db :
  integrity db -> (forall d, rivals_commit e d = d) ->
  let now := clock e 0 in
  let evs := fetch now size held db in
  (forall ev, ev ∈ evs -> ev ∈ outbox db /\ due now ev = true /\ held ev = false)
  /\ (Z.of_nat (List.length evs) <= Z.max 0 size)
  /\ StronglySorted (fun a b => older a b = true) evs
  /\ exists f t, run (drain_batch publish size None held) e db
       = (Ok (published_of publish evs), on_outbox (map f) db)
     /\ forall row, row ∈ outbox db -> batch_outcome publish now t evs row (f row).
Proof.
  intros Hi Hq now evs. split; [intros ev; apply fetch_row|]. split.
  { unfold evs, fetch, limit_. rewrite length_take. lia. }
  split.
  { unfold evs, fetch, limit_. eapply StronglySorted_app_1_l. rewrite take_drop.
    apply order_by_sorted; unfold older; [intros x y; rewrite !Z.leb_le; lia|].
    intros x y z H1 H2. bool_hyps. apply Z.leb_le. lia. }
  pose proof (integrity_outbox_ids db Hi) as Hids. pose proof (fetch_ids now size held db Hids) as Hevs.
  fold evs in Hevs.
  exists (outcome_row now (clock e 1) (outcomes publish evs)), (clock e 1). split.
  - rewrite drain_batch_run by (rewrite ?Hq; done). cbn [or_count]. fold now. fold evs.
    rewrite Hq, write_batch_eq. destruct evs as [|ev l] eqn:E; [|done].
    f_equal. destruct db. unfold on_outbox. simpl. by rewrite map_id.
  - intros row Hrow. unfold batch_outcome. case_decide as Hin; cycle 1.
    { apply outcome_row_other. unfold outcomes. by rewrite map_map. }
    split; [apply outcome_row_same|].
    apply elem_of_map_iff in Hin as (ev & Hid & Hev).
    assert (row = ev) as ->.
    { eapply (NoDup_map_inj ob_id); [exact Hids|done|by apply fetch_row in Hev as [? _]|done]. }
    rewrite (outcome_row_in now (clock e 1) _ ev ev (publish (message_of ev))); cycle 1.
    { unfold outcomes. by rewrite map_map. }
    { apply elem_of_map_iff. by exists ev. } { done. }
    destruct (publish (message_of ev)) as [|c n text]; [done|]. simpl.
    destruct (is_permanent c n text); [done|]. split; [done|]. split; [done|].
    eexists. split; [done|]. intros Hr. pose proof (backoff_bounds (ob_retry_count ev + 1)).
    unfold seconds. lia.
Qed.

Definition sample_outbox : Db :=
  on_outbox (fun _ => [sample_event;
    event_row 80%N 81%N sample_workspace JOB_SUBMITTED [] [] 1;
    event_row 90%N 91%N sample_workspace JOB_SUBMITTED [] [] 2]) empty_db.

(** A broker that is down for one event, refuses another and takes the rest. *)
Definition sample_broker (m : message) : publish_result :=
  if dict_get "Nats-Msg-Id" (msg_headers m) =?= Some (uuid_str 81%N)
  then Raised false false "nats: no responders available"
  else if dict_get "Nats-Msg-Id" (msg_headers m) =?= Some (uuid_str 91%N)
  then Raised false false "nats: No stream response"
  else Acked.

Lemma drain_batch_outcomes_witness :
  let out := run (drain_batch sample_broker 10 None (fun _ => false)) sample_env sample_outbox in
  map (fun r => (ob_status r, ob_retry_count r)) (outbox out.2)
    = [(PUBLISHED, 0); (PENDING, 1); (OUTBOX_FAILED, 0)]
  /\ exists f t, out = (Ok 1, on_outbox (map f) sample_outbox)
     /\ forall row, row ∈ outbox sample_outbox ->
        batch_outcome sample_broker sample_start t
          (fetch sample_start 10 (fun _ => false) sample_outbox) row (f row).
Proof.
  split; [vm_compute; reflexivity|].
  destruct (drain_batch_outcomes sample_broker 10 (fun _ => false) sample_env sample_outbox)
    as (_ & _ & _ & f & t & Hrun & Hf).
  - vm_compute. split; reflexivity.
  - reflexivity.
  - exists f, t. split; [rewrite Hrun; vm_compute; reflexivity|exact Hf].
Defined.

(** C29: A backlog drains: with the broker acknowledging, no other transaction on the rows
    and clocks that do not go back, polling batch after batch ends after at most as
    many productive batches as there were pending events; then no event is due,
    every event that was due is PUBLISHED, and nothing else changed. *)
Theorem backlog_drains publish es db :
  (forall m, publish m = Acked) ->
  (forall j d, rivals_commit (es j) d = d) ->
  (forall j, 0 < OUTBOX_BATCH_SIZE (settings (es j))) ->
  (forall j, clock (es j) 0 <= clock (es (S j)) 0) ->
  integrity db ->
  exists k db', drain_backlog publish es (pending_count db) 0 db = Some (k, db')
    /\ (k <= pending_count db)%nat
    /\ (forall ev, ev ∈ outbox db' -> due (clock (es k) 0) ev = false)
    /\ exists f, db' = on_outbox (map f) db /\ (forall row, same_message row (f row))
       /\ (forall row, row ∈ outbox db -> due (clock (es 0%nat) 0) row = true ->
             ob_status (f row) = PUBLISHED)
       /\ (forall row, f row = row \/ ob_status (f row) = PUBLISHED).
Proof.
  intros Hack Hq Hs Hc Hi.
  exact (drain_backlog_spec publish Hack es (pending_count db) 0 db Hq Hs Hc Hi (le_n _)).
Qed.

Lemma backlog_drains_witness :
  exists k db', drain_backlog (fun _ => Acked) (fun _ => sample_env) 3 0 sample_outbox = Some (k, db')
    /\ map ob_status (outbox db') = [PUBLISHED; PUBLISHED; PUBLISHED].
Proof.
  destruct (backlog_drains (fun _ => Acked) (fun _ => sample_env) sample_outbox) as (k & db' & H & _).
  - reflexivity.
  - reflexivity.
  - intros _. vm_compute. reflexivity.
  - intros _. vm_compute. discriminate.
  - vm_compute. split; reflexivity.
  - exists k, db'. split; [exact H|]. vm_compute in H. injection H as <- <-. reflexivity.
Defined.

(** C38: The step relation models the code: on a sound database without interference, the
    dispatcher's batch ends in the database of a path of steps of an idle worker
    (fetch, one publication per event in order, commit), along which the stream
    grows by the acknowledged messages, as many as the batch reports. *)
Theorem drain_batch_refines publish size held e w st ws hist db :
  integrity db -> (forall d, rivals_commit e d = d) -> ws w = None ->
  (forall ev, ev ∈ outbox db -> held ev = true <-> locked_by_some ws ev) ->
  let sent := acked_messages publish (fetch (clock e 0) size held db) in
  exists db' ws', run (drain_batch publish size None held) e db
      = (Ok (Z.of_nat (List.length sent)), db')
    /\ rtc step (mkSystem db st ws hist) (mkSystem db' (st ++ sent) ws' hist) /\ ws' w = None.
Proof.
  intros Hi Hq Hw Hheld sent.
  rewrite drain_batch_run by (rewrite ?Hq; done). cbn [or_count].
  set (now := clock e 0) in *. set (evs := fetch now size held db) in *.
  assert (published_of publish evs = Z.of_nat (List.length sent)) as Hn.
  { unfold sent, published_of, count_where, where_, acked_messages. clearbody evs.
    f_equal. induction evs as [|ev evs IH]; [done|]. cbn [map List.filter filter list_filter].
    destruct (is_acked (publish (message_of ev))) eqn:E; case_decide; try congruence;
      [cbn [List.length]; f_equal|]; exact IH. }
  destruct (publish_path publish w now evs [] db st
              (set_worker w (Some (mkBatch now evs [])) ws) hist) as (ws1 & Hp & Hw1 & _).
  { apply set_worker_same. }
  exists (write_batch now (clock e 1) (outcomes publish evs) db), (set_worker w None ws1).
  split; [|split; [|apply set_worker_same]].
  - destruct evs as [|ev l] eqn:E; [|by rewrite Hn, Hq].
    subst sent. done.
  - eapply rtc_l; [apply (step_fetch w now size held); done|]. fold evs.
    etrans; [exact Hp|]. by apply rtc_once, step_commit.
Qed.

Lemma drain_batch_refines_witness :
  exists db' ws', run (drain_batch sample_broker 10 None (fun _ => false)) sample_env sample_outbox
      = (Ok 1, db')
    /\ rtc step (mkSystem sample_outbox [] (fun _ => None) [])
         (mkSystem db' [message_of sample_event] ws' []) /\ ws' 0%nat = None.
Proof.
  apply (drain_batch_refines sample_broker 10 (fun _ => false) sample_env 0 [] (fun _ => None) []
           sample_outbox).
  - vm_compute. split; reflexivity.
  - reflexivity.
  - reflexivity.
  - intros ev _. split; [discriminate|]. intros (w & b & row & Hw & _). discriminate Hw.
Defined.
