(* ===== verification/Webhooks.v ===== *)
(** * GitHub webhooks ([api/v1/webhooks.py])

    A signed delivery is recorded once per repository; a push requests one build
    of every application connected to the repository and branch.  HMAC-SHA256 and
    the JSON parser are arguments. *)

From S2P Require Import Prelude PyStr Uuid Json Models DateTime Config Session Sample Auth.
From S2P Require Import Events Quotas Handlers Workspaces Apps.
From Stdlib Require Import Ascii String.

Record WebhookDeliveryResponse := mkDeliveryResponse {
  wr_status_code : Z; wr_delivery_id : string; wr_status : string; wr_event_type : string;
  wr_processed_at : time; wr_release_id : option uuid; wr_commit_sha : option string }.

Section Webhooks.
(** [hmac.new(key, body, sha256).hexdigest()] and [json.loads(body.decode())],
    whose failure carries the exception's text. *)
Context (hmac_sha256_hex : string -> string -> string) (json_loads : string -> json + string).

(** [hmac.compare_digest] refuses strings that are not ASCII. *)
Definition compare_digest (a b : string) : M bool :=
  if str_forallb is_ascii a && str_forallb is_ascii b then mret (a =?= b) else raise TypeError.

Definition expected_signature (secret raw_body : string) : string :=
  "sha256=" +:+ hmac_sha256_hex (utf8_encode secret) raw_body.

Definition verify_github_signature (raw_body secret : string) (signature_header : option string)
    : M bool :=
  match signature_header with
  | Some h => if truthy h && startswith h "sha256="
              then compare_digest h (expected_signature secret raw_body) else mret false
  | None => mret false
  end.

Definition is_delivery (repository : uuid) (id : string) (d : WebhookDelivery) : bool :=
  (wd_repository_id d =?= repository) && (wd_delivery_id d =?= id).

(** [db.add(WebhookDelivery(...))]. *)
Definition add_delivery (repo : Repository) (delivery_id event_type hash status : string) : M uuid :=
  id ← uuid4;
  stage (fun t => on_deliveries (fun l => l ++
    [mkWebhookDelivery id (repo_workspace_id repo) (repo_id repo) delivery_id event_type hash status t])) ;;
  mret id.

(** [delivery.created_at] after the commit: the default the flush filled in. *)
Definition delivery_created_at (id : uuid) : M time :=
  d ← refresh deliveries (fun d => wd_id d =?= id);
  mret (wd_created_at d).

(** A delivery that triggers nothing: recorded and acknowledged. *)
Definition acknowledge (repo : Repository) (delivery_id event_type hash status : string)
    (sha : M (option string)) : M WebhookDeliveryResponse :=
  id ← add_delivery repo delivery_id event_type hash status;
  commit ;;
  t ← delivery_created_at id;
  commit_sha ← sha;
  mret (mkDeliveryResponse 200 delivery_id status event_type t None commit_sha).

(** [x or d] on strings. *)
Definition or_default (x d : string) : string := if truthy x then x else d.

(** [d.get(k)] and [s.startswith], on a value of another type. *)
Definition as_dict (j : json) : M (list (string * json)) :=
  match j with JDict kvs => mret kvs | _ => raise AttributeError end.
Definition as_str (j : json) : M string :=
  match j with JStr s => mret s | _ => raise AttributeError end.
Definition get_or_null (k : string) (kvs : list (string * json)) : json := dict_get_or k JNull kvs.

(** A commit id that is not a string only fails where the driver or the response
    model checks its type. *)
Definition sha_column (j : json) : M string :=
  match j with JStr s => mret s | _ => raise DataError end.
Definition sha_response (j : json) : M (option string) :=
  match j with JStr s => mret (Some s) | _ => raise ValidationError end.

(** [commit_msg[:250] if commit_msg else None]. *)
Definition commit_message (j : json) : M (option string) :=
  if json_truthy j then
    match j with
    | JStr s => mret (Some (str_take 250 s))
    | JList _ => raise DataError
    | _ => raise TypeError
    end
  else mret None.

(** [ref.replace("refs/heads/", "") if ref.startswith("refs/heads/") else ref]. *)
Definition branch_of (ref : string) : string :=
  if startswith ref "refs/heads/" then replace ref "refs/heads/" "" else ref.

Definition zero_sha : string := "0000000000000000000000000000000000000000".

Definition is_zero_sha (j : json) : bool := match j with JStr s => s =?= zero_sha | _ => false end.

Definition matches_push (repo : Repository) (repository_id : uuid) (branch : string) (a : Application)
    : bool :=
  (app_workspace_id a =?= repo_workspace_id repo) && (app_repository_id a =?= Some repository_id)
  && ((app_git_branch a =?= Some branch) || (app_git_branch a =?= None)).

(** The configuration of the application's latest release. *)
Definition push_config (latest : option Release) : json :=
  match latest with
  | Some r => rel_config_json r
  | None => JDict [("port", JInt 8080); ("health_path", JStr "/healthz")]
  end.

(** The body of the loop over the matching applications: the release's id. *)
Definition request_build (repo : Repository) (sha branch : string) (msg : option string)
    (a : Application) : M uuid :=
  max_num ← query (max_release_number (app_id a));
  latest ← query (fun db => head (order_by (fun a b => rel_number b <=? rel_number a)
                    (where_ (fun r => rel_application_id r =?= app_id a) (releases db))));
  release_id ← uuid4;
  stage (fun t => on_releases (fun l => l ++
    [mkRelease release_id (app_id a) (app_workspace_id a) (max_num + 1) (Some sha) "pending"
       (push_config latest) REQUESTED None (Some (repo_id repo)) (Some branch) msg None None t t])) ;;
  event ← create_outbox_event (app_workspace_id a) APP_BUILD_REQUESTED
    [("release_id", JStr (uuid_str release_id)); ("application_id", JStr (uuid_str (app_id a)));
     ("workspace_id", JStr (uuid_str (app_workspace_id a)));
     ("repository_id", JStr (uuid_str (repo_id repo))); ("repo_url", JStr (repo_url repo));
     ("commit_sha", JStr sha); ("git_ref", JStr branch);
     ("dockerfile_path", JStr (app_dockerfile_path a)); ("context_dir", JStr (app_context_dir a))]
    [] None;
  add_outbox_event event ;;
  mret release_id.

Fixpoint request_builds (repo : Repository) (sha branch : string) (msg : option string)
    (apps : list Application) (last : option uuid) : M (option uuid) :=
  match apps with
  | [] => mret last
  | a :: rest =>
      id ← request_build repo sha branch msg a;
      request_builds repo sha branch msg rest (Some id)
  end.

Definition parse_body (raw_body : string) : M json :=
  match json_loads raw_body with
  | inl v => mret v
  | inr exc => raise (http_error 400 ("Invalid JSON payload: " +:+ exc))
  end.

(** The commit of a push: what a lost race answers, or nothing. *)
Definition commit_push (delivery_id event : string) : M (option WebhookDeliveryResponse) :=
  catch_integrity (commit ;; mret None)
    (fun c =>
       rollback ;;
       guard (negb (violated_constraint c =?= Some "uq_webhook_deliveries_repo_delivery"))
         unexpected_integrity_error ;;
       now ← datetime_now;
       mret (Some (mkDeliveryResponse 200 delivery_id "DUPLICATE" (or_default event "push") now None None))).

(** The push event of a verified, unseen delivery. *)
Definition handle_push (repo : Repository) (repository_id : uuid) (delivery_id event hash raw_body : string)
    : M WebhookDeliveryResponse :=
  parsed ← parse_body raw_body;
  payload ← as_dict parsed;
  let after := get_or_null "after" payload in
  let ref := dict_get_or "ref" (JStr "") payload in
  let head := get_or_null "head_commit" payload in
  head_commit ← as_dict (if json_truthy head then head else JDict []);
  let commit_msg := get_or_null "message" head_commit in
  if negb (json_truthy after) || is_zero_sha after
  then acknowledge repo delivery_id (or_default event "push") hash "IGNORED_BRANCH_DELETED" (mret None)
  else
    ref ← as_str ref;
    let branch := branch_of ref in
    apps ← query (fun db => where_ (matches_push repo repository_id branch) (applications db));
    match apps with
    | [] => acknowledge repo delivery_id (or_default event "push") hash "IGNORED_NO_MATCHING_APP"
              (sha_response after)
    | _ =>
        msg ← commit_message commit_msg;
        sha ← sha_column after;
        last_release_id ← request_builds repo sha branch msg apps None;
        add_delivery repo delivery_id (or_default event "push") hash "PROCESSED" ;;
        r ← commit_push delivery_id event;
        match r with
        | Some duplicate => mret duplicate
        | None =>
            now ← datetime_now;
            mret (mkDeliveryResponse 202 delivery_id "PROCESSED" (or_default event "push") now
                    last_release_id (Some sha))
        end
    end.

Definition has_repo_id (id : uuid) (r : Repository) : bool := repo_id r =?= id.

Definition handle_github_webhook (repository_id : uuid) (raw_body : string)
    (signature delivery : option string) (event : string) : M WebhookDeliveryResponse :=
  found ← select_one repositories (has_repo_id repository_id);
  repo ← or_raise found (http_error 404 "Repository not found");
  verified ← verify_github_signature raw_body (repo_webhook_secret repo) signature;
  guard (negb verified) (http_error 401 "Invalid or missing X-Hub-Signature-256 header") ;;
  delivery_id ← or_raise (match delivery with Some d => if truthy d then Some d else None | None => None end)
                  (http_error 400 "Missing X-GitHub-Delivery header");
  e ← ask;
  let payload_hash := sha256_hex e raw_body in
  existing ← select_one deliveries (is_delivery repository_id delivery_id);
  match existing with
  | Some d => mret (mkDeliveryResponse 200 delivery_id "DUPLICATE" (wd_event_type d) (wd_created_at d)
                      None None)
  | None =>
      if event =?= "ping"
      then acknowledge repo delivery_id "ping" payload_hash "PING_ACKNOWLEDGED" (mret None)
      else if event <?> "push"
      then acknowledge repo delivery_id (or_default event "unknown") payload_hash
             "IGNORED_NON_PUSH_EVENT" (mret None)
      else handle_push repo repository_id delivery_id event payload_hash raw_body
  end.
End Webhooks.

(** ** The frame *)

#[export] Instance keeps_compare_digest a b : Keeps (compare_digest a b).
Proof. unfold compare_digest. solve_keeps. Qed.
#[export] Instance keeps_verify h b s g : Keeps (verify_github_signature h b s g).
Proof. unfold verify_github_signature. solve_keeps. Qed.
#[export] Instance keeps_add_delivery r d ev h st : Keeps (add_delivery r d ev h st).
Proof. unfold add_delivery. solve_keeps. Qed.
#[export] Instance keeps_delivery_created_at id : Keeps (delivery_created_at id).
Proof. unfold delivery_created_at. solve_keeps. Qed.
#[export] Instance keeps_as_dict j : Keeps (as_dict j).
Proof. destruct j; apply _. Qed.
#[export] Instance keeps_as_str j : Keeps (as_str j).
Proof. destruct j; apply _. Qed.
#[export] Instance keeps_sha_column j : Keeps (sha_column j).
Proof. destruct j; apply _. Qed.
#[export] Instance keeps_sha_response j : Keeps (sha_response j).
Proof. destruct j; apply _. Qed.
#[export] Instance keeps_commit_message j : Keeps (commit_message j).
Proof. unfold commit_message. solve_keeps. Qed.
#[export] Instance keeps_parse_body l b : Keeps (parse_body l b).
Proof. unfold parse_body. solve_keeps. Qed.
#[export] Instance keeps_request_build r sha b m a : Keeps (request_build r sha b m a).
Proof. unfold request_build. solve_keeps. Qed.
#[export] Instance keeps_request_builds r sha b m apps last : Keeps (request_builds r sha b m apps last).
Proof. revert last. induction apps as [|a apps IH]; intros last; simpl; solve_keeps. Qed.
#[export] Instance atomic_commit_push d ev : Atomic (commit_push d ev).
Proof.
  unfold commit_push. apply atomic_catch_integrity; [|solve_atomic].
  apply (atomic_bind_ret commit (fun _ => None)), _.
Qed.

(** ** What a push stages *)

(** The configuration a build starts from: the application's latest release's. *)
Definition latest_config (a : uuid) (v : Db) (config : json) : Prop :=
  (exists r, r ∈ releases v /\ rel_application_id r = a /\ config = rel_config_json r
     /\ forall r', r' ∈ releases v -> rel_application_id r' = a -> rel_number r' <= rel_number r)
  \/ ((forall r, r ∈ releases v -> rel_application_id r <> a)
      /\ config = JDict [("port", JInt 8080); ("health_path", JStr "/healthz")]).

(** One release and one event per application. *)
Record build_requested (repo : Repository) (sha branch : string) (msg : option string) (v : Db)
    (a : Application) (r : Release) (ev : OutboxEvent) : Prop := {
  br_application : rel_application_id r = app_id a;
  br_workspace : rel_workspace_id r = app_workspace_id a;
  br_number : rel_number r = max_release_number (app_id a) v + 1;
  br_commit : rel_commit_sha r = Some sha;
  br_ref : rel_git_ref r = Some branch;
  br_message : rel_commit_message r = msg;
  br_image : rel_image_digest r = "pending";
  br_config : latest_config (app_id a) v (rel_config_json r);
  br_status : rel_status r = REQUESTED;
  br_repository : rel_repository_id r = Some (repo_id repo);
  br_event_topic : ob_topic ev = "app.build.requested.v1";
  br_event_status : ob_status ev = PENDING;
  br_event_workspace : ob_workspace_id ev = app_workspace_id a;
  br_event_payload : ob_payload_json ev = JDict
    [("release_id", JStr (uuid_str (rel_id r))); ("application_id", JStr (uuid_str (app_id a)));
     ("workspace_id", JStr (uuid_str (app_workspace_id a)));
     ("repository_id", JStr (uuid_str (repo_id repo))); ("repo_url", JStr (repo_url repo));
     ("commit_sha", JStr sha); ("git_ref", JStr branch);
     ("dockerfile_path", JStr (app_dockerfile_path a)); ("context_dir", JStr (app_context_dir a))] }.

(** The applications of the list are each released with their event; [id] is the last
    release. *)
Definition push_change (repo : Repository) (sha branch : string) (msg : option string) (v : Db)
    (apps : list Application) (d d' : Db) (id : option uuid) : Prop :=
  exists bs : list (Release * OutboxEvent),
    d' = on_outbox (fun l => l ++ map snd bs) (on_releases (fun l => l ++ map fst bs) d)
    /\ Forall2 (fun a b => build_requested repo sha branch msg v a b.1 b.2) apps bs
    /\ id = match list.last bs with Some b => Some (rel_id b.1) | None => None end.

Lemma push_config_latest a v :
  latest_config a v (push_config (head (order_by (fun a b => rel_number b <=? rel_number a)
    (where_ (fun r => rel_application_id r =?= a) (releases v))))).
Proof.
  set (R := fun x y : Release => rel_number y <=? rel_number x).
  assert (Hs : StronglySorted (fun x y => R x y = true)
    (order_by R (where_ (fun r => rel_application_id r =?= a) (releases v)))).
  { apply order_by_sorted; unfold R; [intros x y|intros x y z]; rewrite !Z.leb_le; lia. }
  pose proof (order_by_perm R (where_ (fun r => rel_application_id r =?= a) (releases v))) as Hp.
  assert (Hin : forall r, r ∈ order_by R (where_ (fun r => rel_application_id r =?= a) (releases v))
    <-> r ∈ releases v /\ rel_application_id r = a).
  { intros r. rewrite Hp, elem_of_where, bool_decide_eq_true. done. }
  destruct (order_by R _) as [|r l]; cbn [head push_config].
  - right. split; [|done]. intros r Hr Ha. by eapply not_elem_of_nil, Hin.
  - left. destruct (proj1 (Hin r) ltac:(left)) as [Hr Ha]. exists r. split_and!; try done.
    intros r' Hr' Ha'. apply StronglySorted_inv in Hs as [_ Hs]. rewrite list.Forall_forall in Hs.
    pose proof (proj2 (Hin r') (conj Hr' Ha')) as Hl. apply elem_of_cons in Hl as [->|Hl]; [done|].
    specialize (Hs r' Hl). unfold R in Hs. by apply Z.leb_le.
Qed.

Lemma request_build_ok repo sha branch msg a e s x s' :
  request_build repo sha branch msg a e s = (Ok x, s') ->
  exists c1 c2, staged s' = staged s ++ [c1; c2] /\ committed s' = committed s /\ writes s' = writes s
    /\ forall t d, exists r ev, c2 t (c1 t d) = on_outbox (fun l => l ++ [ev]) (on_releases (fun l => l ++ [r]) d)
       /\ build_requested repo sha branch msg (view s) a r ev /\ rel_id r = x.
Proof.
  unfold request_build. intros H. run_steps H. rewrite ret_spec in H. injection H as <- <-.
  do 2 eexists. split; [cbn [staged staging drawn]; by rewrite <- app_assoc|]. split; [done|]. split; [done|].
  intros t d. do 2 eexists. split; [reflexivity|]. split; [|done].
  split; try done. apply push_config_latest.
Qed.

Lemma request_builds_ok repo sha branch msg apps : forall last e s x s',
  request_builds repo sha branch msg apps last e s = (Ok x, s') ->
  exists cs, staged s' = staged s ++ cs /\ committed s' = committed s /\ writes s' = writes s
    /\ forall t d, exists bs : list (Release * OutboxEvent),
      apply_all (map (fun c => c t) cs) d
        = on_outbox (fun l => l ++ map snd bs) (on_releases (fun l => l ++ map fst bs) d)
      /\ Forall2 (fun a b => build_requested repo sha branch msg (view s) a b.1 b.2) apps bs
      /\ x = match list.last bs with Some b => Some (rel_id b.1) | None => last end.
Proof.
  induction apps as [|a apps IH]; intros last e s x s' H.
  - cbn in H. injection H as <- <-. exists []. rewrite app_nil_r. do 3 (split; [done|]).
    intros t d. exists []. split; [|by split].
    destruct d. unfold apply_all, on_outbox, on_releases. simpl. by rewrite !app_nil_r.
  - cbn [request_builds] in H. inv_bind H.
    apply request_build_ok in Hstep as (c1 & c2 & Hst & Hc & Hw & Hch).
    apply IH in H as (cs & Hst' & Hc' & Hw' & Hch').
    assert (view s0 = view s) as Hv by (unfold view; by rewrite Hc, Hw).
    exists (c1 :: c2 :: cs). rewrite Hst', Hst, <- app_assoc. split; [done|].
    split; [congruence|]. split; [congruence|]. intros t d.
    destruct (Hch t d) as (r & ev & Hd & Hr & Hid).
    destruct (Hch' t (c2 t (c1 t d))) as (bs & Hd' & Hbs & Hlast).
    exists ((r, ev) :: bs). split_and!.
    + unfold apply_all in *. cbn [map foldl]. rewrite Hd', Hd. unfold on_outbox, on_releases. simpl.
      by rewrite <- !app_assoc.
    + rewrite Hv in Hbs. by constructor.
    + rewrite Hlast. destruct bs as [|b bs]; [by rewrite <- Hid|]. cbn [list.last].
      by destruct (list.last (b :: bs)) eqn:E; [|apply last_None in E].
Qed.

(** ** The branch of a push *)

(** The branch a ref names: a head's, without the prefix, or the ref itself (a tag's).
    Python's [replace] also erases the prefix inside of a head's name. *)
Inductive names_branch : string -> string -> Prop :=
| names_head b : contains b "refs/heads/" = false -> names_branch ("refs/heads/" +:+ b) b
| names_nested b : contains b "refs/heads/" = true ->
    names_branch ("refs/heads/" +:+ b) (replace b "refs/heads/" "")
| names_other ref : (forall b, ref <> "refs/heads/" +:+ b) -> names_branch ref ref.

Lemma replace_none_contained b : contains b "refs/heads/" = false -> replace b "refs/heads/" "" = b.
Proof.
  unfold replace. induction b as [|c b IH]; [done|]. cbn [contains replace_go].
  intros [-> H]%orb_false_iff. by rewrite IH.
Qed.

Lemma replace_prefix b : replace ("refs/heads/" +:+ b) "refs/heads/" "" = replace b "refs/heads/" "".
Proof.
  unfold replace. change ("refs/heads/" +:+ b) with (String "r" ("efs/heads/" +:+ b)).
  cbn [replace_go].
  change (String "r" ("efs/heads/" +:+ b)) with ("refs/heads/" +:+ b). rewrite startswith_app. reflexivity.
Qed.

Lemma branch_of_names ref : names_branch ref (branch_of ref).
Proof.
  unfold branch_of. destruct (startswith ref "refs/heads/") eqn:E.
  - apply startswith_iff in E as [b ->]. rewrite replace_prefix.
    destruct (contains b "refs/heads/") eqn:Hc; [by apply names_nested|].
    rewrite replace_none_contained by done. by apply names_head.
  - apply names_other. intros b ->. by rewrite startswith_app in E.
Qed.

(** ** The effect of a webhook on the database *)

Section Effect.
Context (hmac_sha256_hex : string -> string -> string) (json_loads : string -> json + string).
Context (e : Env) (repository_id : uuid).

(** A body that is a JSON object with this ref. *)
Definition body_ref (body : string) (kvs : list (string * json)) (ref : string) : Prop :=
  json_loads body = inl (JDict kvs)
  /\ (dict_get "ref" kvs = Some (JStr ref) \/ (dict_get "ref" kvs = None /\ ref = "")).

(** The applications connected to the repository and the branch, or to every branch. *)
Definition tracking (repo : Repository) (branch : string) (db : Db) : list Application :=
  filter (fun a => app_workspace_id a = repo_workspace_id repo
    /\ app_repository_id a = Some repository_id
    /\ (app_git_branch a = Some branch \/ app_git_branch a = None)) (applications db).

(** The commit, branch and message a push's body names. *)
Definition pushed (body sha branch : string) (msg : option string) : Prop :=
  exists kvs ref, body_ref body kvs ref /\ names_branch ref branch
    /\ dict_get "after" kvs = Some (JStr sha)
    /\ sha <> "" /\ sha <> "0000000000000000000000000000000000000000"
    /\ msg = match dict_get "head_commit" kvs with
             | Some (JDict h) =>
                 match dict_get "message" h with
                 | Some (JStr m) => if decide (m = "") then None else Some (str_take 250 m)
                 | _ => None
                 end
             | _ => None
             end.

(** Why a delivery triggers nothing. *)
Inductive ignored (repo : Repository) (event body : string) (db : Db) : string -> Prop :=
| ignored_ping : event = "ping" -> ignored repo event body db "PING_ACKNOWLEDGED"
| ignored_event : event <> "ping" -> event <> "push" ->
    ignored repo event body db "IGNORED_NON_PUSH_EVENT"
| ignored_deletion kvs : event = "push" -> json_loads body = inl (JDict kvs) ->
    match dict_get "after" kvs with
    | Some v => json_truthy v = false \/ v = JStr "0000000000000000000000000000000000000000"
    | None => True
    end -> ignored repo event body db "IGNORED_BRANCH_DELETED"
| ignored_branch kvs ref branch : event = "push" -> body_ref body kvs ref -> names_branch ref branch ->
    tracking repo branch db = [] -> ignored repo event body db "IGNORED_NO_MATCHING_APP".

(** The record of a delivery. *)
Definition records (repo : Repository) (did event body status : string) (wd : WebhookDelivery) : Prop :=
  exists id t, wd = mkWebhookDelivery id (repo_workspace_id repo) (repo_id repo) did
    (if decide (event = "") then "unknown" else event) (sha256_hex e body) status t.

(** Before the commit, after losing it, acknowledged without a build, or processed. *)
Inductive webhook_effect (repo : Repository) (did event body : string) (db : Db) :
    outcome WebhookDeliveryResponse -> Db -> Prop :=
| we_none x : webhook_effect repo did event body db (Err x) db
| we_lost o : (forall r, o = Ok r -> wr_status r = "DUPLICATE") ->
    webhook_effect repo did event body db o (rivals_commit e db)
| we_ignored o status wd db' :
    ignored repo event body db status -> (forall r, o = Ok r -> wr_status r = status) ->
    db' = on_deliveries (fun l => l ++ [wd]) (rivals_commit e db) ->
    records repo did event body status wd -> integrity db' ->
    webhook_effect repo did event body db o db'
| we_processed t wd sha branch msg id d1 db' :
    event = "push" -> pushed body sha branch msg -> tracking repo branch db <> [] ->
    push_change repo sha branch msg db (tracking repo branch db) (rivals_commit e db) d1 id ->
    db' = on_deliveries (fun l => l ++ [wd]) d1 ->
    records repo did event body "PROCESSED" wd -> integrity db' ->
    webhook_effect repo did event body db
      (Ok (mkDeliveryResponse 202 did "PROCESSED" "push" t id (Some sha))) db'.

Lemma tracking_matches repo branch db :
  where_ (matches_push repo repository_id branch) (applications db) = tracking repo branch db.
Proof. clear. apply where_filter. intros a. unfold matches_push. row_condition. tauto. Qed.

(** A commit publishes or leaves what the others committed. *)
Lemma commit_cases s o s' :
  commit e s = (o, s') ->
  (o = Ok tt /\ committed s' = published e s /\ integrity (published e s) /\ s' = mkSess (published e s) [] [] (S (ticks s)) (draws s))
  \/ (exists x, o = Err x /\ committed s' = rivals_commit e (committed s)).
Proof.
  rewrite commit_spec, flush_spec. destruct (widths _) eqn:Hw; simpl; [|intros H; right; simplify_eq; by eexists].
  destruct (violated _) eqn:Hv; simpl; intros H; [right; simplify_eq; by eexists|left].
  simplify_eq. by split_and!.
Qed.

Lemma refresh_state {A} (table : Db -> list A) P s : (refresh table P e s).2 = s.
Proof. unfold refresh. rewrite (bind_step _ _ _ _ _ _ (query_spec _ _ _)). by destruct (where_ _ _) as [|? []]. Qed.

Lemma delivery_created_at_state id s : (delivery_created_at id e s).2 = s.
Proof.
  unfold delivery_created_at. pose proof (refresh_state deliveries (fun d => wd_id d =?= id) s) as H.
  unfold mbind, M_bind. by destruct (refresh _ _ e s) as [[d|x] s'].
Qed.

(** The response is built without touching the session. *)
Lemma acknowledge_tail id did ev status (sha : M (option string)) s :
  (forall s, (sha e s).2 = s) ->
  let out := (t ← delivery_created_at id; commit_sha ← sha;
              mret (mkDeliveryResponse 200 did status ev t None commit_sha)) e s in
  committed out.2 = committed s /\ forall r, out.1 = Ok r -> wr_status r = status.
Proof.
  intros Hsha out. unfold out. clear out. pose proof (delivery_created_at_state id s) as H1.
  destruct (delivery_created_at id e s) as [[t|x] s1] eqn:E1; rewrite (bind_step _ _ _ _ _ _ E1);
    simpl in H1; subst s1; [|done].
  pose proof (Hsha s) as H2. destruct (sha e s) as [[y|x] s2] eqn:E2; rewrite (bind_step _ _ _ _ _ _ E2);
    simpl in H2; subst s2; [|done].
  split; [done|]. intros r Hr. simpl in Hr. by simplify_eq.
Qed.

(** An acknowledgment records one delivery. *)
Lemma acknowledge_effect repo did event body ev status sha db :
  ev = (if decide (event = "") then "unknown" else event) ->
  ignored repo event body db status -> (forall s, (sha e s).2 = s) ->
  let out := acknowledge repo did ev (sha256_hex e body) status sha e (open_session db) in
  webhook_effect repo did event body db out.1 (committed out.2).
Proof.
  intros -> Hs Hsha out. unfold out, acknowledge, add_delivery. clear out.
  erewrite bind_ok; [|erewrite bind_ok by apply uuid4_spec; erewrite bind_ok by apply stage_spec; reflexivity].
  match goal with |- context [(commit ≫= _) e ?st] => set (s := st) end.
  destruct (commit e s) as [o s1] eqn:Hc. rewrite (bind_step _ _ _ _ _ _ Hc).
  apply commit_cases in Hc as [(-> & Hc & Hi & _)|(x & -> & Hc)]; cycle 1.
  { simpl. rewrite Hc. by apply we_lost. }
  match goal with |- context [(delivery_created_at ?i ≫= ?f) e s1] =>
    destruct (acknowledge_tail i did (if decide (event = "") then "unknown" else event) status sha s1 Hsha)
      as [Ht Hr]; simpl in Ht, Hr |- * end.
  rewrite Ht, Hc. eapply (we_ignored _ _ _ _ _ _ status); [done|exact Hr| | |done].
  - rewrite published_eq. unfold s. simpl. unfold apply_all. simpl. reflexivity.
  - by do 2 eexists.
Qed.
End Effect.

#[export] Instance still_compare_digest a b : Still (compare_digest a b).
Proof. unfold compare_digest. destruct (_ && _); apply _. Qed.
#[export] Instance still_verify h b s g : Still (verify_github_signature h b s g).
Proof. unfold verify_github_signature. destruct g; [destruct (_ && _)|]; apply _. Qed.
#[export] Instance still_as_dict j : Still (as_dict j).
Proof. destruct j; apply _. Qed.
#[export] Instance still_as_str j : Still (as_str j).
Proof. destruct j; apply _. Qed.
#[export] Instance still_sha_column j : Still (sha_column j).
Proof. destruct j; apply _. Qed.
#[export] Instance still_sha_response j : Still (sha_response j).
Proof. destruct j; apply _. Qed.
#[export] Instance still_commit_message j : Still (commit_message j).
Proof. unfold commit_message. destruct (json_truthy j); [destruct j|]; apply _. Qed.
#[export] Instance still_parse_body l b : Still (parse_body l b).
Proof. unfold parse_body. destruct (l b); apply _. Qed.

(** The next reading step of the goal's run. *)
Ltac read_step p :=
  match goal with |- context [(?m ≫= ?f) ?e ?s] =>
    let H := fresh "Hread" in
    destruct (still_step m f e s _) as [[? ->]|(p & H & ->)]; [apply we_none|]
  end.

Section Effects.
Context (hmac_sha256_hex : string -> string -> string) (json_loads : string -> json + string).
Context (e : Env) (repository_id : uuid).

Lemma request_builds_total repo sha branch msg apps : forall last e s,
  exists x s', request_builds repo sha branch msg apps last e s = (Ok x, s').
Proof.
  induction apps as [|a apps IH]; intros last e0 s; [by do 2 eexists|].
  cbn [request_builds]. assert (exists x s', request_build repo sha branch msg a e0 s = (Ok x, s'))
    as (x & s' & Hx) by (do 2 eexists; reflexivity).
  rewrite (bind_step _ _ _ _ _ _ Hx). apply IH.
Qed.

(** The commit of a push, with its changes staged. *)
Lemma commit_push_cases did ev s o s' :
  commit_push did ev e s = (o, s') ->
  (o = Ok None /\ committed s' = published e s /\ integrity (published e s))
  \/ (committed s' = rivals_commit e (committed s)
      /\ ((exists x, o = Err x) \/ exists r, o = Ok (Some r) /\ wr_status r = "DUPLICATE")).
Proof.
  unfold commit_push, catch_integrity. destruct (commit e s) as [oc s1] eqn:Hc.
  rewrite (bind_step _ _ _ _ _ _ Hc).
  apply commit_cases in Hc as [(-> & Hc & Hi & _)|(x & -> & Hc)].
  { intros H. simpl in H. simplify_eq. left. by split_and!. }
  intros H. right. destruct x; simpl in H; simplify_eq; try (split; [done|left; by eexists]).
  unfold mbind, M_bind, rollback, guard in H. simpl in H. destruct (negb _);
    cbv [raise mret M_ret] in H; simplify_eq; (split; [exact Hc|]);
    [left; by eexists|right; by eexists].
Qed.

(** What the reading steps of a push have read. *)
Lemma body_ref_read body kvs j ref s s1 s2 :
  parse_body json_loads body e s = (Ok j, s1) -> as_dict j e s1 = (Ok kvs, s2) ->
  as_str (dict_get_or "ref" (JStr "") kvs) e s2 = (Ok ref, s2) ->
  body_ref json_loads body kvs ref.
Proof.
  unfold parse_body, dict_get_or. intros H1 H2 H3. split.
  - destruct (json_loads body) as [v|x]; [|done]. rewrite ret_spec in H1. simplify_eq.
    destruct j; try done. unfold as_dict in H2. rewrite ret_spec in H2. by simplify_eq.
  - destruct (dict_get "ref" kvs) as [v|]; [left|right].
    + destruct v; try done. unfold as_str in H3. rewrite ret_spec in H3. by simplify_eq.
    + unfold as_str in H3. rewrite ret_spec in H3. by simplify_eq.
Qed.

Lemma message_read kvs h msg s s1 s2 :
  as_dict (if json_truthy (get_or_null "head_commit" kvs) then get_or_null "head_commit" kvs
           else JDict []) e s = (Ok h, s1) ->
  commit_message (get_or_null "message" h) e s1 = (Ok msg, s2) ->
  msg = match dict_get "head_commit" kvs with
        | Some (JDict h) =>
            match dict_get "message" h with
            | Some (JStr m) => if decide (m = "") then None else Some (str_take 250 m)
            | _ => None
            end
        | _ => None
        end.
Proof.
  unfold get_or_null, dict_get_or. intros Hh Hm.
  assert (h = match dict_get "head_commit" kvs with Some (JDict h) => h | _ => [] end) as ->.
  { destruct (dict_get "head_commit" kvs) as [v|]; [|by injection Hh].
    destruct v as [|[]|z|x|l|d]; simpl in Hh; try (by injection Hh); [..|by destruct d; injection Hh].
    - destruct (z <?> 0); by injection Hh.
    - destruct (truthy x); by injection Hh.
    - destruct l; by injection Hh. }
  destruct (dict_get "head_commit" kvs) as [[]|]; try (by injection Hm).
  all: destruct (dict_get "message" _) as [v|]; [|by injection Hm].
  unfold commit_message in Hm. destruct v as [|[]|z|x|l|d]; simpl in Hm; try (by injection Hm).
  - destruct (z <?> 0); by injection Hm.
  - unfold truthy in Hm. case_decide; case_bool_decide; simpl in Hm; by injection Hm.
  - destruct l; by injection Hm.
  - destruct d; by injection Hm.
Qed.

Lemma handle_push_effect repo did body db :
  repo_id repo = repository_id ->
  let out := handle_push json_loads repo repository_id did "push" (sha256_hex e body) body e
               (open_session db) in
  webhook_effect json_loads e repository_id repo did "push" body db out.1 (committed out.2).
Proof.
  intros Hid out. unfold out, handle_push. clear out.
  read_step parsed. read_step payload. read_step head_commit.
  assert (json_loads body = inl (JDict payload)) as Hbody.
  { unfold parse_body in Hread. destruct (json_loads body); [|done].
    rewrite ret_spec in Hread. simplify_eq. destruct parsed; try done.
    unfold as_dict in Hread0. rewrite ret_spec in Hread0. by simplify_eq. }
  destruct (_ || _) eqn:Hafter.
  { apply acknowledge_effect; [done| |done]. eapply ignored_deletion; [done|exact Hbody|].
    unfold get_or_null, dict_get_or in Hafter. destruct (dict_get "after" payload) as [v|]; [|done].
    apply orb_prop in Hafter as [H|H]; [left; by bool_hyps|right]. destruct v; try done.
    unfold is_zero_sha in H. by bool_hyps; subst. }
  read_step ref. read_step apps. injection Hread3 as <-. rewrite view_open.
  pose proof (body_ref_read _ _ _ _ _ _ _ Hread Hread0 Hread2) as Href.
  rewrite tracking_matches.
  destruct (tracking repository_id repo (branch_of ref) db) as [|a0 apps0] eqn:Happs.
  { apply acknowledge_effect; [done| |apply still_sha_response].
    by eapply ignored_branch; [|exact Href|apply branch_of_names|]. }
  assert (tracking repository_id repo (branch_of ref) db <> []) as Hne by (by rewrite Happs).
  rewrite <- Happs. read_step msg. read_step sha. clear Happs a0 apps0.
  pose proof (message_read _ _ _ _ _ _ Hread1 Hread3) as Hmsg.
  assert (pushed json_loads body sha (branch_of ref) msg) as Hpushed.
  { exists payload, ref. unfold get_or_null, dict_get_or in Hafter, Hread4.
    apply orb_false_iff in Hafter as [Ht Hz].
    destruct (dict_get "after" payload) as [v|]; [|done]. destruct v; try done.
    unfold sha_column in Hread4. rewrite ret_spec in Hread4. simplify_eq.
    unfold is_zero_sha, zero_sha in Hz. unfold json_truthy, truthy in Ht. bool_hyps.
    split_and!; try done; apply branch_of_names. }
  set (apps := tracking _ _ _ _) in *.
  destruct (request_builds repo sha (branch_of ref) msg apps None e (open_session db))
    as [[last|x] s1] eqn:Hb; rewrite (bind_step _ _ _ _ _ _ Hb); cycle 1.
  { by destruct (request_builds_total repo sha (branch_of ref) msg apps None e (open_session db)) as (? & ? & H'); rewrite H' in Hb. }
  apply request_builds_ok in Hb as (cs & Hst & Hc & Hw & Hch).
  unfold add_delivery. erewrite bind_ok;
    [|erewrite bind_ok by apply uuid4_spec; erewrite bind_ok by apply stage_spec; reflexivity].
  match goal with |- context [(commit_push _ _ ≫= _) e ?st] => set (s2 := st) end.
  destruct (commit_push did "push" e s2) as [o s3] eqn:Hp. rewrite (bind_step _ _ _ _ _ _ Hp).
  assert (committed s2 = db) as Hc2 by (unfold s2; simpl; by rewrite Hc).
  apply commit_push_cases in Hp as [(-> & Hp & Hi)|(Hp & [(x & ->)|(r & -> & Hr)])]; simpl; rewrite Hp.
  - destruct (Hch (clock e (ticks s2)) (rivals_commit e db)) as (bs & Hd & Hbs & Hlast).
    eapply we_processed; [done|exact Hpushed|done| | | |exact Hi].
    + exists bs. split; [exact Hd|]. by split.
    + rewrite published_eq, Hc2. unfold s2. cbn [staged writes staging drawn].
      rewrite Hst, Hw. cbn [open_session writes staged]. rewrite map_app, apply_all_app. reflexivity.
    + by do 2 eexists.
  - rewrite Hc2. by apply we_lost.
  - rewrite Hc2. apply we_lost. intros r' H. by simplify_eq.
Qed.
End Effects.

Section Main.
Context (hmac_sha256_hex : string -> string -> string) (json_loads : string -> json + string).
Context (e : Env) (repository_id : uuid) (body : string) (signature delivery : option string)
  (event : string).

Definition webhook := handle_github_webhook hmac_sha256_hex json_loads repository_id body signature
                        delivery event.

(** A signature that verifies is the expected one. *)
Lemma verified_signature secret s :
  verify_github_signature hmac_sha256_hex body secret signature e s = (Ok true, s) ->
  signature = Some (expected_signature hmac_sha256_hex secret body).
Proof.
  unfold verify_github_signature. destruct signature as [h|]; [|done].
  destruct (_ && _); [|done]. unfold compare_digest. destruct (_ && _); [|done].
  rewrite ret_spec. intros H. injection H as H. by bool_hyps; subst.
Qed.

(** A delivery of a repository, past the signature check. *)
Definition authentic (db : Db) (repo : Repository) : Prop :=
  where_ (has_repo_id repository_id) (repositories db) = [repo]
  /\ signature = Some (expected_signature hmac_sha256_hex (repo_webhook_secret repo) body).

(** A run ends before its commit, or is an unseen authentic delivery. *)
Lemma webhook_run db :
  (exists o, run webhook e db = (o, db)
     /\ forall r, o = Ok r -> wr_status r = "DUPLICATE" /\ exists repo, authentic db repo)
  \/ exists repo did, authentic db repo /\ delivery = Some did
     /\ where_ (is_delivery repository_id did) (deliveries db) = []
     /\ webhook_effect json_loads e repository_id repo did event body db (run webhook e db).1
          (run webhook e db).2.
Proof.
  unfold run, webhook, handle_github_webhook. cbn [fst snd].
  rewrite (bind_step _ _ _ _ _ _ (select_one_spec _ _ _ _)), view_open.
  destruct (where_ (has_repo_id repository_id) (repositories db)) as [|repo []] eqn:Hrepo;
    [left; eexists; split; [reflexivity|done]| |left; eexists; split; [reflexivity|done]].
  assert (repo_id repo = repository_id) as Hid.
  { assert (repo ∈ where_ (has_repo_id repository_id) (repositories db)) as H by (rewrite Hrepo; left).
    apply elem_of_where in H as [_ H]. unfold has_repo_id in H. by bool_hyps. }
  simpl one_or_none. cbv iota. erewrite bind_ok by reflexivity.
  match goal with |- context [(?m ≫= ?f) e ?s] =>
    destruct (still_step m f e s _) as [[x ->]|(verified & Hv & ->)] end;
    [left; eexists; split; [reflexivity|done]|].
  destruct verified; [|left; eexists; split; [reflexivity|done]].
  apply verified_signature in Hv. erewrite bind_ok by reflexivity.
  match goal with |- context [(?m ≫= ?f) e ?s] =>
    destruct (still_step m f e s _) as [[x ->]|(did & Hd & ->)] end;
    [left; eexists; split; [reflexivity|done]|].
  apply or_raise_ok in Hd as [_ Hd].
  assert (delivery = Some did) as Hdel by (destruct delivery as [d|]; [destruct (truthy d)|]; by simplify_eq).
  rewrite (bind_step _ _ _ _ _ _ (ask_spec _ _)).
  rewrite (bind_step _ _ _ _ _ _ (select_one_spec _ _ _ _)), view_open.
  destruct (where_ (is_delivery repository_id did) (deliveries db)) as [|wd []] eqn:Hdup; cbn [one_or_none].
  - right. exists repo, did. split; [done|]. split; [done|]. split; [done|].
    destruct (decide (event = "ping")) as [Hping|Hping].
    { rewrite bool_decide_eq_true_2 by done. apply acknowledge_effect; [|by apply ignored_ping|done].
      by rewrite Hping. }
    rewrite bool_decide_eq_false_2 by done. destruct (decide (event = "push")) as [Hpush|Hpush].
    + rewrite bool_decide_eq_true_2 by done. rewrite Hpush. by apply handle_push_effect.
    + rewrite bool_decide_eq_false_2 by done. apply acknowledge_effect; [|by apply ignored_event|done].
      unfold or_default, truthy. by case_bool_decide; case_decide.
  - left. eexists. split; [reflexivity|]. intros r Hr. simpl in Hr. simplify_eq. split; [done|]. by exists repo.
  - left. eexists. split; [reflexivity|done].
Qed.
End Main.

(** ** Sample *)

Definition sample_hmac (key body : string) : string := hex_digits 64 (N.of_nat (String.length key)).
Definition sample_loads (body : string) : json + string :=
  if body =?= "push"
  then inl (JDict [("after", JStr "abcdef1"); ("ref", JStr "refs/heads/main")])
  else inr "Expecting value".
Definition sample_repo : Repository :=
  mkRepository 60%N sample_workspace "site" "https://github.com/acme/site" "s3cret-key" "main" 0 0.
Definition sample_signature : option string :=
  Some (expected_signature sample_hmac (repo_webhook_secret sample_repo) "push").
Definition sample_push_db : Db := on_repositories (fun _ => [sample_repo]) sample_apps_db.
Definition push_sample (e : Env) (db : Db) : outcome WebhookDeliveryResponse * Db :=
  run (webhook sample_hmac sample_loads 60%N "push" sample_signature (Some "d-1") "push") e db.

(** ** Properties *)

(** C9: A webhook is one transaction: if it changes anything, it was signed with the
    repository's secret over the exact body, its delivery id was new, and the change is
    either the record of that delivery alone, with the reason it triggers nothing (a ping,
    another event, a deleted branch, no application that tracks the branch), or, for a
    push, the record together with one REQUESTED release and one [app.build.requested.v1]
    event for each application of the workspace connected to the repository and tracking
    the branch the body's ref names: the release has the next number, the body's commit,
    branch and message, and the configuration of the latest release, and the event names
    it, the repository and the commit; every constraint of the schema holds.  If it loses
    a race or fails, it publishes nothing but possibly the record of an ignored delivery. *)
Theorem webhook_transactional hmac loads id body signature delivery event e db :
  let out := run (webhook hmac loads id body signature delivery event) e db in
  out.2 = db
  \/ exists repo did, authentic hmac id body signature db repo /\ delivery = Some did
     /\ where_ (is_delivery id did) (deliveries db) = []
     /\ webhook_effect loads e id repo did event body db out.1 out.2.
Proof.
  destruct (webhook_run hmac loads e id body signature delivery event db)
    as [(o & -> & _)|(repo & did & H)]; [by left|right]. by exists repo, did.
Qed.

(** A push to a head whose name holds the prefix builds the applications of another
    branch: the prefix is erased there as well. *)
Lemma nested_ref_loses_its_prefix :
  branch_of "refs/heads/feature/refs/heads/main" = "feature/main"
  /\ branch_of "refs/heads/refs/heads/main" = "main".
Proof. by vm_compute. Qed.

(** The record of a delivery rules another one out. *)
Lemma recorded_twice repo did l wd d :
  integrity d -> deliveries d = l ++ [wd] -> is_delivery (repo_id repo) did wd = true ->
  where_ (is_delivery (repo_id repo) did) l = [].
Proof.
  intros Hi Hl Hw. apply where_nil_iff. intros x Hx. destruct (is_delivery _ _ x) eqn:E; [|done]. exfalso.
  assert (unique (fun d => (wd_repository_id d, wd_delivery_id d)) (deliveries d) = true) as Hu.
  { eapply (integrity_constraint d "uq_webhook_deliveries_repo_delivery"); [done|].
    unfold constraints. set_solver. }
  unfold unique in Hu. bool_hyps. rewrite Hl in Hu. apply NoDup_map_app_single in Hu as [_ Hu].
  apply Hu, list_elem_of_In, in_map_iff. exists x. split; [|by apply list_elem_of_In].
  unfold is_delivery in E, Hw. bool_hyps. congruence.
Qed.

(** C15: A delivery is processed once: when its id is already recorded for the repository,
    or a concurrent delivery of it commits first, the webhook publishes nothing,
    and can only succeed by answering DUPLICATE; so a redelivered push never
    requests a second build. *)
Theorem delivery_processed_once hmac loads id body signature did event e db :
  (exists wd, wd ∈ deliveries (rivals_commit e db) /\ is_delivery id did wd = true) ->
  let out := run (webhook hmac loads id body signature (Some did) event) e db in
  (out.2 = db \/ out.2 = rivals_commit e db)
  /\ forall r, out.1 = Ok r -> wr_status r = "DUPLICATE".
Proof.
  intros (wd & Hwd & Hdel) out. unfold out.
  destruct (webhook_run hmac loads e id body signature (Some did) event db)
    as [(o & -> & Ho)|(repo & did' & [Hrepo _] & Hd & _ & Heff)].
  { split; [by left|]. intros r Hr. by apply Ho. }
  injection Hd as <-.
  assert (repo_id repo = id) as Hid.
  { assert (repo ∈ where_ (has_repo_id id) (repositories db)) as H by (rewrite Hrepo; left).
    apply elem_of_where in H as [_ H]. unfold has_repo_id in H. by bool_hyps. }
  assert (forall d x, integrity d -> deliveries d = deliveries (rivals_commit e db) ++ [x] ->
            is_delivery (repo_id repo) did x = true -> False) as Hno.
  { intros d x Hi Hl Hx. pose proof (recorded_twice repo did _ x d Hi Hl Hx) as Hnil.
    rewrite where_nil_iff in Hnil. rewrite Hid in Hnil. by rewrite Hnil in Hdel. }
  assert (forall status wd, records e repo did event body status wd ->
            is_delivery (repo_id repo) did wd = true) as Hrec.
  { intros status x (i & t & ->). unfold is_delivery. simpl. by rewrite !bool_decide_eq_true_2. }
  destruct Heff as [x|o Ho|o status x db' _ _ -> Hx Hi|t x sha branch msg i d1 db' _ _ _ (bs & -> & _) -> Hx Hi];
    try apply Hrec in Hx.
  - split; [by left|done].
  - split; [by right|done].
  - exfalso. by eapply (Hno _ x).
  - exfalso. by eapply (Hno _ x).
Qed.

Lemma delivery_processed_once_witness :
  let first := push_sample sample_env sample_push_db in
  List.length (releases first.2) = 1%nat /\ (push_sample sample_env first.2).2 = first.2.
Proof.
  intros first. split; [vm_compute; reflexivity|].
  assert (forall d, (exists wd, wd ∈ deliveries d /\ is_delivery 60%N "d-1" wd = true) ->
            (push_sample sample_env d).2 = d) as H.
  { intros d Hd. destruct (delivery_processed_once sample_hmac sample_loads 60%N "push"
      sample_signature "d-1" "push" sample_env d Hd) as [[H|H] _]; exact H. }
  apply H. eexists. split; [vm_compute; left|vm_compute; reflexivity].
Defined.

(** ** Release numbers across every route *)

Lemma Forall2_in_r {A B} (R : A -> B -> Prop) l k y :
  Forall2 R l k -> y ∈ k -> exists x, x ∈ l /\ R x y.
Proof.
  intros H Hy. apply list_elem_of_lookup in Hy as [i Hi].
  destruct (Forall2_lookup_r _ _ _ _ _ H Hi) as (x & Hx & HR).
  exists x. split; [by eapply list_elem_of_lookup_2|done].
Qed.

Lemma push_keeps_numbers e hmac loads id body signature delivery event db :
  tame_releases e -> well_numbered db ->
  well_numbered (run (webhook hmac loads id body signature delivery event) e db).2.
Proof.
  intros He Hd. destruct (webhook_run hmac loads e id body signature delivery event db)
    as [(o & -> & _)|(repo & did & _ & _ & _ & Heff)]; [done|].
  destruct Heff as [x|o _|o status wd db' _ _ -> _ _|t wd sha branch msg i d1 db' _ _ _ (bs & -> & Hbs & _) -> _ Hi];
    [done|by apply He|by apply (tame_release_commit e He)|].
  set (rs := map fst bs) in *.
  assert (forall r, r ∈ rs -> rel_number r = max_release_number (rel_application_id r) db + 1) as Hn.
  { intros r0 Hr. apply list_elem_of_In, in_map_iff in Hr as (b & <- & Hb). apply list_elem_of_In in Hb.
    destruct (Forall2_in_r _ _ _ _ Hbs Hb) as (a & _ & Hreq).
    by rewrite (br_number _ _ _ _ _ _ _ _ Hreq), (br_application _ _ _ _ _ _ _ _ Hreq). }
  eapply (appended_numbered (rivals_commit e db) rs); [by apply He|exact Hi|done| |].
  - assert (NoDup (map (fun r => (rel_application_id r, rel_number r)) rs)) as Hpairs.
    { pose proof (integrity_release_pairs _ Hi) as Hu.
      cbn [on_deliveries on_outbox on_releases releases] in Hu.
      rewrite map_app in Hu. by apply NoDup_app in Hu as (_ & _ & Hu). }
    rewrite (map_ext_in _ (fun r => (fun a => (a, max_release_number a db + 1)) (rel_application_id r)) rs)
      in Hpairs by (intros r0 Hr; rewrite Hn by (by apply list_elem_of_In); done).
    rewrite <- (map_map rel_application_id (fun a => (a, max_release_number a db + 1))) in Hpairs.
    by eapply NoDup_fmap_1.
  - intros r0 Hr. exists (List.length (numbers (rel_application_id r0) db)).
    split; [by rewrite Hn, max_dense|]. by apply (only_more_commit e He).
Qed.

(** A request that appends releases. *)
Inductive release_request :=
| Deploy (caller : Caller) (id : uuid) (p : DeployReleaseRequest) (key : string)
| Rollback (caller : Caller) (id : uuid) (p : RollbackRequest) (key : string)
| Build (caller : Caller) (id : uuid) (p : TriggerBuildRequest)
| Push (repository : uuid) (body : string) (signature delivery : option string) (event : string).

Definition serve_release_request hmac loads (r : release_request) (e : Env) (db : Db) : Db :=
  match r with
  | Deploy c id p key => (run (deploy_release c id p key) e db).2
  | Rollback c id p key => (run (rollback_release c id p key) e db).2
  | Build c id p => (run (trigger_build c id p) e db).2
  | Push repository body signature delivery event =>
      (run (webhook hmac loads repository body signature delivery event) e db).2
  end.

(** C7: Release numbers are dense: over any sequence of deployments, rollbacks, builds and
    webhook deliveries on any applications, successful or not, each application's
    releases are numbered 1, 2, ..., n without gap or repetition.  Nothing is
    assumed of the other transactions but that they keep the numbering and delete
    no release: they may release the same application at any time, since the
    webhook route takes no lock; the unique constraint rejects the loser. *)
Theorem release_numbers_dense hmac loads db requests :
  well_numbered db -> Forall (fun x => tame_releases x.2) requests ->
  well_numbered (foldl (fun d x => serve_release_request hmac loads x.1 x.2 d) db requests).
Proof.
  intros Hok Hr. revert db Hok. induction Hr as [|[r e] rs He _ IH]; intros db Hok; [done|].
  simpl. apply IH. simpl in He. destruct r; simpl;
    [by apply deploy_keeps_numbers|by apply rollback_keeps_numbers|by apply build_keeps_numbers
    |by apply push_keeps_numbers].
Qed.

Lemma release_numbers_dense_witness :
  let requests := [(Deploy alice 50%N sample_deployment "key-1", reseeded 1 sample_env);
                   (Build alice 50%N sample_build, reseeded 2 sample_env);
                   (Push 60%N "push" sample_signature (Some "d-1") "push", reseeded 3 sample_env);
                   (Rollback alice 50%N (mkRollback 2001%N) "key-2", reseeded 4 sample_env)] in
  let db := foldl (fun d x => serve_release_request sample_hmac sample_loads x.1 x.2 d)
              sample_push_db requests in
  numbers 50%N db = [1; 2; 3; 4] /\ well_numbered db.
Proof.
  intros requests db. split; [vm_compute; reflexivity|].
  apply (release_numbers_dense sample_hmac sample_loads sample_push_db requests).
  - intros a. apply Permutation_refl.
  - repeat constructor; done.
Defined.
