(* ===== verification/Crypto.v ===== *)
(** * Encryption of secrets at rest ([core/crypto.py])

    AES-256-GCM under a key derived from the configured one, with a random nonce
    and the secret's workspace and name as associated data.  The cipher is a
    parameter ([cryptography]'s [AESGCM]), given by a class with the laws its
    documentation states; SHA-256 is an argument. *)

From S2P Require Import Prelude PyStr Uuid Base64 Json Models Config Session Sample.
From Stdlib Require Import Ascii String.

(** ** The cipher *)

(** [AESGCM(key).encrypt(nonce, data, aad)] and [.decrypt], whose [None] is
    [InvalidTag]: the tag is 16 bytes long, and decryption succeeds on exactly the
    ciphertexts encryption yields under the same key, nonce and associated data. *)
Class AEAD := {
  aes_encrypt : string -> string -> string -> option string -> string;
  aes_decrypt : string -> string -> string -> option string -> option string;
  aes_length k n p aad : String.length (aes_encrypt k n p aad) = (String.length p + 16)%nat;
  aes_genuine k n c aad p : aes_decrypt k n c aad = Some p <-> c = aes_encrypt k n p aad }.

(** [SecretDecryptionError], or the [UnicodeDecodeError] of the last step. *)
Inductive crypto_error := SecretDecryptionError (msg : string) | UnicodeDecodeError.

(** [s + "=" * ((4 - len(s) % 4) % 4)]. *)
Definition add_padding (s : string) : string :=
  s +:+ match ((4 - len s mod 4) mod 4)%Z with 0%Z => "" | 1%Z => "=" | 2%Z => "==" | _ => "===" end.

(** [base64.urlsafe_b64decode(s.encode("ascii"))]. *)
Definition b64decode_ascii (s : string) : option string :=
  if str_forallb is_ascii s then urlsafe_b64decode s else None.

Section Crypto.
Context `{AEAD} (sha256 : string -> string) (SECRET_ENCRYPTION_KEY : string).

Definition derive_aes_key (raw_key : option string) : string :=
  let key_str := strip (match raw_key with
                        | Some k => if truthy k then k else SECRET_ENCRYPTION_KEY
                        | None => SECRET_ENCRYPTION_KEY end) in
  match b64decode_ascii (add_padding key_str) with
  | Some decoded => if len decoded =? 32 then decoded else sha256 (utf8_encode key_str)
  | None => sha256 (utf8_encode key_str)
  end.

Definition build_aad (workspace_id : option uuid) (secret_name : option string) : option string :=
  match workspace_id, secret_name with
  | Some w, Some n => Some (utf8_encode (uuid_str w +:+ ":" +:+ n))
  | _, _ => None
  end.

(** [nonce] is [os.urandom(12)]. *)
Definition encrypt_secret (nonce plaintext : string) (workspace_id : option uuid)
    (secret_name key : option string) : string :=
  let ciphertext := aes_encrypt (derive_aes_key key) nonce (utf8_encode plaintext)
                      (build_aad workspace_id secret_name) in
  "v1:" +:+ urlsafe_b64encode (nonce +:+ ciphertext).

Definition decrypt_secret (token : string) (workspace_id : option uuid)
    (secret_name key : option string) : string + crypto_error :=
  if negb (truthy token) || negb (startswith token "v1:")
  then inr (SecretDecryptionError "Unsupported or malformed encrypted secret format")
  else
    let b64_part := str_drop 3 token in
    match b64decode_ascii (add_padding b64_part) with
    | None => inr (SecretDecryptionError "Invalid base64 secret payload")
    | Some raw =>
        if len raw <? 12 + 16 then inr (SecretDecryptionError "Encrypted secret payload is truncated")
        else
          match aes_decrypt (derive_aes_key key) (str_take 12 raw) (str_drop 12 raw)
                  (build_aad workspace_id secret_name) with
          | None => inr (SecretDecryptionError "AES-256-GCM tag or AAD verification failed")
          | Some plaintext =>
              match utf8_decode plaintext with Some t => inl t | None => inr UnicodeDecodeError end
          end
    end.

(** ** The decoder finds what the encoder stored *)

Lemma add_padding_none s : (len s mod 4 = 0)%Z -> add_padding s = s.
Proof. intros H0. unfold add_padding. rewrite H0. apply str_app_nil_r. Qed.

Lemma decode_payload raw : b64decode_ascii (add_padding (urlsafe_b64encode raw)) = Some raw.
Proof.
  rewrite add_padding_none by apply b64encode_length. unfold b64decode_ascii.
  unfold urlsafe_b64encode at 1. rewrite b64encode_ascii. apply urlsafe_roundtrip.
Qed.

(** Decrypting a stored secret comes down to the cipher. *)
Lemma decrypt_encrypted nonce p w n key w' n' :
  String.length nonce = 12%nat ->
  decrypt_secret (encrypt_secret nonce p w n key) w' n' key =
    match aes_decrypt (derive_aes_key key) nonce
            (aes_encrypt (derive_aes_key key) nonce (utf8_encode p) (build_aad w n)) (build_aad w' n') with
    | None => inr (SecretDecryptionError "AES-256-GCM tag or AAD verification failed")
    | Some t => match utf8_decode t with Some s => inl s | None => inr UnicodeDecodeError end
    end.
Proof.
  intros Hn. unfold decrypt_secret, encrypt_secret. set (c := aes_encrypt _ _ _ _).
  set (blob := urlsafe_b64encode (nonce +:+ c)).
  rewrite (startswith_app "v1:" blob). change (truthy ("v1:" +:+ blob)) with true.
  change (str_drop 3 ("v1:" +:+ blob)) with blob. cbn [negb orb]. unfold blob.
  rewrite decode_payload. unfold len. rewrite str_length_app, Hn. unfold c. rewrite aes_length.
  rewrite (proj2 (Z.ltb_ge _ _)) by lia.
  by rewrite <- Hn, str_take_app, str_drop_app.
Qed.

(** The associated data determines the workspace and the name. *)
Lemma build_aad_inj w n w' n' :
  (w < 2 ^ 128)%N -> (w' < 2 ^ 128)%N ->
  build_aad (Some w) (Some n) = build_aad (Some w') (Some n') -> w = w' /\ n = n'.
Proof.
  intros Hw Hw' Heq. unfold build_aad in Heq. apply (inj Some) in Heq.
  assert (uuid_str w +:+ ":" +:+ n = uuid_str w' +:+ ":" +:+ n') as Hs.
  { apply (f_equal utf8_decode) in Heq. rewrite !utf8_roundtrip in Heq. by apply (inj Some) in Heq. }
  apply str_app_inj_length in Hs as [Hu Hs]; [|by rewrite !uuid_str_length].
  apply uuid_str_inj in Hu; [|done..]. split; [done|]. by apply (str_app_inj_l ":") in Hs.
Qed.

(** [AES-GCM] does not collide on the associated data of the secrets in [uses]
    (under one key and nonce, the tags of different data differ). *)
Definition no_collision (k nonce : string) (uses : list (uuid * string)) : Prop :=
  forall x y p q, x ∈ uses -> y ∈ uses ->
    build_aad (Some x.1) (Some x.2) <> build_aad (Some y.1) (Some y.2) ->
    aes_encrypt k nonce p (build_aad (Some x.1) (Some x.2))
    <> aes_encrypt k nonce q (build_aad (Some y.1) (Some y.2)).

(** C12: A stored secret opens for its own workspace and name and for no other: under the
    key it was sealed with, decryption gives back the exact text, and a ciphertext
    moved to another workspace or another name of the secrets in use is refused
    with the tag error, because the associated data identifies both. *)
Theorem decrypt_secret_exact uses nonce p w n w' n' key :
  String.length nonce = 12%nat ->
  no_collision (derive_aes_key key) nonce uses -> (w, n) ∈ uses -> (w', n') ∈ uses ->
  (w < 2 ^ 128)%N -> (w' < 2 ^ 128)%N ->
  decrypt_secret (encrypt_secret nonce p (Some w) (Some n) key) (Some w') (Some n') key =
    if decide (w = w' /\ n = n') then inl p
    else inr (SecretDecryptionError "AES-256-GCM tag or AAD verification failed").
Proof.
  intros Hn Hcol Hu Hu' Hw Hw'. rewrite decrypt_encrypted by done. case_decide as Heq.
  - destruct Heq as [<- <-]. rewrite (proj2 (aes_genuine _ _ _ _ _) eq_refl). by rewrite utf8_roundtrip.
  - destruct (aes_decrypt _ _ _ _) as [q|] eqn:E; [|done]. apply aes_genuine in E. exfalso.
    refine (Hcol (w, n) (w', n') _ _ Hu Hu' _ E). intros Ha. by apply Heq, build_aad_inj.
Qed.
End Crypto.

(** ** An instance for the witnesses *)

Fixpoint toy_hash (s : string) : N :=
  match s with EmptyString => 7%N | String c s' => (code c + 31 * toy_hash s')%N end.
Definition toy_tag (aad : option string) : string :=
  hex_digits 16 (match aad with Some a => toy_hash a | None => 0%N end).

Lemma toy_tag_length aad : String.length (toy_tag aad) = 16%nat.
Proof. apply hex_digits_length. Qed.

(** The text in clear before a tag of the associated data. *)
#[refine] Instance toy_aead : AEAD := {
  aes_encrypt k n p aad := p +:+ toy_tag aad;
  aes_decrypt k n c aad :=
    let m := (String.length c - 16)%nat in
    if str_drop m c =?= toy_tag aad then Some (str_take m c) else None }.
Proof.
  - intros k n p aad. by rewrite str_length_app, toy_tag_length.
  - intros k n c aad p. split.
    + cbv zeta. case_bool_decide as Ht; [|done]. intros [= <-].
      by rewrite <- Ht, str_take_drop.
    + intros ->. rewrite str_length_app, toy_tag_length.
      replace (String.length p + 16 - 16)%nat with (String.length p) by lia.
      cbv zeta. rewrite str_drop_app, str_take_app. by rewrite bool_decide_eq_true_2.
Defined.

Lemma decrypt_secret_exact_witness :
  let sha (s : string) := hex_digits 32 (toy_hash s) in
  let seal := encrypt_secret sha "master" "0123456789ab" "hunter2" (Some 7%N) (Some "DB") None in
  decrypt_secret sha "master" seal (Some 7%N) (Some "DB") None = inl "hunter2"
  /\ decrypt_secret sha "master" seal (Some 8%N) (Some "DB") None
     = inr (SecretDecryptionError "AES-256-GCM tag or AAD verification failed").
Proof.
  intros sha seal.
  assert (forall k, no_collision k "0123456789ab" [(7%N, "DB"); (8%N, "DB")]) as Hcol.
  { intros k x y p q Hx Hy Hne Heq. apply Hne. clear Hne.
    assert (toy_tag (build_aad (Some x.1) (Some x.2)) = toy_tag (build_aad (Some y.1) (Some y.2))) as Ht.
    { pose proof Heq as Hp. apply str_app_inj_r in Hp; [|by rewrite !toy_tag_length]. subst q.
      by apply str_app_inj_l in Heq. }
    clear Heq. apply elem_of_cons in Hx as [->|Hx]; [|apply list_elem_of_singleton in Hx as ->];
      (apply elem_of_cons in Hy as [->|Hy]; [|apply list_elem_of_singleton in Hy as ->]);
      [done| | |done]; exfalso; vm_compute in Ht; discriminate Ht. }
  pose proof (fun w' Hu Hw => decrypt_secret_exact sha "master" [(7%N, "DB"); (8%N, "DB")]
    "0123456789ab" "hunter2" 7%N "DB" w' "DB" None eq_refl (Hcol _) ltac:(left) Hu eq_refl Hw) as H.
  split; [refine (eq_trans (H 7%N _ eq_refl) _)|refine (eq_trans (H 8%N _ eq_refl) _)];
    [left|by case_decide as Hd; [|destruct Hd]|right; left|by case_decide as Hd; [destruct Hd|]].
Defined.
