(* ===== verification/Secrets.v ===== *)
(** * Secrets ([api/v1/secrets.py], [schemas/secret.py])

    Write-only secrets: stored encrypted, rotated in place, listed without their
    value. *)

From S2P Require Import Prelude PyStr Uuid Base64 Json Models Config Session Sample Auth AuditLog.
From S2P Require Import Events Idempotency Quotas Handlers Workspaces Crypto.
From Stdlib Require Import Ascii String.

(** ** Schemas *)

Record UpsertSecretRequest := mkUpsertSecret { us_name : string; us_value : string }.
Record SecretMetadataResponse := mkSecretMetadata {
  sm_id : uuid; sm_workspace_id : uuid; sm_name : string; sm_key_version : Z;
  sm_created_at : time; sm_updated_at : time }.
Record SecretListResponse := mkSecretList { sl_items : list SecretMetadataResponse }.

Definition secret_metadata (s : SecretReference) : SecretMetadataResponse :=
  mkSecretMetadata (sec_id s) (sec_workspace_id s) (sec_name s) (sec_key_version s)
    (sec_created_at s) (sec_updated_at s).

(** ** Operations *)

Definition is_secret (w : uuid) (name : string) (s : SecretReference) : bool :=
  (sec_workspace_id s =?= w) && (sec_name s =?= name).

(** [os.urandom(12)]. *)
Definition urandom12 : M string := fun e s =>
  (Ok (nonces e (draws s)), mkSess (committed s) (writes s) (staged s) (ticks s) (S (draws s))).

Definition rotated (encrypted : string) (version : Z) (t : time) (s : SecretReference) : SecretReference :=
  mkSecretReference (sec_id s) (sec_workspace_id s) (sec_name s) encrypted version (sec_created_at s) t.

(** The handler once the value is encrypted: the row is rotated or created. *)
Definition stage_secret (caller : Caller) (w : uuid) (name encrypted : string) : M uuid :=
  existing ← select_one secrets (is_secret w name);
  '(id, version, audit_action) ←
    match existing with
    | Some s =>
        stage (fun t => on_secrets (update_where (fun r => sec_id r =?= sec_id s)
                                      (rotated encrypted (sec_key_version s + 1) t))) ;;
        mret (sec_id s, sec_key_version s + 1, "secret.rotated")
    | None =>
        id ← uuid4;
        stage (fun t => on_secrets (fun l => l ++
          [mkSecretReference id w name encrypted 1 t t])) ;;
        mret (id, 1, "secret.created")
    end;
  record_audit_event (Some w) (subject caller) audit_action "SECRET" name
    [("name", JStr name); ("key_version", JInt version)] ;;
  mret id.

(** The commit, and the response read back from the row. *)
Definition commit_secret (name : string) (id : uuid) : M SecretMetadataResponse :=
  catch_integrity commit
    (fun c =>
       rollback ;;
       guard (negb (violated_constraint c =?= Some "uq_secret_reference_workspace_name"))
         unexpected_integrity_error ;;
       raise (http_error 409 ("Secret '" +:+ name +:+ "' already exists in this workspace"))) ;;
  row ← refresh secrets (fun s => sec_id s =?= id);
  mret (secret_metadata row).

Section Secrets.
Context `{AEAD} (sha256 : string -> string).

Definition upsert_workspace_secret (caller : Caller) (w : uuid) (payload : UpsertSecretRequest)
    : M SecretMetadataResponse :=
  authorize_workspace_access caller w DEVELOPER "Workspace not found" ;;
  e ← ask;
  nonce ← urandom12;
  let encrypted := encrypt_secret sha256 (SECRET_ENCRYPTION_KEY (settings e)) nonce (us_value payload)
                     (Some w) (Some (us_name payload)) None in
  id ← stage_secret caller w (us_name payload) encrypted;
  commit_secret (us_name payload) id.
End Secrets.

Definition list_workspace_secrets (caller : Caller) (w : uuid) : M SecretListResponse :=
  authorize_workspace_access caller w VIEWER "Workspace not found" ;;
  rows ← query (fun db => order_by (fun a b => String.leb (sec_name a) (sec_name b))
                  (where_ (fun s => sec_workspace_id s =?= w) (secrets db)));
  mret (mkSecretList (map secret_metadata rows)).

Definition delete_workspace_secret (caller : Caller) (w : uuid) (secret_name : string) : M unit :=
  authorize_workspace_access caller w ADMIN "Workspace not found" ;;
  found ← select_one secrets (is_secret w secret_name);
  s ← or_raise found (http_error 404 "Secret not found");
  stage (fun _ => on_secrets (delete_where (fun r => sec_id r =?= sec_id s))) ;;
  record_audit_event (Some w) (subject caller) "secret.deleted" "SECRET" secret_name
    [("name", JStr secret_name)] ;;
  commit.

(** ** The frame *)

#[export] Instance keeps_urandom12 : Keeps urandom12.
Proof. intros e s. apply rtc_refl. Qed.
Lemma urandom12_spec e s :
  urandom12 e s = (Ok (nonces e (draws s)),
                   mkSess (committed s) (writes s) (staged s) (ticks s) (S (draws s))).
Proof. done. Qed.

#[export] Instance preserves_upsert_secret `{AEAD} sha c w p :
  Preserves integrity (upsert_workspace_secret sha c w p).
Proof. unfold upsert_workspace_secret, stage_secret, commit_secret. solve_preserves. Qed.
#[export] Instance preserves_delete_secret c w n : Preserves integrity (delete_workspace_secret c w n).
Proof. unfold delete_workspace_secret. solve_preserves. Qed.
#[export] Instance atomic_delete_secret c w n : Atomic (delete_workspace_secret c w n).
Proof. unfold delete_workspace_secret. solve_atomic. Qed.

(** ** What an upsert stages *)

(** The change of the secrets' table and the audit row, for any ciphertext. *)
Inductive secret_change (w : uuid) (actor name : string) (aid : uuid) (encrypted : string) (db : Db) :
    uuid -> list (time -> Db -> Db) -> Prop :=
| change_rotated s :
    where_ (is_secret w name) (secrets db) = [s] ->
    secret_change w actor name aid encrypted db (sec_id s)
      [fun t => on_secrets (update_where (fun r => sec_id r =?= sec_id s)
                              (rotated encrypted (sec_key_version s + 1) t));
       fun t => on_audit_events (fun l => l ++
         [audit_row aid (Some w) actor "secret.rotated" "SECRET" name
            [("name", JStr name); ("key_version", JInt (sec_key_version s + 1))] t])]
| change_created id :
    where_ (is_secret w name) (secrets db) = [] ->
    secret_change w actor name aid encrypted db id
      [fun t => on_secrets (fun l => l ++ [mkSecretReference id w name encrypted 1 t t]);
       fun t => on_audit_events (fun l => l ++
         [audit_row aid (Some w) actor "secret.created" "SECRET" name
            [("name", JStr name); ("key_version", JInt 1)] t])].

(** Whether and how it stages does not depend on the ciphertext. *)
Lemma stage_secret_run caller w name e s :
  staged s = [] ->
  (exists x, forall enc, stage_secret caller w name enc e s = (Err x, s))
  \/ exists id aid k, forall enc, exists cs, stage_secret caller w name enc e s
       = (Ok id, mkSess (committed s) (writes s) cs (ticks s) k)
     /\ secret_change w (subject caller) name aid enc (view s) id cs.
Proof.
  intros Hst. unfold stage_secret.
  destruct (where_ (is_secret w name) (secrets (view s))) as [|r []] eqn:Hw.
  - right. exists (entropy e (draws s) mod 2 ^ 128)%N, (entropy e (S (draws s)) mod 2 ^ 128)%N, (S (S (draws s))).
    intros enc. eexists. split.
    { rewrite (bind_step _ _ _ _ _ _ (select_one_spec _ _ _ _)), Hw. reflexivity. }
    cbn -[on_secrets on_audit_events N.modulo]. rewrite Hst. by apply change_created.
  - right. exists (sec_id r), (entropy e (draws s) mod 2 ^ 128)%N, (S (draws s)). intros enc. eexists. split.
    { rewrite (bind_step _ _ _ _ _ _ (select_one_spec _ _ _ _)), Hw. reflexivity. }
    cbn -[on_secrets on_audit_events N.modulo]. rewrite Hst. by apply change_rotated.
  - left. eexists. intros enc. rewrite (bind_step _ _ _ _ _ _ (select_one_spec _ _ _ _)), Hw. reflexivity.
Qed.

(** ** Erasing the ciphertexts *)

Definition erase_row (s : SecretReference) : SecretReference :=
  mkSecretReference (sec_id s) (sec_workspace_id s) (sec_name s) "" (sec_key_version s)
    (sec_created_at s) (sec_updated_at s).
Definition erase (db : Db) : Db := on_secrets (map erase_row) db.

Lemma where_erase P l :
  (forall s, P (erase_row s) = P s) -> where_ P (map erase_row l) = map erase_row (where_ P l).
Proof.
  intros HP. unfold where_. induction l as [|s l IH]; simpl; [done|]. rewrite HP.
  destruct (P s); simpl; by rewrite IH.
Qed.

(** Neither the constraints nor the widths look at a ciphertext. *)
Lemma erase_violated db : violated (erase db) = violated db.
Proof.
  unfold violated, constraints, unique, erase. cbn [on_secrets workspaces memberships applications
    releases jobs job_attempts intents outbox reservations idempotency secrets audit_events
    repositories deliveries dead_letters]. by rewrite !map_map.
Qed.

Lemma erase_widths db : widths (erase db) = widths db.
Proof.
  unfold widths, erase. cbn [on_secrets workspaces memberships applications
    releases jobs job_attempts intents outbox reservations idempotency secrets audit_events
    repositories deliveries dead_letters].
  assert (forallb (fun s => fits 100 (sec_name s)) (map erase_row (secrets db))
          = forallb (fun s => fits 100 (sec_name s)) (secrets db)) as ->; [|done].
  induction (secrets db) as [|s l IH]; simpl; [done|]. by rewrite IH.
Qed.

Lemma erase_fields d d' : erase d = erase d' ->
  violated d = violated d' /\ widths d = widths d' /\ map erase_row (secrets d) = map erase_row (secrets d').
Proof.
  intros Heq. rewrite <- (erase_violated d), <- (erase_violated d'), <- (erase_widths d),
    <- (erase_widths d'), Heq. do 2 (split; [done|]). by apply (f_equal secrets) in Heq.
Qed.

(** The same change with another ciphertext. *)
Lemma secret_change_erase w actor name aid enc1 enc2 db id cs1 cs2 t d :
  secret_change w actor name aid enc1 db id cs1 -> secret_change w actor name aid enc2 db id cs2 ->
  erase (apply_all (map (fun c => c t) cs1) d) = erase (apply_all (map (fun c => c t) cs2) d).
Proof.
  intros [s Hs|i Hs] H2; inversion H2 as [s' Hs' Hid|i' Hs' Hid]; subst; simplify_eq; try congruence;
    unfold erase, apply_all, on_secrets, on_audit_events; simpl; f_equal.
  - assert (s' = s) as -> by congruence. unfold update_where. rewrite !map_map. apply map_ext.
    intros r. by case_bool_decide.
  - assert (s' = s) as -> by congruence. done.
  - by rewrite !map_app.
Qed.

(** What is read back, from the rows without their ciphertexts. *)
Lemma read_back id e s :
  (row ← refresh secrets (fun s => sec_id s =?= id); mret (secret_metadata row)) e s
  = (match map erase_row (where_ (fun s => sec_id s =?= id) (secrets (view s))) with
     | [] => Err NoResultFound
     | [r] => Ok (secret_metadata r)
     | _ => Err MultipleResultsFound
     end, s).
Proof.
  unfold refresh. unfold mbind at 1, M_bind at 1. rewrite (bind_step _ _ _ _ _ _ (query_spec _ _ _)).
  by destruct (where_ _ _) as [|r []].
Qed.

(** Two sessions that differ in ciphertexts only commit and answer alike. *)
Lemma commit_secret_erase name id e s1 s2 :
  committed s1 = committed s2 -> erase (published e s1) = erase (published e s2) ->
  let out1 := commit_secret name id e s1 in let out2 := commit_secret name id e s2 in
  out1.1 = out2.1 /\ erase (committed out1.2) = erase (committed out2.2).
Proof.
  intros Hc Hp out1 out2. unfold out1, out2, commit_secret. clear out1 out2.
  destruct (erase_fields _ _ Hp) as (Hv & Hw & Hs).
  assert (forall s, catch_integrity commit (fun c =>
       rollback ;;
       guard (negb (violated_constraint c =?= Some "uq_secret_reference_workspace_name"))
         unexpected_integrity_error ;;
       raise (http_error 409 ("Secret '" +:+ name +:+ "' already exists in this workspace"))) e s
     = if negb (widths (published e s)) then (Err DataError, after_rivals e s)
       else match violated (published e s) with
            | Some c => (Err (if violated_constraint (Some c) <?> Some "uq_secret_reference_workspace_name"
                              then unexpected_integrity_error
                              else http_error 409 ("Secret '" +:+ name +:+ "' already exists in this workspace")),
                         mkSess (rivals_commit e (committed s)) [] [] (ticks s) (draws s))
            | None => (Ok tt, mkSess (published e s) [] [] (S (ticks s)) (draws s))
            end) as Hcatch.
  { intros s. unfold catch_integrity. rewrite commit_spec, flush_spec. fold (published e s).
    destruct (widths (published e s)); [|done]. cbn [negb]. destruct (violated (published e s)) as [c|]; [|done].
    cbn. by case_bool_decide. }
  pose proof (Hcatch s1) as H1. pose proof (Hcatch s2) as H2. clear Hcatch.
  rewrite Hw, Hv in H1. destruct (widths (published e s2)); cbn [negb] in H1, H2;
    [destruct (violated (published e s2))|];
    rewrite (bind_step _ _ _ _ _ _ H1), (bind_step _ _ _ _ _ _ H2); [by rewrite Hc| |by simpl; rewrite Hc].
  rewrite !read_back.
  unfold view. cbn [committed writes fst snd]. unfold apply_all. cbn [foldl].
  split; [|exact Hp]. rewrite <- !where_erase by done. by rewrite Hs.
Qed.

(** ** Properties *)

Section Properties.
Context `{AEAD} (sha256 : string -> string).

(** The run of an upsert up to its commit. *)
Lemma upsert_run caller w name e db :
  (exists x, forall v, run (upsert_workspace_secret sha256 caller w (mkUpsertSecret name v)) e db = (Err x, db))
  \/ exists id aid k, forall v, exists cs,
       run (upsert_workspace_secret sha256 caller w (mkUpsertSecret name v)) e db
         = (let out := commit_secret name id e (mkSess db [] cs 0 k) in (out.1, committed out.2))
       /\ secret_change w (subject caller) name aid
            (encrypt_secret sha256 (SECRET_ENCRYPTION_KEY (settings e)) (nonces e 0) v (Some w) (Some name) None)
            db id cs.
Proof.
  unfold run, upsert_workspace_secret.
  match goal with |- context [(?m ≫= _) e ?s] => destruct (m e s) as [[m0|x] s1] eqn:Ha end;
    rewrite authorize_spec in Ha; injection Ha as Ha Hs1; subst s1.
  2:{ left. exists x. intros v.
      rewrite (bind_err _ _ _ _ x _ (eq_trans (authorize_spec _ _ _ _ _ _) (f_equal (fun o => (o, _)) Ha))). done. }
  destruct (stage_secret_run caller w name e
              (mkSess db [] [] 0 1)) as [[x Hx]|(id & aid & k & Hk)]; [done|left|right].
  - exists x. intros v.
    rewrite (bind_step _ _ _ _ _ _ (eq_trans (authorize_spec _ _ _ _ _ _) (f_equal (fun o => (o, _)) Ha))).
    rewrite (bind_step _ _ _ _ _ _ (ask_spec _ _)), (bind_step _ _ _ _ _ _ (urandom12_spec _ _)).
    rewrite (bind_step _ _ _ _ _ _ (Hx _)). done.
  - exists id, aid, k. intros v. destruct (Hk (encrypt_secret sha256 (SECRET_ENCRYPTION_KEY (settings e))
      (nonces e 0) v (Some w) (Some name) None)) as (cs & Hrun & Hch).
    exists cs. split; [|exact Hch].
    rewrite (bind_step _ _ _ _ _ _ (eq_trans (authorize_spec _ _ _ _ _ _) (f_equal (fun o => (o, _)) Ha))).
    rewrite (bind_step _ _ _ _ _ _ (ask_spec _ _)), (bind_step _ _ _ _ _ _ (urandom12_spec _ _)).
    rewrite (bind_step _ _ _ _ _ _ Hrun). done.
Qed.

Lemma commit_secret_ok name id e s r s' :
  commit_secret name id e s = (Ok r, s') ->
  committed s' = published e s /\ integrity (published e s) /\ sm_id r = id.
Proof.
  unfold commit_secret. intros Hr. apply bind_ok_inv in Hr as (u & s1 & Hc & Hr).
  apply catch_integrity_ok in Hc as [Hc|(c & s2 & _ & Hc)]; cycle 1.
  { inv_bind Hc. inv_bind Hc. done. }
  apply commit_ok in Hc as [-> Hi]. rewrite read_back in Hr. injection Hr as Hr <-.
  split; [done|]. split; [done|]. unfold view in Hr. cbn in Hr.
  destruct (where_ _ _) as [|row []] eqn:Hrow; simpl in Hr; simplify_eq.
  assert (row ∈ [row]) as Hin by left. rewrite <- Hrow in Hin. apply elem_of_where in Hin as [_ Hin].
  simpl. by bool_hyps.
Qed.

(** C31: A stored secret is sealed: a successful upsert publishes exactly one change of the
    secrets, creating the row at version 1 or replacing the value of the existing
    one at the next version, with an audit row that mentions only the name and the
    version; the stored text decrypts, for this workspace and name, to the
    submitted value; every constraint of the schema holds. *)
Theorem secret_stored_sealed caller w name v e db r db' :
  String.length (nonces e 0) = 12%nat ->
  run (upsert_workspace_secret sha256 caller w (mkUpsertSecret name v)) e db = (Ok r, db') ->
  exists enc aid cs t,
    decrypt_secret sha256 (SECRET_ENCRYPTION_KEY (settings e)) enc (Some w) (Some name) None = inl v
    /\ secret_change w (subject caller) name aid enc db (sm_id r) cs
    /\ db' = apply_all (map (fun c => c t) cs) (rivals_commit e db) /\ integrity db'.
Proof.
  intros Hn Hrun. destruct (upsert_run caller w name e db) as [[x Hx]|(id & aid & k & Hk)].
  { by rewrite Hx in Hrun. }
  destruct (Hk v) as (cs & Heq & Hch). rewrite Heq in Hrun.
  destruct (commit_secret name id e (mkSess db [] cs 0 k)) as [o s'] eqn:Hc. simpl in Hrun.
  injection Hrun as -> <-. apply commit_secret_ok in Hc as (-> & Hi & ->).
  do 2 eexists. exists cs, (clock e 0). split; [|split; [exact Hch|]].
  - rewrite decrypt_encrypted by done. rewrite (proj2 (aes_genuine _ _ _ _ _) eq_refl).
    by rewrite utf8_roundtrip.
  - split; [|done]. by rewrite published_eq.
Qed.

(** C20: The value of a secret never leaves its encrypted column: two upserts that differ in
    the value only return the same response or error, and leave databases equal
    but for ciphertexts; so no response, audit row, event or other column depends
    on it. *)
Theorem secret_value_noninterference caller w name v1 v2 e db :
  let out1 := run (upsert_workspace_secret sha256 caller w (mkUpsertSecret name v1)) e db in
  let out2 := run (upsert_workspace_secret sha256 caller w (mkUpsertSecret name v2)) e db in
  out1.1 = out2.1 /\ erase out1.2 = erase out2.2.
Proof.
  intros out1 out2. unfold out1, out2. clear out1 out2.
  destruct (upsert_run caller w name e db) as [[x Hx]|(id & aid & k & Hk)]; [by rewrite !Hx|].
  destruct (Hk v1) as (cs1 & -> & H1), (Hk v2) as (cs2 & -> & H2).
  apply commit_secret_erase; [done|]. rewrite !published_eq. by eapply secret_change_erase.
Qed.
End Properties.

Definition sample_secret : UpsertSecretRequest := mkUpsertSecret "DB_URL" "postgres://x".
Definition sample_digest (s : string) : string := hex_digits 32 (toy_hash s).

Lemma secret_stored_sealed_witness :
  match run (upsert_workspace_secret sample_digest alice sample_workspace sample_secret) sample_env
          (sample_db DEVELOPER) with
  | (Ok r, db') => sm_key_version r = 1 /\ integrity db'
      /\ exists enc, decrypt_secret sample_digest (SECRET_ENCRYPTION_KEY (settings sample_env)) enc
                       (Some sample_workspace) (Some "DB_URL") None = inl "postgres://x"
  | (Err _, _) => False
  end.
Proof.
  destruct (run _ sample_env _) as [[r|x] db'] eqn:E; [|vm_compute in E; discriminate E].
  destruct (secret_stored_sealed sample_digest alice sample_workspace "DB_URL" "postgres://x" sample_env
              (sample_db DEVELOPER) r db' eq_refl E) as (enc & aid & cs & t & Hd & _ & _ & Hi).
  split; [vm_compute in E; injection E as <- _; reflexivity|]. split; [exact Hi|]. by exists enc.
Defined.
