(* ===== verification/Url.v ===== *)
(** * [urllib.parse.urlsplit]: the authority of a URL

    The part of the standard library the repository policy relies on: the network
    location, its user information and its host name, on code points below 256
    (none of which normalizes to a delimiter).  The check of a bracketed host
    ([ipaddress]) is an argument. *)

From S2P Require Import Prelude PyStr.
From Stdlib Require Import Ascii String.

(** ** Operations *)

Fixpoint take_while (P : ascii -> bool) (s : string) : string :=
  match s with
  | EmptyString => ""
  | String c s' => if P c then String c (take_while P s') else ""
  end.
Fixpoint drop_while (P : ascii -> bool) (s : string) : string :=
  match s with
  | EmptyString => ""
  | String c s' => if P c then drop_while P s' else s
  end.

Definition has_char (c : ascii) (s : string) : bool := str_existsb (fun a => a =?= c) s.

(** [s.rpartition(c)[2]]: what follows the last [c], or all of [s]. *)
Definition after_last (c : ascii) (s : string) : string := str_rev (before c (str_rev s)).

Definition c0_or_space (c : ascii) : bool := (code c <=? 32)%N.
Definition is_unsafe_byte (c : ascii) : bool := (code c =? 9)%N || (code c =? 10)%N || (code c =? 13)%N.

Definition is_alpha (c : ascii) : bool :=
  let n := code c in ((65 <=? n) && (n <=? 90) || (97 <=? n) && (n <=? 122))%N.
Definition is_scheme_char (c : ascii) : bool :=
  is_alpha c || is_digit c || (c =?= "+"%char) || (c =?= "-"%char) || (c =?= "."%char).
Definition is_scheme (s : string) : bool :=
  match s with String c _ => is_alpha c && str_forallb is_scheme_char s | EmptyString => false end.

Definition is_delimiter (c : ascii) : bool := (c =?= "/"%char) || (c =?= "?"%char) || (c =?= "#"%char).

Section Urlsplit.
Context (bracketed_ok : string -> bool).

(** [urlsplit(url).netloc]; [None] is its [ValueError]. *)
Definition netloc (url : string) : option string :=
  let url := str_filter (fun c => negb (is_unsafe_byte c)) (lstrip_by c0_or_space url) in
  let url := match split1 ":" url with
             | Some (scheme, rest) => if is_scheme scheme then rest else url
             | None => url
             end in
  if startswith url "//" then
    let n := take_while (fun c => negb (is_delimiter c)) (str_drop 2 url) in
    if xorb (has_char "[" n) (has_char "]" n) then None
    else if has_char "[" n && has_char "]" n && negb (bracketed_ok n) then None
    else Some n
  else Some "".
End Urlsplit.

(** [_hostinfo[0]]. *)
Definition raw_host (n : string) : string :=
  let hostinfo := after_last "@" n in
  match split1 "[" hostinfo with
  | Some (_, bracketed) => before "]" bracketed
  | None => before ":" hostinfo
  end.

(** [.hostname]: lower case, but for the zone of a scoped address. *)
Definition hostname (n : string) : option string :=
  let h := raw_host n in
  if h =?= "" then None
  else Some (match split1 "%" h with
             | Some (a, zone) => lower a +:+ "%" +:+ zone
             | None => lower h
             end).

(** ** Lemmas *)

Lemma take_drop_while P s : take_while P s +:+ drop_while P s = s.
Proof. induction s as [|c s IH]; [done|]. cbn [take_while drop_while]. destruct (P c); [by rewrite str_app_cons, IH|done]. Qed.

Lemma take_while_all P s : str_forallb P (take_while P s) = true.
Proof. induction s as [|c s IH]; [done|]. simpl. destruct (P c) eqn:E; simpl; [by rewrite E|done]. Qed.

(** The rest is empty or starts with a character the prefix stopped at. *)
Definition stops_at (P : ascii -> bool) (s : string) : Prop :=
  match s with EmptyString => True | String c _ => P c = true end.

Lemma drop_while_stops P s : stops_at (fun c => negb (P c)) (drop_while P s).
Proof. induction s as [|c s IH]; [done|]. simpl. destruct (P c) eqn:E; simpl; [done|by rewrite E]. Qed.

Lemma before_split c s :
  exists r, s = before c s +:+ r /\ stops_at (fun a => a =?= c) r
    /\ str_forallb (fun a => negb (a =?= c)) (before c s) = true.
Proof.
  unfold before. destruct (split1 c s) as [[l r]|] eqn:E.
  - apply split1_spec in E as [-> Hl]. exists (String c r). split; [done|]. split; [|done].
    simpl. by rewrite bool_decide_eq_true_2.
  - exists "". rewrite str_app_nil_r. split; [done|]. split; [done|].
    revert E. induction s as [|a s IH]; [done|]. simpl. case_bool_decide; [done|]. simpl.
    destruct (split1 c s) as [[]|]; [done|]. auto.
Qed.

Lemma has_char_forallb c s : has_char c s = negb (str_forallb (fun a => negb (a =?= c)) s).
Proof. unfold has_char. induction s as [|a s IH]; [done|]. simpl. rewrite IH. by destruct (a =?= c). Qed.

(** What follows the last [c] is a suffix without [c], after a prefix that is empty
    or ends in [c]. *)
Lemma after_last_split c s :
  exists u, s = u +:+ after_last c s
    /\ (u = "" \/ exists v, u = v +:+ String c "")
    /\ str_forallb (fun a => negb (a =?= c)) (after_last c s) = true.
Proof.
  unfold after_last. destruct (before_split c (str_rev s)) as (r & Hs & Hr & Hall).
  exists (str_rev r). split; [|split].
  - by rewrite <- str_rev_append, <- Hs, str_rev_involutive.
  - destruct r as [|a r]; [by left|]. right. simpl in Hr. bool_hyps. subst a.
    exists (str_rev r). by rewrite str_rev_cons.
  - by rewrite str_forallb_rev.
Qed.

Lemma lower_app s t : lower (s +:+ t) = lower s +:+ lower t.
Proof. unfold lower. induction s as [|c s IH]; [done|]. simpl. by rewrite IH. Qed.

Lemma lower_char_idem c : lower_char (lower_char c) = lower_char c.
Proof. destruct c as [[] [] [] [] [] [] [] []]; reflexivity. Qed.

Lemma lower_idem s : lower (lower s) = lower s.
Proof. unfold lower. induction s as [|c s IH]; [done|]. simpl. by rewrite lower_char_idem, IH. Qed.

(** Lower-casing the host name is lower-casing the host as written. *)
Lemma lower_hostname n h : hostname n = Some h -> lower h = lower (raw_host n).
Proof.
  unfold hostname. case_bool_decide; [done|]. intros [= <-].
  destruct (split1 "%" (raw_host n)) as [[a z]|] eqn:E; [|apply lower_idem].
  apply split1_spec in E as [-> _]. change (String "%" z) with ("%" +:+ z). by rewrite !lower_app, lower_idem.
Qed.
