(* ===== verification/Repositories.v ===== *)
(** * Repositories ([api/v1/repositories.py], [schemas/repository.py])

    Connecting a Git repository under the host allowlist, reading and listing. *)

From S2P Require Import Prelude PyStr Uuid Json Models DateTime Config Session Sample Auth.
From S2P Require Import AuditLog Events Idempotency Quotas Handlers Pagination Workspaces Url.
From Stdlib Require Import Ascii String.

(** ** Schemas *)

Record CreateRepositoryRequest := mkCreateRepository {
  cr_name : string; cr_repo_url : string; cr_webhook_secret : string; cr_default_branch : string }.
Record RepositoryResponse := mkRepositoryResponse {
  rp_id : uuid; rp_workspace_id : uuid; rp_name : string; rp_repo_url : string;
  rp_default_branch : string; rp_created_at : time }.
Record RepositoryListResponse := mkRepositoryList {
  rpl_items : list RepositoryResponse; rpl_next_cursor : option string }.

Definition repository_response (r : Repository) : RepositoryResponse :=
  mkRepositoryResponse (repo_id r) (repo_workspace_id r) (repo_name r) (repo_url r)
    (repo_default_branch r) (repo_created_at r).

(** ** The URL policy *)

Definition backslash_char : ascii := ascii_of_N 92.

Definition url_error (reason : string) : exn := http_error 422 ("Invalid repository URL: " +:+ reason).

Section Policy.
(** [ipaddress]'s check of a bracketed host, on the network location. *)
Context (bracketed_ok : string -> bool).

(** [urlsplit(url)], whose [ValueError] is not caught. *)
Definition urlsplit_netloc (url : string) : M string :=
  or_raise (netloc bracketed_ok url) (ValueError "Invalid IPv6 URL").

(** The scp-like form: a colon but no scheme separator. *)
Definition is_scp_like (url : string) : bool := negb (contains url "://") && has_char ":" url.

Definition scp_host (url : string) : string :=
  let after_user := match split1 "@" url with Some (_, rest) => rest | None => url end in
  lower (before "/" (before ":" after_user)).

Definition extract_repo_host (repo_url : string) : M string :=
  let url := strip repo_url in
  if is_scp_like url then mret (scp_host url)
  else
    n ← urlsplit_netloc url;
    host ← or_raise (hostname n) (url_error "unable to extract hostname");
    mret (lower host).

(** [validate_repo_url].  A user name or a password is only reported when the network
    location holds an at sign, which is tested as well. *)
Definition validate_repo_url (repo_url : string) : M string :=
  guard (has_char backslash_char repo_url) (url_error "backslash is not allowed") ;;
  guard (str_existsb is_space repo_url) (url_error "whitespace is not allowed") ;;
  let url := strip repo_url in
  guard (negb (startswith url "https://" || startswith url "git@" || startswith url "ssh://"))
    (url_error "must start with https://, git@, or ssh://") ;;
  (if startswith url "https://" then
     n ← urlsplit_netloc url;
     let authority := before "/" (str_drop 8 url) in
     guard (has_char "@" n || has_char "@" authority) (url_error "userinfo is not allowed on https")
   else mret tt) ;;
  host ← extract_repo_host url;
  e ← ask;
  let approved_hosts := map (fun h => lower (strip h)) (APPROVED_REPOSITORY_HOSTS (settings e)) in
  guard (negb (in_ host approved_hosts))
    (http_error 422 "REPOSITORY_POLICY_VIOLATION: Repository host is not in the approved repository allowlist") ;;
  mret url.

(** ** Operations *)

Definition repository_taken (name : string) : exn :=
  http_error 409 ("Repository with name '" +:+ name +:+ "' already exists in this workspace").

Definition create_repository (caller : Caller) (w : uuid) (payload : CreateRepositoryRequest)
    : M RepositoryResponse :=
  authorize_workspace_access caller w DEVELOPER "Workspace not found" ;;
  clean_repo_url ← validate_repo_url (cr_repo_url payload);
  existing ← select_one repositories
    (fun r => (repo_workspace_id r =?= w) && (repo_name r =?= cr_name payload));
  guard (bool_decide (is_Some existing)) (repository_taken (cr_name payload)) ;;
  id ← uuid4;
  stage (fun t => on_repositories (fun l => l ++
    [mkRepository id w (cr_name payload) clean_repo_url (cr_webhook_secret payload)
       (cr_default_branch payload) t t])) ;;
  catch_integrity commit
    (fun c =>
       rollback ;;
       guard (negb (violated_constraint c =?= Some "uq_repository_workspace_name"))
         unexpected_integrity_error ;;
       raise (repository_taken (cr_name payload))) ;;
  row ← refresh repositories (fun r => repo_id r =?= id);
  mret (repository_response row).
End Policy.

Definition get_repository (caller : Caller) (id : uuid) : M RepositoryResponse :=
  found ← select_one repositories (fun r => repo_id r =?= id);
  repo ← or_raise found (http_error 404 "Repository not found");
  authorize_workspace_access caller (repo_workspace_id repo) VIEWER "Repository not found" ;;
  mret (repository_response repo).

Section Listing.
Context (fromisoformat : string -> option IsoDateTime).

Definition list_repositories (caller : Caller) (w : uuid) (limit : Z) (cursor : option string)
    : M RepositoryListResponse :=
  authorize_workspace_access caller w VIEWER "Workspace not found" ;;
  '(page, next) ← list_page fromisoformat repo_created_at repo_id
    (fun db => where_ (fun r => repo_workspace_id r =?= w) (repositories db)) limit cursor;
  mret (mkRepositoryList (map repository_response page) next).
End Listing.

(** ** The frame *)

#[export] Instance keeps_extract_repo_host b u : Keeps (extract_repo_host b u).
Proof. unfold extract_repo_host, urlsplit_netloc. solve_keeps. Qed.
#[export] Instance keeps_validate_repo_url b u : Keeps (validate_repo_url b u).
Proof. unfold validate_repo_url, urlsplit_netloc. solve_keeps. Qed.
#[export] Instance preserves_create_repository b c w p : Preserves integrity (create_repository b c w p).
Proof. unfold create_repository. solve_preserves. Qed.

(** ** The policy on accepted URLs *)

Lemma strip_no_space s : str_existsb is_space s = false -> strip s = s.
Proof.
  intros H. apply strip_by_none. induction s as [|c s IH]; [done|]. simpl in *.
  apply orb_false_iff in H as [-> H]. by apply IH.
Qed.

Lemma str_existsb_forallb P s : str_existsb P s = false -> str_forallb (fun c => negb (P c)) s = true.
Proof.
  induction s as [|c s IH]; [done|]. simpl. intros H. apply orb_false_iff in H as [-> H]. by apply IH.
Qed.

(** Without white space nothing is removed from a URL that starts with a letter. *)
Lemma unsafe_space c : is_unsafe_byte c = true -> is_space c = true.
Proof. destruct c as [[] [] [] [] [] [] [] []]; vm_compute; auto. Qed.

Lemma clean_plain c s :
  is_alpha c = true -> str_existsb is_space (String c s) = false ->
  str_filter (fun c => negb (is_unsafe_byte c)) (lstrip_by c0_or_space (String c s)) = String c s.
Proof.
  intros Ha Hsp. cbn [lstrip_by]. replace (c0_or_space c) with false.
  2:{ symmetry. unfold c0_or_space, is_alpha in *. apply N.leb_gt.
      apply orb_prop in Ha as [Ha|Ha]; apply andb_prop in Ha as [Ha _]; apply N.leb_le in Ha; lia. }
  apply str_filter_all. apply str_existsb_forallb in Hsp. eapply str_forallb_impl; [|exact Hsp].
  intros a H. cbv beta in *. destruct (is_unsafe_byte a) eqn:E; [|done]. by rewrite (unsafe_space a E) in H.
Qed.

Lemma str_existsb_app P s t : str_existsb P (s +:+ t) = str_existsb P s || str_existsb P t.
Proof. induction s as [|c s IH]; [done|]. rewrite str_app_cons. simpl. by rewrite IH, orb_assoc. Qed.

Lemma netloc_plain b scheme rest :
  str_existsb is_space rest = false -> is_scheme scheme = true -> str_existsb is_space scheme = false ->
  str_forallb (fun c => negb (c =?= ":"%char)) scheme = true ->
  netloc b (scheme +:+ "://" +:+ rest) =
    let n := take_while (fun c => negb (is_delimiter c)) rest in
    if xorb (has_char "[" n) (has_char "]" n) then None
    else if has_char "[" n && has_char "]" n && negb (b n) then None else Some n.
Proof.
  intros Hr Hs Hss Hc. unfold netloc. destruct scheme as [|c s]; [done|].
  rewrite str_app_cons, clean_plain, <- str_app_cons.
  - change ("://" +:+ rest) with (String ":" ("//" +:+ rest)). rewrite split1_app by done. rewrite Hs.
    by rewrite (startswith_app "//" rest).
  - simpl in Hs. by apply andb_prop in Hs as [Hs _].
  - by rewrite <- str_app_cons, !str_existsb_app, Hss, Hr.
Qed.

(** ** What an accepted URL points to *)

Definition approved (e : Env) (host : string) : Prop :=
  lower host ∈ map (fun h => lower (strip h)) (APPROVED_REPOSITORY_HOSTS (settings e)).

(** [s] has none of the characters; [s] is empty or starts with one of them. *)
Definition without (cs : list ascii) (s : string) : Prop :=
  str_forallb (fun c => negb (in_ c cs)) s = true.
Definition stops_in (cs : list ascii) (s : string) : Prop :=
  match s with EmptyString => True | String c _ => c ∈ cs end.

Definition delimiters : list ascii := ["/"; "?"; "#"]%char.

(** The host a URL points to (RFC 3986): the authority is what follows the two slashes,
    up to the first slash, question mark or number sign; its user information ends at its
    last at sign, and its port starts at the first colon after that.  In the scp-like
    form the host is what follows the user [git], up to the first colon or slash. *)
Inductive points_to (host : string) : string -> Prop :=
| points_url scheme user port tail :
    scheme = "https" \/ scheme = "ssh" ->
    user = "" \/ (exists u, user = u +:+ "@") ->
    without delimiters user ->
    without (":" :: "@" :: delimiters)%char host ->
    stops_in [":"%char] port -> without ("@" :: delimiters)%char port ->
    stops_in delimiters tail ->
    points_to host (scheme +:+ "://" +:+ user +:+ host +:+ port +:+ tail)
| points_scp tail :
    without [":"; "/"]%char host ->
    stops_in [":"; "/"]%char tail ->
    points_to host ("git@" +:+ host +:+ tail).

(** *** The host is unique *)

Lemma str_app_nil_l (s : string) : "" +:+ s = s.
Proof. done. Qed.

Lemma without_app cs s t : without cs (s +:+ t) <-> without cs s /\ without cs t.
Proof. unfold without. by rewrite str_forallb_app, andb_true_iff. Qed.

Lemma without_sub cs cs' s : (forall c, c ∈ cs' -> c ∈ cs) -> without cs s -> without cs' s.
Proof.
  intros Hsub. unfold without. apply str_forallb_impl. intros c. unfold in_.
  rewrite !negb_true_iff, !bool_decide_eq_false. auto.
Qed.

Lemma app_stop_unique cs s s' t t' :
  s +:+ t = s' +:+ t' -> without cs s -> without cs s' -> stops_in cs t -> stops_in cs t' ->
  s = s' /\ t = t'.
Proof.
  revert s'. induction s as [|c s IH]; intros [|c' s'] Heq Hs Hs' Ht Ht'.
  - done.
  - rewrite str_app_nil_l in Heq. subst t. rewrite str_app_cons in Ht. unfold without in Hs'.
    simpl in *. unfold in_ in Hs'. by rewrite bool_decide_eq_true_2 in Hs'.
  - rewrite str_app_nil_l in Heq. subst t'. rewrite str_app_cons in Ht'. unfold without in Hs.
    simpl in *. unfold in_ in Hs. by rewrite bool_decide_eq_true_2 in Hs.
  - rewrite !str_app_cons in Heq. injection Heq as -> Heq. unfold without in *. simpl in *.
    bool_hyps. destruct (IH s' Heq) as [-> ->]; done.
Qed.

Lemma str_levi (s t s' t' : string) :
  s +:+ t = s' +:+ t' ->
  (exists k, s = s' +:+ k /\ t' = k +:+ t) \/ (exists k, s' = s +:+ k /\ t = k +:+ t').
Proof.
  revert s'. induction s as [|c s IH]; intros [|c' s'] Heq.
  - left. exists "". by rewrite !str_app_nil_l in *.
  - right. exists (String c' s'). by rewrite !str_app_nil_l in *.
  - left. exists (String c s). by rewrite !str_app_nil_l in *.
  - rewrite !str_app_cons in Heq. injection Heq as -> Heq.
    destruct (IH s' Heq) as [(k & -> & ->)|(k & -> & ->)]; [left|right]; exists k; by rewrite str_app_cons.
Qed.

(** A suffix of a user part is empty or has the at sign. *)
Lemma user_suffix user s k :
  user = "" \/ (exists u, user = u +:+ "@") -> user = s +:+ k -> without ["@"%char] k -> k = "".
Proof.
  intros [->|[u ->]] Heq Hk; [by destruct s, k|].
  destruct (str_levi _ _ _ _ Heq) as [(j & _ & ->)|(j & _ & Hj)].
  - apply without_app in Hk as [_ Hk]. done.
  - destruct k as [|c k]; [done|]. destruct j as [|? j]; [|by destruct j].
    rewrite str_app_nil_l in Hj. by rewrite <- Hj in Hk.
Qed.

Lemma user_unique user user' t t' :
  user +:+ t = user' +:+ t' ->
  user = "" \/ (exists u, user = u +:+ "@") -> user' = "" \/ (exists u, user' = u +:+ "@") ->
  without ["@"%char] t -> without ["@"%char] t' -> user = user' /\ t = t'.
Proof.
  intros Heq Hu Hu' Ht Ht'.
  destruct (str_levi _ _ _ _ Heq) as [(k & Hk & ->)|(k & Hk & ->)].
  - apply without_app in Ht' as [Ht' _]. pose proof (user_suffix _ _ _ Hu Hk Ht'). subst k.
    by rewrite str_app_nil_r in Hk.
  - apply without_app in Ht as [Ht _]. pose proof (user_suffix _ _ _ Hu' Hk Ht). subst k.
    by rewrite str_app_nil_r in Hk.
Qed.

(** Fewer characters are excluded. *)
Ltac fewer :=
  eapply without_sub; [|eassumption]; intros ?; unfold delimiters;
  rewrite ?elem_of_cons, ?elem_of_nil; tauto.

Lemma points_to_unique host host' url : points_to host url -> points_to host' url -> host = host'.
Proof.
  intros H H'. inversion H as [sc user port tail Hsc Hu Hud Hh Hp Hpd Ht Hurl|tail Hh Ht Hurl]; subst url;
    inversion H' as [sc' user' port' tail' Hsc' Hu' Hud' Hh' Hp' Hpd' Ht' Heq|tail' Hh' Ht' Heq].
  - assert (sc' = sc /\ user' +:+ host' +:+ port' +:+ tail' = user +:+ host +:+ port +:+ tail) as [-> E].
    { destruct Hsc as [->| ->], Hsc' as [->| ->]; simpl in Heq; try discriminate;
        (split; [done|by injection Heq]). }
    assert (forall u h p t : string, u +:+ h +:+ p +:+ t = (u +:+ h +:+ p) +:+ t) as Hassoc
      by (intros; by rewrite !str_app_assoc).
    rewrite !Hassoc in E. apply (app_stop_unique delimiters) in E as [E _]; try done.
    + apply user_unique in E as [_ E]; [|done|done|apply without_app; split; fewer|apply without_app; split; fewer].
      by apply (app_stop_unique [":"%char]) in E as [E _]; [|fewer|fewer|done|done].
    + rewrite !without_app. split_and!; [done|fewer|fewer].
    + rewrite !without_app. split_and!; [done|fewer|fewer].
  - by destruct Hsc as [->| ->].
  - by destruct Hsc' as [->| ->].
  - apply str_app_inj_l in Heq. by apply (app_stop_unique [":"; "/"]%char) in Heq as [Heq _].
Qed.

Lemma str_forallb_and P Q s :
  str_forallb P s = true -> str_forallb Q s = true -> str_forallb (fun c => P c && Q c) s = true.
Proof.
  induction s as [|c s IH]; [done|]. simpl. intros H1 H2.
  apply andb_prop in H1 as [-> H1], H2 as [-> H2]. simpl. by apply IH.
Qed.

Lemma str_forallb_app_inv P s t : str_forallb P (s +:+ t) = true -> str_forallb P s = true /\ str_forallb P t = true.
Proof. rewrite str_forallb_app. apply andb_prop. Qed.

(** The host of a network location: user part, host and port. *)
Lemma raw_host_parts n :
  has_char "[" n = false ->
  exists user rest, n = user +:+ raw_host n +:+ rest
    /\ (user = "" \/ exists u, user = u +:+ "@")
    /\ stops_at (fun c => c =?= ":"%char) rest
    /\ str_forallb (fun c => negb (c =?= ":"%char)) (raw_host n) = true
    /\ str_forallb (fun c => negb (c =?= "@"%char)) (raw_host n) = true
    /\ str_forallb (fun c => negb (c =?= "@"%char)) rest = true.
Proof.
  intros Hb. destruct (after_last_split "@" n) as (user & Hn & Hu & Hat).
  unfold raw_host. set (hostinfo := after_last "@" n) in *.
  assert (split1 "[" hostinfo = None) as ->.
  { destruct (split1 "[" hostinfo) as [[l r]|] eqn:E; [|done]. apply split1_spec in E as [E _].
    rewrite has_char_forallb, Hn, E, !str_forallb_app in Hb. simpl in Hb.
    by rewrite !andb_false_r in Hb. }
  destruct (before_split ":" hostinfo) as (rest & Hh & Hrest & Hcolon).
  exists user, rest. rewrite <- Hh. do 4 (split; [done|]).
  rewrite Hh in Hat. by apply str_forallb_app_inv in Hat as [Hat Hat'].
Qed.

(** The conditions of [urlsplit], as sets of characters. *)
Lemma without_delimiters s :
  str_forallb (fun c => negb (is_delimiter c)) s = true -> without delimiters s.
Proof.
  unfold without. apply str_forallb_impl. intros c. unfold is_delimiter, in_, delimiters.
  rewrite !negb_true_iff, !orb_false_iff, !bool_decide_eq_false, !elem_of_cons, elem_of_nil. tauto.
Qed.

Lemma without_cons c cs s :
  str_forallb (fun a => negb (a =?= c)) s = true -> without cs s -> without (c :: cs) s.
Proof.
  unfold without. intros H1 H2. pose proof (str_forallb_and _ _ _ H1 H2) as H.
  eapply str_forallb_impl; [|exact H]. intros a. unfold in_.
  rewrite andb_true_iff, !negb_true_iff, !bool_decide_eq_false, elem_of_cons. tauto.
Qed.

Lemma stops_in_delimiters s :
  stops_at (fun c => negb (negb (is_delimiter c))) s -> stops_in delimiters s.
Proof.
  destruct s as [|c s]; [done|]. simpl. unfold is_delimiter, delimiters.
  rewrite negb_involutive, !orb_true_iff, !bool_decide_eq_true, !elem_of_cons, elem_of_nil. tauto.
Qed.

(** The host of a URL with a scheme, delimited in the URL itself. *)
Lemma scheme_host b e scheme rest n h :
  (forall m, has_char "[" m = true -> b m = true -> ~ approved e (raw_host m)) ->
  str_existsb is_space rest = false -> is_scheme scheme = true -> str_existsb is_space scheme = false ->
  str_forallb (fun c => negb (c =?= ":"%char)) scheme = true ->
  netloc b (scheme +:+ "://" +:+ rest) = Some n -> hostname n = Some h -> approved e h ->
  approved e (raw_host n)
  /\ (scheme = "https" \/ scheme = "ssh" -> points_to (raw_host n) (scheme +:+ "://" +:+ rest)).
Proof.
  intros Hbr Hsp Hs Hss Hc Hn Hh Ha.
  assert (approved e (raw_host n)) as Happ by (unfold approved in *; by rewrite <- (lower_hostname n h Hh)).
  rewrite netloc_plain in Hn by done. cbv zeta in Hn.
  pose proof (take_while_all (fun c => negb (is_delimiter c)) rest) as Hd.
  pose proof (take_drop_while (fun c => negb (is_delimiter c)) rest) as Hrest.
  pose proof (drop_while_stops (fun c => negb (is_delimiter c)) rest) as Hstop.
  set (after := drop_while _ rest) in *. clearbody after.
  set (m := take_while _ rest) in *. clearbody m.
  assert (n = m /\ has_char "[" n = false) as [-> Hbrk].
  { destruct (has_char "[" m) eqn:E1, (has_char "]" m) eqn:E2; simpl in Hn; try done; [|by simplify_eq].
    destruct (b m) eqn:E3; simpl in Hn; [|done]. simplify_eq. by destruct (Hbr _ E1 E3). }
  destruct (raw_host_parts m Hbrk) as (user & port & Hm & Hu & Hport & Hcolon & Hat & Hat').
  rewrite Hm in Hd. apply str_forallb_app_inv in Hd as [Hdu Hd].
  apply str_forallb_app_inv in Hd as [Hdh Hdp].
  split; [done|]. intros Hsch. clear Hh Hn Hbrk. set (host := raw_host m) in *. clearbody host. subst m rest.
  rewrite !str_app_assoc.
  apply points_url; auto using without_delimiters, without_cons, stops_in_delimiters.
  destruct port as [|c port]; [done|]. simpl in *. bool_hyps. subst c. by left.
Qed.

Lemma scp_points u :
  startswith u "git@" = true ->
  exists h, scp_host u = lower h /\ points_to h u.
Proof.
  intros Hg. apply startswith_iff in Hg as [t ->]. unfold scp_host.
  change ("git@" +:+ t) with ("git" +:+ String "@" t). rewrite split1_app by done.
  destruct (before_split ":" t) as (r1 & Ht & Hr1 & Hc).
  destruct (before_split "/" (before ":" t)) as (r2 & Hb & Hr2 & Hs).
  set (a := before ":" t) in *. set (h := before "/" a) in *. exists h. split; [done|].
  change ("git" +:+ String "@" t) with ("git@" +:+ t). rewrite Ht, Hb, str_app_assoc. apply points_scp.
  - rewrite Hb in Hc. apply str_forallb_app_inv in Hc as [Hc _].
    apply without_cons; [done|]. apply without_cons; [done|].
    unfold without. by apply (str_forallb_impl _ _ _ (fun c _ => eq_refl)) in Hc.
  - destruct r2 as [|c r2]; simpl in *; [|bool_hyps; subst c; set_solver].
    destruct r1 as [|c r1]; [done|]. simpl in *. bool_hyps. subst c. set_solver.
Qed.

Lemma has_slashes p rest : contains (p +:+ "://" +:+ rest) "://" = true.
Proof.
  induction p as [|c p IH]; [|rewrite str_app_cons; cbn [contains]; by rewrite IH, orb_true_r].
  change (contains ("://" +:+ rest) "://" = true). simpl. by destruct rest.
Qed.

(** The scp-like form is the one with the user [git]. *)
Lemma scp_is_git url :
  is_scp_like url = true ->
  startswith url "https://" || startswith url "git@" || startswith url "ssh://" = true ->
  startswith url "git@" = true.
Proof.
  intros Hscp Hform. unfold is_scp_like in Hscp. apply andb_prop in Hscp as [Hns _].
  apply negb_true_iff in Hns.
  apply orb_prop in Hform as [Hform|Hform]; [apply orb_prop in Hform as [Hform|]; [|done]|];
    apply startswith_iff in Hform as [t ->];
    [change ("https://" +:+ t) with ("https" +:+ "://" +:+ t) in Hns
    |change ("ssh://" +:+ t) with ("ssh" +:+ "://" +:+ t) in Hns]; by rewrite has_slashes in Hns.
Qed.

(** The scp-like form has no network location. *)
Lemma git_no_host bracketed_ok t :
  str_existsb is_space ("git@" +:+ t) = false -> netloc bracketed_ok ("git@" +:+ t) = Some "".
Proof.
  intros Hsp. unfold netloc. change ("git@" +:+ t) with (String "g" ("it@" +:+ t)) in *.
  rewrite clean_plain by done. destruct (split1 ":" _) as [[scheme rest]|] eqn:E; [|done].
  replace (is_scheme scheme) with false; [done|].
  apply split1_spec in E as [E _].
  destruct scheme as [|c0 [|c1 [|c2 [|c3 scheme]]]]; try done; injection E; intros; subst; done.
Qed.

(** A URL read by [urlsplit]: its approved host is the one it points to. *)
Lemma url_points b e url n h :
  (forall m, has_char "[" m = true -> b m = true -> ~ approved e (raw_host m)) ->
  str_existsb is_space url = false ->
  startswith url "https://" || startswith url "git@" || startswith url "ssh://" = true ->
  netloc b url = Some n -> hostname n = Some h -> approved e h ->
  exists host, approved e host /\ points_to host url.
Proof.
  intros Hbr Hsp Hform Hn Hh Happ.
  assert (forall scheme rest, url = scheme +:+ "://" +:+ rest -> str_existsb is_space rest = false) as Hrest.
  { intros scheme rest ->. rewrite !str_existsb_app in Hsp. by apply orb_false_iff in Hsp as [_ Hsp]. }
  apply orb_prop in Hform as [Hform|Hform]; [apply orb_prop in Hform as [Hform|Hform]|];
    apply startswith_iff in Hform as [t ->].
  + destruct (scheme_host b e "https" t n h) as [Ha Hp]; try done. exists (raw_host n). auto.
  + rewrite git_no_host in Hn by done. by injection Hn as <-.
  + destruct (scheme_host b e "ssh" t n h) as [Ha Hp]; try done. exists (raw_host n). auto.
Qed.

(** No at sign precedes the first slash. *)
Lemma no_user_before c user rest :
  has_char c (before "/" (user +:+ String c rest)) = false -> c <> "/"%char -> ~ without ["/"%char] user.
Proof.
  intros Hno Hc Hw. destruct (before_split "/" (user +:+ String c rest)) as (r & Heq & Hr & Hb).
  destruct (str_levi _ _ _ _ Heq) as [(k & Hk & ->)|(k & Hk & Hj)].
  - rewrite Hk in Hw. apply without_app in Hw as [_ Hw]. destruct k as [|a k].
    + simpl in Hr. bool_hyps. done.
    + simpl in Hr. bool_hyps. subst a. done.
  - rewrite Hk, has_char_forallb in Hno. apply negb_false_iff in Hno.
    rewrite str_forallb_app in Hno. apply andb_prop in Hno as [_ Hno].
    destruct k as [|a k].
    + rewrite str_app_nil_l in Hj. subst r. simpl in Hr. bool_hyps. done.
    + rewrite str_app_cons in Hj. injection Hj as <- _. simpl in Hno. bool_hyps. done.
Qed.

(** C14: An accepted repository URL is the submitted one, and it points to an approved
    host and to no other: whether in the https, ssh or scp-like form, the one host of its
    authority (RFC 3986), which no user name, password, port, path, query or bracket can
    hide, is in the allowlist; an https URL has no at sign before its path. *)
Theorem validate_repo_url_host bracketed_ok url e s url' s' :
  (forall n, has_char "[" n = true -> bracketed_ok n = true -> ~ approved e (raw_host n)) ->
  validate_repo_url bracketed_ok url e s = (Ok url', s') ->
  url' = url
  /\ (exists host, approved e host /\ points_to host url)
  /\ (forall host, points_to host url -> approved e host)
  /\ (forall user rest, url = "https://" +:+ user +:+ "@" +:+ rest -> ~ without ["/"%char] user).
Proof.
  intros Hbr H. assert (url' = url /\ (exists host, approved e host /\ points_to host url)
    /\ (forall user rest, url = "https://" +:+ user +:+ "@" +:+ rest -> ~ without ["/"%char] user))
    as (-> & (host & Ha & Hp) & Hno).
  2:{ split_and!; [done|by exists host| |done]. intros host' Hp'. by rewrite (points_to_unique _ _ _ Hp' Hp). }
  unfold validate_repo_url in H.
  step H with guard_ok as [-> _]. step H with guard_ok as [-> Hsp].
  rewrite (strip_no_space url Hsp) in H. step H with guard_ok as [-> Hform].
  apply negb_false_iff in Hform.
  apply bind_ok_inv in H as (u0 & s1 & Hhttps & H).
  assert (s1 = s /\ forall user rest, url = "https://" +:+ user +:+ "@" +:+ rest -> ~ without ["/"%char] user)
    as [-> Hno].
  { destruct (startswith url "https://") eqn:E.
    - unfold urlsplit_netloc in Hhttps. step Hhttps with @or_raise_ok as [-> Hn].
      apply guard_ok in Hhttps as [-> Hat]. apply orb_false_iff in Hat as [_ Hat]. split; [done|].
      intros user rest ->. by apply (no_user_before "@" user rest).
    - rewrite ret_spec in Hhttps. simplify_eq. split; [done|]. intros user rest ->.
      by rewrite (startswith_app "https://" _) in E. }
  apply bind_ok_inv in H as (host & s2 & Hhost & H).
  unfold extract_repo_host in Hhost. rewrite (strip_no_space url Hsp) in Hhost.
  run_steps H.
  destruct (is_scp_like url) eqn:Hscp.
  - rewrite ret_spec in Hhost. injection Hhost as <- <-.
    step H with guard_ok as [-> Hin]. rewrite ret_spec in H. injection H as <- <-. split; [done|].
    split; [|done]. apply negb_false_iff in Hin. unfold in_ in Hin. bool_hyps.
    destruct (scp_points url (scp_is_git url Hscp Hform)) as (h & Hh & Hp). exists h.
    unfold approved. by rewrite <- Hh.
  - unfold urlsplit_netloc in Hhost. step Hhost with @or_raise_ok as [-> Hn].
    step Hhost with @or_raise_ok as [-> Hh]. rewrite ret_spec in Hhost. injection Hhost as <- <-.
    step H with guard_ok as [-> Hin]. rewrite ret_spec in H. injection H as <- <-. split; [done|].
    split; [|done]. apply negb_false_iff in Hin. unfold in_ in Hin. bool_hyps.
    by eapply url_points; [exact Hbr|exact Hsp|exact Hform|exact Hn|exact Hh|].
Qed.

(** A checker of IPv6 literals that accepts brackets around a host with a colon. *)
Definition toy_bracketed (n : string) : bool := has_char ":" (raw_host n).

(** A user name or password that looks like an approved host does not make the URL
    point there. *)
Lemma user_part_is_no_host :
  points_to "evil.example" "ssh://github.com:x@evil.example/r"
  /\ ~ points_to "github.com" "ssh://github.com:x@evil.example/r".
Proof.
  assert (points_to "evil.example" "ssh://github.com:x@evil.example/r") as H.
  { apply (points_url "evil.example" "ssh" "github.com:x@" "" "/r"); auto; try done.
    - right. by exists "github.com:x".
    - by left. }
  split; [done|]. intros H'. by pose proof (points_to_unique _ _ _ H H').
Qed.

Lemma validate_repo_url_host_witness :
  let e := sample_env in
  let url := "ssh://git@GitHub.com:22/acme/site.git" in
  let outcome u := fst (validate_repo_url toy_bracketed u e (open_session empty_db)) in
  outcome url = Ok url
  /\ (exists host, approved e host /\ points_to host url)
  /\ outcome "https://github.com@evil.example/x" = Err (url_error "userinfo is not allowed on https")
  /\ outcome "ssh://github.com:x@evil.example/r" =
       Err (http_error 422 "REPOSITORY_POLICY_VIOLATION: Repository host is not in the approved repository allowlist").
Proof.
  intros e url outcome.
  assert (outcome url = Ok url) as Hok by (by vm_compute).
  split; [done|]. split; [|by vm_compute].
  unfold outcome in *.
  destruct (validate_repo_url toy_bracketed url e (open_session empty_db)) as [o s'] eqn:Hrun. simpl in Hok. subst o.
  apply (validate_repo_url_host toy_bracketed url e (open_session empty_db) url s'); [|exact Hrun].
  intros n _ Hb Ha. unfold approved in Ha. simpl in Ha. unfold toy_bracketed in Hb.
    revert Ha. generalize (raw_host n) Hb. clear. intros h Hb Ha.
    assert (has_char ":" (lower h) = true) as Hl.
    { clear Ha. induction h as [|c h IH]; [done|]. simpl in *.
      apply orb_prop in Hb as [Hb|Hb]; [bool_hyps; subst c; done|].
      unfold lower in IH. unfold has_char in *. simpl. rewrite IH by done. apply orb_true_r. }
    rewrite !elem_of_cons, elem_of_nil in Ha. destruct Ha as [E|[E|[E|[]]]]; rewrite E in Hl; done.
Defined.
