(* ===== verification/Binary64.v ===== *)
(** * Python's [float]

    IEEE 754 binary64 as the Standard Library specifies it ([SpecFloat], rounding to
    nearest even), with the operations the program applies to floats: products,
    quotients of integers, [max(0.0, x)], [round(x)] and [round(x, n)].  Also the order
    of the values that are not NaN, and the exact rounding of a quotient. *)

From S2P Require Import Prelude.
From Stdlib Require Import SpecFloat.

Definition float : Type := spec_float.
Definition float_mul : float -> float -> float := SFmul 53 1024.
Definition float_div : float -> float -> float := SFdiv 53 1024.
Definition float_zero : float := S754_zero false.

(** An integer as a float of any precision, and [float(n)]. *)
Definition exact (n : Z) : float :=
  match n with Z0 => float_zero | Zpos m => S754_finite false m 0 | Zneg m => S754_finite true m 0 end.
Definition float_of_int (n : Z) : float := binary_normalize 53 1024 n 0 false.

(** [a / b] on integers: correctly rounded. *)
Definition int_truediv (a b : Z) : float := float_div (exact a) (exact b).

(** [max(0.0, x)]; a NaN compares with nothing. *)
Definition float_max0 (x : float) : float := if SFltb float_zero x then x else float_zero.

(** The quotient [a / b] rounded to the nearest integer, ties to even. *)
Definition div_half_even (a b : Z) : Z :=
  let '(q, r) := Z.div_eucl a b in
  match 2 * r ?= b with
  | Lt => q
  | Gt => q + 1
  | Eq => if Z.even q then q else q + 1
  end.

(** The value of a finite float times [k], rounded to the nearest integer. *)
Definition scaled (m : Z) (e k : Z) : Z :=
  if 0 <=? e then m * 2 ^ e * k else div_half_even (m * k) (2 ^ (- e)).

(** [round(x)]; [None] is the exception on infinities and NaN. *)
Definition float_round (x : float) : option Z :=
  match x with
  | S754_zero _ => Some 0
  | S754_finite s m e => Some (scaled (if s then Zneg m else Zpos m) e 1)
  | _ => None
  end.

(** [round(x, n)]: the nearest float to the decimal with [n] digits nearest to [x]. *)
Definition float_round_digits (n : Z) (x : float) : float :=
  match x with
  | S754_finite s m e =>
      match scaled (Zpos m) e (10 ^ n) with
      | Z0 => S754_zero s
      | N => float_div (if s then exact (- N) else exact N) (exact (10 ^ n))
      end
  | _ => x
  end.

Definition is_nan (x : float) : bool := match x with S754_nan => true | _ => false end.

(** [<=], with NaN last where Python leaves the order of [sorted] open. *)
Definition float_leb (x y : float) : bool := is_nan y || negb (is_nan x) && SFleb x y.

(** ** Order *)

Lemma float_leb_spec x y : is_nan x = false -> is_nan y = false -> float_leb x y = SFleb x y.
Proof. unfold float_leb. by intros -> ->. Qed.

Lemma float_max0_not_nan x : is_nan (float_max0 x) = false.
Proof. unfold float_max0. by destruct x as [[]|[]| |[] m e]. Qed.

Ltac compare_cases :=
  repeat match goal with
  | |- context [Z.compare ?a ?b] => destruct (Z.compare_spec a b); simplify_eq
  | |- context [Pos.compare_cont Eq ?a ?b] => change (Pos.compare_cont Eq a b) with (Pos.compare a b)
  | |- context [Pos.compare ?a ?b] => destruct (Pos.compare_spec a b); simplify_eq
  end.

Lemma float_leb_total x y : float_leb x y = true \/ float_leb y x = true.
Proof.
  unfold float_leb, SFleb.
  destruct x as [[]|[]| |[] m e], y as [[]|[]| |[] m' e']; simpl; auto; compare_cases; simpl; auto; lia.
Qed.

Lemma float_leb_trans x y z :
  float_leb x y = true -> float_leb y z = true -> float_leb x z = true.
Proof.
  unfold float_leb, SFleb.
  destruct x as [[]|[]| |[] m e], y as [[]|[]| |[] m' e']; simpl; try done;
    destruct z as [[]|[]| |[] m2 e2]; simpl; try done; compare_cases; simpl; try done; lia.
Qed.

(** ** Rounding *)

Lemma div_half_even_bounds a b lo hi :
  0 < b -> lo * b <= a <= hi * b -> lo <= div_half_even a b <= hi.
Proof.
  intros Hb [Hlo Hhi]. unfold div_half_even. pose proof (Z_div_mod a b ltac:(lia)) as H.
  destruct (Z.div_eucl a b) as [q r]. destruct H as [-> Hr].
  assert (lo <= q) by nia. assert (q <= hi) by nia. assert (0 < r -> q < hi) by nia.
  destruct (Z.compare_spec (2 * r) b); [destruct (Z.even q)| |]; lia.
Qed.

(** ** Examples *)

Example round_half : float_round (float_mul (float_div (float_of_int 95) (float_of_int 100)) (float_of_int 10)) = Some 10.
Proof. reflexivity. Qed.
Example one_third : float_round_digits 4 (int_truediv 1 3) = int_truediv 3333 10000.
Proof. reflexivity. Qed.
