(* ===== verification/Telemetry.v ===== *)
(** * Telemetry ([core/telemetry.py], [api/v1/metrics.py], [schemas/telemetry.py])

    Trace propagation, the in-process HTTP collector with its sliding window of
    durations, the operational gauges read from the database, and the Prometheus
    rendering.  Durations are binary64 floats; [repr] of a float is an argument of
    the rendering. *)

From S2P Require Import Prelude PyStr Uuid Json Models Config Session Sample Auth Handlers Binary64.
From Stdlib Require Import Ascii String.

(** ** Trace context *)

(** [_TRACEPARENT_RE.match]: trace id, span id and flags. *)
Definition match_traceparent (s : string) : option (string * string * string) :=
  let trace_id := str_take 32 (str_drop 3 s) in
  let span_id := str_take 16 (str_drop 36 s) in
  let flags := str_drop 53 s in
  if (s =?= "00-" +:+ trace_id +:+ "-" +:+ span_id +:+ "-" +:+ flags)
     && str_forallb is_lower_hex (trace_id +:+ span_id +:+ flags)
     && (len trace_id =? 32) && (len span_id =? 16) && (len flags =? 2)
  then Some (trace_id, span_id, flags) else None.

Definition zeros (n : nat) : string := hex_digits n 0.

Definition traceparent (trace_id span_id flags : string) : string :=
  "00-" +:+ trace_id +:+ "-" +:+ span_id +:+ "-" +:+ flags.

(** [uuid.uuid4().hex[:16]]. *)
Definition new_span_id : M string := u ← uuid4; mret (str_take 16 (uuid_hex u)).

(** The trace id and flags of the inbound headers, when they hold a usable trace. *)
Definition inbound_trace (raw_traceparent raw_trace_id : option string) : option (string * string) :=
  let from_parent :=
    match raw_traceparent with
    | Some p =>
        if truthy p then
          match match_traceparent (lower (strip p)) with
          | Some (t, s, flags) => if (t <?> zeros 32) && (s <?> zeros 16) then Some (t, flags) else None
          | None => None
          end
        else None
    | None => None
    end in
  match from_parent with
  | Some r => Some r
  | None =>
      match raw_trace_id with
      | Some i =>
          let cleaned := str_filter is_lower_hex (lower (strip i)) in
          if truthy i && (len cleaned =? 32) && (cleaned <?> zeros 32) then Some (cleaned, "01") else None
      | None => None
      end
  end.

Definition parse_or_create_traceparent (raw_traceparent raw_trace_id : option string) : M (string * string) :=
  match inbound_trace raw_traceparent raw_trace_id with
  | Some (trace_id, flags) =>
      span_id ← new_span_id;
      mret (trace_id, traceparent trace_id span_id flags)
  | None =>
      u ← uuid4;
      span_id ← new_span_id;
      mret (uuid_hex u, traceparent (uuid_hex u) span_id "01")
  end.

(** [set_trace_context] followed by [get_trace_context]: the non-empty ones. *)
Definition get_trace_context (correlation_id trace_id tp : string) : list (string * string) :=
  (if truthy correlation_id then [("correlation_id", correlation_id)] else [])
  ++ (if truthy trace_id then [("trace_id", trace_id)] else [])
  ++ (if truthy tp then [("traceparent", tp)] else []).

(** ** The HTTP collector *)

Record TelemetryCollector := mkCollector {
  max_samples : nat;
  durations_ms : list float;  (* oldest first *)
  count_2xx : Z; count_3xx : Z; count_4xx : Z; count_5xx : Z }.

Definition new_collector : TelemetryCollector := mkCollector 5000 [] 0 0 0 0.

(** [deque(maxlen=n).append]. *)
Definition deque_append {A} (n : nat) (l : list A) (x : A) : list A :=
  drop (List.length l + 1 - n) (l ++ [x]).

Definition record_request (status_code : Z) (duration_ms : float) (c : TelemetryCollector)
    : TelemetryCollector :=
  let ds := deque_append (max_samples c) (durations_ms c) (float_max0 duration_ms) in
  let with_counts := mkCollector (max_samples c) ds in
  if (200 <=? status_code) && (status_code <? 300) then
    with_counts (count_2xx c + 1) (count_3xx c) (count_4xx c) (count_5xx c)
  else if (300 <=? status_code) && (status_code <? 400) then
    with_counts (count_2xx c) (count_3xx c + 1) (count_4xx c) (count_5xx c)
  else if (400 <=? status_code) && (status_code <? 500) then
    with_counts (count_2xx c) (count_3xx c) (count_4xx c + 1) (count_5xx c)
  else if 500 <=? status_code then
    with_counts (count_2xx c) (count_3xx c) (count_4xx c) (count_5xx c + 1)
  else with_counts (count_2xx c) (count_3xx c) (count_4xx c) (count_5xx c).

Record HttpSummary := mkHttpSummary {
  requests_total : Z; status_2xx : Z; status_4xx : Z; status_5xx : Z; error_rate_5xx : float;
  latency_p50_ms : float; latency_p95_ms : float; latency_p99_ms : float }.

(** [min(n - 1, max(0, int(round((p / 100.0) * (n - 1)))))]. *)
Definition percentile_index (p : Z) (n : Z) : option Z :=
  i ← float_round (float_mul (float_div (float_of_int p) (float_of_int 100)) (float_of_int (n - 1)));
  Some (Z.min (n - 1) (Z.max 0 i)).

(** [_pct(p)]; [None] is an exception. *)
Definition percentile (samples : list float) (p : Z) : option float :=
  match samples with
  | [] => Some float_zero
  | _ =>
      idx ← percentile_index p (Z.of_nat (List.length samples));
      x ← samples !! Z.to_nat idx;
      Some (float_round_digits 3 x)
  end.

Definition get_http_summary (c : TelemetryCollector) : option HttpSummary :=
  let samples := order_by float_leb (durations_ms c) in
  let total_reqs := count_2xx c + count_3xx c + count_4xx c + count_5xx c in
  let err_rate := if 0 <? total_reqs then float_round_digits 6 (int_truediv (count_5xx c) total_reqs)
                  else float_zero in
  p50 ← percentile samples 50;
  p95 ← percentile samples 95;
  p99 ← percentile samples 99;
  Some (mkHttpSummary total_reqs (count_2xx c) (count_4xx c) (count_5xx c) err_rate p50 p95 p99).

(** ** The operational gauges *)

Record Metrics := mkMetrics {
  http : HttpSummary;
  outbox_pending_total : Z; active_leases_total : Z; queued_jobs_total : Z;
  oldest_queued_job_age_seconds : float; running_jobs_total : Z; healthy_services_total : Z;
  job_retry_ratio : float; dead_letter_total : Z; collected_at : time }.

(** [stmt.where(T.workspace_id == workspace_id)] when a workspace is given. *)
Definition in_scope {A} (ws : A -> uuid) (workspace_id : option uuid) (r : A) : bool :=
  match workspace_id with Some w => ws r =?= w | None => true end.

(** [func.min]. *)
Definition min_of (l : list Z) : option Z :=
  match l with [] => None | x :: l' => Some (foldr Z.min x l') end.

(** [timedelta.total_seconds()]. *)
Definition total_seconds (d : Z) : float := int_truediv d 1000000.

Definition oldest_age (now : time) (oldest : option time) : float :=
  match oldest with
  | Some t => float_round_digits 3 (float_max0 (total_seconds (now - t)))
  | None => float_zero
  end.

Definition collect_metrics (c : TelemetryCollector) (workspace_id : option uuid) : M Metrics :=
  http_summary ← or_raise (get_http_summary c) (ValueError "cannot convert float NaN to integer");
  now ← datetime_now;
  outbox_pending ← query (fun db => count_where (fun o =>
    (ob_status o =?= PENDING) && in_scope ob_workspace_id workspace_id o) (outbox db));
  active_leases ← query (fun db => count_where (fun i =>
    (int_status i =?= CLAIMED) && in_scope int_workspace_id workspace_id i) (intents db));
  '(queued_jobs, oldest_created_at) ← query (fun db =>
    let rows := where_ (fun j => (job_state j =?= QUEUED) && in_scope job_workspace_id workspace_id j) (jobs db) in
    (Z.of_nat (List.length rows), min_of (map job_created_at rows)));
  running_jobs ← query (fun db => count_where (fun j =>
    in_ (job_state j) [ADMITTED; STARTING; RUNNING] && in_scope job_workspace_id workspace_id j) (jobs db));
  healthy_services ← query (fun db => count_where (fun r =>
    (rel_status r =?= HEALTHY) && in_scope rel_workspace_id workspace_id r) (releases db));
  total_attempts ← query (fun db => count_where (in_scope att_workspace_id workspace_id) (job_attempts db));
  retry_attempts ← query (fun db => count_where (fun a =>
    (1 <? att_number a) && in_scope att_workspace_id workspace_id a) (job_attempts db));
  dlq_total ← query (fun db => count_where (in_scope dl_workspace_id workspace_id) (dead_letters db));
  let retry_ratio := if 0 <? total_attempts
                     then float_round_digits 4 (int_truediv retry_attempts total_attempts) else float_zero in
  mret (mkMetrics http_summary outbox_pending active_leases queued_jobs (oldest_age now oldest_created_at)
    running_jobs healthy_services retry_ratio dlq_total now).

(** ** The workspace endpoint *)

Record WorkspaceTelemetryResponse := mkWorkspaceTelemetry {
  wt_workspace_id : uuid; wt_metrics : Metrics }.

Definition get_workspace_telemetry (c : TelemetryCollector) (caller : Caller) (w : uuid)
    : M WorkspaceTelemetryResponse :=
  authorize_workspace_access caller w VIEWER "Workspace not found" ;;
  metrics_data ← collect_metrics c (Some w);
  mret (mkWorkspaceTelemetry w metrics_data).

(** ** The Prometheus text *)

Section Render.
(** [str] of a float. *)
Context (float_repr : float -> string).

Definition metric (name help kind : string) (samples : list string) : list string :=
  ("# HELP " +:+ name +:+ " " +:+ help) :: ("# TYPE " +:+ name +:+ " " +:+ kind)
  :: map (fun s => name +:+ s) samples.

Definition status_sample (class : string) (n : Z) : string :=
  "{status_class=" +:+ String quote (class +:+ String quote ("} " +:+ pretty n)).
Definition int_sample (n : Z) : string := " " +:+ pretty n.
Definition float_sample (x : float) : string := " " +:+ float_repr x.

Definition render_prometheus (d : Metrics) : string :=
  join (String (ascii_of_N 10) "") (
    metric "hamicloud_http_requests_total" "Total HTTP requests handled by status class." "counter"
      [status_sample "2xx" (status_2xx (http d)); status_sample "4xx" (status_4xx (http d));
       status_sample "5xx" (status_5xx (http d))]
    ++ metric "hamicloud_http_request_duration_ms_p50" "HTTP request latency p50 in milliseconds." "gauge"
      [float_sample (latency_p50_ms (http d))]
    ++ metric "hamicloud_http_request_duration_ms_p95" "HTTP request latency p95 in milliseconds." "gauge"
      [float_sample (latency_p95_ms (http d))]
    ++ metric "hamicloud_http_request_duration_ms_p99" "HTTP request latency p99 in milliseconds." "gauge"
      [float_sample (latency_p99_ms (http d))]
    ++ metric "hamicloud_outbox_pending_total"
      "Pending transactional outbox events awaiting broker publication." "gauge"
      [int_sample (outbox_pending_total d)]
    ++ metric "hamicloud_active_leases_total" "Active claimed execution intents held by workers." "gauge"
      [int_sample (active_leases_total d)]
    ++ metric "hamicloud_queued_jobs_total"
      "Jobs currently in QUEUED state awaiting scheduler admission." "gauge"
      [int_sample (queued_jobs_total d)]
    ++ metric "hamicloud_oldest_queued_job_age_seconds" "Age in seconds of the oldest QUEUED job." "gauge"
      [float_sample (oldest_queued_job_age_seconds d)]
    ++ metric "hamicloud_running_jobs_total" "Jobs currently admitted, starting, or running." "gauge"
      [int_sample (running_jobs_total d)]
    ++ metric "hamicloud_healthy_services_total" "Healthy serving releases across workspaces." "gauge"
      [int_sample (healthy_services_total d)]
    ++ metric "hamicloud_job_retry_ratio"
      "Ratio of retried job attempts (attempt > 1) to total attempts." "gauge"
      [float_sample (job_retry_ratio d)]
    ++ metric "hamicloud_dead_letter_total" "Dead-lettered job records." "gauge"
      [int_sample (dead_letter_total d)]
    ++ [""]).
End Render.


(** ** Percentiles *)

(** The rank [p (n - 1) / 100], rounded to the nearest integer. *)
Definition nearest_rank (p n : Z) : Z := div_half_even (p * (n - 1)) 100.

Lemma fraction_50 : float_div (float_of_int 50) (float_of_int 100) = SpecFloat.S754_finite false 4503599627370496 (-53).
Proof. reflexivity. Qed.
Lemma fraction_95 : float_div (float_of_int 95) (float_of_int 100) = SpecFloat.S754_finite false 8556839292003942 (-53).
Proof. reflexivity. Qed.
Lemma fraction_99 : float_div (float_of_int 99) (float_of_int 100) = SpecFloat.S754_finite false 8917127262193582 (-53).
Proof. reflexivity. Qed.

Definition rank_is (c f : float) (p k : Z) : bool :=
  match float_round (float_mul c f) with
  | Some i => i =? div_half_even (p * k) 100
  | None => false
  end.
Definition ranks_agree_at (k : Z) : bool :=
  let f := float_of_int k in
  rank_is (SpecFloat.S754_finite false 4503599627370496 (-53)) f 50 k
  && rank_is (SpecFloat.S754_finite false 8556839292003942 (-53)) f 95 k
  && rank_is (SpecFloat.S754_finite false 8917127262193582 (-53)) f 99 k.

(** [P] on the [n] integers from [k]. *)
Fixpoint all_from (P : Z -> bool) (k : Z) (n : nat) : bool :=
  match n with O => true | S n' => P k && all_from P (k + 1) n' end.

(** By computation on every window size. *)
Lemma ranks_agree : all_from ranks_agree_at 0 5000 =true.
Proof. vm_compute. reflexivity. Qed.

Lemma all_from_spec P n : forall k,
  all_from P k n = true -> forall i, k <= i < k + Z.of_nat n -> P i = true.
Proof.
  induction n as [|n IH]; intros k H i Hi; [lia|]. cbn [all_from] in H. apply andb_prop in H as [Hk H].
  destruct (decide (i = k)) as [->|]; [done|]. apply (IH _ H). lia.
Qed.

Lemma nearest_rank_bounds p n : 0 <= p <= 100 -> 1 <= n -> 0 <= nearest_rank p n <= n - 1.
Proof. intros Hp Hn. unfold nearest_rank. apply div_half_even_bounds; [lia|]. pose proof (Z.mul_le_mono_nonneg_r p 100 (n - 1)). nia. Qed.

Lemma rank_is_spec c f p k :
  rank_is c f p k = true -> float_round (float_mul c f) = Some (div_half_even (p * k) 100).
Proof. unfold rank_is. destruct (float_round _); [|done]. intros H. by apply Z.eqb_eq in H as ->. Qed.

(** The floating-point index is the exact nearest rank, for every size of the window. *)
Lemma percentile_index_exact p n :
  p ∈ [50; 95; 99] -> 1 <= n <= 5000 -> percentile_index p n = Some (nearest_rank p n).
Proof.
  intros Hp Hn. pose proof (all_from_spec _ _ _ ranks_agree (n - 1) ltac:(lia)) as H.
  unfold ranks_agree_at in H. apply andb_prop in H as [H H99]. apply andb_prop in H as [H50 H95].
  pose proof (nearest_rank_bounds p n) as Hb. unfold percentile_index.
  rewrite !elem_of_cons, elem_of_nil in Hp. destruct Hp as [->|[->|[->|[]]]];
    rewrite ?fraction_50, ?fraction_95, ?fraction_99, ?(rank_is_spec _ _ _ _ H50),
      ?(rank_is_spec _ _ _ _ H95), ?(rank_is_spec _ _ _ _ H99);
    apply (f_equal Some); unfold nearest_rank in *; lia.
Qed.

(** ** The collector over a sequence of requests *)

Definition record_all (reqs : list (Z * float)) (c : TelemetryCollector) : TelemetryCollector :=
  foldl (fun c r => record_request r.1 r.2 c) c reqs.

(** The last [n] elements. *)
Definition last_n {A} (n : nat) (l : list A) : list A := drop (List.length l - n) l.

Lemma deque_append_last {A} n (l : list A) x : (0 < n)%nat -> deque_append n (last_n n l) x = last_n n (l ++ [x]).
Proof.
  intros Hn. unfold deque_append, last_n. rewrite length_drop, length_app. simpl.
  destruct (decide (List.length l < n)%nat).
  - replace (List.length l - n)%nat with O by lia. rewrite drop_0. f_equal. lia.
  - rewrite <- (drop_app_le l [x]) by lia. rewrite drop_drop. f_equal. lia.
Qed.

Definition in_class (lo hi : Z) (r : Z * float) : bool := (lo <=? r.1) && (r.1 <? hi).

(** The possible classes of a status code. *)
Ltac status_cases x :=
  repeat match goal with
  | |- context [?a <=? x] => destruct (Z.leb_spec a x); try (exfalso; lia)
  | |- context [x <? ?a] => destruct (Z.ltb_spec x a); try (exfalso; lia)
  end.

Lemma record_all_spec reqs :
  let c := record_all reqs new_collector in
  max_samples c = 5000%nat
  /\ durations_ms c = last_n 5000 (map (fun r => float_max0 r.2) reqs)
  /\ count_2xx c = count_where (in_class 200 300) reqs
  /\ count_3xx c = count_where (in_class 300 400) reqs
  /\ count_4xx c = count_where (in_class 400 500) reqs
  /\ count_5xx c = count_where (fun r => 500 <=? r.1) reqs.
Proof.
  unfold record_all. induction reqs as [|r reqs IH] using rev_ind; [done|]. cbv zeta in *.
  rewrite foldl_app. simpl. set (c := foldl _ _ _) in *. clearbody c.
  destruct IH as (Hmax & Hd & H2 & H3 & H4 & H5).
  rewrite map_app. change (map _ [r]) with [float_max0 r.2].
  rewrite !count_where_app, !count_where_single, <- deque_append_last, <- Hd, <- H2, <- H3, <- H4, <- H5 by lia.
  rewrite <- Hmax. unfold record_request, in_class. simpl.
  clear Hmax Hd H2 H3 H4 H5. status_cases r.1; simpl; repeat split; lia.
Qed.

(** The reference percentile: the sample of the exact nearest rank. *)
Definition reference_percentile (p : Z) (samples : list float) : float :=
  match order_by float_leb samples !! Z.to_nat (nearest_rank p (Z.of_nat (List.length samples))) with
  | Some x => float_round_digits 3 x
  | None => float_zero
  end.

Lemma percentile_reference p samples :
  p ∈ [50; 95; 99] -> (List.length samples <= 5000)%nat ->
  percentile (order_by float_leb samples) p = Some (reference_percentile p samples).
Proof.
  intros Hp Hlen. unfold reference_percentile, percentile.
  pose proof (Permutation_length (order_by_perm float_leb samples)) as Hperm. rewrite <- Hperm in *.
  destruct (order_by float_leb samples) as [|x l] eqn:E; [done|]. rewrite <- E in *.
  assert (1 <= Z.of_nat (List.length (order_by float_leb samples)) <= 5000) as Hn by (rewrite E in *; simpl in *; lia).
  rewrite percentile_index_exact by done. simpl.
  destruct (nearest_rank_bounds p _ ltac:(rewrite !elem_of_cons, elem_of_nil in Hp; lia) (proj1 Hn)) as [Hlo Hhi].
  destruct (lookup_lt_is_Some_2 (order_by float_leb samples)
    (Z.to_nat (nearest_rank p (Z.of_nat (List.length (order_by float_leb samples)))))) as [y ->]; [lia|done].
Qed.

(** C35: After any requests since start-up the HTTP summary is defined and equals the
    exact one: every status class counted, and each latency the sample of the exact
    nearest rank among the last 5000 durations in increasing order, although the code
    computes its rank in floating point. *)
Theorem http_summary_exact reqs :
  let c := record_all reqs new_collector in
  let window := last_n 5000 (map (fun r => float_max0 r.2) reqs) in
  let total := count_where (in_class 200 400) reqs + count_where (in_class 400 500) reqs
               + count_where (fun r => 500 <=? r.1) reqs in
  let errors := count_where (fun r => 500 <=? r.1) reqs in
  StronglySorted (fun x y => float_leb x y = true) (order_by float_leb window)
  /\ order_by float_leb window ≡ₚ window
  /\ get_http_summary c = Some (mkHttpSummary total (count_where (in_class 200 300) reqs)
       (count_where (in_class 400 500) reqs) errors
       (if 0 <? total then float_round_digits 6 (int_truediv errors total) else float_zero)
       (reference_percentile 50 window) (reference_percentile 95 window) (reference_percentile 99 window)).
Proof.
  intros c window total errors. split; [|split].
  - apply order_by_sorted; [apply float_leb_total|apply float_leb_trans].
  - apply order_by_perm.
  - destruct (record_all_spec reqs) as (_ & Hd & H2 & H3 & H4 & H5). fold c in Hd, H2, H3, H4, H5.
    unfold get_http_summary. rewrite Hd, H2, H3, H4, H5. fold window errors.
    assert (List.length window <= 5000)%nat as Hlen by (unfold window, last_n; rewrite length_drop; lia).
    rewrite !percentile_reference by (try done; set_solver). simpl.
    replace (count_where (in_class 200 300) reqs + count_where (in_class 300 400) reqs) with
      (count_where (in_class 200 400) reqs); [done|].
    clear. induction reqs as [|r reqs IH]; [done|]. change (r :: reqs) with ([r] ++ reqs).
    rewrite !count_where_app, !count_where_single, IH. unfold in_class.
    status_cases r.1; simpl; lia.
Qed.

(** ** Workspaces *)

(** The rows of one workspace. *)
Definition of_workspace (w : uuid) (db : Db) : Db :=
  mkDb (where_ (fun r => ws_id r =?= w) (workspaces db))
    (where_ (fun r => wm_workspace_id r =?= w) (memberships db))
    (where_ (fun r => app_workspace_id r =?= w) (applications db))
    (where_ (fun r => rel_workspace_id r =?= w) (releases db))
    (where_ (fun r => job_workspace_id r =?= w) (jobs db))
    (where_ (fun r => att_workspace_id r =?= w) (job_attempts db))
    (where_ (fun r => int_workspace_id r =?= w) (intents db))
    (where_ (fun r => ob_workspace_id r =?= w) (outbox db))
    (where_ (fun r => qr_workspace_id r =?= w) (reservations db))
    (where_ (fun r => ir_workspace_id r =?= w) (idempotency db))
    (where_ (fun r => sec_workspace_id r =?= w) (secrets db))
    (where_ (fun r => aud_workspace_id r =?= Some w) (audit_events db))
    (where_ (fun r => repo_workspace_id r =?= w) (repositories db))
    (where_ (fun r => wd_workspace_id r =?= w) (deliveries db))
    (where_ (fun r => dl_workspace_id r =?= w) (dead_letters db)).

Lemma where_where {A} (P Q : A -> bool) l : where_ P (where_ Q l) = where_ (fun r => P r && Q r) l.
Proof.
  unfold where_. induction l as [|r l IH]; [done|]. simpl.
  destruct (Q r); simpl; [destruct (P r); simpl; by rewrite IH|by rewrite andb_false_r].
Qed.

Lemma where_ext {A} (P Q : A -> bool) l : (forall r, P r = Q r) -> where_ P l = where_ Q l.
Proof. intros H. apply List.filter_ext, H. Qed.

Lemma count_where_scope {A} (P : A -> bool) (ws : A -> uuid) w l :
  count_where (fun r => P r && in_scope ws None r) (where_ (fun r => ws r =?= w) l)
  = count_where (fun r => P r && in_scope ws (Some w) r) l.
Proof.
  unfold count_where. rewrite where_where. do 2 f_equal. apply where_ext. intros r. simpl.
  by rewrite andb_true_r.
Qed.

Lemma count_where_scope_all {A} (ws : A -> uuid) w l :
  count_where (in_scope ws None) (where_ (fun r => ws r =?= w) l) = count_where (in_scope ws (Some w)) l.
Proof. apply (count_where_scope (fun _ => true) ws w l). Qed.

Lemma collect_metrics_scope c w e s s' :
  view s' = of_workspace w (view s) -> ticks s' = ticks s ->
  (collect_metrics c (Some w) e s).1 = (collect_metrics c None e s').1.
Proof.
  intros Hv Ht. unfold collect_metrics. destruct (get_http_summary c) as [h|]; [|done].
  unfold or_raise, mbind, M_bind, mret, M_ret, query, datetime_now. cbn [fst snd].
  change (view (mkSess (committed ?x) (writes ?x) (staged ?x) _ (draws ?x))) with (view x).
  rewrite Hv, Ht. unfold of_workspace. cbn [outbox intents jobs releases job_attempts dead_letters].
  rewrite !count_where_scope, !count_where_scope_all, where_where. cbn [in_scope].
  by rewrite (where_ext (fun r => (job_state r =?= QUEUED) && true && _)
               (fun r => (job_state r =?= QUEUED) && (job_workspace_id r =?= w))
               (jobs (view s)) (fun r => f_equal (fun b => b && _) (andb_true_r _))).
Qed.

(** C21: The telemetry of a workspace is the platform's on the database restricted to the
    rows of that workspace: no row of another workspace, nor the presence of one,
    shows in any gauge or in the authorization. *)
Theorem workspace_telemetry_equivalence c caller w e db :
  (run (collect_metrics c (Some w)) e db).1 = (run (collect_metrics c None) e (of_workspace w db)).1
  /\ (run (get_workspace_telemetry c caller w) e db).1
     = (run (get_workspace_telemetry c caller w) e (of_workspace w db)).1.
Proof.
  split; [by apply collect_metrics_scope|].
  unfold run, get_workspace_telemetry. cbn [fst].
  assert (access (of_workspace w db) caller w VIEWER "Workspace not found"
          = access db caller w VIEWER "Workspace not found") as Ha.
  { unfold access, of_workspace. cbn [memberships]. rewrite where_where.
    rewrite (where_ext _ (is_membership_of w (subject caller))); [done|]. intros m.
    unfold is_membership_of. destruct (wm_workspace_id m =?= w); [by rewrite andb_true_r|done]. }
  unfold mbind, M_bind. rewrite !authorize_spec, !view_open, Ha.
  destruct (access db caller w VIEWER _); [|done].
  rewrite (surjective_pairing (collect_metrics c (Some w) e (open_session db))).
  rewrite (surjective_pairing (collect_metrics c (Some w) e (open_session (of_workspace w db)))).
  rewrite (collect_metrics_scope c w e (open_session db) (open_session (of_workspace w db))) by done.
  rewrite (collect_metrics_scope c w e (open_session (of_workspace w db)) (open_session (of_workspace w db))).
  - by destruct (collect_metrics c None e _).1.
  - rewrite view_open. symmetry. unfold of_workspace. cbn.
    f_equal; rewrite where_where; apply where_ext; intros r; apply andb_diag.
  - done.
Qed.

(** ** Trace propagation *)

Definition hex_of (n : Z) (s : string) : bool := str_forallb is_lower_hex s && (len s =? n).

Definition trace_char (c : ascii) : bool := is_lower_hex c || (c =?= "-"%char).

Lemma trace_char_plain c : trace_char c = true -> is_space c = false /\ lower_char c = c.
Proof. destruct c as [[] [] [] [] [] [] [] []]; vm_compute; intros; try done; split; done. Qed.

Lemma trace_chars_plain s : str_forallb trace_char s = true -> strip s = s /\ lower s = s.
Proof.
  intros H. split.
  - apply strip_by_none. eapply str_forallb_impl; [|exact H]. intros c Hc. cbv beta.
    by destruct (trace_char_plain c Hc) as [-> _].
  - unfold lower. induction s as [|c s IH]; [done|]. cbn [str_forallb str_map] in *.
    apply andb_prop in H as [Hc H]. rewrite IH by done. by destruct (trace_char_plain c Hc) as [_ ->].
Qed.

Lemma hex_trace_chars s : str_forallb is_lower_hex s = true -> str_forallb trace_char s = true.
Proof. apply str_forallb_impl. intros c Hc. unfold trace_char. by rewrite Hc. Qed.

Lemma len_nat s n : (len s =? Z.of_nat n) = true -> String.length s = n.
Proof. intros H. apply Z.eqb_eq in H. unfold len in H. lia. Qed.

Lemma str_drop_drop n m s : str_drop n (str_drop m s) = str_drop (m + n) s.
Proof.
  revert s. induction m as [|m IH]; intros s; [done|].
  destruct s as [|c s]; [by destruct n|]. apply IH.
Qed.

(** The pattern matches exactly the traceparents built from hexadecimal fields. *)
Lemma match_traceparent_app t sp fl :
  hex_of 32 t = true -> hex_of 16 sp = true -> hex_of 2 fl = true ->
  match_traceparent (traceparent t sp fl) = Some (t, sp, fl).
Proof.
  unfold hex_of. intros [Ht Hlt]%andb_prop [Hs Hls]%andb_prop [Hf Hlf]%andb_prop.
  unfold match_traceparent, traceparent.
  pose proof (len_nat _ 32 Hlt) as Lt. pose proof (len_nat _ 16 Hls) as Ls. 
  replace (str_take 32 (str_drop 3 ("00-" +:+ t +:+ "-" +:+ sp +:+ "-" +:+ fl))) with t.
  2:{ change (str_drop 3 _) with (t +:+ "-" +:+ sp +:+ "-" +:+ fl). by rewrite <- Lt, str_take_app. }
  replace (str_drop 36 ("00-" +:+ t +:+ "-" +:+ sp +:+ "-" +:+ fl)) with (sp +:+ "-" +:+ fl).
  2:{ transitivity (str_drop 1 (str_drop 32 (t +:+ "-" +:+ sp +:+ "-" +:+ fl))); [|by rewrite str_drop_drop].
      by rewrite <- Lt, str_drop_app. }
  replace (str_drop 53 ("00-" +:+ t +:+ "-" +:+ sp +:+ "-" +:+ fl)) with fl.
  2:{ transitivity (str_drop 17 (str_drop 1 (str_drop 32 (t +:+ "-" +:+ sp +:+ "-" +:+ fl))));
        [|by rewrite !str_drop_drop].
      rewrite <- Lt, str_drop_app. change (str_drop 1 _) with (sp +:+ "-" +:+ fl).
      transitivity (str_drop 1 (str_drop 16 (sp +:+ "-" +:+ fl))); [by rewrite <- Ls, str_drop_app|by rewrite str_drop_drop]. }
  replace (str_take 16 (sp +:+ "-" +:+ fl)) with sp by (by rewrite <- Ls, str_take_app).
  rewrite bool_decide_eq_true_2 by done. by rewrite !str_forallb_app, Ht, Hs, Hf, Hlt, Hls, Hlf.
Qed.

Lemma hex_of_digits n k : hex_of (Z.of_nat n) (hex_digits n k) = true.
Proof. unfold hex_of, len. rewrite hex_digits_lower, hex_digits_length. simpl. apply Z.eqb_refl. Qed.

Lemma hex_of_app n m s t : hex_of n s = true -> hex_of m t = true -> hex_of (n + m) (s +:+ t) = true.
Proof.
  unfold hex_of, len. intros [Hs Hn]%andb_prop [Ht Hm]%andb_prop.
  rewrite str_forallb_app, str_length_app, Hs, Ht. apply Z.eqb_eq in Hn, Hm. simpl. apply Z.eqb_eq. lia.
Qed.

(** A usable inbound trace has a nonzero trace id of 32 digits and two digits of flags. *)
Lemma inbound_trace_wf raw rid t fl :
  inbound_trace raw rid = Some (t, fl) -> hex_of 32 t = true /\ hex_of 2 fl = true /\ t <> zeros 32.
Proof.
  assert (forall i, let cleaned := str_filter is_lower_hex (lower (strip i)) in
    truthy i && (len cleaned =? 32) && (cleaned <?> zeros 32) = true ->
    hex_of 32 cleaned = true /\ cleaned <> zeros 32) as Hid.
  { intros i cleaned H. apply andb_prop in H as [[_ Hl]%andb_prop Hz]. bool_hyps. split; [|done].
    unfold hex_of. rewrite Hl, andb_true_r. unfold cleaned. generalize (lower (strip i)). clear.
    intros s. induction s as [|c s IH]; [done|]. simpl. destruct (is_lower_hex c) eqn:E; simpl; [by rewrite E|done]. }
  unfold inbound_trace. intros H.
  assert (forall s t sp fl, match_traceparent s = Some (t, sp, fl) -> hex_of 32 t = true /\ hex_of 2 fl = true) as Hm.
  { unfold match_traceparent, hex_of. intros s t' sp fl' Hs. destruct (_ && _) eqn:E; [|done]. simplify_eq.
    apply andb_prop in E as [[[[_ E]%andb_prop Ht]%andb_prop _]%andb_prop Hf].
    rewrite !str_forallb_app in E. apply andb_prop in E as [E [_ E']%andb_prop]. by rewrite E, E', Ht, Hf. }
  destruct raw as [p|]; [destruct (truthy p)|];
    [destruct (match_traceparent _) as [[[t' sp] fl']|] eqn:E; [destruct (_ && _) eqn:Ez|]| |];
    try (injection H as <- <-; apply Hm in E as [E1 E2]; apply andb_prop in Ez as [Ez _]; by bool_hyps);
    (destruct rid as [i|]; [|done]; cbv zeta in H; destruct (truthy i && _ && _) eqn:Ei; [|done]; injection H as <- <-;
     by destruct (Hid i Ei)).
Qed.

(** The traceparent of a response is read back with its trace and flags. *)
Lemma inbound_traceparent t sp fl rid :
  hex_of 32 t = true -> hex_of 16 sp = true -> hex_of 2 fl = true -> t <> zeros 32 -> sp <> zeros 16 ->
  inbound_trace (Some (traceparent t sp fl)) rid = Some (t, fl).
Proof.
  intros Ht Hs Hf Hzt Hzs. unfold inbound_trace.
  assert (str_forallb trace_char (traceparent t sp fl) = true) as Hc.
  { unfold traceparent. rewrite !str_forallb_app. unfold hex_of in *.
    apply andb_prop in Ht as [Ht _], Hs as [Hs _], Hf as [Hf _]. by rewrite (hex_trace_chars t), (hex_trace_chars sp), (hex_trace_chars fl). }
  destruct (trace_chars_plain _ Hc) as [-> ->]. rewrite match_traceparent_app by done.
  unfold truthy. rewrite !bool_decide_eq_false_2; done.
Qed.

(** A drawn span id: the upper half of 128 random bits. *)
Lemma span_of_uuid u :
  (u < 2 ^ 128)%N -> (u / 2 ^ 64 <> 0)%N ->
  hex_of 16 (str_take 16 (uuid_hex u)) = true /\ str_take 16 (uuid_hex u) <> zeros 16.
Proof.
  intros Hlt Hu.
  assert (str_take 16 (uuid_hex u) = hex_digits 16 (u / 2 ^ 64)) as ->.
  { unfold uuid_hex. change 32%nat with (16 + 16)%nat. rewrite <- (hex_digits_app 16 16 u).
    change (16 ^ N.of_nat 16)%N with (2 ^ 64)%N. generalize (u / 2 ^ 64)%N as v. intros v.
    rewrite <- (hex_digits_length 16 v) at 1. apply str_take_app. }
  split; [apply (hex_of_digits 16)|]. intros H.
  apply (f_equal (hex_int false 0)) in H. unfold zeros in H. rewrite !hex_int_digits in H by done.
  injection H as H. change (16 ^ N.of_nat 16)%N with (2 ^ 64)%N in H. rewrite !N.mod_small in H; [done|lia|].
  apply N.Div0.div_lt_upper_bound. change (2 ^ 64 * 2 ^ 64)%N with (2 ^ 128)%N. done.
Qed.

Lemma uuid_hex_zero u : (u < 2 ^ 128)%N -> uuid_hex u = zeros 32 -> u = 0%N.
Proof.
  intros Hlt H. apply (f_equal (hex_int false 0)) in H. unfold uuid_hex, zeros in H.
  rewrite !hex_int_digits in H by done. injection H as H.
  change (16 ^ N.of_nat 32)%N with (2 ^ 128)%N in H. rewrite !N.mod_small in H; done || lia.
Qed.

(** Every request gets a trace: the trace id and flags of a usable inbound header are
    kept, otherwise a fresh id is drawn, and the traceparent handed on is accepted by
    the next service as the same trace.  The draws are assumed to have a nonzero
    upper half, as [uuid4] guarantees by its version digit. *)
Theorem traceparent_propagates raw rid e s :
  (forall n, entropy e n mod 2 ^ 128 / 2 ^ 64 <> 0)%N ->
  exists t sp fl s',
    parse_or_create_traceparent raw rid e s = (Ok (t, traceparent t sp fl), s')
    /\ (forall t0 fl0, inbound_trace raw rid = Some (t0, fl0) -> t = t0 /\ fl = fl0)
    /\ (forall rid', inbound_trace (Some (traceparent t sp fl)) rid' = Some (t, fl)).
Proof.
  intros He.
  assert (forall n, entropy e n mod 2 ^ 128 < 2 ^ 128)%N as Hlt by (intros n; by apply N.mod_lt).
  assert (forall n, hex_of 16 (str_take 16 (uuid_hex (entropy e n mod 2 ^ 128)%N)) = true
            /\ str_take 16 (uuid_hex (entropy e n mod 2 ^ 128)%N) <> zeros 16) as Hspan
    by (intros n; by apply span_of_uuid).
  unfold parse_or_create_traceparent. destruct (inbound_trace raw rid) as [[t fl]|] eqn:E.
  - destruct (inbound_trace_wf _ _ _ _ E) as (Ht & Hf & Hz). do 4 eexists. split; [reflexivity|].
    split; [by intros ? ? [= -> ->]|]. intros rid'. by apply inbound_traceparent; try apply Hspan.
  - do 4 eexists. split; [reflexivity|]. split; [done|]. intros rid'.
    apply inbound_traceparent; try apply Hspan; [apply (hex_of_digits 32)|done|].
    intros H. apply (He (draws s)). by rewrite (uuid_hex_zero _ (Hlt _) H).
Qed.

Definition bright_env : Env := mkEnv (settings sample_env) (clock sample_env)
  (fun n => (2 ^ 64 * (1 + N.of_nat n mod 1000))%N) (nonces sample_env) (sha256_hex sample_env)
  (redis sample_env) (trace_context sample_env) (rivals_lock sample_env) (rivals_commit sample_env).

Lemma traceparent_propagates_witness :
  let raw := " 00-4BF92F3577B34DA6A3CE929D0E0E4736-00f067aa0ba902b7-01 " in
  exists t sp fl s',
    parse_or_create_traceparent (Some raw) None bright_env (open_session empty_db) = (Ok (t, traceparent t sp fl), s')
    /\ t = "4bf92f3577b34da6a3ce929d0e0e4736"
    /\ (forall rid', inbound_trace (Some (traceparent t sp fl)) rid' = Some (t, fl)).
Proof.
  intros raw.
  destruct (traceparent_propagates (Some raw) None bright_env (open_session empty_db)) as (t & sp & fl & s' & H1 & H2 & H3).
  - intros n. unfold bright_env. cbn [entropy].
    assert (N.of_nat n mod 1000 < 1000)%N by (by apply N.mod_lt). revert H. generalize (N.of_nat n mod 1000)%N. intros k Hk.
    rewrite N.mod_small by (change (2 ^ 128)%N with (2 ^ 64 * 2 ^ 64)%N; apply N.mul_lt_mono_pos_l; lia).
    rewrite N.mul_comm, N.div_mul by done. lia.
  - exists t, sp, fl, s'. split; [exact H1|]. split; [|exact H3].
    apply (H2 "4bf92f3577b34da6a3ce929d0e0e4736" "01"). by vm_compute.
Defined.
