(* ===== verification/Operations.v ===== *)
(** * Operations and the audit listing ([api/v1/operations.py], [api/v1/audit.py])

    The status of a background operation, which is a release or a job, and the pages
    of a workspace's audit trail, with the response schemas of [schemas/common.py]
    and [schemas/audit.py]. *)

From S2P Require Import Prelude PyStr Uuid Json Models DateTime Session Sample Auth Handlers Pagination.
From Stdlib Require Import Ascii String.

(** ** Schemas *)

Inductive OperationKind := OPERATION_RELEASE | OPERATION_JOB.

(** The statuses of a job and of a release under one enumeration, each with its value. *)
Inductive OperationStatus :=
| OS_ACCEPTED
| OS_QUEUED | OS_ADMITTED | OS_STARTING | OS_RUNNING | OS_SUCCEEDED | OS_RETRY_WAIT
| OS_RECOVERY_PENDING | OS_FAILED | OS_CANCEL_REQUESTED | OS_CANCELLED
| OS_REQUESTED | OS_BUILDING | OS_IMAGE_READY | OS_DEPLOYING | OS_HEALTHY | OS_BUILD_FAILED
| OS_DEPLOY_FAILED | OS_SUPERSEDED.

Definition operation_status_value (s : OperationStatus) : string :=
  match s with
  | OS_ACCEPTED => "ACCEPTED"
  | OS_QUEUED => "QUEUED" | OS_ADMITTED => "ADMITTED" | OS_STARTING => "STARTING"
  | OS_RUNNING => "RUNNING" | OS_SUCCEEDED => "SUCCEEDED" | OS_RETRY_WAIT => "RETRY_WAIT"
  | OS_RECOVERY_PENDING => "RECOVERY_PENDING" | OS_FAILED => "FAILED"
  | OS_CANCEL_REQUESTED => "CANCEL_REQUESTED" | OS_CANCELLED => "CANCELLED"
  | OS_REQUESTED => "REQUESTED" | OS_BUILDING => "BUILDING" | OS_IMAGE_READY => "IMAGE_READY"
  | OS_DEPLOYING => "DEPLOYING" | OS_HEALTHY => "HEALTHY" | OS_BUILD_FAILED => "BUILD_FAILED"
  | OS_DEPLOY_FAILED => "DEPLOY_FAILED" | OS_SUPERSEDED => "SUPERSEDED"
  end.

Definition operation_statuses : list OperationStatus :=
  [OS_ACCEPTED; OS_QUEUED; OS_ADMITTED; OS_STARTING; OS_RUNNING; OS_SUCCEEDED; OS_RETRY_WAIT;
   OS_RECOVERY_PENDING; OS_FAILED; OS_CANCEL_REQUESTED; OS_CANCELLED; OS_REQUESTED; OS_BUILDING;
   OS_IMAGE_READY; OS_DEPLOYING; OS_HEALTHY; OS_BUILD_FAILED; OS_DEPLOY_FAILED; OS_SUPERSEDED].

(** [OperationStatus(value)], a [ValueError] when no member has the value. *)
Definition operation_status_of (value : string) : option OperationStatus :=
  List.find (fun s => operation_status_value s =?= value) operation_statuses.

Record OperationStatusResponse := mkOperationStatus {
  op_operation_id : uuid; op_operation_kind : OperationKind; op_status : OperationStatus;
  op_status_url : string; op_created_at : option time; op_details : option json }.

Record AuditEventItem := mkAuditEventItem {
  ai_id : uuid; ai_workspace_id : option uuid; ai_actor_subject : string; ai_action : string;
  ai_target_type : string; ai_target_id : string; ai_result : string;
  ai_details_json : list (string * json); ai_created_at : time }.
Record AuditEventListResponse := mkAuditEventList {
  al_items : list AuditEventItem; al_next_cursor : option string }.

(** ** Operations *)

Definition operation_not_found : exn := http_error 404 "Operation not found".

Definition status_of_value (value : string) : M OperationStatus :=
  or_raise (operation_status_of value) (ValueError (value +:+ " is not a valid OperationStatus")).

Definition operation_url (id : uuid) : string := "/v1/operations/" +:+ uuid_str id.

Definition get_operation_status (caller : Caller) (operation_id : uuid) : M OperationStatusResponse :=
  rel ← select_one releases (fun r => rel_id r =?= operation_id);
  match rel with
  | Some rel =>
      authorize_workspace_access caller (rel_workspace_id rel) VIEWER "Operation not found" ;;
      st ← status_of_value (release_status_value (rel_status rel));
      mret (mkOperationStatus (rel_id rel) OPERATION_RELEASE st (operation_url (rel_id rel))
              (Some (rel_created_at rel)) None)
  | None =>
      job ← select_one jobs (fun j => job_id j =?= operation_id);
      match job with
      | Some job =>
          authorize_workspace_access caller (job_workspace_id job) VIEWER "Operation not found" ;;
          st ← status_of_value (job_state_value (job_state job));
          mret (mkOperationStatus (job_id job) OPERATION_JOB st (operation_url (job_id job))
                  (Some (job_created_at job)) None)
      | None => raise operation_not_found
      end
  end.

Definition not_streaming : exn :=
  http_error 501 "Server-Sent Events streaming is not yet implemented in M0 baseline".

Definition stream_operation_events (caller : Caller) (operation_id : uuid)
    (last_event_id : option string) : M unit :=
  rel ← select_one releases (fun r => rel_id r =?= operation_id);
  match rel with
  | Some rel =>
      authorize_workspace_access caller (rel_workspace_id rel) VIEWER "Operation not found" ;; mret tt
  | None =>
      job ← select_one jobs (fun j => job_id j =?= operation_id);
      match job with
      | Some job =>
          authorize_workspace_access caller (job_workspace_id job) VIEWER "Operation not found" ;; mret tt
      | None => raise operation_not_found
      end
  end ;;
  raise not_streaming.

(** ** The audit trail *)

Definition audit_item (ev : AuditEvent) : AuditEventItem :=
  mkAuditEventItem (aud_id ev) (aud_workspace_id ev) (aud_actor_subject ev) (aud_action ev)
    (aud_target_type ev) (aud_target_id ev) (aud_result ev) (dict_items (aud_details_json ev))
    (aud_created_at ev).

(** The rows the listing selects before the cursor; an empty action selects all. *)
Definition audit_rows (w : uuid) (action : option string) (db : Db) : list AuditEvent :=
  where_ (fun ev => (aud_workspace_id ev =?= Some w)
    && match action with
       | Some a => if truthy a then aud_action ev =?= a else true
       | None => true
       end) (audit_events db).

Section Listing.
Context (fromisoformat : string -> option IsoDateTime).

(** Unlike the other listings this one decodes an empty cursor. *)
Definition list_workspace_audit_events (caller : Caller) (w : uuid) (limit : Z)
    (cursor action : option string) : M AuditEventListResponse :=
  authorize_workspace_access caller w ADMIN "Workspace not found" ;;
  position ← match cursor with
             | Some c => p ← decode_cursor fromisoformat c; mret (Some p)
             | None => mret None
             end;
  '(rows, next_cursor) ← query (fun db =>
     page_of aud_created_at aud_id (audit_rows w action db) limit position);
  mret (mkAuditEventList (map audit_item rows) next_cursor).

#[export] Instance keeps_list_audit c w l cur a : Keeps (list_workspace_audit_events c w l cur a).
Proof. unfold list_workspace_audit_events. solve_keeps. Qed.
End Listing.

(** ** Properties *)

Lemma release_status_known st : operation_status_of (release_status_value st) <> None.
Proof. by destruct st. Qed.
Lemma job_state_known st : operation_status_of (job_state_value st) <> None.
Proof. by destruct st. Qed.

Lemma operation_status_of_value v st : operation_status_of v = Some st -> operation_status_value st = v.
Proof. unfold operation_status_of. intros H. apply List.find_some in H as [_ H]. by bool_hyps. Qed.

#[export] Instance still_status_of_value v : Still (status_of_value v).
Proof. unfold status_of_value. apply _. Qed.
#[export] Instance still_get_operation_status c id : Still (get_operation_status c id).
Proof. unfold get_operation_status. solve_still. Qed.
#[export] Instance still_stream_operation_events c id l : Still (stream_operation_events c id l).
Proof. unfold stream_operation_events. solve_still. Qed.

(** A key of a table selects at most one row. *)
Lemma where_key_cases {A K} `{EqDecision K} (key : A -> K) k (l : list A) :
  NoDup (map key l) ->
  (where_ (fun r => key r =?= k) l = [] /\ (forall r, r ∈ l -> key r <> k))
  \/ exists r, where_ (fun r => key r =?= k) l = [r] /\ r ∈ l /\ key r = k.
Proof.
  intros Hnd. destruct (where_ (fun r => key r =?= k) l) as [|r rest] eqn:E.
  - left. split; [done|]. intros r Hr. pose proof (proj1 (where_nil_iff _ l) E r Hr) as Hk. cbv beta in Hk. by bool_hyps.
  - right. assert (r ∈ where_ (fun r => key r =?= k) l) as Hr by (rewrite E; left).
    apply elem_of_where in Hr as [Hr Hk]. bool_hyps. subst k. exists r.
    rewrite (where_key_unique key l r Hnd Hr) in E. injection E as <-. done.
Qed.

Lemma integrity_table_key {A K} `{EqDecision K} (key : A -> K) (table : Db -> list A) name db :
  integrity db -> (name, unique key (table db)) ∈ constraints db -> NoDup (map key (table db)).
Proof. intros Hi Hin. pose proof (integrity_constraint db _ _ Hi Hin) as H. unfold unique in H. by bool_hyps. Qed.

(** Any member may read; a caller without a membership gets the 404. *)
Lemma access_viewer db caller w detail :
  integrity db ->
  (exists m, access db caller w VIEWER detail = Ok m /\ m ∈ memberships db
     /\ wm_workspace_id m = w /\ wm_user_subject m = subject caller)
  \/ (access db caller w VIEWER detail = Err (http_error 404 detail) /\ stranger db caller w).
Proof.
  intros Hi.
  assert (NoDup (map (fun m => (wm_workspace_id m, wm_user_subject m)) (memberships db))) as Hnd.
  { apply (integrity_table_key _ memberships "uq_workspace_membership_user" db Hi). unfold constraints. set_solver. }
  assert (forall m, is_membership_of w (subject caller) m
            = ((wm_workspace_id m, wm_user_subject m) =?= (w, subject caller))) as Hext.
  { intros m. unfold is_membership_of. repeat case_bool_decide; simpl; congruence. }
  unfold access, stranger.
  replace (where_ (is_membership_of w (subject caller)) (memberships db))
    with (where_ (fun m => (wm_workspace_id m, wm_user_subject m) =?= (w, subject caller)) (memberships db))
    by (symmetry; apply List.filter_ext, Hext).
  destruct (where_key_cases _ (w, subject caller) _ Hnd) as [[-> Hno]|(m & -> & Hm & Hk)].
  - right. split; [done|]. intros m Hm. rewrite Hext. apply bool_decide_eq_false. by apply Hno.
  - left. injection Hk as Hw Hs. exists m. by destruct (wm_role m).
Qed.

(** What an operation id names: a release, or a job when no release has the id. *)
Inductive names_operation (db : Db) (id : uuid) : OperationKind -> uuid -> string -> time -> Prop :=
| names_release r : r ∈ releases db -> rel_id r = id ->
    names_operation db id OPERATION_RELEASE (rel_workspace_id r) (release_status_value (rel_status r))
      (rel_created_at r)
| names_job j : (forall r, r ∈ releases db -> rel_id r <> id) -> j ∈ jobs db -> job_id j = id ->
    names_operation db id OPERATION_JOB (job_workspace_id j) (job_state_value (job_state j))
      (job_created_at j).

Lemma known_status v detail caller w db (k : OperationStatus -> OperationStatusResponse) e :
  integrity db -> operation_status_of v <> None ->
  (exists m st, operation_status_value st = v /\ m ∈ memberships db /\ wm_workspace_id m = w
    /\ wm_user_subject m = subject caller
    /\ (authorize_workspace_access caller w VIEWER detail ;; st ← status_of_value v; mret (k st))
         e (open_session db) = (Ok (k st), open_session db))
  \/ (stranger db caller w
    /\ (authorize_workspace_access caller w VIEWER detail ;; st ← status_of_value v; mret (k st))
         e (open_session db) = (Err (http_error 404 detail), open_session db)).
Proof.
  intros Hi Hv. destruct (access_viewer db caller w detail Hi) as [(m & Ha & Hm)|[Ha Hs]].
  - left. destruct (operation_status_of v) as [st|] eqn:E; [|done]. exists m, st.
    split; [by apply operation_status_of_value|]. destruct Hm as (? & ? & ?). do 3 (split; [done|]).
    erewrite bind_ok by (rewrite authorize_spec, view_open; by rewrite Ha).
    unfold status_of_value. by rewrite E.
  - right. split; [done|]. erewrite bind_err by (rewrite authorize_spec, view_open; by rewrite Ha). done.
Qed.

(** The status endpoint reports exactly the release or job its id names, with the value of
    its stored status, to any member of its workspace; to anybody else it answers as for
    a missing operation.  It never fails otherwise and changes nothing. *)
Theorem operation_status_exact caller id e db :
  integrity db ->
  let '(result, db') := run (get_operation_status caller id) e db in
  db' = db /\
  match result with
  | Ok r => exists w value created, names_operation db id (op_operation_kind r) w value created
      /\ (exists m, m ∈ memberships db /\ wm_workspace_id m = w /\ wm_user_subject m = subject caller)
      /\ op_operation_id r = id /\ operation_status_value (op_status r) = value
      /\ op_status_url r = "/v1/operations/" +:+ uuid_str id /\ op_created_at r = Some created
  | Err x => x = http_error 404 "Operation not found"
      /\ forall kind w value created, names_operation db id kind w value created -> stranger db caller w
  end.
Proof.
  intros Hi. unfold run, get_operation_status.
  assert (NoDup (map rel_id (releases db))) as Hrels
    by (apply (integrity_table_key _ releases "releases_pkey" db Hi); unfold constraints; set_solver).
  assert (NoDup (map job_id (jobs db))) as Hjobs
    by (apply (integrity_table_key _ jobs "jobs_pkey" db Hi); unfold constraints; set_solver).
  erewrite bind_step by apply select_one_spec. rewrite view_open.
  destruct (where_key_cases rel_id id _ Hrels) as [[-> Hno]|(r & -> & Hr & Hid)]; simpl one_or_none; cbv iota.
  - erewrite bind_step by apply select_one_spec. rewrite view_open.
    destruct (where_key_cases job_id id _ Hjobs) as [[-> Hnoj]|(j & -> & Hj & Hid)]; simpl one_or_none; cbv iota.
    + split; [done|]. split; [done|]. intros ? ? ? ? [r Hr Hid|j _ Hj Hid]; [by destruct (Hno r)|by destruct (Hnoj j)].
    + destruct (known_status (job_state_value (job_state j)) "Operation not found" caller (job_workspace_id j) db
        (fun st => mkOperationStatus (job_id j) OPERATION_JOB st (operation_url (job_id j)) (Some (job_created_at j)) None)
        e Hi (job_state_known _)) as [(m & st & Hst & Hm & Hw & Hs & ->)|[Hs ->]]; simpl; split; try done.
      * do 3 eexists. split; [by apply names_job|]. split; [by exists m|]. unfold operation_url. by rewrite Hid.
      * split; [done|]. intros ? ? ? ? [r Hr Hid'|j' _ Hj' Hid']; [by destruct (Hno r)|].
        by rewrite (NoDup_map_inj job_id (jobs db) j' j Hjobs Hj' Hj) by congruence.
  - destruct (known_status (release_status_value (rel_status r)) "Operation not found" caller (rel_workspace_id r) db
      (fun st => mkOperationStatus (rel_id r) OPERATION_RELEASE st (operation_url (rel_id r)) (Some (rel_created_at r)) None)
      e Hi (release_status_known _)) as [(m & st & Hst & Hm & Hw & Hs & ->)|[Hs ->]]; simpl; split; try done.
    + do 3 eexists. split; [by apply names_release|]. split; [by exists m|]. unfold operation_url. by rewrite Hid.
    + split; [done|]. intros ? ? ? ? [r' Hr' Hid'|j Hno _ _]; [|by destruct (Hno r)].
      by rewrite (NoDup_map_inj rel_id (releases db) r' r Hrels Hr' Hr) by congruence.
Qed.

Lemma operation_status_exact_witness :
  let db := on_jobs (fun _ => [mkJob 9%N sample_workspace "job" "sha256:x" [] [] 60 0 0 RUNNING 5 5])
              (sample_db VIEWER) in
  let '(result, db') := run (get_operation_status alice 9%N) sample_env db in
  (exists r, result = Ok r /\ op_status r = OS_RUNNING) /\ db' = db
  /\ exists value created, names_operation db 9%N OPERATION_JOB sample_workspace value created.
Proof.
  intros db. assert (integrity db) as Hi by (apply (bool_decide_unpack _); by vm_compute).
  pose proof (operation_status_exact alice 9%N sample_env db Hi) as H.
  destruct (run (get_operation_status alice 9%N) sample_env db) as [result db'] eqn:E.
  assert (exists r, result = Ok r /\ op_status r = OS_RUNNING /\ op_operation_kind r = OPERATION_JOB) as (r & -> & Hst & Hk).
  { apply (f_equal fst) in E. vm_compute in E. simpl in E. subst result. by eexists. }
  destruct H as (-> & w & value & created & Hn & (m & Hm & Hw & _) & _). rewrite Hk in Hn.
  split; [by exists r|]. split; [done|]. exists value, created.
  apply list_elem_of_singleton in Hm as ->. simpl in Hw. by subst w.
Defined.
