(* ===== verification/Main.v ===== *)
(** * The HTTP application ([main.py])

    The middleware that identifies, traces and measures every request, the three
    exception handlers that turn a failure into an error response, the probes and
    the metrics endpoint.  FastAPI's routing is a function argument: the endpoint a
    request reaches, with the status code of its success.  Headers the framework adds
    to a response (its content type and length, CORS) are left out. *)

From S2P Require Import Prelude PyStr Uuid Json Models Config Session Sample Auth Handlers.
From S2P Require Import Binary64 Telemetry.
From Stdlib Require Import Ascii String.

(** ** Error responses ([schemas/common.py]) *)

Inductive ErrorCode :=
| VALIDATION_ERROR | UNAUTHORIZED | FORBIDDEN | NOT_FOUND | METHOD_NOT_ALLOWED | CONFLICT
| IDEMPOTENCY_CONFLICT | BAD_REQUEST | SERVICE_UNAVAILABLE | NOT_IMPLEMENTED
| INTERNAL_SERVER_ERROR | IMAGE_POLICY_VIOLATION | RATE_LIMITED | QUOTA_EXCEEDED.

Definition error_code_value (c : ErrorCode) : string :=
  match c with
  | VALIDATION_ERROR => "VALIDATION_ERROR" | UNAUTHORIZED => "UNAUTHORIZED"
  | FORBIDDEN => "FORBIDDEN" | NOT_FOUND => "NOT_FOUND"
  | METHOD_NOT_ALLOWED => "METHOD_NOT_ALLOWED" | CONFLICT => "CONFLICT"
  | IDEMPOTENCY_CONFLICT => "IDEMPOTENCY_CONFLICT" | BAD_REQUEST => "BAD_REQUEST"
  | SERVICE_UNAVAILABLE => "SERVICE_UNAVAILABLE" | NOT_IMPLEMENTED => "NOT_IMPLEMENTED"
  | INTERNAL_SERVER_ERROR => "INTERNAL_SERVER_ERROR"
  | IMAGE_POLICY_VIOLATION => "IMAGE_POLICY_VIOLATION" | RATE_LIMITED => "RATE_LIMITED"
  | QUOTA_EXCEEDED => "QUOTA_EXCEEDED"
  end.

Definition error_codes : list ErrorCode :=
  [VALIDATION_ERROR; UNAUTHORIZED; FORBIDDEN; NOT_FOUND; METHOD_NOT_ALLOWED; CONFLICT;
   IDEMPOTENCY_CONFLICT; BAD_REQUEST; SERVICE_UNAVAILABLE; NOT_IMPLEMENTED; INTERNAL_SERVER_ERROR;
   IMAGE_POLICY_VIOLATION; RATE_LIMITED; QUOTA_EXCEEDED].

(** [ErrorCode(value)] for a value in [ErrorCode.__members__]: names and values agree. *)
Definition error_code_of (value : string) : option ErrorCode :=
  List.find (fun c => error_code_value c =?= value) error_codes.

Record ErrorResponse := mkErrorResponse {
  er_error_code : ErrorCode; er_message : string; er_correlation_id : string;
  er_details : option (list (string * json)) }.

Inductive body (A : Type) := Content (a : A) | ErrorBody (r : ErrorResponse).
Arguments Content {A} a.
Arguments ErrorBody {A} r.

Record Response (A : Type) := mkResponse {
  status_code : Z; headers : list (string * string); content : body A }.
Arguments mkResponse {A} _ _ _.
Arguments status_code {A} _.
Arguments headers {A} _.
Arguments content {A} _.

(** [request.state], set by the middleware. *)
Record RequestState := mkRequestState {
  rs_correlation_id : string; rs_trace_id : string; rs_traceparent : string }.

Definition trace_headers (st : RequestState) : list (string * string) :=
  [("X-Correlation-ID", rs_correlation_id st)]
  ++ (if truthy (rs_trace_id st) then [("X-Trace-ID", rs_trace_id st)] else [])
  ++ (if truthy (rs_traceparent st) then [("traceparent", rs_traceparent st)] else []).

Section Application.
(** [str] of a JSON value that is neither a string nor a scalar. *)
Context (py_repr : json -> string).
(** [jsonable_encoder(exc.errors())] of a request that does not validate. *)
Context (validation_errors : string -> json).

(** ** Exception handlers *)

Definition validation_exception_handler {A} (st : RequestState) (msg : string) : Response A :=
  mkResponse 422 (trace_headers st)
    (ErrorBody (mkErrorResponse VALIDATION_ERROR "Request validation failed" (rs_correlation_id st)
       (Some [("errors", validation_errors msg)]))).

(** The code for a status without a code of its own in the detail. *)
Definition error_code_of_status (status : Z) : ErrorCode :=
  if status =? 400 then BAD_REQUEST
  else if status =? 405 then METHOD_NOT_ALLOWED
  else if status =? 401 then UNAUTHORIZED
  else if status =? 403 then FORBIDDEN
  else if status =? 404 then NOT_FOUND
  else if status =? 409 then CONFLICT
  else if status =? 422 then VALIDATION_ERROR
  else if status =? 429 then RATE_LIMITED
  else if status =? 501 then NOT_IMPLEMENTED
  else if status =? 503 then SERVICE_UNAVAILABLE
  else INTERNAL_SERVER_ERROR.

(** The custom code of a detail; the codes of the program are strings. *)
Definition custom_error_code (detail : json) : option ErrorCode :=
  match detail with
  | JDict kvs =>
      match dict_get "error_code" kvs with
      | Some (JStr s) => if truthy s then error_code_of s else None
      | _ => None
      end
  | _ => None
  end.

Definition http_exception_handler {A} (st : RequestState) (status : Z) (detail : json)
    (exc_headers : list (string * string)) : Response A :=
  let message := match detail with
                 | JDict kvs => py_str py_repr (dict_get_or "message" (JStr "An error occurred") kvs)
                 | _ => py_str py_repr detail
                 end in
  let details := match detail with
                 | JDict kvs =>
                     match where_ (fun kv => negb (in_ kv.1 ["message"; "error_code"])) kvs with
                     | [] => None
                     | rest => Some rest
                     end
                 | _ => None
                 end in
  let error_code := match custom_error_code detail with
                    | Some c => c
                    | None => error_code_of_status status
                    end in
  mkResponse status (dict_update (trace_headers st) exc_headers)
    (ErrorBody (mkErrorResponse error_code message (rs_correlation_id st) details)).

Definition unhandled_exception_handler {A} (st : RequestState) : Response A :=
  mkResponse 500 (trace_headers st)
    (ErrorBody (mkErrorResponse INTERNAL_SERVER_ERROR "An unexpected internal platform error occurred."
       (rs_correlation_id st) None)).

(** ** The middleware *)

Record HttpRequest := mkHttpRequest {
  path : string; h_correlation_id : option string; h_traceparent : option string;
  h_trace_id : option string }.

(** The state of the process: the database and the collector. *)
Record App := mkApp { app_db : Db; collector : TelemetryCollector }.

(** [try: m except Exception]: the outcome as a value. *)
Definition attempt {A} (m : M A) : M (outcome A) := fun e s => let '(o, s') := m e s in (Ok o, s').

(** The rest of the request runs with its trace in the context. *)
Definition in_trace (st : RequestState) (e : Env) : Env :=
  mkEnv (settings e) (clock e) (entropy e) (nonces e) (sha256_hex e) (redis e)
    (get_trace_context (rs_correlation_id st) (rs_trace_id st) (rs_traceparent st))
    (rivals_lock e) (rivals_commit e).
Definition set_trace_context {A} (st : RequestState) (m : M A) : M A := fun e s => m (in_trace st e) s.

Definition identify (req : HttpRequest) : M RequestState :=
  correlation_id ← match h_correlation_id req with
                   | Some c => if truthy c then mret c else u ← uuid4; mret ("req_" +:+ uuid_hex u)
                   | None => u ← uuid4; mret ("req_" +:+ uuid_hex u)
                   end;
  '(trace_id, tp) ← parse_or_create_traceparent (h_traceparent req) (h_trace_id req);
  mret (mkRequestState correlation_id trace_id tp).

(** The response of the inner application and whether it reaches the middleware: an
    exception without a handler passes it by and is answered outside of it. *)
Definition inner_response {A} (success_status : A -> Z) (st : RequestState) (o : outcome A) : Response A * bool :=
  match o with
  | Ok a => (mkResponse (success_status a) [] (Content a), true)
  | Err (HTTPException status detail exc_headers) => (http_exception_handler st status detail exc_headers, true)
  | Err (RequestValidationError msg) => (validation_exception_handler st msg, true)
  | Err _ => (unhandled_exception_handler st, false)
  end.

Definition correlation_id_middleware {A} (req : HttpRequest) (success_status : A -> Z) (duration_ms : float)
    (m : M A) (e : Env) (a : App) : outcome (Response A) * App :=
  let '(o, db) := run (st ← identify req; o ← attempt (set_trace_context st m); mret (st, o)) e (app_db a) in
  match o with
  | Err x => (Err x, mkApp db (collector a))
  | Ok (st, o) =>
      let '(r, handled) := inner_response success_status st o in
      if handled then
        let c := if path req <?> "/metrics" then record_request (status_code r) duration_ms (collector a)
                 else collector a in
        (Ok (mkResponse (status_code r)
               (dict_set "traceparent" (rs_traceparent st)
                  (dict_set "X-Trace-ID" (rs_trace_id st)
                     (dict_set "X-Correlation-ID" (rs_correlation_id st) (headers r))))
               (content r)),
         mkApp db c)
      else (Ok r, mkApp db (collector a))
  end.
End Application.

(** ** Probes and metrics *)

Record HealthResponse := mkHealth { hr_status : string; hr_version : string; hr_timestamp : time }.
Record ReadinessResponse := mkReadiness {
  rr_ready : bool; rr_database : bool; rr_redis : bool; rr_timestamp : time }.

Definition healthz (version : string) : M HealthResponse :=
  now ← datetime_now; mret (mkHealth "ok" version now).

(** [select_1]: the scalar of [SELECT 1], [None] when it raises; [ping]: the answer of the
    Redis client, [None] when there is no client or it raises. *)
Definition readyz (select_1 : option Z) (ping : option bool) : M ReadinessResponse :=
  let db_ok := match select_1 with Some n => n =? 1 | None => false end in
  let redis_ok := match ping with Some b => b | None => false end in
  guard (negb (db_ok && redis_ok))
    (HTTPException 503 (JDict [("message", JStr "Platform dependencies are not ready");
       ("database", JBool db_ok); ("redis", JBool redis_ok)]) []) ;;
  now ← datetime_now;
  mret (mkReadiness true db_ok redis_ok now).

Definition prometheus_metrics (float_repr : float -> string) (c : TelemetryCollector) : M string :=
  data ← collect_metrics c None;
  mret (render_prometheus float_repr data).

(** ** Properties *)

(** [m] only draws random numbers and returns. *)
Definition draws_only {A} (m : M A) : Prop := forall e s, exists a n, m e s = (Ok a, drawn n s).

Lemma draws_ret {A} (a : A) : draws_only (mret a).
Proof. intros e s. exists a, O. by destruct s. Qed.
Lemma draws_uuid4 : draws_only uuid4.
Proof. intros e s. eexists _, 1%nat. apply uuid4_spec. Qed.
Lemma draws_bind {A B} (m : M A) (f : A -> M B) :
  draws_only m -> (forall a, draws_only (f a)) -> draws_only (m ≫= f).
Proof.
  intros Hm Hf e s. destruct (Hm e s) as (a & n & Ha). destruct (Hf a e (drawn n s)) as (b & k & Hb).
  exists b, (k + n)%nat. erewrite bind_ok by exact Ha. rewrite Hb. unfold drawn. simpl. f_equal. f_equal. lia.
Qed.

Lemma draws_identify req : draws_only (identify req).
Proof.
  unfold identify, parse_or_create_traceparent, new_span_id.
  repeat first [apply draws_ret | apply draws_uuid4 | apply draws_bind; intros | case_match].
Qed.

Lemma identify_correlation req e s st s' c :
  identify req e s = (Ok st, s') -> h_correlation_id req = Some c -> truthy c = true ->
  rs_correlation_id st = c.
Proof.
  unfold identify. intros H Hc Ht. rewrite Hc, Ht in H. erewrite bind_ok in H by reflexivity.
  apply bind_ok_inv in H as ([t tp] & s1 & _ & H). rewrite ret_spec in H. by injection H as <- _.
Qed.

(** The exceptions a handler of the application answers inside the middleware. *)
Definition handled_exn (x : exn) : bool :=
  match x with HTTPException _ _ _ | RequestValidationError _ => true | _ => false end.

(** The status of an error response. *)
Definition exn_status (x : exn) : Z :=
  match x with HTTPException status _ _ => status | RequestValidationError _ => 422 | _ => 500 end.

Definition counted {A} (o : outcome A) : bool := match o with Ok _ => true | Err x => handled_exn x end.

Definition outcome_status {A} (success_status : A -> Z) (o : outcome A) : Z :=
  match o with Ok a => success_status a | Err x => exn_status x end.

Lemma error_codes_complete c : error_code_of (error_code_value c) = Some c.
Proof. by destruct c. Qed.

Lemma dict_get_trace_headers st :
  dict_get "X-Correlation-ID" (trace_headers st) = Some (rs_correlation_id st).
Proof. unfold trace_headers. by destruct (truthy _), (truthy _). Qed.

Section Contract.
Context (py_repr : json -> string) (validation_errors : string -> json).

(** The answer to a failed request: the status of its exception and an error body under
    the request's correlation id; an exception without a handler says nothing more. *)
Definition error_body {A} (st : RequestState) (x : exn) (r : Response A) : Prop :=
  exists er, content r = ErrorBody er /\ er_correlation_id er = rs_correlation_id st
    /\ (handled_exn x = false ->
        er = mkErrorResponse INTERNAL_SERVER_ERROR "An unexpected internal platform error occurred."
               (rs_correlation_id st) None)
    /\ (forall status detail hs code, x = HTTPException status detail hs ->
        custom_error_code detail = Some code -> er_error_code er = code).

Lemma inner_response_spec {A} (success_status : A -> Z) st (o : outcome A) :
  let '(r, handled) := inner_response py_repr validation_errors success_status st o in
  handled = counted o /\ status_code r = outcome_status success_status o
  /\ (handled = false -> headers r = trace_headers st)
  /\ match o with Ok a => content r = Content a | Err x => error_body st x r end.
Proof.
  destruct o as [a|x]; [done|].
  destruct x; simpl; (split; [done|]); (split; [done|]); (split; [done|]);
    (eexists; split; [reflexivity|]; split; [done|]; split; [done|]); try done.
  intros ? ? ? code [= -> -> ->] Hc. simpl. by rewrite Hc.
Qed.

(** The request's identity and the session its handler starts from. *)
Lemma middleware_step {A} (m : M A) req success_status duration_ms e a :
  exists st n,
    let s0 := drawn n (open_session (app_db a)) in
    (forall c, h_correlation_id req = Some c -> truthy c = true -> rs_correlation_id st = c)
    /\ correlation_id_middleware py_repr validation_errors req success_status duration_ms m e a =
      (let '(o, s) := set_trace_context st m e s0 in
       let '(r, handled) := inner_response py_repr validation_errors success_status st o in
       if handled then
         (Ok (mkResponse (status_code r)
                (dict_set "traceparent" (rs_traceparent st)
                   (dict_set "X-Trace-ID" (rs_trace_id st)
                      (dict_set "X-Correlation-ID" (rs_correlation_id st) (headers r))))
                (content r)),
          mkApp (committed s) (if path req <?> "/metrics"
                               then record_request (status_code r) duration_ms (collector a)
                               else collector a))
       else (Ok r, mkApp (committed s) (collector a))).
Proof.
  destruct (draws_identify req e (open_session (app_db a))) as (st & n & Hid). exists st, n.
  split; [intros c Hreq Ht; by eapply identify_correlation|].
  unfold correlation_id_middleware, run. erewrite (bind_ok (identify req)) by exact Hid.
  unfold attempt. destruct (set_trace_context st m e (drawn n (open_session (app_db a)))) as [o s'] eqn:Hm.
  erewrite bind_ok by (by rewrite Hm). cbn [fst snd mret M_ret].
  by destruct (inner_response _ _ success_status st o) as [r []].
Qed.

(** A request changes the database by its handler alone. *)
Lemma middleware_database {A} (m : M A) req success_status duration_ms e a :
  exists st n, app_db (correlation_id_middleware py_repr validation_errors req success_status duration_ms m e a).2
    = committed (set_trace_context st m e (drawn n (open_session (app_db a)))).2.
Proof.
  destruct (middleware_step m req success_status duration_ms e a) as (st & n & _ & ->). exists st, n.
  destruct (set_trace_context _ _ _ _) as [o s]. by destruct (inner_response _ _ _ _ o) as [r []].
Qed.

(** C19: Whatever its handler does, every request is answered: a result with the success
    status, or an error response with the status of the exception and the request's
    correlation id, which is the caller's when it sent one.  The database is what
    the handler committed, run under the request's trace.  A request is counted in
    the telemetry unless it reads /metrics or fails with an exception that has no
    handler, whose answer never depends on the exception. *)
Theorem middleware_contract {A} (m : M A) req success_status duration_ms e a :
  exists st s0 r a',
    correlation_id_middleware py_repr validation_errors req success_status duration_ms m e a = (Ok r, a')
    /\ committed s0 = app_db a /\ writes s0 = [] /\ staged s0 = []
    /\ (forall c, h_correlation_id req = Some c -> truthy c = true -> rs_correlation_id st = c)
    /\ dict_get "X-Correlation-ID" (headers r) = Some (rs_correlation_id st)
    /\ (let o := (set_trace_context st m e s0).1 in
        status_code r = outcome_status success_status o
        /\ match o with Ok v => content r = Content v | Err x => error_body st x r end
        /\ app_db a' = committed (set_trace_context st m e s0).2
        /\ collector a' = if counted o && (path req <?> "/metrics")
                          then record_request (status_code r) duration_ms (collector a) else collector a).
Proof.
  destruct (middleware_step m req success_status duration_ms e a) as (st & n & Hcor & ->).
  exists st, (drawn n (open_session (app_db a))).
  destruct (set_trace_context st m e _) as [o s']. cbn [fst snd].
  pose proof (inner_response_spec success_status st o) as Hr.
  destruct (inner_response _ _ success_status st o) as [r handled]. destruct Hr as (-> & Hs & Hh & Hc).
  destruct (counted o); do 2 eexists; (split; [reflexivity|]); do 3 (split; [done|]); (split; [exact Hcor|]).
  - split; [cbn [headers]; by rewrite !dict_get_set|]. do 2 (split; [done|]). split; [done|].
    cbn [collector status_code andb]. by destruct (path req <?> "/metrics").
  - split; [rewrite Hh by done; apply dict_get_trace_headers|]. do 2 (split; [done|]). done.
Qed.
End Contract.
