(* ===== verification/OpenApi.v ===== *)
(** * The served API document ([main.py])

    [custom_openapi] on the document FastAPI generates, which is its code and an argument
    here: the document is generated once, the two headers that carry the caller's identity
    are taken out of the parameters of every operation, and the result is kept. *)

From S2P Require Import Prelude PyStr Uuid Json Config.
From Stdlib Require Import String.

(** The URLs of the document and of its two renderings: in development only. *)
Definition document_urls (c : Settings) (API_V1_PREFIX : string) : list string :=
  if is_development c then
    [API_V1_PREFIX +:+ "/openapi.json"; API_V1_PREFIX +:+ "/docs"; API_V1_PREFIX +:+ "/redoc"]
  else [].

Definition STRIPPED_PARAMETERS : list string := ["X-Dev-Subject"; "Authorization"].

(** [isinstance(p, dict) and p.get("name") in (...)]. *)
Definition is_stripped (p : json) : bool :=
  match p with
  | JDict kvs => match dict_get "name" kvs with Some (JStr n) => in_ n STRIPPED_PARAMETERS | _ => false end
  | _ => false
  end.

Fixpoint characters (s : string) : list json :=
  match s with EmptyString => [] | String c s' => JStr (String c "") :: characters s' end.

(** Iteration over a value; [None] is the [TypeError]. *)
Definition elements (v : json) : option (list json) :=
  match v with
  | JList l => Some l
  | JStr s => Some (characters s)
  | JDict kvs => Some (map (fun kv => JStr kv.1) kvs)
  | _ => None
  end.

(** One value of a path item: an operation, if it is a dictionary. *)
Definition strip_operation (operation : json) : option json :=
  match operation with
  | JDict kvs =>
      match dict_get "parameters" kvs with
      | Some ps =>
          l ← elements ps;
          Some (JDict (dict_set "parameters" (JList (List.filter (fun p => negb (is_stripped p)) l)) kvs))
      | None => Some operation
      end
  | _ => Some operation
  end.

(** Every value of a dictionary, in place. *)
Definition each_value (f : json -> option json) (kvs : list (string * json)) : option (list (string * json)) :=
  mapM (fun kv => v ← f kv.2; Some (kv.1, v)) kvs.

Definition strip_path_item (path_item : json) : option json :=
  match path_item with
  | JDict kvs => JDict <$> each_value strip_operation kvs
  | _ => Some path_item
  end.

(** [openapi_schema.get("paths", {}).values()]; [None] is the [AttributeError]. *)
Definition strip_schema (schema : list (string * json)) : option (list (string * json)) :=
  match dict_get "paths" schema with
  | None => Some schema
  | Some (JDict paths) => paths' ← each_value strip_path_item paths; Some (dict_set "paths" (JDict paths') schema)
  | Some _ => None
  end.

(** [custom_openapi()] with the document [app.openapi_schema] keeps: its answer, and what
    is kept from then on. *)
Definition custom_openapi (get_openapi : list (string * json)) (kept : option (list (string * json)))
    : option (list (string * json)) * option (list (string * json)) :=
  match kept with
  | Some ((_ :: _) as schema) => (Some schema, kept)
  | _ => match strip_schema get_openapi with Some s => (Some s, Some s) | None => (None, kept) end
  end.

(** ** What is served *)

Lemma each_value_get f kvs kvs' k :
  each_value f kvs = Some kvs' ->
  match dict_get k kvs with
  | Some v => exists v', f v = Some v' /\ dict_get k kvs' = Some v'
  | None => dict_get k kvs' = None
  end.
Proof.
  unfold each_value. rewrite mapM_Some. induction 1 as [|[k1 v1] [k2 v2] l l' Hf _ IH]; [done|]. cbn.
  apply bind_Some in Hf as (v & Hv & [= -> ->]). case_bool_decide; [by exists v2|done].
Qed.

(** The value under a method of a path item of a document. *)
Definition operation_at (schema : list (string * json)) (path method : string) : option json :=
  match dict_get "paths" schema with
  | Some (JDict paths) => match dict_get path paths with Some (JDict ops) => dict_get method ops | _ => None end
  | _ => None
  end.

(** The parameters of an operation. *)
Definition parameters (operation : json) : list json :=
  match operation with
  | JDict kvs => match dict_get "parameters" kvs with Some (JList l) => l | _ => [] end
  | _ => []
  end.

Lemma strip_schema_at get schema path method :
  strip_schema get = Some schema ->
  match operation_at get path method with
  | Some op => exists op', strip_operation op = Some op' /\ operation_at schema path method = Some op'
  | None => operation_at schema path method = None
  end.
Proof.
  unfold strip_schema, operation_at. intros Hs. destruct (dict_get "paths" get) as [v|] eqn:Hp; cycle 1.
  { injection Hs as <-. by rewrite Hp. }
  destruct v as [| | | | |paths]; try done. apply bind_Some in Hs as (paths' & Hps & [= <-]).
  rewrite dict_get_set, bool_decide_eq_true_2 by done.
  pose proof (each_value_get _ _ _ path Hps) as H1.
  destruct (dict_get path paths) as [item|]; [|by rewrite H1]. destruct H1 as (item' & Hi & ->).
  destruct item as [| | | | |ops]; try by injection Hi as <-.
  apply fmap_Some in Hi as (ops' & Ho & ->). exact (each_value_get _ _ _ method Ho).
Qed.

Lemma kept_document get schema :
  schema <> [] -> custom_openapi get (Some schema) = (Some schema, Some schema).
Proof. by destruct schema. Qed.

(** The identity headers are not served, and nothing else is missing: if the generated
    document's parameters are lists, every operation is served under its path and method
    with exactly the parameters that do not carry the caller's identity, in their order,
    and its other items as generated; the document is kept, and served from then on
    whatever would be generated later. *)
Theorem identity_headers_not_served get schema path method kvs later :
  (custom_openapi get None).1 = Some schema -> schema <> [] ->
  operation_at get path method = Some (JDict kvs) ->
  match dict_get "parameters" kvs with Some (JList _) | None => True | _ => False end ->
  (exists kvs', operation_at schema path method = Some (JDict kvs')
     /\ parameters (JDict kvs') = List.filter (fun p => negb (is_stripped p)) (parameters (JDict kvs))
     /\ forall k, k <> "parameters" -> dict_get k kvs' = dict_get k kvs)
  /\ (custom_openapi later (custom_openapi get None).2).1 = Some schema.
Proof.
  intros Heq Hne Hop Hl. unfold custom_openapi at 1 in Heq.
  destruct (strip_schema get) as [s|] eqn:Hs; [|done]. injection Heq as ->.
  split; [|unfold custom_openapi at 2; rewrite Hs; cbn [snd]; by rewrite kept_document].
  pose proof (strip_schema_at _ _ path method Hs) as H. rewrite Hop in H. destruct H as (op' & Hst & ->).
  unfold strip_operation in Hst. unfold parameters.
  destruct (dict_get "parameters" kvs) as [[| | | |l|]|] eqn:Hps; try done; injection Hst as <-.
  - eexists. split; [done|]. rewrite dict_get_set, bool_decide_eq_true_2 by done. split; [done|].
    intros k Hk. by rewrite dict_get_set, bool_decide_eq_false_2.
  - exists kvs. by rewrite Hps.
Qed.

Lemma identity_headers_not_served_witness :
  let parameter name := JDict [("name", JStr name); ("in", JStr "header")] in
  let document ps := [("openapi", JStr "3.1.0"); ("paths", JDict [("/v1/workspaces", JDict [("post", JDict ps)])])] in
  let get := document [("parameters", JList [parameter "X-Dev-Subject"; parameter "Idempotency-Key"])] in
  let served := document [("parameters", JList [parameter "Idempotency-Key"])] in
  (custom_openapi get None).1 = Some served /\
  (custom_openapi [] (custom_openapi get None).2).1 = Some served.
Proof.
  intros parameter document get served. split; [reflexivity|].
  refine (proj2 (identity_headers_not_served get served "/v1/workspaces" "post" _ [] _ _ _ _)).
  - reflexivity.
  - done.
  - reflexivity.
  - exact I.
Defined.
