(* ===== verification/History.v ===== *)
(** * What every request respects

    A preorder on databases that every change staged or executed by a computation respects
    is respected by what it commits: the class [Grows], closed under the operations of a
    session, with its automation.  [Respects] is the interface between the handlers and
    whoever observes the database: the kinds of change the service makes.  Two orders have
    it: [extends], in which the audit trail, the releases' and the jobs' identities and the
    dead letters are only ever appended to, and [records_events], in which the outbox only
    gains unsent events. *)

From S2P Require Import Prelude PyStr Uuid Json Models Config Session Auth AuditLog Events Idempotency.
From S2P Require Import Quotas Gates Handlers.
From Stdlib Require Import String.

(** ** Changes that respect a preorder *)

Section Grows.
Context (R : relation Db) `{!PreOrder R}.

(** Every pending change of the session moves up in the order. *)
Definition monotone (s : Sess) : Prop :=
  Forall (fun w => forall d, R d (w d)) (writes s)
  /\ Forall (fun w => forall t d, R d (w t d)) (staged s).

Definition tame (e : Env) : Prop :=
  (forall d, R d (rivals_lock e d)) /\ (forall d, R d (rivals_commit e d)).

Class Grows {A} (m : M A) :=
  grows : forall e s, tame e -> monotone s ->
    monotone (m e s).2 /\ R (committed s) (committed (m e s).2).

Lemma apply_all_grows ws d : Forall (fun w => forall d, R d (w d)) ws -> R d (apply_all ws d).
Proof.
  intros H. revert d. unfold apply_all. induction H as [|w ws Hw _ IH]; intros d; simpl; [done|].
  etrans; [apply Hw|apply IH].
Qed.

Lemma grows_still {A} (m : M A) : Still m -> Grows m.
Proof. intros Hm e s _ Hs. by rewrite (Hm e s). Qed.

Lemma grows_bind {A B} (m : M A) (f : A -> M B) : Grows m -> (forall a, Grows (f a)) -> Grows (m ≫= f).
Proof.
  intros Hm Hf e s He Hs. destruct (Hm e s He Hs) as [H1 H2]. unfold mbind, M_bind.
  destruct (m e s) as [[a|x] s1]; [|done]. simpl in *. destruct (Hf a e s1 He H1) as [H3 H4].
  split; [done|]. by etrans.
Qed.

Lemma grows_catch {A} (m : M A) h : Grows m -> (forall c, Grows (h c)) -> Grows (catch_integrity m h).
Proof.
  intros Hm Hh e s He Hs. destruct (Hm e s He Hs) as [H1 H2]. unfold catch_integrity.
  destruct (m e s) as [[a|[]] s1]; try done. simpl in *.
  destruct (Hh constraint_name e s1 He H1) as [H3 H4]. split; [done|]. by etrans.
Qed.

Lemma grows_stage w : (forall t d, R d (w t d)) -> Grows (stage w).
Proof. intros Hw e s _ [H1 H2]. split; [|done]. split; [done|]. simpl. apply Forall_app_2; [done|by constructor]. Qed.
Lemma grows_execute w : (forall d, R d (w d)) -> Grows (execute w).
Proof. intros Hw e s _ [H1 H2]. split; [|done]. split; [|done]. simpl. apply Forall_app_2; [done|by constructor]. Qed.

Lemma grows_lock : Grows lock.
Proof. intros e s [He _] Hs. split; [exact Hs|apply He]. Qed.
Lemma grows_now : Grows datetime_now.
Proof. by intros e s _ Hs. Qed.
Lemma grows_uuid4 : Grows uuid4.
Proof. by intros e s _ Hs. Qed.
Lemma grows_lift {A} (o : outcome A) : Grows (lift o).
Proof. by intros e s _ Hs. Qed.
Lemma grows_rollback : Grows rollback.
Proof. intros e s _ Hs. split; [by split|done]. Qed.

Lemma monotone_flushed e s : monotone s -> monotone (flushed e s).
Proof.
  intros [H1 H2]. split; [|by constructor]. simpl. apply Forall_app_2; [done|].
  apply Forall_map. eapply list.Forall_impl; [exact H2|]. intros w Hw d. apply Hw.
Qed.

Lemma grows_flush : Grows flush.
Proof.
  intros e s _ Hs. rewrite flush_spec.
  destruct (negb _); [done|]. destruct (violated _); [done|]. split; [by apply monotone_flushed|done].
Qed.
Lemma grows_end_tx : Grows end_tx.
Proof. intros e s _ [H1 H2]. split; [by split|]. by apply apply_all_grows. Qed.
Lemma grows_commit : Grows commit.
Proof.
  apply grows_bind; [|intros _; apply grows_bind; [apply grows_flush|intros _; apply grows_end_tx]].
  intros e s [_ He] Hs. split; [exact Hs|apply He].
Qed.

(** A request moves the database up, whether it returns or raises. *)
Lemma grows_run {A} (m : M A) e db : Grows m -> tame e -> R db (run m e db).2.
Proof. intros Hm He. apply (Hm e (open_session db) He). by split. Qed.
End Grows.

(** ** Histories *)

(** What is fixed when a job or a release is created. *)
Definition job_facts (j : Job) :=
  (job_id j, job_workspace_id j, job_name j, job_image_digest j, job_command_args j, job_env_vars j,
   job_timeout_seconds j, job_max_retries j, job_created_at j).
Definition release_facts (r : Release) :=
  (rel_id r, rel_application_id r, rel_workspace_id r, rel_number r, rel_created_at r).

Record extends (d d' : Db) : Prop := {
  ext_audit : audit_events d `prefix_of` audit_events d';
  ext_jobs : map job_facts (jobs d) `prefix_of` map job_facts (jobs d');
  ext_releases : map release_facts (releases d) `prefix_of` map release_facts (releases d');
  ext_dead : dead_letters d `prefix_of` dead_letters d' }.

#[export] Instance extends_preorder : PreOrder extends.
Proof.
  split; [intros d; by split|].
  intros d1 d2 d3 [A1 A2 A3 A4] [B1 B2 B3 B4]. split; by etrans.
Qed.

(** ** What the service changes

    An order on databases that is respected by every kind of change the handlers make:
    what a handler promises to whoever observes the database.  An event is added unsent. *)

Definition unsent (ev : OutboxEvent) : Prop := ob_status ev = PENDING /\ ob_next_attempt_at ev = None.

Class Respects (R : relation Db) : Prop := {
  respects_workspaces g d : R d (on_workspaces g d);
  respects_memberships g d : R d (on_memberships g d);
  respects_applications g d : R d (on_applications g d);
  respects_reservations g d : R d (on_reservations g d);
  respects_idempotency g d : R d (on_idempotency g d);
  respects_secrets g d : R d (on_secrets g d);
  respects_repositories g d : R d (on_repositories g d);
  respects_deliveries g d : R d (on_deliveries g d);
  respects_audit l' d : R d (on_audit_events (fun l => l ++ l') d);
  respects_new_releases l' d : R d (on_releases (fun l => l ++ l') d);
  respects_new_jobs l' d : R d (on_jobs (fun l => l ++ l') d);
  respects_jobs P f d : (forall j, job_facts (f j) = job_facts j) -> R d (on_jobs (update_where P f) d);
  respects_event ev d : unsent ev -> R d (on_outbox (fun l => l ++ [ev]) d) }.

(** One change of the service, by its table. *)
Ltac solve_respects :=
  intros;
  first [ apply respects_workspaces | apply respects_memberships | apply respects_applications
        | apply respects_reservations | apply respects_idempotency | apply respects_secrets
        | apply respects_repositories | apply respects_deliveries | apply respects_audit
        | apply respects_new_releases | apply respects_new_jobs | by apply respects_jobs
        | by apply respects_event ].

#[export] Instance extends_respects : Respects extends.
Proof.
  split; intros; split; simpl; rewrite ?map_app, ?map_update_where by done;
    first [done | by apply prefix_app_r].
Qed.

(** The events recorded since, each as it was recorded. *)
Definition records_events (d d' : Db) : Prop := exists evs, outbox d' = outbox d ++ evs /\ Forall unsent evs.

#[export] Instance records_events_preorder : PreOrder records_events.
Proof.
  split; [intros d; exists []; by rewrite app_nil_r|].
  intros d1 d2 d3 (l & E & Hl) (l' & E' & Hl'). exists (l ++ l').
  rewrite E', E, app_assoc. split; [done|]. by apply Forall_app.
Qed.

#[export] Instance records_events_respects : Respects records_events.
Proof.
  split; intros; try (exists []; simpl; by rewrite app_nil_r). exists [ev]. by split; [|constructor].
Qed.

(** An event that was created is unsent when it is added. *)
Lemma grows_with_event R `{!PreOrder R} {A} w topic p h i (k : (time -> OutboxEvent) -> M A) :
  (forall mk, (forall t, unsent (mk t)) -> Grows R (k mk)) -> Grows R (create_outbox_event w topic p h i ≫= k).
Proof.
  intros Hk e s He Hs. destruct i; (eapply Hk; [|exact He|exact Hs]); by split.
Qed.

Lemma grows_add_outbox_event R `{!PreOrder R, !Respects R} mk :
  (forall t, unsent (mk t)) -> Grows R (add_outbox_event mk).
Proof. intros Hmk. apply (grows_stage R). solve_respects. Qed.

(** [Grows R m], by the structure of [m]. *)
Ltac solve_grows :=
  cbv zeta;
  lazymatch goal with
  | |- forall _, _ => intros; solve_grows
  | |- Grows ?R (mbind _ (create_outbox_event _ _ _ _ _)) => apply (grows_with_event R); solve_grows
  | |- Grows ?R (mbind _ _) => apply (grows_bind R); solve_grows
  | |- Grows _ (match ?x with _ => _ end) => destruct x; solve_grows
  | |- Grows ?R (catch_integrity _ _) => apply (grows_catch R); solve_grows
  | |- Grows ?R (stage _) => apply (grows_stage R); solve [solve_respects]
  | |- Grows ?R (execute _) => apply (grows_execute R); solve [solve_respects]
  | |- Grows ?R (add_outbox_event _) => by apply (grows_add_outbox_event R)
  | |- Grows ?R lock => apply (grows_lock R)
  | |- Grows ?R datetime_now => apply (grows_now R)
  | |- Grows ?R uuid4 => apply (grows_uuid4 R)
  | |- Grows ?R (lift _) => apply (grows_lift R)
  | |- Grows ?R rollback => apply (grows_rollback R)
  | |- Grows ?R flush => apply (grows_flush R)
  | |- Grows ?R commit => apply (grows_commit R)
  | |- Grows ?R _ =>
      first [assumption | solve [apply (grows_still R); solve_still] | solve [apply _]]
  | |- ?G => fail 100 "no growth lemma for" G
  end.

#[export] Instance grows_record_audit_event R `{!PreOrder R, !Respects R} w a b c d f :
  Grows R (record_audit_event w a b c d f).
Proof. unfold record_audit_event. solve_grows. Qed.
