(* ===== verification/Api.v ===== *)
(** * The API ([api/v1/router.py])

    Every route of the version 1 router as one request type, served through the
    middleware.  FastAPI's routing, validation of parameters and resolution of
    dependencies are its own code: a request carries the values they yield (the
    authenticated caller, the idempotency key, the validated payload). *)

From S2P Require Import Prelude PyStr Uuid Json Models DateTime Config Session Sample Auth.
From S2P Require Import AuditLog Events Idempotency Quotas Gates Handlers Pagination Jobs.
From S2P Require Import Workspaces Apps Webhooks Crypto Secrets Url Repositories Binary64.
From S2P Require Import Telemetry Operations Main History.
From Stdlib Require Import Ascii String.

(** ** Requests *)

Inductive UserRequest :=
| POST_workspaces (p : CreateWorkspaceRequest)
| GET_workspace (w : uuid)
| GET_members (w : uuid)
| POST_members (w : uuid) (p : UpsertWorkspaceMemberRequest)
| DELETE_member (w : uuid) (user : string)
| POST_apps (w : uuid) (p : CreateApplicationRequest)
| GET_apps (w : uuid) (limit : Z) (cursor : option string)
| GET_app (id : uuid)
| PATCH_app (id : uuid) (p : UpdateApplicationRequest)
| POST_deployments (id : uuid) (p : DeployReleaseRequest) (key : string)
| POST_rollbacks (id : uuid) (p : RollbackRequest) (key : string)
| POST_builds (id : uuid) (p : TriggerBuildRequest)
| GET_releases (id : uuid) (limit : Z) (cursor : option string)
| POST_jobs (w : uuid) (p : SubmitJobRequest) (key : string)
| GET_jobs (w : uuid) (limit : Z) (cursor : option string)
| GET_job (id : uuid)
| GET_job_output (id : uuid)
| POST_cancel (id : uuid) (key : string)
| POST_reruns (id : uuid) (key : string)
| GET_dead_letters (w : uuid) (limit : Z) (cursor : option string)
| GET_operation (id : uuid)
| GET_operation_events (id : uuid) (last_event_id : option string)
| POST_repositories (w : uuid) (p : CreateRepositoryRequest)
| GET_repositories (w : uuid) (limit : Z) (cursor : option string)
| GET_repository (id : uuid)
| POST_secrets (w : uuid) (p : UpsertSecretRequest)
| GET_secrets (w : uuid)
| DELETE_secret (w : uuid) (name : string)
| GET_quotas (w : uuid)
| GET_audit (w : uuid) (limit : Z) (cursor action : option string)
| GET_telemetry (w : uuid).

Inductive ApiRequest :=
| FromUser (caller : Caller) (r : UserRequest)
| FromGitHub (repository_id : uuid) (raw_body : string) (signature delivery : option string) (event : string).

(** What the routes take from outside the program. *)
Record Outside := mkOutside {
  o_fromisoformat : string -> option IsoDateTime;
  o_abspath : string -> string; o_repo_root : string; o_isfile : string -> bool;
  o_bracketed_ok : string -> bool;
  o_sha256 : string -> string;
  o_hmac_sha256_hex : string -> string -> string;
  o_json_loads : string -> json + string;
  o_py_repr : json -> string;
  o_validation_errors : string -> json }.

Section Api.
Context `{AEAD} (o : Outside).

(** [m] with the status code of its success. *)
Definition with_status {A} (m : M A) (status : Z) : M Z := m ;; mret status.

Definition user_route (collector : TelemetryCollector) (caller : Caller) (r : UserRequest) : M Z :=
  let iso := o_fromisoformat o in
  match r with
  | POST_workspaces p => with_status (create_workspace caller p) 201
  | GET_workspace w => with_status (get_workspace caller w) 200
  | GET_members w => with_status (list_workspace_members caller w) 200
  | POST_members w p => with_status (upsert_workspace_member caller w p) 201
  | DELETE_member w user => with_status (remove_workspace_member caller w user) 200
  | POST_apps w p => with_status (create_application caller w p) 201
  | GET_apps w limit cursor => with_status (list_workspace_applications iso caller w limit cursor) 200
  | GET_app id => with_status (get_application caller id) 200
  | PATCH_app id p => with_status (update_application caller id p) 200
  | POST_deployments id p key => with_status (deploy_release caller id p key) 202
  | POST_rollbacks id p key => with_status (rollback_release caller id p key) 202
  | POST_builds id p => with_status (trigger_build caller id p) 202
  | GET_releases id limit cursor => with_status (list_releases iso caller id limit cursor) 200
  | POST_jobs w p key => with_status (submit_job caller w p key) 202
  | GET_jobs w limit cursor => with_status (list_workspace_jobs iso caller w limit cursor) 200
  | GET_job id => with_status (get_job caller id) 200
  | GET_job_output id =>
      with_status (get_job_output (o_abspath o) (o_repo_root o) (o_isfile o) caller id) 200
  | POST_cancel id key => with_status (cancel_job caller id key) 202
  | POST_reruns id key => with_status (rerun_job caller id key) 202
  | GET_dead_letters w limit cursor =>
      with_status (list_workspace_dead_letter_records iso caller w limit cursor) 200
  | GET_operation id => with_status (get_operation_status caller id) 200
  | GET_operation_events id last => with_status (stream_operation_events caller id last) 501
  | POST_repositories w p => with_status (create_repository (o_bracketed_ok o) caller w p) 201
  | GET_repositories w limit cursor => with_status (list_repositories iso caller w limit cursor) 200
  | GET_repository id => with_status (get_repository caller id) 200
  | POST_secrets w p => with_status (upsert_workspace_secret (o_sha256 o) caller w p) 201
  | GET_secrets w => with_status (list_workspace_secrets caller w) 200
  | DELETE_secret w name => with_status (delete_workspace_secret caller w name) 204
  | GET_quotas w => with_status (get_workspace_quotas caller w) 200
  | GET_audit w limit cursor action =>
      with_status (list_workspace_audit_events iso caller w limit cursor action) 200
  | GET_telemetry w => with_status (get_workspace_telemetry collector caller w) 200
  end.

(** The webhook route chooses its status code. *)
Definition route (collector : TelemetryCollector) (r : ApiRequest) : M Z :=
  match r with
  | FromUser caller r => user_route collector caller r
  | FromGitHub repository_id raw_body signature delivery event =>
      reply ← handle_github_webhook (o_hmac_sha256_hex o) (o_json_loads o) repository_id raw_body
                signature delivery event;
      mret (wr_status_code reply)
  end.

(** A request served by the application. *)
Definition serve (r : HttpRequest * float * ApiRequest) (e : Env) (a : App) : App :=
  let '(req, duration_ms, r) := r in
  (correlation_id_middleware (o_py_repr o) (o_validation_errors o) req (fun status => status)
     duration_ms (route (collector a) r) e a).2.

(** ** Integrity *)

Lemma preserves_create_workspace c p : Preserves integrity (create_workspace c p).
Proof. unfold create_workspace. solve_preserves. Qed.
Lemma preserves_upsert_member c w p : Preserves integrity (upsert_workspace_member c w p).
Proof. unfold upsert_workspace_member. solve_preserves. Qed.
Lemma preserves_remove_member c w u : Preserves integrity (remove_workspace_member c w u).
Proof. unfold remove_workspace_member. solve_preserves. Qed.
Lemma preserves_webhook h j id b s d ev : Preserves integrity (handle_github_webhook h j id b s d ev).
Proof. unfold handle_github_webhook, acknowledge, handle_push, commit_push. solve_preserves. Qed.
Lemma preserves_get_quotas c w : Preserves integrity (get_workspace_quotas c w).
Proof. unfold get_workspace_quotas. solve_preserves. Qed.

(** The routes are not unfolded by the search for instances. *)
#[local] Typeclasses Opaque create_workspace upsert_workspace_member remove_workspace_member
  create_application update_application deploy_release rollback_release trigger_build submit_job
  cancel_job rerun_job create_repository upsert_workspace_secret delete_workspace_secret
  get_workspace_quotas handle_github_webhook.

#[local] Hint Resolve preserves_create_workspace preserves_upsert_member preserves_remove_member
  preserves_webhook preserves_get_quotas : typeclass_instances.

Lemma keeps_still {A} (m : M A) : Still m -> Keeps m.
Proof. intros Hm e s. rewrite (Hm e s). apply rtc_refl. Qed.

Lemma keeps_list_applications iso c w l cur : Keeps (list_workspace_applications iso c w l cur).
Proof. unfold list_workspace_applications. solve_keeps. Qed.
Lemma keeps_list_releases iso c id l cur : Keeps (list_releases iso c id l cur).
Proof. unfold list_releases. solve_keeps. Qed.
Lemma keeps_list_jobs iso c w l cur : Keeps (list_workspace_jobs iso c w l cur).
Proof. unfold list_workspace_jobs. solve_keeps. Qed.
Lemma keeps_list_dead_letters iso c w l cur : Keeps (list_workspace_dead_letter_records iso c w l cur).
Proof. unfold list_workspace_dead_letter_records. solve_keeps. Qed.
Lemma keeps_list_repositories iso c w l cur : Keeps (list_repositories iso c w l cur).
Proof. unfold list_repositories. solve_keeps. Qed.
Lemma keeps_get_telemetry col c w : Keeps (get_workspace_telemetry col c w).
Proof. unfold get_workspace_telemetry, collect_metrics. solve_keeps. Qed.
#[local] Hint Resolve keeps_list_applications keeps_list_releases keeps_list_jobs keeps_list_dead_letters
  keeps_list_repositories : typeclass_instances.

Lemma preserves_with_status {A} I (m : M A) status : Preserves I m -> Preserves I (with_status m status).
Proof. intros Hm. apply preserves_bind; [done|]. intros. apply _. Qed.

Lemma preserves_route col r : Preserves integrity (route col r).
Proof.
  destruct r as [caller r|]; [|simpl; apply preserves_bind; apply _].
  destruct r; unfold route, user_route; apply preserves_with_status;
    lazymatch goal with
    | |- context [get_workspace_telemetry] => apply preserves_keeps, keeps_get_telemetry
    | |- _ => first [apply _ | by apply preserves_keeps, keeps_still, _]
    end.
Qed.

(** ** What the routes respect *)

Section Respecting.
Context (R : relation Db) `{!PreOrder R, !Respects R}.

Lemma grows_check_idempotency w ep k h : Grows R (check_idempotency w ep k h).
Proof. unfold check_idempotency. solve_grows. Qed.
Lemma grows_add_idempotency_record w ep k h c op : Grows R (add_idempotency_record w ep k h c op).
Proof. unfold add_idempotency_record. solve_grows. Qed.
Lemma grows_commit_idempotent w ep k h op : Grows R (commit_idempotent w ep k h op).
Proof. unfold commit_idempotent, handle_idempotency_race. solve_grows. Qed.
Lemma grows_enforce_quota w cls a r : Grows R (enforce_workspace_quota w cls a r).
Proof.
  unfold enforce_workspace_quota, get_workspace_quota_usage_for_admission, get_workspace_quota_summary,
    expire_stale_reservations.
  solve_grows.
Qed.
Lemma grows_decode_cursor iso c : Grows R (decode_cursor iso c).
Proof. unfold decode_cursor. solve_grows. Qed.
Lemma grows_compute_payload_hash p : Grows R (compute_payload_hash p).
Proof. unfold compute_payload_hash. solve_grows. Qed.
#[local] Hint Resolve grows_check_idempotency grows_add_idempotency_record grows_commit_idempotent
  grows_enforce_quota grows_decode_cursor grows_compute_payload_hash : typeclass_instances.

Lemma grows_rate_limit w c : Grows R (check_workspace_rate_limit w c).
Proof. unfold check_workspace_rate_limit. solve_grows. Qed.
Lemma grows_image_policy d : Grows R (validate_image_policy d).
Proof. unfold validate_image_policy. solve_grows. Qed.
Lemma grows_refresh {A} (t : Db -> list A) P : Grows R (refresh t P).
Proof. unfold refresh. solve_grows. Qed.
#[local] Hint Resolve grows_rate_limit grows_image_policy grows_refresh : typeclass_instances.

Lemma grows_submit_job c w p k : Grows R (submit_job c w p k).
Proof. unfold submit_job. solve_grows. Qed.
Lemma grows_cancel_job c id k : Grows R (cancel_job c id k).
Proof. unfold cancel_job, lock_job, request_cancellation. solve_grows. Qed.
Lemma grows_rerun_job c id k : Grows R (rerun_job c id k).
Proof. unfold rerun_job, lock_job. solve_grows. Qed.

Lemma grows_create_application c w p : Grows R (create_application c w p).
Proof. unfold create_application, check_repository. solve_grows. Qed.
Lemma grows_update_application c id p : Grows R (update_application c id p).
Proof. unfold update_application, check_repository, find_app, lock_app. solve_grows. Qed.
Lemma grows_deploy_release c id p k : Grows R (deploy_release c id p k).
Proof. unfold deploy_release, find_app, lock_app. solve_grows. Qed.
Lemma grows_rollback_release c id p k : Grows R (rollback_release c id p k).
Proof. unfold rollback_release, find_app, lock_app. solve_grows. Qed.
Lemma grows_trigger_build c id p : Grows R (trigger_build c id p).
Proof. unfold trigger_build, stage_build, checked_commit_sha, find_app, lock_app. solve_grows. Qed.

Lemma grows_create_workspace c p : Grows R (create_workspace c p).
Proof. unfold create_workspace. solve_grows. Qed.
Lemma grows_upsert_member c w p : Grows R (upsert_workspace_member c w p).
Proof. unfold upsert_workspace_member, stage_member, guard_last_owner. solve_grows. Qed.
Lemma grows_remove_member c w u : Grows R (remove_workspace_member c w u).
Proof. unfold remove_workspace_member, stage_removal, guard_last_owner. solve_grows. Qed.

Lemma grows_urandom12 : Grows R urandom12.
Proof. intros e s _ Hs. split; [exact Hs|done]. Qed.
#[local] Hint Resolve grows_urandom12 : typeclass_instances.
Lemma grows_upsert_secret sha c w p : Grows R (upsert_workspace_secret sha c w p).
Proof. unfold upsert_workspace_secret, stage_secret, commit_secret. solve_grows. Qed.
Lemma grows_delete_secret c w n : Grows R (delete_workspace_secret c w n).
Proof. unfold delete_workspace_secret. solve_grows. Qed.
Lemma grows_create_repository b c w p : Grows R (create_repository b c w p).
Proof. unfold create_repository, validate_repo_url, extract_repo_host, urlsplit_netloc. solve_grows. Qed.
Lemma grows_get_quotas c w : Grows R (get_workspace_quotas c w).
Proof. unfold get_workspace_quotas, get_workspace_quota_summary, expire_stale_reservations. solve_grows. Qed.

Lemma grows_request_builds r sha b m apps last : Grows R (request_builds r sha b m apps last).
Proof. revert last. induction apps as [|a apps IH]; intros last; simpl; unfold request_build; solve_grows. Qed.
#[local] Hint Resolve grows_request_builds : typeclass_instances.

Lemma grows_webhook h j id b s d ev : Grows R (handle_github_webhook h j id b s d ev).
Proof.
  unfold handle_github_webhook, handle_push, commit_push, acknowledge, add_delivery, delivery_created_at,
    verify_github_signature. solve_grows.
Qed.
#[local] Hint Resolve grows_submit_job grows_cancel_job grows_rerun_job grows_create_application
  grows_update_application grows_deploy_release grows_rollback_release grows_trigger_build
  grows_create_workspace grows_upsert_member grows_remove_member grows_upsert_secret grows_delete_secret
  grows_create_repository grows_get_quotas grows_webhook : typeclass_instances.

Lemma grows_list_page {A} iso (created : A -> time) ident sel l cur :
  Grows R (list_page iso created ident sel l cur).
Proof. unfold list_page. solve_grows. Qed.
#[local] Hint Resolve grows_list_page : typeclass_instances.

(** The reads. *)
Lemma grows_list_applications iso c w l cur : Grows R (list_workspace_applications iso c w l cur).
Proof. unfold list_workspace_applications. solve_grows. Qed.
Lemma grows_list_releases iso c id l cur : Grows R (list_releases iso c id l cur).
Proof. unfold list_releases, find_app. solve_grows. Qed.
Lemma grows_list_jobs iso c w l cur : Grows R (list_workspace_jobs iso c w l cur).
Proof. unfold list_workspace_jobs. solve_grows. Qed.
Lemma grows_list_dead_letters iso c w l cur : Grows R (list_workspace_dead_letter_records iso c w l cur).
Proof. unfold list_workspace_dead_letter_records. solve_grows. Qed.
Lemma grows_list_repositories iso c w l cur : Grows R (list_repositories iso c w l cur).
Proof. unfold list_repositories. solve_grows. Qed.
Lemma grows_list_audit iso c w l cur act : Grows R (list_workspace_audit_events iso c w l cur act).
Proof. unfold list_workspace_audit_events. solve_grows. Qed.
Lemma grows_get_telemetry col c w : Grows R (get_workspace_telemetry col c w).
Proof. unfold get_workspace_telemetry, collect_metrics. solve_grows. Qed.
#[local] Hint Resolve grows_list_applications grows_list_releases grows_list_jobs grows_list_dead_letters
  grows_list_repositories grows_list_audit : typeclass_instances.

Lemma grows_with_status {A} (m : M A) status : Grows R m -> Grows R (with_status m status).
Proof. intros Hm. unfold with_status. solve_grows. Qed.

Lemma grows_route col r : Grows R (route col r).
Proof.
  destruct r as [caller r|]; [|simpl; solve_grows].
  destruct r; unfold route, user_route; apply grows_with_status;
    lazymatch goal with
    | |- context [get_workspace_telemetry] => apply grows_get_telemetry
    | |- _ => first [apply _ | apply (grows_still R);
        unfold get_workspace, list_workspace_members, get_application, get_job, get_job_output, get_repository,
          list_workspace_secrets; solve_still]
    end.
Qed.
End Respecting.

(** ** The application over a sequence of requests *)

(** The environment a route runs in differs from the request's in its trace only. *)
Lemma serve_runs r e a :
  exists e' s, rivals_lock e' = rivals_lock e /\ rivals_commit e' = rivals_commit e
    /\ committed s = app_db a /\ writes s = [] /\ staged s = []
    /\ app_db (serve r e a) = committed (route (collector a) r.2 e' s).2.
Proof.
  destruct r as [[req duration] r]. unfold serve.
  destruct (middleware_database (o_py_repr o) (o_validation_errors o) (route (collector a) r) req
    (fun status => status) duration e a) as (st & n & ->).
  exists (in_trace st e), (drawn n (open_session (app_db a))). by split_and!.
Qed.

Definition serve_all (requests : list (HttpRequest * float * ApiRequest * Env)) (a : App) : App :=
  foldl (fun a x => serve x.1 x.2 a) a requests.

Lemma serve_all_integrity requests a :
  integrity (app_db a) ->
  Forall (fun x => forall d, integrity d -> integrity (rivals_lock x.2 d) /\ integrity (rivals_commit x.2 d))
    requests ->
  integrity (app_db (serve_all requests a)).
Proof.
  intros Hi Hr. unfold serve_all. revert a Hi. induction Hr as [|[r e] rs He _ IH]; intros a Hi; [done|].
  simpl. apply IH. destruct (serve_runs r e a) as (e' & s & Hl & Hc & Hs & _ & _ & ->). simpl in He.
  apply preserves_route; [| |by rewrite Hs]; intros d Hd; rewrite ?Hl, ?Hc; by apply He.
Qed.

(** Whatever the service respects, every sequence of requests respects. *)
Lemma serve_all_respects (R : relation Db) `{!PreOrder R, !Respects R} requests a :
  Forall (fun x => tame R x.2) requests -> R (app_db a) (app_db (serve_all requests a)).
Proof.
  intros Hr. unfold serve_all. revert a. induction Hr as [|[r e] rs He _ IH]; intros a; [done|].
  simpl. etrans; [|apply IH].
  destruct (serve_runs r e a) as (e' & s & Hl & Hc & Hs & Hw & Hst & ->). simpl in He.
  assert (tame R e') as He' by (unfold tame; by rewrite Hl, Hc).
  rewrite <- Hs. apply (grows_route R _ _ e' s He'). unfold monotone. rewrite Hw, Hst. by split.
Qed.

(** C4: History is append-only: over any sequence of requests on any route, successful or
    not, no audit row is altered, removed or reordered, and no job or release ever
    disappears, changes owner, number, image or command, among other transactions
    that respect the same. *)
Theorem api_history requests a :
  Forall (fun x => tame extends x.2) requests ->
  extends (app_db a) (app_db (serve_all requests a)).
Proof. apply (serve_all_respects extends). Qed.
End Api.

(** ** Witnesses *)

Definition sample_outside : Outside := mkOutside (fun _ => None) (fun p => p) "/repo" (fun _ => false)
  toy_bracketed sample_digest sample_hmac sample_loads dumps_plain JStr.

Definition sample_requests : list (HttpRequest * float * ApiRequest * Env) :=
  let req := mkHttpRequest "/v1" (Some "req-1") None None in
  [((req, float_zero, FromUser alice (POST_jobs sample_workspace sample_submission "key-1")), reseeded 1 sample_env);
   ((req, float_zero, FromUser mallory (GET_audit sample_workspace 20 None None)), reseeded 2 sample_env);
   ((req, float_zero, FromUser alice (POST_secrets sample_workspace sample_secret)), reseeded 3 sample_env);
   ((req, float_zero, FromUser alice (DELETE_secret sample_workspace "DB_URL")), reseeded 4 sample_env);
   ((req, float_zero, FromUser alice (GET_telemetry sample_workspace)), reseeded 5 sample_env)].

Definition sample_app_state : App := mkApp (sample_db ADMIN) new_collector.

Lemma api_history_witness :
  extends (app_db sample_app_state) (app_db (serve_all sample_outside sample_requests sample_app_state))
  /\ map aud_action (audit_events (app_db (serve_all sample_outside sample_requests sample_app_state))) = ["job.submitted"; "secret.created"; "secret.deleted"].
Proof.
  split; [|vm_compute; reflexivity].
  apply (api_history sample_outside sample_requests sample_app_state). repeat (apply Forall_cons_2; [done|]). by constructor.
Defined.
