(* ===== verification/Delivery.v ===== *)
(** * From an accepted request to the broker

    The API and the dispatcher composed: what the routes of [Api] record in the outbox, the
    loop of [Outbox] publishes. *)

From S2P Require Import Prelude PyStr Uuid Json Models DateTime Config Session Sample Auth.
From S2P Require Import AuditLog Events Idempotency Quotas Gates Handlers Pagination StateMachine Jobs.
From S2P Require Import Workspaces Apps Outbox Webhooks Crypto Secrets Url Repositories Binary64.
From S2P Require Import Telemetry Operations Main History Api.
From Stdlib Require Import Ascii String.

(** An event that was never tried is due whenever the worker looks. *)
Lemma unsent_due now ev : unsent ev -> due now ev = true.
Proof. intros [Hs Hn]. unfold due. by rewrite Hs, Hn. Qed.

(** The rows of the events after the worker has published them. *)
Lemma images_published (f : OutboxEvent -> OutboxEvent) evs :
  (forall row, same_message row (f row)) -> (forall row, row ∈ evs -> ob_status (f row) = PUBLISHED) ->
  Forall2 same_message evs (map f evs) /\ Forall (fun ev => ob_status ev = PUBLISHED) (map f evs).
Proof.
  intros Hsame Hpub. split.
  - induction evs as [|ev evs IH]; cbn; constructor; [done|]. apply IH. intros row Hr. apply Hpub. by right.
  - apply list.Forall_forall. intros row (x & -> & Hx)%elem_of_map_iff. by apply Hpub.
Qed.

(** The environments of a worker that is alone, whose clock does not go back. *)
Record worker_alone (es : nat -> Env) : Prop := {
  wa_commit : forall j d, rivals_commit (es j) d = d;
  wa_size : forall j, 0 < OUTBOX_BATCH_SIZE (settings (es j));
  wa_clock : forall j, clock (es j) 0 <= clock (es (S j)) 0 }.

(** C8: every event the API recorded is published.  After any sequence of requests on any
    route, successful or not, among other transactions that only add unsent events to the
    outbox, the events added by them follow the older ones; polling with the broker
    acknowledging then ends, and each of those events is PUBLISHED with the very message
    that was recorded; the requests' other rows are as the requests left them. *)
Theorem recorded_events_published `{AEAD} o requests a publish es :
  Forall (fun x => tame records_events x.2) requests ->
  integrity (app_db a) ->
  Forall (fun x => forall d, integrity d -> integrity (rivals_lock x.2 d) /\ integrity (rivals_commit x.2 d))
    requests ->
  (forall m, publish m = Acked) -> worker_alone es ->
  let db := app_db (serve_all o requests a) in
  exists evs k db' old sent,
    outbox db = outbox (app_db a) ++ evs /\
    drain_backlog publish es (pending_count db) 0 db = Some (k, db') /\
    db' = on_outbox (fun _ => old ++ sent) db /\ List.length old = List.length (outbox (app_db a)) /\
    Forall2 same_message evs sent /\ Forall (fun ev => ob_status ev = PUBLISHED) sent.
Proof.
  intros Ht Hi Hk Hack [Hq Hs Hc] db.
  destruct (serve_all_respects o records_events requests a Ht) as (evs & E & Hevs). fold db in E.
  assert (integrity db) as Hdb by by apply serve_all_integrity.
  destruct (drain_backlog_spec publish Hack es (pending_count db) 0 db Hq Hs Hc Hdb (le_n _))
    as (k & db' & Hd & _ & _ & f & -> & Hsame & Hpub & _).
  exists evs, k, (on_outbox (map f) db), (map f (outbox (app_db a))), (map f evs). split; [done|]. split; [exact Hd|].
  split; [unfold on_outbox; f_equal; cbn; by rewrite E, map_app|]. split; [apply length_map|].
  apply images_published; [done|]. intros row Hr. apply Hpub.
  - rewrite E. apply elem_of_app. by right.
  - apply unsent_due. by rewrite list.Forall_forall in Hevs; apply Hevs.
Qed.

(** ** Witness *)

(** The sample's requests, and a broker that acknowledges. *)
Lemma recorded_events_published_witness :
  let db := app_db (serve_all sample_outside sample_requests sample_app_state) in
  exists evs k db' old sent,
    outbox db = outbox (app_db sample_app_state) ++ evs /\
    drain_backlog (fun _ => Acked) (fun _ => sample_env) (pending_count db) 0 db = Some (k, db') /\
    db' = on_outbox (fun _ => old ++ sent) db /\
    List.length old = List.length (outbox (app_db sample_app_state)) /\
    Forall2 same_message evs sent /\ Forall (fun ev => ob_status ev = PUBLISHED) sent.
Proof.
  apply (recorded_events_published sample_outside sample_requests sample_app_state (fun _ => Acked) (fun _ => sample_env)).
  - repeat (apply Forall_cons_2; [by split; intros d; exists []; rewrite app_nil_r|]). by constructor.
  - apply (bool_decide_unpack _). by vm_compute.
  - repeat (apply Forall_cons_2; [done|]). by constructor.
  - done.
  - by split.
Defined.

(** The event of the sample's submission is published. *)
Lemma sample_submission_published :
  let db := app_db (serve_all sample_outside sample_requests sample_app_state) in
  match drain_backlog (fun _ => Acked) (fun _ => sample_env) (pending_count db) 0 db with
  | Some (k, db') => map (fun ev => (ob_topic ev, ob_status ev)) (outbox db') = [("job.submitted.v1", PUBLISHED)]
  | None => False
  end.
Proof. vm_compute. reflexivity. Qed.
