(* ===== verification/Schema.v ===== *)
(** * Relational schemas and their changes

    The part of PostgreSQL's data definition language that the migrations use, through
    Alembic's operations: tables with typed columns, constraints, indexes, triggers.
    An operation is a partial function on schemas; [None] is the database's error.
    The order of the columns of a table is left out. *)

From S2P Require Import Prelude PyStr Json.
From stdpp Require Import gmap.
From Stdlib Require Import String.

(** ** Schemas *)

Inductive SqlType := Uuid | VarChar (length : Z) | Text | Integer | DateTime | JSON.
#[export] Instance SqlType_eq_dec : EqDecision SqlType.
Proof. solve_decision. Defined.

Record Column := mkColumn { col_type : SqlType; col_nullable : bool; col_default : option string }.
#[export] Instance Column_eq_dec : EqDecision Column.
Proof. solve_decision. Defined.

Inductive Condition :=
| In_ (col : string) (values : list string)
| Equals (col value : string)
| IsNull (col : string)
| IsNotNull (col : string)
| And (a b : Condition)
| Or (a b : Condition).
#[export] Instance Condition_eq_dec : EqDecision Condition.
Proof. solve_decision. Defined.

(** [sa.Column(name, type, nullable=..., server_default=...)]. *)
Definition req (name : string) (ty : SqlType) : string * Column := (name, mkColumn ty false None).
Definition opt (name : string) (ty : SqlType) : string * Column := (name, mkColumn ty true None).
Definition req_default (name : string) (ty : SqlType) (d : string) : string * Column :=
  (name, mkColumn ty false (Some d)).
Definition opt_default (name : string) (ty : SqlType) (d : string) : string * Column :=
  (name, mkColumn ty true (Some d)).

Fixpoint condition_columns (c : Condition) : list string :=
  match c with
  | In_ col _ | Equals col _ | IsNull col | IsNotNull col => [col]
  | And a b | Or a b => condition_columns a ++ condition_columns b
  end.

Inductive Constraint :=
| PrimaryKey (cols : list string)
| Unique (cols : list string) (nulls_not_distinct : bool)
| ForeignKey (cols : list string) (ref_table : string) (ref_cols : list string) (ondelete : string)
| Check_ (cond : Condition).
#[export] Instance Constraint_eq_dec : EqDecision Constraint.
Proof. solve_decision. Defined.

Definition constraint_columns (c : Constraint) : list string :=
  match c with
  | PrimaryKey cols | Unique cols _ | ForeignKey cols _ _ _ => cols
  | Check_ cond => condition_columns cond
  end.

(** Constraints and triggers are named within their table, indexes in the schema. *)
Record Schema := mkSchema {
  tables : gmap string (gmap string Column);
  table_constraints : gmap (string * string) Constraint;
  indexes : gmap string (string * list string);
  triggers : gmap (string * string) string;
  functions : gmap string unit }.
#[export] Instance Schema_eq_dec : EqDecision Schema.
Proof. solve_decision. Defined.

Definition empty_schema : Schema := mkSchema ∅ ∅ ∅ ∅ ∅.

(** ** Operations *)

Definition Op := Schema -> option Schema.

Definition with_tables (f : gmap string (gmap string Column) -> gmap string (gmap string Column)) (s : Schema) : Schema :=
  mkSchema (f (tables s)) (table_constraints s) (indexes s) (triggers s) (functions s).
Definition with_constraints (f : gmap (string * string) Constraint -> gmap (string * string) Constraint) (s : Schema) : Schema :=
  mkSchema (tables s) (f (table_constraints s)) (indexes s) (triggers s) (functions s).
Definition with_indexes (f : gmap string (string * list string) -> gmap string (string * list string)) (s : Schema) : Schema :=
  mkSchema (tables s) (table_constraints s) (f (indexes s)) (triggers s) (functions s).

(** [if not c: error]. *)
Definition require (c : bool) : option unit := if c then Some tt else None.

Definition has_columns (cols : list string) (table : gmap string Column) : bool :=
  forallb (fun c => bool_decide (is_Some (table !! c))) cols.

(** Some other table has a foreign key on [t], on the column [col] if one is given. *)
Definition referenced (t : string) (col : option string) (s : Schema) : bool :=
  existsb (fun kv =>
    match kv.2 with
    | ForeignKey _ r ref_cols _ =>
        (kv.1.1 <?> t) && (r =?= t)
        && match col with Some c => in_ c ref_cols | None => true end
    | _ => false
    end) (map_to_list (table_constraints s)).

Definition add_constraint (t name : string) (c : Constraint) : Op := fun s =>
  table ← tables s !! t;
  _ ← require (has_columns (constraint_columns c) table);
  _ ← match c with
      | ForeignKey _ r ref_cols _ =>
          ref ← tables s !! r;
          require (has_columns ref_cols ref)
      | _ => Some tt
      end;
  _ ← require (bool_decide (table_constraints s !! (t, name) = None));
  Some (with_constraints <[(t, name) := c]> s).

(** The name PostgreSQL gives to an unnamed constraint. *)
Definition constraint_name (t : string) (c : Constraint) : string :=
  match c with
  | PrimaryKey _ => t +:+ "_pkey"
  | ForeignKey cols _ _ _ => t +:+ "_" +:+ Json.join "_" cols +:+ "_fkey"
  | Unique cols _ => t +:+ "_" +:+ Json.join "_" cols +:+ "_key"
  | Check_ _ => t +:+ "_check"
  end.

Definition create_table (t : string) (cols : list (string * Column))
    (cs : list (option string * Constraint)) : Op := fun s =>
  _ ← require (bool_decide (tables s !! t = None));
  _ ← require (bool_decide (NoDup (map fst cols)));
  foldl (fun acc nc => s ← acc; add_constraint t (default (constraint_name t nc.2) nc.1) nc.2 s)
    (Some (with_tables <[t := list_to_map cols]> s)) cs.

Definition drop_table (t : string) : Op := fun s =>
  _ ← tables s !! t;
  _ ← require (negb (referenced t None s));
  Some (mkSchema (delete t (tables s))
          (filter (fun kv => kv.1.1 <> t) (table_constraints s))
          (filter (fun kv => kv.2.1 <> t) (indexes s))
          (filter (fun kv => kv.1.1 <> t) (triggers s)) (functions s)).

Definition add_column (t : string) (nc : string * Column) : Op := fun s =>
  table ← tables s !! t;
  _ ← require (bool_decide (table !! nc.1 = None));
  Some (with_tables <[t := <[nc.1 := nc.2]> table]> s).

(** The indexes and constraints of the table that involve the column go with it. *)
Definition drop_column (t name : string) : Op := fun s =>
  table ← tables s !! t;
  _ ← table !! name;
  _ ← require (negb (referenced t (Some name) s));
  Some (mkSchema (<[t := delete name table]> (tables s))
          (filter (fun kv => ~ (kv.1.1 = t /\ name ∈ constraint_columns kv.2)) (table_constraints s))
          (filter (fun kv => ~ (kv.2.1 = t /\ name ∈ kv.2.2)) (indexes s))
          (triggers s) (functions s)).

(** [op.alter_column(t, name, nullable=...)]. *)
Definition alter_nullable (t name : string) (nullable : bool) : Op := fun s =>
  table ← tables s !! t;
  c ← table !! name;
  Some (with_tables <[t := <[name := mkColumn (col_type c) nullable (col_default c)]> table]> s).

(** A constraint that a foreign key of another table needs is not dropped by any migration. *)
Definition drop_constraint (name t : string) : Op := fun s =>
  _ ← table_constraints s !! (t, name);
  Some (with_constraints (delete (t, name)) s).
Definition drop_constraint_if_exists (name t : string) : Op := fun s =>
  _ ← tables s !! t;
  Some (with_constraints (delete (t, name)) s).

Definition create_foreign_key (name t ref : string) (cols ref_cols : list string) (ondelete : string) : Op :=
  add_constraint t name (ForeignKey cols ref ref_cols ondelete).
Definition create_unique_constraint (name t : string) (cols : list string) : Op :=
  add_constraint t name (Unique cols false).
Definition create_check_constraint (name t : string) (cond : Condition) : Op :=
  add_constraint t name (Check_ cond).

Definition create_index (name t : string) (cols : list string) : Op := fun s =>
  table ← tables s !! t;
  _ ← require (has_columns cols table);
  _ ← require (bool_decide (indexes s !! name = None));
  Some (with_indexes <[name := (t, cols)]> s).

Definition drop_index (name : string) : Op := fun s =>
  _ ← indexes s !! name;
  Some (with_indexes (delete name) s).

(** [ALTER INDEX name RENAME TO new]. *)
Definition rename_index (name new : string) : Op := fun s =>
  ix ← indexes s !! name;
  _ ← require (bool_decide (indexes s !! new = None));
  Some (with_indexes (fun m => <[new := ix]> (delete name m)) s).

Definition create_function (f : string) : Op := fun s =>
  Some (mkSchema (tables s) (table_constraints s) (indexes s) (triggers s) (<[f := tt]> (functions s))).
Definition drop_function_if_exists (f : string) : Op := fun s =>
  _ ← require (negb (existsb (fun kv => kv.2 =?= f) (map_to_list (triggers s))));
  Some (mkSchema (tables s) (table_constraints s) (indexes s) (triggers s) (delete f (functions s))).
Definition create_trigger (name t f : string) : Op := fun s =>
  _ ← tables s !! t;
  _ ← functions s !! f;
  _ ← require (bool_decide (triggers s !! (t, name) = None));
  Some (mkSchema (tables s) (table_constraints s) (indexes s) (<[(t, name) := f]> (triggers s)) (functions s)).
Definition drop_trigger_if_exists (name t : string) : Op := fun s =>
  _ ← tables s !! t;
  Some (mkSchema (tables s) (table_constraints s) (indexes s) (delete (t, name) (triggers s)) (functions s)).

(** A statement on the rows of a table: the schema stays, provided its columns exist. *)
Definition on_rows (t : string) (cols : list string) : Op := fun s =>
  table ← tables s !! t;
  _ ← require (has_columns cols table);
  Some s.

(** A sequence of operations, in one transaction. *)
Definition run_ops (ops : list Op) (s : Schema) : option Schema :=
  foldl (fun acc op => s ← acc; op s) (Some s) ops.

(** An Alembic revision. *)
Record Revision := mkRevision {
  revision : string; down_revision : option string; upgrade : list Op; downgrade : list Op }.

(** ** Declared tables ([sqlalchemy.MetaData])

    What a mapped class declares: its columns, each with its foreign key and whether it
    is indexed, and its table arguments. *)

Record Declared := mkDeclared {
  dc_name : string; dc_type : SqlType; dc_nullable : bool;
  dc_fk : option (string * string); (* the referenced table, with ON DELETE *)
  dc_index : bool }.

Record DeclaredTable := mkDeclaredTable {
  dt_name : string; dt_columns : list Declared;
  dt_constraints : list (string * Constraint);
  dt_indexes : list (string * list string) }.

(** What Alembic compares: column types and nullability, primary and unique keys, named
    checks, foreign keys regardless of their name, indexes. *)
Record View := mkView {
  v_columns : gmap (string * string) (SqlType * bool);
  v_keys : gmap (string * string) Constraint;
  v_foreign : gmap (string * list string) (string * list string * string);
  v_indexes : gmap string (string * list string) }.
#[export] Instance View_eq_dec : EqDecision View.
Proof. solve_decision. Defined.

Definition is_key (c : Constraint) : bool :=
  match c with PrimaryKey _ | Unique _ _ => true | _ => false end.

Definition foreign_of (kv : string * string * Constraint) : list (string * list string * (string * list string * string)) :=
  match kv.2 with
  | ForeignKey cols r ref_cols od => [((kv.1.1, cols), (r, ref_cols, od))]
  | _ => []
  end.

Definition view_of (s : Schema) : View :=
  mkView
    (list_to_map (flat_map (fun tc => map (fun kc => ((tc.1, kc.1), (col_type kc.2, col_nullable kc.2)))
       (map_to_list tc.2)) (map_to_list (tables s))))
    (list_to_map (List.filter (fun kv => is_key kv.2) (map_to_list (table_constraints s))))
    (list_to_map (flat_map foreign_of (map_to_list (table_constraints s))))
    (indexes s).

Definition declared_view (ts : list DeclaredTable) : View :=
  mkView
    (list_to_map (flat_map (fun t => map (fun c => ((dt_name t, dc_name c), (dc_type c, dc_nullable c)))
       (dt_columns t)) ts))
    (list_to_map (flat_map (fun t =>
       ((dt_name t, dt_name t +:+ "_pkey"), PrimaryKey ["id"])
       :: map (fun nc => ((dt_name t, nc.1), nc.2)) (List.filter (fun nc => is_key nc.2) (dt_constraints t))) ts))
    (list_to_map (flat_map (fun t => flat_map (fun c =>
       match dc_fk c with
       | Some (r, od) => [((dt_name t, [dc_name c]), (r, ["id"], od))]
       | None => []
       end) (dt_columns t)) ts))
    (list_to_map (flat_map (fun t =>
       flat_map (fun c => if dc_index c
                          then [("ix_" +:+ dt_name t +:+ "_" +:+ dc_name c, (dt_name t, [dc_name c]))] else [])
         (dt_columns t)
       ++ map (fun ni => (ni.1, (dt_name t, ni.2))) (dt_indexes t)) ts)).
