(* ===== verification/Metadata.v ===== *)
(** * The declared tables ([models/*.py])

    What each mapped class declares to SQLAlchemy: columns with their type and
    nullability, foreign keys, indexes and table arguments.  An enumeration is a string
    column ([SqlEnum]); the two mixins give the id and the timestamps. *)

From S2P Require Import Prelude PyStr Schema Session.
From Stdlib Require Import String.

(** ** [SqlEnum]

    An enumeration is stored by its members' values; [E(value)] finds the member. *)

Section SqlEnum.
Context {E : Type} (value : E -> string) (members : list E).

Definition process_bind_param (v : option E) : option string := option_map value v.

Definition process_result_value (v : option string) : outcome (option E) :=
  match v with
  | None => Ok None
  | Some s =>
      match List.find (fun x => value x =?= s) members with
      | Some x => Ok (Some x)
      | None => Err (ValueError (s +:+ " is not a valid member"))
      end
  end.

(** The values of the column: what a member is stored as, and what loads as a member. *)
Definition column_value (s : string) : Prop :=
  exists x, process_bind_param (Some x) = Some s /\ process_result_value (Some s) = Ok (Some x).

Lemma column_value_iff s :
  (forall x, x ∈ members) -> Inj (=) (=) value -> column_value s <-> s ∈ map value members.
Proof.
  intros Hall Hinj. unfold column_value, process_bind_param, process_result_value. cbn.
  rewrite list_elem_of_fmap. split; [intros (x & [= <-] & _); by exists x|].
  intros (x & -> & _). exists x. split; [done|].
  destruct (List.find _ members) as [y|] eqn:Hf.
  - apply List.find_some in Hf as [_ Hy%bool_decide_eq_true]. do 2 f_equal. by apply (inj value).
  - pose proof (List.find_none _ _ Hf x (proj1 (list_elem_of_In _ _) (Hall x))) as Hn. cbv beta in Hn.
    by rewrite bool_decide_eq_true_2 in Hn.
Qed.
End SqlEnum.

(** [UUIDPrimaryKeyMixin] and [TimestampMixin]. *)
Definition id_column : Declared := mkDeclared "id" Uuid false None false.
Definition timestamps : list Declared :=
  [mkDeclared "created_at" DateTime false None false; mkDeclared "updated_at" DateTime false None false].

(** The check of [ExecutionIntent]. *)
Definition typed_resource : Condition :=
  Or (And (And (Equals "resource_type" "JOB_ATTEMPT") (IsNotNull "job_attempt_id")) (IsNull "release_id"))
     (And (And (Equals "resource_type" "SERVICE_RELEASE") (IsNotNull "release_id")) (IsNull "job_attempt_id")).

Definition declared_workspaces : DeclaredTable :=
  mkDeclaredTable "workspaces"
    (id_column :: [mkDeclared "name" (VarChar 100) false None false;
     mkDeclared "slug" (VarChar 100) false None true] ++ timestamps)
    [("uq_workspace_slug", Unique ["slug"] false)] [].

Definition declared_workspace_memberships : DeclaredTable :=
  mkDeclaredTable "workspace_memberships"
    (id_column :: [mkDeclared "workspace_id" Uuid false (Some ("workspaces", "CASCADE")) true;
     mkDeclared "user_subject" (VarChar 255) false None true;
     mkDeclared "role" (VarChar 50) false None false] ++ timestamps)
    [("uq_workspace_membership_user", Unique ["workspace_id"; "user_subject"] false)] [].

Definition declared_applications : DeclaredTable :=
  mkDeclaredTable "applications"
    (id_column :: [mkDeclared "workspace_id" Uuid false (Some ("workspaces", "CASCADE")) true;
     mkDeclared "name" (VarChar 100) false None false;
     mkDeclared "slug" (VarChar 100) false None false;
     mkDeclared "workload_type" (VarChar 50) false None false;
     mkDeclared "desired_generation" Integer false None false;
     mkDeclared "current_release_id" Uuid true (Some ("releases", "SET NULL")) false;
     mkDeclared "repository_id" Uuid true (Some ("repositories", "SET NULL")) true;
     mkDeclared "dockerfile_path" (VarChar 255) false None false;
     mkDeclared "context_dir" (VarChar 255) false None false;
     mkDeclared "git_branch" (VarChar 100) true None false] ++ timestamps)
    [("uq_application_workspace_slug", Unique ["workspace_id"; "slug"] false)] [].

Definition declared_releases : DeclaredTable :=
  mkDeclaredTable "releases"
    (id_column :: [mkDeclared "application_id" Uuid false (Some ("applications", "CASCADE")) true;
     mkDeclared "workspace_id" Uuid false (Some ("workspaces", "CASCADE")) true;
     mkDeclared "release_number" Integer false None false;
     mkDeclared "commit_sha" (VarChar 40) true None false;
     mkDeclared "image_digest" (VarChar 255) false None false;
     mkDeclared "config_json" JSON false None false;
     mkDeclared "status" (VarChar 50) false None true;
     mkDeclared "status_reason" (VarChar 500) true None false;
     mkDeclared "repository_id" Uuid true (Some ("repositories", "SET NULL")) true;
     mkDeclared "git_ref" (VarChar 100) true None false;
     mkDeclared "commit_message" (VarChar 255) true None false;
     mkDeclared "build_duration_ms" Integer true None false;
     mkDeclared "build_logs" Text true None false] ++ timestamps)
    [("uq_release_app_number", Unique ["application_id"; "release_number"] false)] [].

Definition declared_jobs : DeclaredTable :=
  mkDeclaredTable "jobs"
    (id_column :: [mkDeclared "workspace_id" Uuid false (Some ("workspaces", "CASCADE")) true;
     mkDeclared "name" (VarChar 100) false None false;
     mkDeclared "image_digest" (VarChar 255) false None false;
     mkDeclared "command_args" JSON false None false;
     mkDeclared "env_vars" JSON false None false;
     mkDeclared "timeout_seconds" Integer false None false;
     mkDeclared "max_retries" Integer false None false;
     mkDeclared "current_attempt_number" Integer false None false;
     mkDeclared "state" (VarChar 50) false None true] ++ timestamps)
    [] [].

Definition declared_job_attempts : DeclaredTable :=
  mkDeclaredTable "job_attempts"
    (id_column :: [mkDeclared "job_id" Uuid false (Some ("jobs", "CASCADE")) true;
     mkDeclared "workspace_id" Uuid false (Some ("workspaces", "CASCADE")) true;
     mkDeclared "attempt_number" Integer false None false;
     mkDeclared "state" (VarChar 50) false None true;
     mkDeclared "resource_uid" (VarChar 100) true None false;
     mkDeclared "lease_epoch" Integer false None false;
     mkDeclared "exit_code" Integer true None false;
     mkDeclared "failure_reason" (VarChar 500) true None false;
     mkDeclared "started_at" DateTime true None false;
     mkDeclared "finished_at" DateTime true None false] ++ timestamps)
    [("uq_job_attempt_number", Unique ["job_id"; "attempt_number"] false)] [].

Definition declared_execution_intents : DeclaredTable :=
  mkDeclaredTable "execution_intents"
    (id_column :: [mkDeclared "workspace_id" Uuid false (Some ("workspaces", "CASCADE")) true;
     mkDeclared "resource_type" (VarChar 50) false None false;
     mkDeclared "job_attempt_id" Uuid true (Some ("job_attempts", "CASCADE")) true;
     mkDeclared "release_id" Uuid true (Some ("releases", "CASCADE")) true;
     mkDeclared "resource_uid" (VarChar 100) true None false;
     mkDeclared "target_generation" Integer false None false;
     mkDeclared "deterministic_resource_name" (VarChar 255) false None true;
     mkDeclared "status" (VarChar 50) false None true;
     mkDeclared "claimed_by" (VarChar 100) true None false;
     mkDeclared "lease_epoch" Integer false None false;
     mkDeclared "lease_expires_at" DateTime true None true] ++ timestamps)
    [("ck_execution_intents_typed_resource", Check_ typed_resource);
     ("uq_execution_intents_target",
      Unique ["resource_type"; "job_attempt_id"; "release_id"; "target_generation"] true)] [].

Definition declared_outbox_events : DeclaredTable :=
  mkDeclaredTable "outbox_events"
    (id_column :: [mkDeclared "event_id" Uuid false None false;
     mkDeclared "workspace_id" Uuid false (Some ("workspaces", "CASCADE")) true;
     mkDeclared "schema_version" Integer false None false;
     mkDeclared "topic" (VarChar 255) false None true;
     mkDeclared "payload_json" JSON false None false;
     mkDeclared "headers_json" JSON false None false;
     mkDeclared "status" (VarChar 50) false None true;
     mkDeclared "retry_count" Integer false None false;
     mkDeclared "next_attempt_at" DateTime true None true;
     mkDeclared "published_at" DateTime true None false] ++ timestamps)
    [("uq_outbox_event_id", Unique ["event_id"] false)] [].

Definition declared_consumed_events : DeclaredTable :=
  mkDeclaredTable "consumed_events"
    (id_column :: [mkDeclared "event_id" Uuid false None true;
     mkDeclared "handler" (VarChar 100) false None true;
     mkDeclared "processed_at" DateTime false None false])
    [("uq_consumed_event_handler", Unique ["event_id"; "handler"] false)] [].

Definition declared_quota_reservations : DeclaredTable :=
  mkDeclaredTable "quota_reservations"
    (id_column :: [mkDeclared "workspace_id" Uuid false (Some ("workspaces", "CASCADE")) true;
     mkDeclared "resource_class" (VarChar 50) false None true;
     mkDeclared "units" Integer false None false;
     mkDeclared "status" (VarChar 50) false None true;
     mkDeclared "expires_at" DateTime false None true] ++ timestamps)
    [] [].

Definition declared_idempotency_records : DeclaredTable :=
  mkDeclaredTable "idempotency_records"
    (id_column :: [mkDeclared "workspace_id" Uuid false (Some ("workspaces", "CASCADE")) true;
     mkDeclared "endpoint" (VarChar 255) false None false;
     mkDeclared "idempotency_key" (VarChar 255) false None false;
     mkDeclared "request_hash" (VarChar 64) false None false;
     mkDeclared "response_code" Integer false None false;
     mkDeclared "response_body" JSON false None false;
     mkDeclared "expires_at" DateTime false None true] ++ timestamps)
    [("uq_idempotency_workspace_key", Unique ["workspace_id"; "endpoint"; "idempotency_key"] false)] [].

Definition declared_secret_references : DeclaredTable :=
  mkDeclaredTable "secret_references"
    (id_column :: [mkDeclared "workspace_id" Uuid false (Some ("workspaces", "CASCADE")) true;
     mkDeclared "name" (VarChar 100) false None false;
     mkDeclared "encrypted_value" Text false None false;
     mkDeclared "key_version" Integer false None false] ++ timestamps)
    [("uq_secret_reference_workspace_name", Unique ["workspace_id"; "name"] false)] [].

Definition declared_audit_events : DeclaredTable :=
  mkDeclaredTable "audit_events"
    (id_column :: [mkDeclared "workspace_id" Uuid true (Some ("workspaces", "SET NULL")) true;
     mkDeclared "actor_subject" (VarChar 255) false None true;
     mkDeclared "action" (VarChar 100) false None true;
     mkDeclared "target_type" (VarChar 50) false None false;
     mkDeclared "target_id" (VarChar 100) false None false;
     mkDeclared "result" (VarChar 50) false None false;
     mkDeclared "details_json" JSON false None false;
     mkDeclared "created_at" DateTime false None true])
    [] [].

Definition declared_repositories : DeclaredTable :=
  mkDeclaredTable "repositories"
    (id_column :: [mkDeclared "workspace_id" Uuid false (Some ("workspaces", "CASCADE")) true;
     mkDeclared "name" (VarChar 100) false None false;
     mkDeclared "repo_url" (VarChar 255) false None false;
     mkDeclared "webhook_secret" (VarChar 255) false None false;
     mkDeclared "default_branch" (VarChar 100) false None false] ++ timestamps)
    [("uq_repository_workspace_name", Unique ["workspace_id"; "name"] false)] [].

Definition declared_webhook_deliveries : DeclaredTable :=
  mkDeclaredTable "webhook_deliveries"
    (id_column :: [mkDeclared "workspace_id" Uuid false (Some ("workspaces", "CASCADE")) true;
     mkDeclared "repository_id" Uuid false (Some ("repositories", "CASCADE")) true;
     mkDeclared "delivery_id" (VarChar 100) false None true;
     mkDeclared "event_type" (VarChar 50) false None false;
     mkDeclared "payload_hash" (VarChar 64) false None false;
     mkDeclared "status" (VarChar 50) false None false;
     mkDeclared "created_at" DateTime false None false])
    [("uq_webhook_deliveries_repo_delivery", Unique ["repository_id"; "delivery_id"] false)] [].

Definition declared_dead_letter_records : DeclaredTable :=
  mkDeclaredTable "dead_letter_records"
    (id_column :: [mkDeclared "job_id" Uuid false (Some ("jobs", "CASCADE")) false;
     mkDeclared "workspace_id" Uuid false (Some ("workspaces", "CASCADE")) true;
     mkDeclared "last_attempt" Integer false None false;
     mkDeclared "exit_code" Integer true None false;
     mkDeclared "failure_reason" (VarChar 500) true None false;
     mkDeclared "created_at" DateTime false None false])
    [("uq_dead_letter_records_job_id", Unique ["job_id"] false)]
    [("ix_dead_letter_records_workspace_created", ["workspace_id"; "created_at"; "id"])].

Definition metadata : list DeclaredTable :=
  [declared_workspaces; declared_workspace_memberships; declared_applications;
   declared_releases; declared_jobs; declared_job_attempts;
   declared_execution_intents; declared_outbox_events; declared_consumed_events;
   declared_quota_reservations; declared_idempotency_records; declared_secret_references;
   declared_audit_events; declared_repositories; declared_webhook_deliveries;
   declared_dead_letter_records].
