(* ===== verification/DeadLetters.v ===== *)
(** * Dead letters ([migrations/versions/0007_add_dead_letter_records.py])

    The trigger on the jobs table that records a job's failure, and the backfill of the
    failures before it, as functions on the database.  [gen] stands for the values of
    [gen_random_uuid()] and [now] for [NOW()]; [None] is a violation of the primary key. *)

From S2P Require Import Prelude PyStr Uuid Json Models.
From stdpp Require Import relations.
From Stdlib Require Import String.

(** [SELECT exit_code, failure_reason ... WHERE job_id = .. AND attempt_number = .. LIMIT 1];
    [uq_job_attempt_number] leaves at most one. *)
Definition current_attempt (j : Job) (db : Db) : option JobAttempt :=
  head (where_ (fun a => (att_job_id a =?= job_id j) && (att_number a =?= job_current_attempt_number j))
          (job_attempts db)).

(** [INSERT INTO dead_letter_records ... ON CONFLICT (job_id) DO ...]. *)
Definition insert_dead_letter (d : DeadLetterRecord) (on_conflict : DeadLetterRecord -> DeadLetterRecord)
    (db : Db) : option Db :=
  if existsb (fun r => dl_job_id r =?= dl_job_id d) (dead_letters db) then
    Some (on_dead_letters (update_where (fun r => dl_job_id r =?= dl_job_id d) on_conflict) db)
  else if existsb (fun r => dl_id r =?= dl_id d) (dead_letters db) then None
  else Some (on_dead_letters (fun l => l ++ [d]) db).

(** [DO UPDATE SET last_attempt, exit_code, failure_reason, created_at = EXCLUDED.*]. *)
Definition excluded (d r : DeadLetterRecord) : DeadLetterRecord :=
  mkDeadLetterRecord (dl_id r) (dl_job_id r) (dl_workspace_id r) (dl_last_attempt d)
    (dl_exit_code d) (dl_failure_reason d) (dl_created_at d).

Definition letter_of (id : uuid) (now : time) (j : Job) (exit_code : option Z)
    (reason : option string) : DeadLetterRecord :=
  mkDeadLetterRecord id (job_id j) (job_workspace_id j) (job_current_attempt_number j)
    exit_code reason now.

(** The trigger function: [FOUND] is false when there is no attempt to select from. *)
Definition fn_jobs_insert_dead_letter (gen : uuid) (now : time) (OLD NEW : Job) (db : Db) : option Db :=
  if (job_state NEW =?= FAILED) && negb (job_state OLD =?= FAILED) then
    match current_attempt NEW db with
    | Some ja =>
        let d := letter_of gen now NEW (att_exit_code ja) (att_failure_reason ja) in
        insert_dead_letter d (excluded d) db
    | None =>
        insert_dead_letter (letter_of gen now NEW None (Some "Job reached FAILED state")) (fun r => r) db
    end
  else Some db.

(** [UPDATE jobs SET state = .., .. WHERE id = jid], with the trigger after it. *)
Definition update_job (gen : uuid) (now : time) (jid : uuid) (f : Job -> Job) (db : Db) : option Db :=
  foldl (fun acc j => d ← acc; fn_jobs_insert_dead_letter gen now j (f j) d)
    (Some (on_jobs (update_where (fun j => job_id j =?= jid) f) db))
    (where_ (fun j => job_id j =?= jid) (jobs db)).

(** The backfill of the revision, one row per failed job. *)
Definition backfill_letter (gen : nat -> uuid) (db : Db) (i : nat) (j : Job) : DeadLetterRecord :=
  let ja := current_attempt j db in
  letter_of (gen i) (job_updated_at j) j (ja ≫= att_exit_code) (ja ≫= att_failure_reason).

Definition backfill (gen : nat -> uuid) (db : Db) : option Db :=
  foldl (fun acc d => s ← acc; insert_dead_letter d (fun r => r) s) (Some db)
    (imap (backfill_letter gen db) (where_ (fun j => job_state j =?= FAILED) (jobs db))).

(** ** The dead letters of a database *)

(** Every letter is the only one of an existing job and carries its workspace. *)
Record letters_ok (db : Db) : Prop := {
  lo_jobs : NoDup (map job_id (jobs db));
  lo_letters : NoDup (map dl_job_id (dead_letters db));
  lo_of_job : forall d, d ∈ dead_letters db -> exists j, j ∈ jobs db /\
    job_id j = dl_job_id d /\ job_workspace_id j = dl_workspace_id d }.

(** And every failed job has its letter, those of [born] apart. *)
Definition failures_recorded (born : list uuid) (db : Db) : Prop :=
  forall j, j ∈ jobs db -> job_state j = FAILED -> job_id j ∉ born ->
    job_id j ∈ map dl_job_id (dead_letters db).

Definition dead_lettered (born : list uuid) (db : Db) : Prop :=
  letters_ok db /\ failures_recorded born db.

(** The letter of a job. *)
Definition letter (jid : uuid) (db : Db) : option DeadLetterRecord :=
  head (where_ (fun r => dl_job_id r =?= jid) (dead_letters db)).

(** A change of a row that leaves alone what identifies it. *)
Definition keeps_job (f : Job -> Job) : Prop :=
  forall j, job_id (f j) = job_id j /\ job_workspace_id (f j) = job_workspace_id j.

(** What happens to the jobs, attempts and letters of the database, whoever connects to
    it: a job is inserted, in any state, updated, or deleted together with its letter (the
    foreign key's [ON DELETE CASCADE]); a client records the failure of a job itself, as
    the runtime does ([INSERT ... ON CONFLICT (job_id) DO UPDATE], with the job's
    workspace); attempts change freely. *)
Inductive job_step (db : Db) : Db -> Prop :=
| insert_job j :
    job_id j ∉ map job_id (jobs db) -> job_step db (on_jobs (fun l => l ++ [j]) db)
| update_state gen now jid f db' :
    keeps_job f -> update_job gen now jid f db = Some db' -> job_step db db'
| delete_job jid :
    job_step db (on_dead_letters (delete_where (fun d => dl_job_id d =?= jid))
                   (on_jobs (delete_where (fun j => job_id j =?= jid)) db))
| upsert_letter d j db' :
    j ∈ jobs db -> dl_job_id d = job_id j -> dl_workspace_id d = job_workspace_id j ->
    insert_dead_letter d (excluded d) db = Some db' -> job_step db db'
| change_attempts g :
    job_step db (on_job_attempts g db).

(** The jobs that are FAILED and were inserted so: the trigger fires after updates only. *)
Definition born_failed (born : list uuid) (db db' : Db) : list uuid :=
  filter (fun i => i ∉ map job_id (jobs db) \/ i ∈ born)
    (map job_id (filter (fun j => job_state j = FAILED) (jobs db'))).

(** A sequence of steps, with the jobs that have not failed but were inserted failed. *)
Inductive job_history (db0 : Db) : list uuid -> Db -> Prop :=
| history_start : job_history db0 [] db0
| history_step born db db' :
    job_history db0 born db -> job_step db db' -> job_history db0 (born_failed born db db') db'.

(** ** Inserting a letter *)

Lemma existsb_letter jid l :
  existsb (fun r => dl_job_id r =?= jid) l = bool_decide (jid ∈ map dl_job_id l).
Proof.
  induction l as [|r l IH]; cbn; [done|]. rewrite IH, <- bool_decide_or.
  apply bool_decide_ext. rewrite elem_of_cons. naive_solver.
Qed.

Definition keeps_letter (g : DeadLetterRecord -> DeadLetterRecord) : Prop :=
  forall r, dl_job_id (g r) = dl_job_id r /\ dl_workspace_id (g r) = dl_workspace_id r.

Lemma insert_jobs d g db db' :
  insert_dead_letter d g db = Some db' -> jobs db' = jobs db /\ job_attempts db' = job_attempts db.
Proof.
  unfold insert_dead_letter. repeat case_match; intros [= <-]; by destruct db.
Qed.

Lemma insert_letters d g db db' x :
  keeps_letter g -> insert_dead_letter d g db = Some db' ->
  x ∈ map dl_job_id (dead_letters db') <-> x = dl_job_id d \/ x ∈ map dl_job_id (dead_letters db).
Proof.
  intros Hg. unfold insert_dead_letter. rewrite existsb_letter. case_bool_decide as Hin.
  - intros [= <-]. cbn. rewrite map_update_where by apply Hg. naive_solver.
  - case_match; [done|]. intros [= <-]. cbn. rewrite map_app, elem_of_app. cbn. rewrite list_elem_of_singleton.
    naive_solver.
Qed.

Lemma insert_ok d g db db' :
  keeps_letter g -> letters_ok db ->
  (exists j, j ∈ jobs db /\ job_id j = dl_job_id d /\ job_workspace_id j = dl_workspace_id d) ->
  insert_dead_letter d g db = Some db' -> letters_ok db'.
Proof.
  intros Hg [Hj Hl Ho] Hd Hins. pose proof (insert_jobs _ _ _ _ Hins) as [Hjobs _].
  revert Hins. unfold insert_dead_letter. rewrite existsb_letter. case_bool_decide as Hin.
  - intros [= <-]. split; cbn; [done|by rewrite map_update_where by apply Hg|].
    intros r (r0 & Hr0 & ->)%elem_of_update_where. destruct (Ho _ Hr0) as (j & ? & ? & ?).
    exists j. split; [done|]. destruct (Hg r0). case_match; split; congruence.
  - case_match; [done|]. intros [= <-]. split; cbn; [done|by apply NoDup_map_app_single|].
    intros r [?|Hr%list_elem_of_singleton]%elem_of_app; subst; auto.
Qed.

Lemma keeps_excluded d : keeps_letter (excluded d).
Proof. by split. Qed.
Lemma keeps_nothing : keeps_letter (fun r => r).
Proof. by split. Qed.
#[local] Hint Resolve keeps_excluded keeps_nothing : core.

(** ** The trigger *)

Lemma trigger_cases gen now OLD NEW db db' :
  fn_jobs_insert_dead_letter gen now OLD NEW db = Some db' ->
  db' = db /\ (job_state NEW = FAILED -> job_state OLD = FAILED) \/
  exists d g, keeps_letter g /\ dl_job_id d = job_id NEW /\
    dl_workspace_id d = job_workspace_id NEW /\ insert_dead_letter d g db = Some db'.
Proof.
  unfold fn_jobs_insert_dead_letter. case_match eqn:Hc.
  - intros H. right. destruct (current_attempt NEW db); eexists _, _; (split_and!; [| | |exact H]); auto.
  - intros [= <-]. left. split; [done|]. intros HN. rewrite HN in Hc. cbn in Hc.
    by apply negb_false_iff, bool_decide_eq_true in Hc.
Qed.

Lemma update_job_present gen now j f db :
  NoDup (map job_id (jobs db)) -> j ∈ jobs db ->
  update_job gen now (job_id j) f db =
  fn_jobs_insert_dead_letter gen now j (f j)
    (on_jobs (update_where (fun x => job_id x =?= job_id j) f) db).
Proof. intros Hnd Hj. unfold update_job. by rewrite where_key_unique. Qed.

Lemma update_job_absent gen now jid f db :
  jid ∉ map job_id (jobs db) -> update_job gen now jid f db = Some db.
Proof.
  intros Hj. assert (Hn : forall r, r ∈ jobs db -> (job_id r =?= jid) = false).
  { intros r Hr. apply bool_decide_eq_false. intros <-. by apply Hj, list_elem_of_fmap_2. }
  unfold update_job. rewrite (proj2 (where_nil_iff _ _) Hn). cbn.
  unfold on_jobs. rewrite update_where_nil by done. by destruct db.
Qed.

Lemma letters_ok_update_jobs jid f db :
  keeps_job f -> letters_ok db ->
  letters_ok (on_jobs (update_where (fun x => job_id x =?= jid) f) db).
Proof.
  intros Hf [Hj Hl Ho]. split; cbn; [by rewrite map_update_where by apply Hf|done|].
  intros d Hd. destruct (Ho d Hd) as (j & Hin & Hid & Hw). destruct (Hf j) as [Hfi Hfw].
  exists (if job_id j =?= jid then f j else j). split; [apply elem_of_update_where; eauto|].
  case_match; split; congruence.
Qed.

Lemma elem_of_born_failed born db db' j :
  j ∈ jobs db' -> job_state j = FAILED -> job_id j ∉ map job_id (jobs db) \/ job_id j ∈ born ->
  job_id j ∈ born_failed born db db'.
Proof.
  intros Hj Hf Hb. apply list_elem_of_filter. split; [done|]. apply list_elem_of_fmap_2.
  by apply list_elem_of_filter.
Qed.

(** A failed job left out of the next list either was there, as failed and left out, or
    has just failed. *)
Lemma failures_recorded_step born db db' :
  NoDup (map job_id (jobs db)) -> failures_recorded born db ->
  (forall j, j ∈ jobs db' -> job_state j = FAILED -> job_id j ∈ map job_id (jobs db) ->
     job_id j ∈ map dl_job_id (dead_letters db')
     \/ (exists j0, j0 ∈ jobs db /\ job_id j0 = job_id j /\ job_state j0 = FAILED
        /\ (job_id j ∈ map dl_job_id (dead_letters db) ->
            job_id j ∈ map dl_job_id (dead_letters db')))) ->
  failures_recorded (born_failed born db db') db'.
Proof.
  intros Hnd Hrec Hnew j Hj Hf Hb.
  destruct (decide (job_id j ∈ map job_id (jobs db))) as [Hin|Hin].
  2:{ destruct Hb. apply elem_of_born_failed; auto. }
  destruct (Hnew j Hj Hf Hin) as [|(j0 & Hj0 & Hid & Hf0 & Hkeep)]; [done|].
  apply Hkeep. rewrite <- Hid. apply Hrec; [done..|]. intros Hb0.
  destruct Hb. apply elem_of_born_failed; auto. right. by rewrite <- Hid.
Qed.

Lemma update_job_ok gen now jid f born db db' :
  keeps_job f -> dead_lettered born db -> update_job gen now jid f db = Some db' ->
  dead_lettered (born_failed born db db') db'.
Proof.
  intros Hf [Hok Hrec]. destruct (decide (jid ∈ map job_id (jobs db))) as [Hin|Hin].
  2:{ rewrite update_job_absent by done. intros [= <-]. split; [done|].
      apply failures_recorded_step; [apply Hok|done|]. intros j Hj Hfl _. right. by exists j. }
  apply list_elem_of_fmap in Hin as (j & -> & Hj).
  rewrite update_job_present by (done || apply Hok).
  pose proof (letters_ok_update_jobs (job_id j) f db Hf Hok) as Hok'.
  set (db1 := on_jobs _ db) in *. destruct (Hf j) as [Hfi Hfw].
  assert (Hj1 : f j ∈ jobs db1).
  { apply elem_of_update_where. exists j. by rewrite bool_decide_eq_true_2. }
  assert (Hother : forall x, x ∈ jobs db1 -> x = f j \/ x ∈ jobs db).
  { intros x (x0 & Hx0 & ->)%elem_of_update_where. case_bool_decide as Heq; [left|by right].
    f_equal. apply (NoDup_map_inj job_id (jobs db)); [apply Hok|done..]. }
  intros [[-> Hst]|(d & g & Hg & Hd & Hw & Hins)]%trigger_cases.
  - split; [done|]. apply failures_recorded_step; [apply Hok|done|].
    intros x [->|Hx]%Hother Hfl _; right; [exists j|by exists x].
    rewrite Hfi. auto.
  - split; [eapply insert_ok; eauto; exists (f j); naive_solver|].
    destruct (insert_jobs _ _ _ _ Hins) as [Hjobs _].
    apply failures_recorded_step; [apply Hok|done|]. rewrite Hjobs.
    intros x [->|Hx]%Hother Hfl _; [left|right].
    + rewrite <- Hd. apply (insert_letters _ _ _ _ _ Hg Hins). by left.
    + exists x. split_and!; [done..|]. intros Hl. apply (insert_letters _ _ _ _ _ Hg Hins). by right.
Qed.

Lemma job_step_ok born db db' :
  job_step db db' -> dead_lettered born db -> dead_lettered (born_failed born db db') db'.
Proof.
  destruct 1 as [j Hid|gen now jid f db' Hf Hup|jid|d j db' Hj Hid Hw Hins|g]; intros Hok.
  - destruct Hok as [[Hj Hl Ho] Hrec]. split; [split|]; cbn.
    + by apply NoDup_map_app_single.
    + done.
    + intros d (x & ? & ?)%Ho. exists x. by rewrite elem_of_app; auto.
    + apply failures_recorded_step; [done..|].
      intros x [Hx|Hx%list_elem_of_singleton]%elem_of_app Hfl Hin; [right; by exists x|by subst].
  - by eapply update_job_ok.
  - destruct Hok as [[Hj Hl Ho] Hrec]. split; [split|]; cbn.
    + by apply NoDup_map_delete_where.
    + by apply NoDup_map_delete_where.
    + intros d [Hd Hne]%elem_of_delete_where. destruct (Ho d Hd) as (j & ? & Hid & ?).
      exists j. split; [|done]. apply elem_of_delete_where. by rewrite Hid.
    + apply failures_recorded_step; [done..|].
      intros j [Hjn Hne]%elem_of_delete_where Hfl _. right. exists j. split_and!; [done..|].
      intros (d & Hid & Hd)%list_elem_of_fmap.
      apply list_elem_of_fmap. exists d. split; [done|].
      apply elem_of_delete_where. by rewrite <- Hid.
  - destruct Hok as [Hok Hrec]. split; [by apply (insert_ok d (excluded d) db); [| |exists j|]|].
    destruct (insert_jobs _ _ _ _ Hins) as [Hjobs _].
    apply failures_recorded_step; [apply Hok|done|]. rewrite Hjobs.
    intros x Hx Hfl _. right. exists x. split_and!; [done..|]. intros Hl.
    apply (insert_letters _ _ _ _ _ (keeps_excluded d) Hins). by right.
  - destruct Hok as [[] ?]. split; [done|].
    apply failures_recorded_step; [done..|]. intros x Hx Hfl _. right. by exists x.
Qed.

Lemma job_history_ok db0 born db :
  job_history db0 born db -> dead_lettered [] db0 -> dead_lettered born db.
Proof. induction 1; eauto using job_step_ok. Qed.

(** ** The backfill *)

Lemma map_imap_key {A B C} (g : nat -> A -> B) (h : B -> C) (k : A -> C) l :
  (forall i x, h (g i x) = k x) -> map h (imap g l) = map k l.
Proof.
  revert g. induction l as [|x l IH]; intros g Hg; cbn; [done|].
  f_equal; [apply Hg|]. apply IH. intros i y. apply Hg.
Qed.

Lemma insert_fresh_letters ds db :
  NoDup (map dl_job_id (dead_letters db ++ ds)) -> NoDup (map dl_id (dead_letters db ++ ds)) ->
  foldl (fun acc d => s ← acc; insert_dead_letter d (fun r => r) s) (Some db) ds
  = Some (on_dead_letters (fun l => l ++ ds) db).
Proof.
  revert db. induction ds as [|d ds IH]; intros db Hj Hi; cbn.
  { f_equal. unfold on_dead_letters. rewrite app_nil_r. by destruct db. }
  assert (Hsplit : dead_letters db ++ d :: ds = (dead_letters db ++ [d]) ++ ds)
    by by rewrite <- app_assoc.
  rewrite Hsplit in Hj, Hi. pose proof Hj as Hj1. pose proof Hi as Hi1.
  rewrite map_app in Hj1, Hi1. apply NoDup_app in Hj1 as [Hj1 _], Hi1 as [Hi1 _].
  apply NoDup_map_app_single in Hj1 as [_ Hj1], Hi1 as [_ Hi1].
  assert (insert_dead_letter d (fun r => r) db = Some (on_dead_letters (fun l => l ++ [d]) db)) as ->.
  { unfold insert_dead_letter. rewrite existsb_letter, bool_decide_eq_false_2 by done.
    case_match eqn:Hex; [|done]. apply existsb_exists in Hex as (r & Hr & Heq%bool_decide_eq_true).
    destruct Hi1. rewrite <- Heq. apply list_elem_of_fmap_2. by apply list_elem_of_In. }
  rewrite IH by done. f_equal. unfold on_dead_letters. cbn. by rewrite <- Hsplit.
Qed.

Lemma backfill_spec gen db :
  Inj (=) (=) gen -> NoDup (map job_id (jobs db)) -> dead_letters db = [] ->
  backfill gen db = Some (on_dead_letters (fun _ =>
    imap (backfill_letter gen db) (where_ (fun j => job_state j =?= FAILED) (jobs db))) db).
Proof.
  intros Hgen Hnd Hnil. unfold backfill. set (ds := imap _ _).
  rewrite insert_fresh_letters; [by unfold on_dead_letters; rewrite Hnil| |]; rewrite Hnil; cbn.
  - unfold ds. rewrite (map_imap_key _ _ job_id) by done. by apply NoDup_map_where.
  - apply NoDup_alt. intros i k x Hx Hy. unfold ds in *.
    rewrite list_lookup_fmap, list_lookup_imap in Hx, Hy.
    destruct (_ !! i), (_ !! k); [|done..]. cbn in *. apply (inj gen). congruence.
Qed.

Lemma backfill_dead_lettered gen db db' :
  Inj (=) (=) gen -> NoDup (map job_id (jobs db)) -> dead_letters db = [] ->
  backfill gen db = Some db' -> dead_lettered [] db'.
Proof.
  intros Hgen Hnd Hnil. rewrite backfill_spec by done. intros [= <-].
  split; [split|]; unfold failures_recorded, on_dead_letters; cbn [jobs dead_letters].
  - done.
  - rewrite (map_imap_key _ _ job_id) by done. by apply NoDup_map_where.
  - intros d (i & j & -> & Hj)%elem_of_lookup_imap.
    apply list_elem_of_lookup_2, elem_of_where in Hj as [Hj _]. by exists j.
  - intros j Hj Hfailed _. rewrite (map_imap_key _ _ job_id) by done.
    apply list_elem_of_fmap_2, elem_of_where. split; [done|]. by apply bool_decide_eq_true.
Qed.

(** ** What the trigger records *)

Section Letters.
Variables (g : DeadLetterRecord -> DeadLetterRecord).
Hypothesis g_keeps : keeps_letter g.

Lemma letter_update_same jid l :
  head (where_ (fun r => dl_job_id r =?= jid) (update_where (fun r => dl_job_id r =?= jid) g l))
  = g <$> head (where_ (fun r => dl_job_id r =?= jid) l).
Proof.
  induction l as [|r l IH]; [done|]. unfold where_, update_where in *. cbn.
  destruct (dl_job_id r =?= jid) eqn:E; cbn; [|by rewrite E].
  by rewrite (proj1 (g_keeps r)), E.
Qed.

Lemma letter_update_other jid k l :
  k <> jid ->
  head (where_ (fun r => dl_job_id r =?= k) (update_where (fun r => dl_job_id r =?= jid) g l))
  = head (where_ (fun r => dl_job_id r =?= k) l).
Proof.
  intros Hk. induction l as [|r l IH]; [done|]. unfold where_, update_where in *. cbn.
  destruct (dl_job_id r =?= jid) eqn:E; cbn; [|by case_match].
  apply bool_decide_eq_true in E. rewrite (proj1 (g_keeps r)), E, bool_decide_eq_false_2 by done.
  done.
Qed.
End Letters.

Lemma letter_none jid db : letter jid db = None <-> jid ∉ map dl_job_id (dead_letters db).
Proof.
  unfold letter. destruct (where_ _ _) as [|r l] eqn:E; cbn.
  - split; [intros _|done]. intros (r & -> & Hr)%list_elem_of_fmap.
    pose proof (proj1 (where_nil_iff _ _) E r Hr) as H. by apply bool_decide_eq_false in H.
  - assert (r ∈ where_ (fun r => dl_job_id r =?= jid) (dead_letters db)) as [Hr Hid]%elem_of_where
      by (rewrite E; left).
    apply bool_decide_eq_true in Hid as <-. split; [done|]. intros []. by apply list_elem_of_fmap_2.
Qed.

Lemma insert_letter_spec d g db :
  keeps_letter g -> dl_id d ∉ map dl_id (dead_letters db) ->
  exists db', insert_dead_letter d g db = Some db' /\
    letter (dl_job_id d) db' = Some (from_option g d (letter (dl_job_id d) db)) /\
    forall k, k <> dl_job_id d -> letter k db' = letter k db.
Proof.
  intros Hg Hid. unfold insert_dead_letter. rewrite existsb_letter.
  case_bool_decide as Hin.
  - eexists; split; [done|]. unfold letter at 1 3. cbn. rewrite letter_update_same by done.
    split; [|intros k Hk; by apply letter_update_other].
    change (head _) with (letter (dl_job_id d) db).
    destruct (letter _ _) eqn:E; [done|]. by apply letter_none in E.
  - case_match eqn:Hex.
    { apply existsb_exists in Hex as (r & Hr & Heq%bool_decide_eq_true).
      destruct Hid. rewrite <- Heq. apply list_elem_of_fmap_2. by apply list_elem_of_In. }
    pose proof Hin as E. apply letter_none in E. rewrite E.
    eexists; split; [done|]. unfold letter in *. cbn. split.
    + rewrite where_app. destruct (where_ _ (dead_letters db)); [|done]. cbn. unfold where_. cbn.
      by rewrite bool_decide_eq_true_2.
    + intros k Hk. rewrite where_app. unfold where_ at 2. cbn.
      rewrite bool_decide_eq_false_2 by done. by rewrite app_nil_r.
Qed.

(** ** Properties *)

(** C22: every failure leaves its dead letter.  Backfilling a database at the revision
    succeeds, and from then on, whatever jobs are inserted, updated and deleted and
    whatever letters the runtime records itself, every job that is FAILED and was not
    inserted so has exactly one dead letter, in the job's workspace; a job that was
    inserted FAILED has at most one; and no letter outlives its job. *)
Theorem failed_jobs_have_dead_letters gen db :
  Inj (=) (=) gen -> NoDup (map job_id (jobs db)) -> dead_letters db = [] ->
  exists db0, backfill gen db = Some db0 /\ jobs db0 = jobs db /\
    forall born db', job_history db0 born db' ->
      (forall j, j ∈ jobs db' -> job_state j = FAILED -> job_id j ∉ born ->
        exists d, where_ (fun r => dl_job_id r =?= job_id j) (dead_letters db') = [d] /\
          dl_workspace_id d = job_workspace_id j) /\
      NoDup (map dl_job_id (dead_letters db')) /\
      (forall d, d ∈ dead_letters db' -> exists j, j ∈ jobs db' /\ job_id j = dl_job_id d).
Proof.
  intros Hgen Hnd Hnil. pose proof (backfill_spec gen db Hgen Hnd Hnil) as Hb.
  eexists; split; [exact Hb|]. split; [done|]. intros born db' Hsteps.
  apply (backfill_dead_lettered gen) in Hb as Hok; [|done..].
  destruct (job_history_ok _ _ _ Hsteps Hok) as [[Hj Hl Ho] Hrec].
  split; [|split; [done|intros d (j & ? & ? & _)%Ho; eauto]].
  intros j Hjin Hf Hborn. apply (Hrec j Hjin) in Hf as (d & Hid & Hd)%list_elem_of_fmap; [|done].
  exists d. rewrite Hid. split; [by apply where_key_unique|].
  destruct (Ho d Hd) as (j' & Hj' & Hid' & <-). f_equal.
  apply (NoDup_map_inj job_id (jobs db')); congruence.
Qed.

Definition sample_job (id : uuid) (st : JobState) : Job :=
  mkJob id 7%N "job" "sha256:0" [] [] 60 0 2 st 5%Z 5%Z.

Definition fail_job (j : Job) : Job :=
  mkJob (job_id j) (job_workspace_id j) (job_name j) (job_image_digest j) (job_command_args j)
    (job_env_vars j) (job_timeout_seconds j) (job_max_retries j) (job_current_attempt_number j)
    FAILED (job_created_at j) (job_updated_at j).

Definition sample_jobs : Db :=
  on_job_attempts (fun _ => [mkJobAttempt 4%N 2%N 7%N 2 RUNNING None 0 (Some 3%Z) (Some "oom") None None 5%Z 5%Z])
    (on_jobs (fun _ => [sample_job 1%N FAILED; sample_job 2%N RUNNING; sample_job 3%N RUNNING]) empty_db).

(** A job inserted FAILED has no letter, until somebody records one: the trigger only
    fires after updates. *)
Lemma inserted_failed_has_no_letter db j :
  job_id j ∉ map job_id (jobs db) -> job_id j ∉ map dl_job_id (dead_letters db) ->
  exists db', job_step db db' /\ j ∈ jobs db' /\ letter (job_id j) db' = None.
Proof.
  intros Hj Hd. exists (on_jobs (fun l => l ++ [j]) db). split; [by apply insert_job|].
  split; [apply elem_of_app; right; by apply list_elem_of_singleton|]. by apply letter_none.
Qed.

(** A job fails after the backfill, and has its letter. *)
Lemma failed_jobs_have_dead_letters_witness :
  exists db0, backfill N.of_nat sample_jobs = Some db0 /\
    forall db', update_job 9%N 6%Z 2%N fail_job db0 = Some db' ->
      forall j, j ∈ jobs db' -> job_state j = FAILED ->
        exists d, where_ (fun r => dl_job_id r =?= job_id j) (dead_letters db') = [d] /\
          dl_workspace_id d = job_workspace_id j.
Proof.
  destruct (failed_jobs_have_dead_letters N.of_nat sample_jobs) as (db0 & Hb & Hj & H).
  - intros x y. apply Nat2N.inj.
  - apply (bool_decide_unpack _). by vm_compute.
  - reflexivity.
  - exists db0. split; [done|]. intros db' Hup j Hjn Hf.
    destruct (H (born_failed [] db0 db') db') as [H1 _].
    + eapply history_step; [apply history_start|]. eapply update_state; [|exact Hup]. by split.
    + apply H1; [done..|]. intros [[Hn|Hn] _]%list_elem_of_filter; [|by apply not_elem_of_nil in Hn].
      apply Hn. rewrite Hj. injection Hb as <-. injection Hup as <-.
      revert Hjn. clear. cbn. intros Hjn.
      repeat (apply elem_of_cons in Hjn as [->|Hjn]; [by apply (bool_decide_unpack _); vm_compute|]).
      by apply not_elem_of_nil in Hjn.
Defined.

(** The letter a failure leaves: of the current attempt if there is one, over the job's
    previous letter, which otherwise stays as it is. *)
Definition failure_letter (gen : uuid) (now : time) (j : Job) (db : Db) : DeadLetterRecord :=
  match current_attempt j db, letter (job_id j) db with
  | Some ja, Some old =>
      excluded (letter_of gen now j (att_exit_code ja) (att_failure_reason ja)) old
  | Some ja, None => letter_of gen now j (att_exit_code ja) (att_failure_reason ja)
  | None, Some old => old
  | None, None => letter_of gen now j None (Some "Job reached FAILED state")
  end.

(** C36: the trigger records the failure it sees.  An update that makes a job fail succeeds
    for a fresh id, and gives the job the letter of its current attempt: the attempt's
    number, exit code and reason at the time of the update, in the place of an earlier
    letter if there is one; without an attempt it is a generic letter, unless an earlier
    one exists, which then stays unchanged.  No other job's letter changes, and an update
    that does not make the job fail changes no letter. *)
Theorem job_failure_recorded gen now j f db :
  NoDup (map job_id (jobs db)) -> j ∈ jobs db -> keeps_job f ->
  gen ∉ map dl_id (dead_letters db) ->
  exists db', update_job gen now (job_id j) f db = Some db' /\
    jobs db' = update_where (fun x => job_id x =?= job_id j) f (jobs db) /\
    letter (job_id j) db' =
      (if (job_state (f j) =?= FAILED) && negb (job_state j =?= FAILED)
       then Some (failure_letter gen now (f j) db) else letter (job_id j) db) /\
    forall k, k <> job_id j -> letter k db' = letter k db.
Proof.
  intros Hnd Hj Hf Hgen. rewrite update_job_present by done.
  set (db1 := on_jobs _ db). unfold fn_jobs_insert_dead_letter.
  destruct (_ && _); [|by exists db1].
  assert (Hspec : forall d g, keeps_letter g -> dl_id d = gen -> dl_job_id d = job_id j ->
    from_option g d (letter (job_id j) db) = failure_letter gen now (f j) db ->
    exists db', insert_dead_letter d g db1 = Some db' /\ jobs db' = jobs db1 /\
      letter (job_id j) db' = Some (failure_letter gen now (f j) db) /\
      forall k, k <> job_id j -> letter k db' = letter k db).
  { intros d g Hg Hid Hjid <-. destruct (insert_letter_spec d g db1 Hg) as (db' & Hins & Hl & Hk);
      [by rewrite Hid|]. rewrite Hjid in Hl, Hk.
    exists db'. split_and!; [done|by apply (insert_jobs d g)|done|done]. }
  destruct (Hf j) as [Hid _]. change (current_attempt (f j) db1) with (current_attempt (f j) db).
  unfold failure_letter in Hspec. rewrite Hid in Hspec.
  unfold failure_letter. rewrite Hid. destruct (current_attempt (f j) db);
    apply Hspec; auto; by destruct (letter _ db).
Qed.

Lemma job_failure_recorded_witness :
  exists db', update_job 9%N 6%Z 2%N fail_job sample_jobs = Some db' /\
    letter 2%N db' = Some (mkDeadLetterRecord 9%N 2%N 7%N 2 (Some 3%Z) (Some "oom") 6%Z) /\
    letter 1%N db' = None.
Proof.
  destruct (job_failure_recorded 9%N 6%Z (sample_job 2%N RUNNING) fail_job sample_jobs)
    as (db' & Hup & _ & Hl & Hk).
  - apply (bool_decide_unpack _). by vm_compute.
  - by apply (list_elem_of_lookup_2 _ 1).
  - by split.
  - apply (bool_decide_unpack _). by vm_compute.
  - exists db'. split; [exact Hup|]. split; [exact Hl|]. by apply (Hk 1%N).
Defined.
