(* ===== verification/Lifecycle.v ===== *)
(** * The life of the process ([workers/outbox_dispatcher.py], [main.py])

    The dispatcher as a task: its connection, its loop and its stop signal; and the
    lifespan of the application around it, from the validation of the settings to the
    release of what it opened.  A schedule says what happens to the task turn by turn:
    the clock, the databases and the broker's answers, the state of the connection,
    a call of [stop], a cancellation. *)

From S2P Require Import Prelude PyStr Uuid Json Models DateTime Config Session Sample Events.
From S2P Require Import Handlers Outbox.
From Stdlib Require Import String.

(** ** The dispatcher's state

    [nc] is the NATS client with its [is_connected], [js] whether there is a JetStream
    context; [calls] is what the task has done to its collaborators, in order. *)

Inductive call :=
| CallConnect | CallAddStream | CallStreamInfo | CallDrain | CallClose
| CallPurge (now : time) (ok : bool)
| CallBatch (ok : bool).

Record Dispatcher := mkDispatcher {
  nc : option bool; js : bool; stop_event : bool; loop : LoopState; calls : list call }.

Definition set_nc (n : option bool) (d : Dispatcher) : Dispatcher :=
  mkDispatcher n (js d) (stop_event d) (loop d) (calls d).
Definition set_js (j : bool) (d : Dispatcher) : Dispatcher :=
  mkDispatcher (nc d) j (stop_event d) (loop d) (calls d).
Definition set_stop (b : bool) (d : Dispatcher) : Dispatcher :=
  mkDispatcher (nc d) (js d) b (loop d) (calls d).
Definition set_loop (s : LoopState) (d : Dispatcher) : Dispatcher :=
  mkDispatcher (nc d) (js d) (stop_event d) s (calls d).
Definition called (c : call) (d : Dispatcher) : Dispatcher :=
  mkDispatcher (nc d) (js d) (stop_event d) (loop d) (calls d ++ [c]).

(** [OutboxDispatcher()]: [_last_purge_at] is [None]. *)
Definition new_dispatcher (db : Db) : Dispatcher := mkDispatcher None false false (mkLoop None db) [].

(** [stop()]. *)
Definition stop (d : Dispatcher) : Dispatcher := set_stop true d.

(** ** Connecting and closing *)

(** What the server answers to one attempt: whether each call succeeds. *)
Record Attempt := mkAttempt { at_connect : bool; at_add_stream : bool; at_stream_info : bool }.

(** [connect()], and whether it returns; the stream may exist already, and failing to make
    sure of it is only logged. *)
Definition connect (a : Attempt) (d : Dispatcher) : Dispatcher * bool :=
  if nc d =?= Some true then (d, true)
  else
    let d := called CallConnect (set_nc (Some false) d) in
    if at_connect a then
      let d := called CallAddStream (set_js true (set_nc (Some true) d)) in
      (if at_add_stream a then d else called CallStreamInfo d, true)
    else (d, false).

Record Closing := mkClosing { cl_drain : bool; cl_close : bool }.

(** [close()], and whether it returns. *)
Definition close (c : Closing) (d : Dispatcher) : Dispatcher * bool :=
  if nc d =?= Some true then
    let d := called CallDrain d in
    if cl_drain c then
      let d := called CallClose d in
      if cl_close c then (set_js false (set_nc None d), true) else (d, false)
    else (d, false)
  else (d, true).

(** ** One turn of the loop *)

Inductive cancel_point := AtPurge | AtBatch | AtWait.
#[export] Instance cancel_point_eq_dec : EqDecision cancel_point.
Proof. solve_decision. Defined.

Record Turn := mkTurn {
  t_now : time;
  t_link : bool;              (* the client's [is_connected] during the turn *)
  t_purge : Env; t_batch : Env;
  t_publish : message -> publish_result; t_held : OutboxEvent -> bool;
  t_attempt : Attempt;
  t_stop : bool;              (* [stop] is called before the turn is over *)
  t_cancel : option cancel_point }.

Definition relink (b : bool) (d : Dispatcher) : Dispatcher := set_nc ((fun _ => b) <$> nc d) d.

(** The daily purge; an error is logged and the next turn tries again. *)
Definition purge_step (t : Turn) (d : Dispatcher) : Dispatcher :=
  if purge_due (last_purge_at (loop d)) (t_now t) then
    match run (purge_expired_outbox_events 7) (t_purge t) (loop_db (loop d)) with
    | (Ok _, db) => called (CallPurge (t_now t) true) (set_loop (mkLoop (Some (t_now t)) db) d)
    | (Err _, db) => called (CallPurge (t_now t) false) (set_loop (mkLoop (last_purge_at (loop d)) db) d)
    end
  else d.

(** A batch, and whether it published anything ([if drained > 0: continue]). *)
Definition batch_step (t : Turn) (d : Dispatcher) : Dispatcher * bool :=
  let (d, ready) := if js d then (d, true) else connect (t_attempt t) d in
  if ready then
    match run (drain_batch (t_publish t) (OUTBOX_BATCH_SIZE (settings (t_batch t))) None (t_held t))
              (t_batch t) (loop_db (loop d)) with
    | (Ok n, db) => (called (CallBatch true) (set_loop (mkLoop (last_purge_at (loop d)) db) d), 0 <? n)
    | (Err _, db) => (called (CallBatch false) (set_loop (mkLoop (last_purge_at (loop d)) db) d), false)
    end
  else (d, false).

(** The turn, and whether a cancellation ended it. *)
Definition turn (t : Turn) (d : Dispatcher) : Dispatcher * bool :=
  let d := relink (t_link t) d in
  let due := purge_due (last_purge_at (loop d)) (t_now t) in
  if (t_cancel t =?= Some AtPurge) && due then (d, true)
  else
    let d := purge_step t d in
    if t_cancel t =?= Some AtBatch then (d, true)
    else
      let (d, drained) := batch_step t d in
      if (t_cancel t =?= Some AtWait) && negb drained then (d, true)
      else (if t_stop t then stop d else d, false).

(** ** The loop *)

Inductive fault := ConnectFailed | CloseFailed | CancelledError.
Inductive ending := Returned | Raised (x: fault).

(** The [finally] of the loop; an exception of [close] replaces the one under way. *)
Definition finish (c : Closing) (x : ending) (d : Dispatcher) : Dispatcher * option ending :=
  let (d, closed) := close c d in (d, Some (if closed then x else Raised CloseFailed)).

(** [while not self._stop_event.is_set()]; [None] when the schedule is over and the loop
    is not. *)
Fixpoint run_loop (c : Closing) (turns : list Turn) (d : Dispatcher) : Dispatcher * option ending :=
  if stop_event d then finish c Returned d
  else
    match turns with
    | [] => (d, None)
    | t :: turns' =>
        match turn t d with
        | (d', true) => finish c (Raised CancelledError) d'
        | (d', false) => run_loop c turns' d'
        end
    end.

(** [run()]: the connection is made before the [try]. *)
Definition run_worker (a : Attempt) (c : Closing) (turns : list Turn) (d : Dispatcher)
    : Dispatcher * option ending :=
  let d := set_stop false d in
  match connect a d with
  | (d', true) => run_loop c turns d'
  | (d', false) => (d', Some (Raised ConnectFailed))
  end.

(** ** The application's lifespan ([main.py]) *)

Inductive action :=
| Validated | OpenedRedis | StartedDispatcher | Serving
| StoppedDispatcher | AwaitedDispatcher | ClosedRedis | DisposedEngine.

(** How a lifespan ends: an exception of the start-up or of the shutdown propagates. *)
Inductive lifespan_ending := Finished | StartRefused (msg : string) | ShutdownRaised (x : fault).

(** [lifespan(app)]; [task] is the end the dispatcher's task comes to once it has been told to
    stop.  [wait_for] gives it five seconds and then cancels it: its [CancelledError]
    becomes the [TimeoutError] that is caught, another exception propagates. *)
Definition lifespan (abspath : string -> string) (repo_root : string) (c : Settings)
    (task : ending) : list action * lifespan_ending :=
  match validate_runtime_environment abspath repo_root c with
  | Some msg => ([], StartRefused msg)
  | None =>
      let closed := [ClosedRedis; DisposedEngine] in
      if OUTBOX_DISPATCHER_ENABLED c then
        let shutdown := [Validated; OpenedRedis; StartedDispatcher; Serving; StoppedDispatcher;
                         AwaitedDispatcher] in
        match task with
        | Returned | Raised CancelledError => (shutdown ++ closed, Finished)
        | Raised x => (shutdown, ShutdownRaised x)
        end
      else ([Validated; OpenedRedis; Serving] ++ closed, Finished)
  end.

(** ** A turn on its own *)

(** What a turn does to the database and the purge date is a turn of [Outbox]. *)
Definition turn_loop (s : LoopState) (t : Turn) : LoopState :=
  (run_turn (t_publish t) (t_held t) (t_purge t) (t_batch t) (t_now t) s).1.

Lemma purge_step_frame t d :
  nc (purge_step t d) = nc d /\ js (purge_step t d) = js d /\ stop_event (purge_step t d) = stop_event d.
Proof. unfold purge_step. repeat case_match; done. Qed.

Lemma turn_connected t d :
  js d = true -> t_cancel t = None -> exists d', turn t d = (d', false) /\
    js d' = true /\ nc d' = ((fun _ => t_link t) <$> nc d) /\
    stop_event d' = t_stop t || stop_event d /\ loop d' = turn_loop (loop d) t.
Proof.
  intros Hjs Hc. unfold turn. rewrite Hc. rewrite !bool_decide_eq_false_2 by done. cbn [andb].
  destruct (purge_step_frame t (relink (t_link t) d)) as (Hn & Hj & Hs).
  assert (Hl : loop (purge_step t (relink (t_link t) d)) =
    if purge_due (last_purge_at (loop d)) (t_now t) then
      match run (purge_expired_outbox_events 7) (t_purge t) (loop_db (loop d)) with
      | (Ok _, db) => mkLoop (Some (t_now t)) db
      | (Err _, db) => mkLoop (last_purge_at (loop d)) db
      end
    else loop d).
  { unfold purge_step, relink, set_nc. cbn. by repeat case_match. }
  set (d1 := purge_step _ _) in *. unfold batch_step. rewrite Hj. cbn [js relink set_nc]. rewrite Hjs.
  unfold turn_loop, run_turn. rewrite <- Hl. clearbody d1.
  destruct (run (drain_batch _ _ _ _) _ _) as [[n|x] db];
    (eexists; split; [reflexivity|]); destruct (t_stop t); cbn; rewrite ?Hn, ?Hj, ?Hs; auto.
Qed.

(** ** The run of the worker *)

Definition uncancelled (turns : list Turn) : Prop := Forall (fun t => t_cancel t = None) turns.

(** The turns the loop takes: up to the first in which it is told to stop. *)
Fixpoint until_stop (turns : list Turn) : list Turn :=
  match turns with
  | [] => []
  | t :: turns' => t :: if t_stop t then [] else until_stop turns'
  end.

(** The end of [close] on a client that is connected or not. *)
Definition closing (c : Closing) (link : bool) : ending :=
  if negb link || (cl_drain c && cl_close c) then Returned else Raised CloseFailed.

Lemma close_spec c link d :
  nc d = Some link -> exists d', finish c Returned d = (d', Some (closing c link)) /\ loop d' = loop d /\
    (closing c link = Returned -> nc d' <> Some true).
Proof.
  intros Hn. unfold finish, close, closing. rewrite Hn.
  destruct link; cbn; [|by eexists; split; [reflexivity|]; rewrite Hn].
  destruct (cl_drain c), (cl_close c); cbn; by eexists; split; [reflexivity|].
Qed.

Lemma last_default {A B} (f : A -> B) b x l :
  from_option f b (last (x :: l)) = from_option f (f x) (last l).
Proof. destruct l as [|y l]; [done|]. cbn [last]. by destruct (last (y :: l)) eqn:E; [|apply last_None in E]. Qed.

Lemma run_loop_spec c turns d link :
  js d = true -> nc d = Some link -> stop_event d = false -> uncancelled turns ->
  exists d', run_loop c turns d =
      (d', if existsb t_stop turns
           then Some (closing c (from_option t_link link (last (until_stop turns)))) else None) /\
    loop d' = foldl turn_loop (loop d) (until_stop turns) /\
    ((run_loop c turns d).2 = Some Returned -> nc d' <> Some true).
Proof.
  revert d link. induction turns as [|t turns IH]; intros d link Hj Hn Hs Hc; cbn; rewrite Hs.
  { by exists d. }
  inversion Hc as [|? ? Ht Hc']; subst.
  destruct (turn_connected t d Hj Ht) as (d1 & -> & Hj1 & Hn1 & Hs1 & Hl1).
  rewrite Hn in Hn1. cbn in Hn1. rewrite Hs, orb_false_r in Hs1.
  destruct (t_stop t) eqn:Hst; cbn.
  - destruct (close_spec c (t_link t) d1 Hn1) as (d' & Hf & Hl & Hn').
    destruct turns; cbn; rewrite Hs1, Hf; exists d'; rewrite Hl, Hl1; naive_solver.
  - destruct (IH d1 (t_link t) Hj1 Hn1 Hs1 Hc') as (d' & Hr & Hl & Hn').
    rewrite Hl1 in Hl. exists d'. split_and!; [|done|by rewrite Hr in Hn' |- *].
    rewrite Hr. by rewrite last_default.
Qed.

(** ** The purge *)

Definition purge_time (x : call) : option time :=
  match x with CallPurge now true => Some now | _ => None end.
Definition purge_times (d : Dispatcher) : list time := omap purge_time (calls d).

Definition a_day_apart (p q : time) : Prop := p + seconds 86400 <= q.

(** The purge date is the last purge, and purges are a day apart. *)
Definition purges_ok (d : Dispatcher) : Prop :=
  last_purge_at (loop d) = last (purge_times d) /\ Sorted a_day_apart (purge_times d).

Lemma purges_ok_called x d :
  purge_time x = None -> purges_ok d -> purges_ok (called x d).
Proof.
  unfold purges_ok, purge_times. intros Hx [Hl Hs]. cbn.
  rewrite omap_app. cbn. rewrite Hx, app_nil_r. done.
Qed.

Lemma purges_ok_connect a d : purges_ok d -> purges_ok (connect a d).1.
Proof.
  intros H. unfold connect. case_match; [done|].
  destruct (at_connect a), (at_add_stream a); cbn; repeat apply purges_ok_called; done.
Qed.

Lemma purges_ok_finish c x d : purges_ok d -> purges_ok (finish c x d).1.
Proof.
  intros H. unfold finish, close. destruct (nc d =?= Some true); [|done].
  destruct (cl_drain c), (cl_close c); cbn; repeat apply purges_ok_called; done.
Qed.

Lemma purges_ok_purge t d : purges_ok d -> purges_ok (purge_step t d).
Proof.
  intros H. unfold purge_step. case_match eqn:Hdue; [|done].
  destruct (run _ _ _) as [[n|x] db]; [|by apply purges_ok_called].
  destruct H as [Hl Hs]. unfold purges_ok, purge_times in *. cbn. rewrite omap_app. cbn.
  split; [by rewrite last_snoc|].
  apply Sorted_snoc; [done|]. destruct (last (omap purge_time (calls d))) as [p|] eqn:Hp.
  - destruct (proj1 (last_Some _ _) Hp) as [l ->]. constructor. unfold a_day_apart.
    rewrite Hl in Hdue. cbn in Hdue. lia.
  - apply last_None in Hp as ->. constructor.
Qed.

Lemma purges_ok_batch t d : purges_ok d -> purges_ok (batch_step t d).1.
Proof.
  intros H. unfold batch_step.
  assert (Hr : purges_ok (if js d then (d, true) else connect (t_attempt t) d).1)
    by (destruct (js d); [done|by apply purges_ok_connect]).
  destruct (if js d then _ else _) as [d1 ready]. cbn in Hr. destruct ready; [|done].
  destruct (run _ _ _) as [[n|x] db]; cbn; by apply purges_ok_called.
Qed.

Lemma purges_ok_turn t d : purges_ok d -> purges_ok (turn t d).1.
Proof.
  intros H. unfold turn. case_match; [done|].
  assert (Hp : purges_ok (purge_step t (relink (t_link t) d))) by by apply purges_ok_purge.
  case_match; [done|]. apply (purges_ok_batch t) in Hp.
  destruct (batch_step _ _) as [d1 drained]. case_match; [done|]. by destruct (t_stop t).
Qed.

Lemma purges_ok_loop c turns d : purges_ok d -> purges_ok (run_loop c turns d).1.
Proof.
  revert d. induction turns as [|t turns IH]; intros d H; cbn;
    (destruct (stop_event d); [by apply purges_ok_finish|try done]).
  apply (purges_ok_turn t) in H. destruct (turn t d) as [d1 [|]]; [by apply purges_ok_finish|].
  by apply IH.
Qed.

(** ** Properties *)

(** C37: the worker runs until it is told to stop.  Once connected, and unless it is
    cancelled, no failure of the purge, of a batch or of the broker ends the loop: it
    performs exactly the turns of the schedule up to the first in which [stop] is called, and
    then closes its connection and returns; it is still running if [stop] is never called.
    An exception only comes out of closing a live connection. *)
Theorem worker_runs_until_stopped a c turns db :
  at_connect a = true -> uncancelled turns ->
  exists d, run_worker a c turns (new_dispatcher db) =
      (d, if existsb t_stop turns
          then Some (closing c (from_option t_link true (last (until_stop turns)))) else None) /\
    loop d = foldl turn_loop (mkLoop None db) (until_stop turns) /\
    ((run_worker a c turns (new_dispatcher db)).2 = Some Returned -> nc d <> Some true).
Proof.
  intros Ha Hc. unfold run_worker, connect. rewrite bool_decide_eq_false_2 by done. rewrite Ha.
  destruct (at_add_stream a);
    match goal with |- context [run_loop c turns ?d] =>
      destruct (run_loop_spec c turns d true) as (d' & Hr & Hl & Hn); try done end;
    rewrite Hr in Hn |- *; by exists d'.
Qed.

Definition sample_turn (now : time) (is_last : bool) : Turn :=
  mkTurn now true sample_env sample_env (fun _ => Acked) (fun _ => false) (mkAttempt false true true)
    is_last None.

Lemma worker_runs_until_stopped_witness :
  exists d, run_worker (mkAttempt true false true) (mkClosing true true)
      [sample_turn 0 false; sample_turn 5 true; sample_turn 9 false] (new_dispatcher empty_db) =
    (d, Some Returned) /\ nc d <> Some true.
Proof.
  destruct (worker_runs_until_stopped (mkAttempt true false true) (mkClosing true true)
    [sample_turn 0 false; sample_turn 5 true; sample_turn 9 false] empty_db) as (d & Hr & _ & Hn).
  - reflexivity.
  - repeat constructor.
  - exists d. split; [exact Hr|]. apply Hn. by rewrite Hr.
Defined.

(** C40: the outbox is purged at most once a day.  Whatever happens to the worker (database
    errors, lost connections, cancellation at any point), two successful purges are at least
    24 hours apart, and the date the worker remembers is that of its last one. *)
Theorem worker_purges_daily a c turns db :
  let d := (run_worker a c turns (new_dispatcher db)).1 in
  last_purge_at (loop d) = last (purge_times d) /\ Sorted a_day_apart (purge_times d).
Proof.
  change (purges_ok (run_worker a c turns (new_dispatcher db)).1). unfold run_worker.
  assert (H : purges_ok (set_stop false (new_dispatcher db))) by by repeat constructor.
  apply (purges_ok_connect a) in H. destruct (connect a _) as [d []]; [|done].
  by apply purges_ok_loop.
Qed.

(** A dispatcher that cannot connect ends at once, and the shutdown raises what ended it:
    neither Redis nor the engine is released. *)
Lemma dispatcher_failure_leaks abspath repo_root s a c turns db d x :
  OUTBOX_DISPATCHER_ENABLED s = true ->
  validate_runtime_environment abspath repo_root s = None ->
  at_connect a = false ->
  run_worker a c turns (new_dispatcher db) = (d, Some x) ->
  let (trace, outcome) := lifespan abspath repo_root s x in
  (OpenedRedis ∈ trace) /\ outcome = ShutdownRaised ConnectFailed
  /\ (ClosedRedis ∉ trace) /\ (DisposedEngine ∉ trace).
Proof.
  intros He Hv Ha Hr. assert (x = Raised ConnectFailed) as ->.
  { revert Hr. unfold run_worker, connect. rewrite bool_decide_eq_false_2 by done. rewrite Ha. by intros [= <- <-]. }
  unfold lifespan. rewrite Hv, He. set_solver.
Qed.
