(* ===== verification/References.v ===== *)
(** * References between rows (the foreign keys of [models/*.py])

    A row names its parents by their ids.  The database checks that the parent exists; that
    it belongs to the same workspace is up to the handlers.  [keys] are a parent table's
    ids with their workspaces, [references] the foreign keys of a row, exactly those of the
    migrated schema; [coherent] says that they resolve within the row's workspace.

    The triple [Hoare P m Q] is a logic of partial correctness in which a computation
    learns from its queries, and from what it stages, which parents exist: its assertions
    hold of every database later than the session's own, whatever others commit. *)

From stdpp Require Import gmap.
From S2P Require Import Prelude PyStr Uuid Json Models Config Session History Schema Migrations.
From Stdlib Require Import Ascii String.

(** ** Parents and references *)

Inductive Parent := AWorkspace | AnApplication | ARelease | ARepository | AJob | AnAttempt.

Definition parent_table (p : Parent) : string :=
  match p with
  | AWorkspace => "workspaces" | AnApplication => "applications" | ARelease => "releases"
  | ARepository => "repositories" | AJob => "jobs" | AnAttempt => "job_attempts"
  end.

(** The ids in a parent table, each with the workspace its row belongs to. *)
Definition keys (p : Parent) (d : Db) : list (uuid * uuid) :=
  match p with
  | AWorkspace => map (fun w => (ws_id w, ws_id w)) (workspaces d)
  | AnApplication => map (fun a => (app_id a, app_workspace_id a)) (applications d)
  | ARelease => map (fun r => (rel_id r, rel_workspace_id r)) (releases d)
  | ARepository => map (fun r => (repo_id r, repo_workspace_id r)) (repositories d)
  | AJob => map (fun j => (job_id j, job_workspace_id j)) (jobs d)
  | AnAttempt => map (fun a => (att_id a, att_workspace_id a)) (job_attempts d)
  end.

(** A foreign key of a row: its column, the table it refers to, and, unless it is NULL, the
    parent's id with the workspace the parent must belong to. *)
Record Reference := mkRef {
  ref_column : string; ref_parent : Parent; ref_key : option (uuid * uuid) }.

Definition to_workspace (w : uuid) : Reference := mkRef "workspace_id" AWorkspace (Some (w, w)).
Definition to_parent (column : string) (p : Parent) (id w : uuid) : Reference :=
  mkRef column p (Some (id, w)).
Definition to_optional (column : string) (p : Parent) (id : option uuid) (w : uuid) : Reference :=
  mkRef column p ((fun i => (i, w)) <$> id).

(** What each class declares with [ForeignKey]. *)
Definition membership_references (m : WorkspaceMembership) : list Reference :=
  [to_workspace (wm_workspace_id m)].
Definition application_references (a : Application) : list Reference :=
  [to_workspace (app_workspace_id a);
   to_optional "current_release_id" ARelease (app_current_release_id a) (app_workspace_id a);
   to_optional "repository_id" ARepository (app_repository_id a) (app_workspace_id a)].
Definition release_references (r : Release) : list Reference :=
  [to_parent "application_id" AnApplication (rel_application_id r) (rel_workspace_id r);
   to_workspace (rel_workspace_id r);
   to_optional "repository_id" ARepository (rel_repository_id r) (rel_workspace_id r)].
Definition job_references (j : Job) : list Reference :=
  [to_workspace (job_workspace_id j)].
Definition attempt_references (a : JobAttempt) : list Reference :=
  [to_parent "job_id" AJob (att_job_id a) (att_workspace_id a);
   to_workspace (att_workspace_id a)].
Definition intent_references (i : ExecutionIntent) : list Reference :=
  [to_workspace (int_workspace_id i);
   to_optional "job_attempt_id" AnAttempt (int_job_attempt_id i) (int_workspace_id i);
   to_optional "release_id" ARelease (int_release_id i) (int_workspace_id i)].
Definition event_references (o : OutboxEvent) : list Reference :=
  [to_workspace (ob_workspace_id o)].
Definition reservation_references (q : QuotaReservation) : list Reference :=
  [to_workspace (qr_workspace_id q)].
Definition record_references (r : IdempotencyRecord) : list Reference :=
  [to_workspace (ir_workspace_id r)].
Definition secret_references (s : SecretReference) : list Reference :=
  [to_workspace (sec_workspace_id s)].
Definition audit_references (a : AuditEvent) : list Reference :=
  [mkRef "workspace_id" AWorkspace ((fun w => (w, w)) <$> aud_workspace_id a)].
Definition repository_references (r : Repository) : list Reference :=
  [to_workspace (repo_workspace_id r)].
Definition delivery_references (d : WebhookDelivery) : list Reference :=
  [to_workspace (wd_workspace_id d);
   to_parent "repository_id" ARepository (wd_repository_id d) (wd_workspace_id d)].
Definition dead_letter_references (l : DeadLetterRecord) : list Reference :=
  [to_parent "job_id" AJob (dl_job_id l) (dl_workspace_id l);
   to_workspace (dl_workspace_id l)].

#[global] Arguments membership_references _ /.
#[global] Arguments application_references _ /.
#[global] Arguments release_references _ /.
#[global] Arguments job_references _ /.
#[global] Arguments attempt_references _ /.
#[global] Arguments intent_references _ /.
#[global] Arguments event_references _ /.
#[global] Arguments reservation_references _ /.
#[global] Arguments record_references _ /.
#[global] Arguments secret_references _ /.
#[global] Arguments audit_references _ /.
#[global] Arguments repository_references _ /.
#[global] Arguments delivery_references _ /.
#[global] Arguments dead_letter_references _ /.

(** The rows of a mapped class: their table and the references of one of them. *)
Class Row (A : Type) := { row_table : string; references : A -> list Reference }.

#[export] Instance membership_row : Row WorkspaceMembership := Build_Row _ "workspace_memberships" membership_references.
#[export] Instance application_row : Row Application := Build_Row _ "applications" application_references.
#[export] Instance release_row : Row Release := Build_Row _ "releases" release_references.
#[export] Instance job_row : Row Job := Build_Row _ "jobs" job_references.
#[export] Instance attempt_row : Row JobAttempt := Build_Row _ "job_attempts" attempt_references.
#[export] Instance intent_row : Row ExecutionIntent := Build_Row _ "execution_intents" intent_references.
#[export] Instance event_row : Row OutboxEvent := Build_Row _ "outbox_events" event_references.
#[export] Instance reservation_row : Row QuotaReservation := Build_Row _ "quota_reservations" reservation_references.
#[export] Instance record_row : Row IdempotencyRecord := Build_Row _ "idempotency_records" record_references.
#[export] Instance secret_row : Row SecretReference := Build_Row _ "secret_references" secret_references.
#[export] Instance audit_row : Row AuditEvent := Build_Row _ "audit_events" audit_references.
#[export] Instance repository_row : Row Repository := Build_Row _ "repositories" repository_references.
#[export] Instance delivery_row : Row WebhookDelivery := Build_Row _ "webhook_deliveries" delivery_references.
#[export] Instance dead_letter_row : Row DeadLetterRecord := Build_Row _ "dead_letter_records" dead_letter_references.

(** ** Coherent databases *)

#[global] Arguments keys : simpl never.

Definition resolves (d : Db) (r : Reference) : Prop :=
  match ref_key r with Some k => k ∈ keys (ref_parent r) d | None => True end.

Definition refers {A} `{Row A} (d : Db) (x : A) : Prop := Forall (resolves d) (references x).

Record coherent (d : Db) : Prop := {
  co_memberships : Forall (refers d) (memberships d);
  co_applications : Forall (refers d) (applications d);
  co_releases : Forall (refers d) (releases d);
  co_jobs : Forall (refers d) (jobs d);
  co_attempts : Forall (refers d) (job_attempts d);
  co_intents : Forall (refers d) (intents d);
  co_events : Forall (refers d) (outbox d);
  co_reservations : Forall (refers d) (reservations d);
  co_records : Forall (refers d) (idempotency d);
  co_secrets : Forall (refers d) (secrets d);
  co_audit : Forall (refers d) (audit_events d);
  co_repositories : Forall (refers d) (repositories d);
  co_deliveries : Forall (refers d) (deliveries d);
  co_letters : Forall (refers d) (dead_letters d) }.

#[export] Instance resolves_dec d r : Decision (resolves d r).
Proof. unfold resolves. destruct (ref_key r); apply _. Defined.
#[export] Instance refers_dec {A} `{Row A} d (x : A) : Decision (refers d x).
Proof. unfold refers. apply _. Defined.

(** The references of the whole database hold, as a test. *)
Definition coherent_test (d : Db) : bool :=
  let all {A} `{Row A} (l : list A) := bool_decide (Forall (refers d) l) in
  all (memberships d) && all (applications d) && all (releases d) && all (jobs d)
  && all (job_attempts d) && all (intents d) && all (outbox d) && all (reservations d)
  && all (idempotency d) && all (secrets d) && all (audit_events d) && all (repositories d)
  && all (deliveries d) && all (dead_letters d).

Lemma coherent_test_true d : coherent_test d = true -> coherent d.
Proof.
  unfold coherent_test. cbv zeta. rewrite !andb_true_iff, !bool_decide_eq_true.
  intros H. split; tauto.
Qed.

(** ** The order: parents are never lost *)

#[export] Instance db_later : SqSubsetEq Db := fun d d' => forall p, keys p d ⊆ keys p d'.

#[export] Instance later_preorder : PreOrder (⊑@{Db}).
Proof. split; [intros d p; done|]. intros d1 d2 d3 H1 H2 p k Hk. by apply H2, H1. Qed.

Lemma resolves_later d d' r : d ⊑ d' -> resolves d r -> resolves d' r.
Proof. intros H. unfold resolves. destruct (ref_key r); [apply H|done]. Qed.

Lemma refers_later {A} `{Row A} d d' (x : A) : d ⊑ d' -> refers d x -> refers d' x.
Proof. intros Hd Hx. eapply list.Forall_impl; [exact Hx|]. intros r. by apply resolves_later. Qed.

(** An id names one row: what the primary keys guarantee (of the attempts, which the
    service does not insert, nothing is needed). *)
Definition functional (d : Db) : Prop :=
  forall p i w w', p <> AnAttempt -> (i, w) ∈ keys p d -> (i, w') ∈ keys p d -> w = w'.

Lemma functional_earlier d d' : d ⊑ d' -> functional d' -> functional d.
Proof. intros Hd Hf p i w w' Hp H1 H2. apply (Hf p i); [done|by apply Hd..]. Qed.

(** ** Changes

    A change adds the same keys whatever database and time it is applied at. *)

Definition adding (w : time -> Db -> Db) : Prop :=
  exists ks, forall t p d, keys p (w t d) = keys p d ++ ks p.

Lemma adding_none w : (forall t p d, keys p (w t d) = keys p d) -> adding w.
Proof. intros H. exists (fun _ => []). intros t p d. by rewrite app_nil_r. Qed.

Section Adding.
Context (w : time -> Db -> Db) (Hw : adding w).

Lemma adding_up t d : d ⊑ w t d.
Proof. destruct Hw as [ks E]. intros p k Hk. rewrite E. apply elem_of_app. by left. Qed.

(** Whatever the times, an order between databases is kept. *)
Lemma adding_mono t t' d d' : d ⊑ d' -> w t d ⊑ w t' d'.
Proof.
  destruct Hw as [ks E]. intros Hd p k. rewrite !E, !elem_of_app. intros [Hk|Hk]; [left; by apply Hd|by right].
Qed.
End Adding.

Lemma write_up w d : adding (fun _ => w) -> d ⊑ w d.
Proof. intros Hw. exact (adding_up _ Hw 0 d). Qed.

Lemma write_mono w d d' : adding (fun _ => w) -> d ⊑ d' -> w d ⊑ w d'.
Proof. intros Hw. exact (adding_mono _ Hw 0 0 d d'). Qed.

Definition at_time (t : time) (ws : list (time -> Db -> Db)) : Db -> Db := apply_all (map (fun w => w t) ws).

Lemma at_time_app t ws ws' d : at_time t (ws ++ ws') d = at_time t ws' (at_time t ws d).
Proof. unfold at_time. by rewrite map_app, apply_all_app. Qed.

(** Coherent, provided ids name one row: what a database under construction is. *)
Definition sound (d : Db) : Prop := functional d -> coherent d.

(** Under what holds of the database, the change keeps it coherent. *)
Definition keeps_sound (P : Db -> Prop) (w : time -> Db -> Db) : Prop :=
  forall t d, P d -> functional (w t d) -> coherent d -> coherent (w t d).

(** *** The changes of one table *)

Lemma refers_all_later {A} `{Row A} d d' (l : list A) :
  d ⊑ d' -> Forall (refers d) l -> Forall (refers d') l.
Proof. intros Hd Hl. eapply list.Forall_impl; [exact Hl|]. intros x. by apply refers_later. Qed.

(** The table is replaced, and its new rows refer to parents of the new database. *)
Ltac table_coherent :=
  intros Hd Hl []; split; cbn; try done; (eapply refers_all_later; [exact Hd|done]).

Section Tables.
Context (d : Db).

Lemma coherent_workspaces g : d ⊑ on_workspaces g d -> coherent d -> coherent (on_workspaces g d).
Proof. intros Hd []. split; cbn; (eapply refers_all_later; [exact Hd|done]). Qed.
Lemma coherent_memberships g : d ⊑ on_memberships g d ->
  Forall (refers (on_memberships g d)) (g (memberships d)) -> coherent d -> coherent (on_memberships g d).
Proof. table_coherent. Qed.
Lemma coherent_applications g : d ⊑ on_applications g d ->
  Forall (refers (on_applications g d)) (g (applications d)) -> coherent d -> coherent (on_applications g d).
Proof. table_coherent. Qed.
Lemma coherent_releases g : d ⊑ on_releases g d ->
  Forall (refers (on_releases g d)) (g (releases d)) -> coherent d -> coherent (on_releases g d).
Proof. table_coherent. Qed.
Lemma coherent_jobs g : d ⊑ on_jobs g d ->
  Forall (refers (on_jobs g d)) (g (jobs d)) -> coherent d -> coherent (on_jobs g d).
Proof. table_coherent. Qed.
Lemma coherent_outbox g : d ⊑ on_outbox g d ->
  Forall (refers (on_outbox g d)) (g (outbox d)) -> coherent d -> coherent (on_outbox g d).
Proof. table_coherent. Qed.
Lemma coherent_reservations g : d ⊑ on_reservations g d ->
  Forall (refers (on_reservations g d)) (g (reservations d)) -> coherent d -> coherent (on_reservations g d).
Proof. table_coherent. Qed.
Lemma coherent_idempotency g : d ⊑ on_idempotency g d ->
  Forall (refers (on_idempotency g d)) (g (idempotency d)) -> coherent d -> coherent (on_idempotency g d).
Proof. table_coherent. Qed.
Lemma coherent_secrets g : d ⊑ on_secrets g d ->
  Forall (refers (on_secrets g d)) (g (secrets d)) -> coherent d -> coherent (on_secrets g d).
Proof. table_coherent. Qed.
Lemma coherent_audit_events g : d ⊑ on_audit_events g d ->
  Forall (refers (on_audit_events g d)) (g (audit_events d)) -> coherent d -> coherent (on_audit_events g d).
Proof. table_coherent. Qed.
Lemma coherent_repositories g : d ⊑ on_repositories g d ->
  Forall (refers (on_repositories g d)) (g (repositories d)) -> coherent d -> coherent (on_repositories g d).
Proof. table_coherent. Qed.
Lemma coherent_deliveries g : d ⊑ on_deliveries g d ->
  Forall (refers (on_deliveries g d)) (g (deliveries d)) -> coherent d -> coherent (on_deliveries g d).
Proof. table_coherent. Qed.
End Tables.

Section Rows.
Context {A : Type} `{Row A}.

Lemma refers_snoc d d' (l : list A) x :
  d ⊑ d' -> Forall (refers d) l -> refers d x -> Forall (refers d') (l ++ [x]).
Proof. intros Hd Hl Hx. eapply refers_all_later; [exact Hd|]. apply Forall_app. by split; [|constructor]. Qed.

Lemma refers_update d d' P (f : A -> A) (l : list A) :
  d ⊑ d' -> Forall (refers d) l -> (forall x, x ∈ l -> P x = true -> refers d x -> refers d (f x)) ->
  Forall (refers d') (update_where P f l).
Proof.
  intros Hd Hl Hf. eapply refers_all_later; [exact Hd|]. rewrite Forall_forall in *.
  intros x (y & Hy & ->)%elem_of_update_where. case_match; auto.
Qed.

Lemma refers_delete d d' P (l : list A) :
  d ⊑ d' -> Forall (refers d) l -> Forall (refers d') (delete_where P l).
Proof.
  intros Hd Hl. rewrite Forall_forall in *. intros x [Hx _]%elem_of_delete_where.
  eapply refers_later; [exact Hd|]. auto.
Qed.
End Rows.

(** ** The references are the foreign keys of the schema *)

(** The columns of a row that refer to another table, with the table. *)
Definition columns_of {A} `{Row A} (x : A) : list (string * list string * string) :=
  map (fun r => (row_table (A := A), [ref_column r], parent_table (ref_parent r))) (references x).

(** The referenced table of every foreign key. *)
Definition schema_references (s : Schema) : gmap (string * list string) string :=
  (fun v => v.1.1) <$> v_foreign (view_of s).

(** Column by column, as the classes of models/*.py declare them. *)
Definition declared_references : list (string * list string * string) :=
  [("workspace_memberships", ["workspace_id"], "workspaces");
   ("applications", ["workspace_id"], "workspaces");
   ("applications", ["current_release_id"], "releases");
   ("applications", ["repository_id"], "repositories");
   ("releases", ["application_id"], "applications"); ("releases", ["workspace_id"], "workspaces");
   ("releases", ["repository_id"], "repositories"); ("jobs", ["workspace_id"], "workspaces");
   ("job_attempts", ["job_id"], "jobs"); ("job_attempts", ["workspace_id"], "workspaces");
   ("execution_intents", ["workspace_id"], "workspaces");
   ("execution_intents", ["job_attempt_id"], "job_attempts");
   ("execution_intents", ["release_id"], "releases"); ("outbox_events", ["workspace_id"], "workspaces");
   ("quota_reservations", ["workspace_id"], "workspaces");
   ("idempotency_records", ["workspace_id"], "workspaces");
   ("secret_references", ["workspace_id"], "workspaces"); ("audit_events", ["workspace_id"], "workspaces");
   ("repositories", ["workspace_id"], "workspaces"); ("webhook_deliveries", ["workspace_id"], "workspaces");
   ("webhook_deliveries", ["repository_id"], "repositories"); ("dead_letter_records", ["job_id"], "jobs");
   ("dead_letter_records", ["workspace_id"], "workspaces")].

Definition references_agree : bool :=
  match head_schema with
  | Some s => bool_decide (schema_references s = list_to_map declared_references)
  | None => false
  end.

Lemma references_agree_true : references_agree = true.
Proof. vm_compute. reflexivity. Qed.

(** The rows of any database refer, column by column, to what the foreign keys of the migrated
    schema say, and there is no other foreign key: what [coherent] demands includes all that
    the database checks. *)
Lemma references_are_foreign_keys :
  exists s, head_schema = Some s /\
    forall (m : WorkspaceMembership) (a : Application) (r : Release) (j : Job) (t : JobAttempt)
      (i : ExecutionIntent) (o : OutboxEvent) (q : QuotaReservation) (k : IdempotencyRecord)
      (c : SecretReference) (u : AuditEvent) (g : Repository) (w : WebhookDelivery) (l : DeadLetterRecord),
    schema_references s = list_to_map (columns_of m ++ columns_of a ++ columns_of r ++ columns_of j
      ++ columns_of t ++ columns_of i ++ columns_of o ++ columns_of q ++ columns_of k ++ columns_of c
      ++ columns_of u ++ columns_of g ++ columns_of w ++ columns_of l).
Proof.
  pose proof references_agree_true as H. unfold references_agree in H.
  destruct head_schema as [s|]; [|done]. exists s. split; [done|]. intros.
  apply bool_decide_eq_true in H. exact H.
Qed.

(** ** The logic

    A session is sound if its changes keep whatever later database they meet coherent. *)

Record session_sound (s : Sess) : Prop := {
  ss_committed : sound (committed s);
  ss_adding_writes : adding (fun _ => apply_all (writes s));
  ss_adding_staged : adding (fun t => at_time t (staged s));
  ss_writes : forall c, committed s ⊑ c -> sound c -> sound (apply_all (writes s) c);
  ss_staged : forall t d, view s ⊑ d -> sound d -> sound (at_time t (staged s) d) }.

(** What holds of every later database in which ids name one row. *)
Definition Holds (s : Sess) (P : Db -> Prop) : Prop :=
  forall t d, at_time t (staged s) (view s) ⊑ d -> functional d -> P d.

Lemma session_sound_fresh db n k : sound db -> session_sound (mkSess db [] [] n k).
Proof. intros H. split; cbn; try done; by apply adding_none. Qed.

Lemma sound_view s : session_sound s -> sound (view s).
Proof. intros Hs. by apply (ss_writes s Hs); [|apply ss_committed]. Qed.

Lemma view_reached s t : session_sound s -> view s ⊑ at_time t (staged s) (view s).
Proof. intros Hs. apply (adding_up (fun t => at_time t (staged s))), Hs. Qed.

(** More was committed or written: what held still does. *)
Lemma holds_moves s s' P :
  session_sound s -> staged s' = staged s -> view s ⊑ view s' -> Holds s P -> Holds s' P.
Proof.
  intros Hs Hst Hv HP t d Hd. apply (HP t). etrans; [|exact Hd]. rewrite Hst.
  apply (adding_mono (fun t => at_time t (staged s))); [apply Hs|done].
Qed.

(** Other transactions commit coherent databases and remove no parent. *)
Record keeps_references (f : Db -> Db) : Prop := {
  kr_later : forall d, d ⊑ f d;
  kr_coherent : forall d, coherent d -> coherent (f d) }.

Section Logic.
Context (e : Env).

(** From a sound session of which [P] holds, [m] leaves a sound session, of which [Q] of its
    result holds if it returns. *)
Definition Hoare {A} (P : Db -> Prop) (m : M A) (Q : A -> Db -> Prop) : Prop :=
  forall s, session_sound s -> Holds s P ->
    match m e s with
    | (Ok a, s') => session_sound s' /\ Holds s' (Q a)
    | (Err _, s') => session_sound s'
    end.

(** [m] loses nothing of what held. *)
Definition Frames {A} (m : M A) : Prop := forall P, Hoare P m (fun _ => P).

Lemma hoare_weaken {A} (m : M A) P P' Q Q' :
  Hoare P' m Q' -> (forall d, P d -> P' d) -> (forall a d, Q' a d -> Q a d) -> Hoare P m Q.
Proof.
  intros Hm HP HQ s Hs Hh. specialize (Hm s Hs ltac:(intros t d ??; by apply HP, (Hh t))).
  destruct (m e s) as [[a|x] s']; [|done]. destruct Hm as [? Hm]. split; [done|].
  intros t d ??. by apply HQ, (Hm t).
Qed.

Lemma hoare_post {A} (m : M A) P Q Q' : Hoare P m Q' -> (forall a d, Q' a d -> Q a d) -> Hoare P m Q.
Proof. intros. by eapply hoare_weaken. Qed.

Lemma hoare_ret {A} (a : A) (P : Db -> Prop) Q : (forall d, P d -> Q a d) -> Hoare P (mret a) Q.
Proof. intros HP s Hs Hh. split; [done|]. intros t d ??. by apply HP, (Hh t). Qed.

Lemma hoare_raise {A} x P (Q : A -> Db -> Prop) : Hoare P (raise x) Q.
Proof. by intros s Hs _. Qed.

Lemma hoare_bind {A B} (m : M A) (f : A -> M B) P Q R :
  Hoare P m Q -> (forall a, Hoare (Q a) (f a) R) -> Hoare P (m ≫= f) R.
Proof.
  intros Hm Hf s Hs Hh. specialize (Hm s Hs Hh). unfold mbind, M_bind.
  destruct (m e s) as [[a|x] s']; [|done]. destruct Hm. by apply Hf.
Qed.

Lemma hoare_assoc {A B C} (m : M A) (f : A -> M B) (g : B -> M C) P R :
  Hoare P (m ≫= fun a => f a ≫= g) R -> Hoare P ((m ≫= f) ≫= g) R.
Proof.
  intros H s Hs Hh. specialize (H s Hs Hh). unfold mbind, M_bind in *. by destruct (m e s) as [[a|x] s'].
Qed.

Lemma hoare_catch {A} (m : M A) h P Q R :
  Hoare P m R -> (forall a d, R a d -> Q a d) -> (forall c, Hoare (fun _ => True) (h c) Q) ->
  Hoare P (catch_integrity m h) Q.
Proof.
  intros Hm HR Hh s Hs HP. specialize (Hm s Hs HP). unfold catch_integrity.
  destruct (m e s) as [[a|x] s'].
  - destruct Hm as [? Hm]. split; [done|]. intros t d ??. by apply HR, (Hm t).
  - destruct x; try done. by apply Hh.
Qed.

Lemma hoare_guard c x P : Hoare P (guard c x) (fun _ d => P d /\ c = false).
Proof. intros s Hs Hh. destruct c; [done|]. split; [done|]. intros t d ??. by split; [apply (Hh t)|]. Qed.

Lemma hoare_or_raise {A} (o : option A) x P : Hoare P (or_raise o x) (fun a d => P d /\ o = Some a).
Proof. intros s Hs Hh. destruct o; [|done]. split; [done|]. intros t d ??. by split; [apply (Hh t)|]. Qed.

(** The session stays, but for the clock and the randomness. *)
Lemma hoare_idle {A} (m : M A) :
  (forall s, let s' := (m e s).2 in committed s' = committed s /\ writes s' = writes s /\ staged s' = staged s) ->
  Frames m.
Proof.
  intros Hm P s Hs Hh. specialize (Hm s). destruct (m e s) as [o s']. cbn in Hm.
  destruct Hm as (Hc & Hw & Hst). assert (session_sound s') as Hs'.
  { destruct Hs as [H1 H2 H3 H4 H5]. split; unfold view in *; by rewrite ?Hc, ?Hw, ?Hst. }
  destruct o; [|done]. split; [done|]. apply (holds_moves s); [done..| |done]. unfold view. by rewrite Hc, Hw.
Qed.

Lemma hoare_query {A} (f : Db -> A) P :
  Hoare P (query f) (fun a d => P d /\ exists v, v ⊑ d /\ coherent v /\ a = f v).
Proof.
  intros s Hs Hh. split; [done|]. intros t d Hd Hf. split; [by apply (Hh t)|].
  assert (view s ⊑ d) as Hv by (etrans; [by apply (view_reached s t)|done]).
  exists (view s). split; [done|]. split; [|done]. apply (sound_view s Hs). by eapply functional_earlier.
Qed.

Lemma hoare_select_one {A} (table : Db -> list A) C P :
  Hoare P (select_one table C) (fun o d => P d /\ forall a, o = Some a ->
    exists v, v ⊑ d /\ coherent v /\ a ∈ table v /\ C a = true).
Proof.
  unfold select_one. eapply hoare_bind; [apply hoare_query|]. cbv beta. intros rows s Hs Hh.
  destruct rows as [|r [|]]; cbn; [| |done]; (split; [done|]); intros t d Hd Hf;
    destruct (Hh t d Hd Hf) as [HP (v & Hv & Hc & E)]; (split; [done|]); intros a [= <-].
  exists v. split; [done|]. split; [done|]. apply elem_of_where. rewrite <- E. left.
Qed.

(** *** Changes *)

Lemma hoare_stage w P :
  adding w -> keeps_sound P w -> Hoare P (stage w) (fun _ d => P d /\ exists t d', w t d' ⊑ d).
Proof.
  intros Hw Hk s Hs Hh. destruct Hs as [H1 H2 H3 H4 H5].
  assert (forall t d, at_time t (staged s ++ [w]) d = w t (at_time t (staged s) d)) as Happ
    by (intros; by rewrite at_time_app).
  split; [split; cbn; try done|].
  - destruct H3 as [ks E], Hw as [ks' E']. exists (fun p => ks p ++ ks' p). intros t p d.
    by rewrite Happ, E', E, app_assoc.
  - intros t d Hd Hc. rewrite Happ. intros Hf.
    assert (functional (at_time t (staged s) d)) as Hf' by (eapply functional_earlier; [apply (adding_up w Hw t)|done]).
    apply Hk; [|done|by apply H5]. apply (Hh t); [|done].
    by apply (adding_mono (fun t => at_time t (staged s))).
  - intros t d. cbn. rewrite Happ. change (view _) with (view s). intros Hd Hf. split; [|eauto].
    apply (Hh t); [|done]. etrans; [|exact Hd]. by apply adding_up.
Qed.

Lemma adding_writes_snoc ws w :
  adding (fun _ => apply_all ws) -> adding (fun _ => w) -> adding (fun _ => apply_all (ws ++ [w])).
Proof.
  intros [ks E] [ks' E']. exists (fun p => ks p ++ ks' p). intros t p d.
  rewrite apply_all_app. change (apply_all [w] ?x) with (w x). rewrite (E' t), (E t). by rewrite app_assoc.
Qed.

Lemma hoare_execute w :
  adding (fun _ => w) -> (forall d, coherent d -> coherent (w d)) -> Frames (execute w).
Proof.
  intros Hw Hk P s Hs Hh. destruct (id Hs) as [H1 H2 H3 H4 H5].
  assert (view s ⊑ view (executed w s)) as Hv by (rewrite view_executed; by apply write_up).
  split; [split; cbn; try done|].
  - by apply adding_writes_snoc.
  - intros c Hc Hs'. rewrite apply_all_app. intros Hf. apply Hk, H4; [done..|].
    eapply functional_earlier; [by apply (write_up w)|exact Hf].
  - intros t d Hd. apply H5. by etrans.
  - by apply (holds_moves s).
Qed.

Lemma flushed_sound s : session_sound s -> session_sound (flushed e s).
Proof.
  intros [H1 H2 H3 H4 H5]. set (t0 := clock e (ticks s)) in *.
  assert (forall d, apply_all (writes (flushed e s)) d = at_time t0 (staged s) (apply_all (writes s) d)) as E.
  { intros d. cbn. by rewrite apply_all_app. }
  split; try done.
  - destruct H2 as [ks F], H3 as [ks' F']. exists (fun p => ks p ++ ks' p). intros t p d.
    by rewrite E, F', (F 0), app_assoc.
  - by apply adding_none.
  - intros c Hc Hs. rewrite E. apply H5; [|by apply H4].
    by apply write_mono.
Qed.

Lemma hoare_flush : Frames flush.
Proof.
  intros P s Hs Hh. rewrite flush_spec. destruct (negb _); [done|]. destruct (violated _); [done|].
  split; [by apply flushed_sound|]. intros t d Hd. apply (Hh (clock e (ticks s))).
  etrans; [|exact Hd]. unfold view. cbn. by rewrite apply_all_app.
Qed.

Lemma hoare_rollback P : Hoare P rollback (fun _ _ => True).
Proof.
  intros s Hs _. split; [|done]. apply session_sound_fresh, Hs.
Qed.

(** The others commit. *)
Lemma hoare_interfere f : keeps_references (f e) -> Frames (interfere f).
Proof.
  intros [Hl Hk] P s Hs Hh. destruct (id Hs) as [H1 H2 H3 H4 H5].
  assert (sound (f e (committed s))) as Hc.
  { intros Hf. apply Hk, H1. eapply functional_earlier; [apply Hl|done]. }
  assert (view s ⊑ apply_all (writes s) (f e (committed s))) as Hv
    by (apply write_mono; [done|apply Hl]).
  split; [split; cbn; try done|].
  - intros c Hd. apply H4. etrans; [apply Hl|done].
  - intros t d Hd. apply H5. etrans; [exact Hv|exact Hd].
  - by apply (holds_moves s).
Qed.

Lemma end_tx_sound P s :
  staged s = [] -> session_sound s -> Holds s P -> session_sound (end_tx e s).2 /\ Holds (end_tx e s).2 P.
Proof.
  intros Hst Hs Hh. split.
  - by apply session_sound_fresh, sound_view.
  - intros t d Hd. apply (Hh t). by rewrite Hst.
Qed.

Context (lock_ok : keeps_references (rivals_lock e)) (commit_ok : keeps_references (rivals_commit e)).

Lemma hoare_lock : Frames lock.
Proof. by apply hoare_interfere. Qed.

Lemma hoare_commit : Frames commit.
Proof.
  intros P s Hs Hh. unfold commit.
  pose proof (hoare_interfere rivals_commit commit_ok P s Hs Hh) as [Hs1 Hh1]. fold (after_rivals e s) in *.
  pose proof (hoare_flush P _ Hs1 Hh1) as Hf. rewrite commit_spec.
  destruct (flush e (after_rivals e s)) as [[[]|x] s2] eqn:E; [|done]. destruct Hf as [Hs2 Hh2].
  apply flush_ok in E as [-> _]. by apply end_tx_sound.
Qed.
End Logic.
