(* ===== verification/Tenancy.v ===== *)
(** * References stay within their tenant

    Every route of [Api] in the logic of [References]: over any sequence of requests no
    row refers to a row that does not exist or belongs to another workspace. *)

From stdpp Require Import gmap.
From S2P Require Import Prelude PyStr Uuid Json Models DateTime Config Session Sample Auth.
From S2P Require Import AuditLog Events Idempotency Quotas Gates Handlers Pagination StateMachine Jobs.
From S2P Require Import Workspaces Apps Webhooks Crypto Secrets Url Repositories Binary64.
From S2P Require Import Telemetry Operations Main History Api References.
From Stdlib Require Import Ascii String.

(** ** Automation *)

(** The parent [k] is known under [P]. *)
Definition Knows (P : Db -> Prop) (p : Parent) (k : uuid * uuid) : Prop := forall d, P d -> k ∈ keys p d.

(** What a row found by a query tells of a later database. *)
Section Known.
Context (v d : Db) (Hv : v ⊑ d) (Hc : coherent v).

Lemma refers_found {A} `{Row A} (l : list A) x : Forall (refers v) l -> x ∈ l -> refers d x.
Proof. intros Hl Hx. rewrite Forall_forall in Hl. eapply refers_later; [done|]. by apply Hl. Qed.

Lemma known_membership m : m ∈ memberships v -> refers d m.
Proof. apply refers_found, Hc. Qed.
Lemma known_application a :
  a ∈ applications v -> (app_id a, app_workspace_id a) ∈ keys AnApplication d /\ refers d a.
Proof.
  intros Ha. split; [|by apply (refers_found _ _ (co_applications v Hc))]. apply (Hv AnApplication).
  by apply (list_elem_of_fmap_2 (fun a => (app_id a, app_workspace_id a))).
Qed.
Lemma known_job j : j ∈ jobs v -> (job_id j, job_workspace_id j) ∈ keys AJob d /\ refers d j.
Proof.
  intros Hj. split; [|by apply (refers_found _ _ (co_jobs v Hc))]. apply (Hv AJob).
  by apply (list_elem_of_fmap_2 (fun j => (job_id j, job_workspace_id j))).
Qed.
Lemma known_repository r :
  r ∈ repositories v -> (repo_id r, repo_workspace_id r) ∈ keys ARepository d /\ refers d r.
Proof.
  intros Hr. split; [|by apply (refers_found _ _ (co_repositories v Hc))]. apply (Hv ARepository).
  by apply (list_elem_of_fmap_2 (fun r => (repo_id r, repo_workspace_id r))).
Qed.
End Known.

(** A row that was staged is a parent for the later ones. *)
Lemma known_new_workspace x d' d :
  on_workspaces (fun l => l ++ [x]) d' ⊑ d -> (ws_id x, ws_id x) ∈ keys AWorkspace d.
Proof.
  intros H. apply (H AWorkspace). unfold keys. cbn. rewrite map_app. apply elem_of_app. right. left.
Qed.

(** Read the facts a triple has collected about the database [d]. *)
Ltac learn :=
  unfold is_membership_of, has_app_id, has_job_id, has_repo_id, matches_push in *;
  repeat match goal with
  | H : True |- _ => clear H
  | H : _ /\ _ |- _ => destruct H
  | H : exists _, _ |- _ => destruct H
  | H : forall a, Some ?x = Some a -> _ |- _ => specialize (H x eq_refl)
  | E : ?l = where_ _ _, H : _ ∈ ?l |- _ => rewrite E in H
  | H : _ ∈ where_ _ _ |- _ => apply elem_of_where in H as [??]
  | Hv : ?v ⊑ ?d, Hc : coherent ?v, H : ?x ∈ memberships ?v |- _ =>
      apply (known_membership v d Hv Hc) in H
  | Hv : ?v ⊑ ?d, Hc : coherent ?v, H : ?x ∈ applications ?v |- _ =>
      apply (known_application v d Hv Hc) in H
  | Hv : ?v ⊑ ?d, Hc : coherent ?v, H : ?x ∈ jobs ?v |- _ => apply (known_job v d Hv Hc) in H
  | Hv : ?v ⊑ ?d, Hc : coherent ?v, H : ?x ∈ repositories ?v |- _ =>
      apply (known_repository v d Hv Hc) in H
  | H : on_workspaces _ _ ⊑ _ |- _ => apply known_new_workspace in H; cbn [ws_id] in H
  | H : refers _ _ |- _ => unfold refers in H; cbn in H
  | H : Forall _ (_ :: _) |- _ => apply Forall_cons in H
  | H : Forall _ [] |- _ => clear H
  | H : resolves _ _ |- _ => unfold resolves in H; cbn [ref_key ref_parent to_workspace to_parent to_optional] in H
  | E : ?o = Some _, H : match _ <$> ?o with _ => _ end |- _ =>
      rewrite E in H; cbn [fmap option_fmap option_map] in H
  | H : _ && _ = true |- _ => apply andb_prop in H
  | H : bool_decide _ = true |- _ => apply bool_decide_eq_true in H
  | H : bool_decide _ = false |- _ => apply bool_decide_eq_false in H
  end; simplify_eq.

(** A change adds the keys that it adds to an empty database. *)
Ltac solve_adding :=
  lazymatch goal with
  | |- adding ?w => exists (fun p => keys p (w 0 empty_db))
  end;
  let p := fresh "p" in intros ? p ?; destruct p; unfold keys; cbn; rewrite ?map_app, ?map_update_where by done;
  rewrite ?app_nil_r; reflexivity.

(** A staged row refers to parents that are known. *)
Ltac row_refers :=
  unfold Knows in *; unfold refers; cbn;
  repeat (apply Forall_cons; split); try apply Forall_nil;
  unfold resolves; cbn [ref_key ref_parent to_workspace to_parent to_optional fmap option_fmap option_map];
  try done; eauto.

(** A staged change keeps the references: in its table, the new rows refer to known parents. *)
Ltac solve_sound :=
  let d := fresh "d" in let Hf := fresh "Hf" in let Hc := fresh "Hc" in let Hd := fresh "Hd" in
  let HP := fresh "HP" in
  intros ? d HP Hf Hc; cbv beta in HP;
  lazymatch type of Hf with functional (?w ?g ?d) => assert (Hd : d ⊑ w g d) by (apply write_up; solve_adding) end;
  first [ apply coherent_workspaces; [done|done]
        | first [ apply coherent_memberships | apply coherent_applications | apply coherent_releases
                | apply coherent_jobs | apply coherent_outbox | apply coherent_reservations
                | apply coherent_idempotency | apply coherent_secrets | apply coherent_audit_events
                | apply coherent_repositories | apply coherent_deliveries ];
          [done| |done];
          first [ apply (refers_snoc d); [done|by destruct Hc|]
                | apply (refers_update d); [done|by destruct Hc|intros ?x ?Hin ?HQ ?Hx]
                | by apply (refers_delete d); [|destruct Hc] ] ];
  apply (functional_earlier _ _ Hd) in Hf; clear Hd; do 2 learn.

(** A parent follows from what is known. *)
Ltac solve_known :=
  lazymatch goal with
  | |- Knows _ _ _ => intros ? ?; cbv beta in *
  | |- _ => intros; cbv beta in *
  end;
  do 2 learn;
  repeat match goal with H : forall t, ob_workspace_id _ = _ |- _ => rewrite H end; eauto.

Create HintDb refs.
#[local] Hint Extern 1 (Knows _ _ _) => solve [solve_known] : refs.
#[local] Hint Extern 1 (forall t, Knows _ _ _) => solve [intros ?; solve_known] : refs.

Lemma hoare_ret_bind e {A B} (a : A) (f : A -> M B) P R : Hoare e P (f a) R -> Hoare e P (mret a ≫= f) R.
Proof. done. Qed.

Lemma hoare_raise_bind e {A B} x (f : A -> M B) P R : Hoare e P (raise x ≫= f) R.
Proof. by intros s Hs _. Qed.

Lemma hoare_scalar_one e {A} (l : list A) P : Hoare e P (scalar_one l) (fun a d => P d /\ a ∈ l).
Proof.
  destruct l as [|a [|]]; intros s Hs Hh; try done. split; [done|]. intros t d ??. split; [by apply (Hh t)|left].
Qed.

(** The triple of one operation. *)
Ltac idle := apply hoare_idle; intros ?; cbv zeta; done.
Ltac refs_leaf :=
  lazymatch goal with
  | |- Hoare _ _ ask _ => idle
  | |- Hoare _ _ datetime_now _ => idle
  | |- Hoare _ _ uuid4 _ => idle
  | |- Hoare _ _ urandom12 _ => idle
  | |- Hoare _ _ (lift _) _ => idle
  | |- Hoare _ _ (query _) _ => apply hoare_query
  | |- Hoare _ _ (select_one _ _) _ => apply hoare_select_one
  | |- Hoare _ _ (scalar_one _) _ => apply hoare_scalar_one
  | |- Hoare _ _ (guard _ _) _ => apply hoare_guard
  | |- Hoare _ _ (or_raise _ _) _ => apply hoare_or_raise
  | |- Hoare _ _ lock _ => apply hoare_lock; assumption
  | |- Hoare _ _ commit _ => apply hoare_commit; assumption
  | |- Hoare _ _ flush _ => apply hoare_flush
  | |- Hoare _ _ rollback _ => apply hoare_rollback
  | |- Hoare _ _ (execute _) _ => apply hoare_execute
  | |- Hoare _ _ (stage _) _ => apply hoare_stage; [solve_adding|solve_sound; try solve [row_refers]]
  | |- _ => solve [eauto with refs nocore]
  end.

(** [Hoare e P m Q], by the structure of [m]. *)
Ltac solve_refs :=
  cbv zeta;
  lazymatch goal with
  | |- forall _, _ => intro; solve_refs
  | |- Hoare _ _ (mbind _ ?m) _ =>
      lazymatch m with
      | mbind _ _ => apply hoare_assoc; solve_refs
      | match ?x with _ => _ end => destruct x eqn:?; solve_refs
      | mret _ => apply hoare_ret_bind; solve_refs
      | raise _ => apply hoare_raise_bind
      | catch_integrity _ _ =>
          apply (hoare_bind _ _ _ _ (fun _ _ => True)); [solve_refs|cbv beta; intros ?; solve_refs]
      | _ => eapply hoare_bind; [refs_leaf|cbv beta; intros ?; solve_refs]
      end
  | |- Hoare _ _ (match ?x with _ => _ end) _ => destruct x eqn:?; solve_refs
  | |- Hoare _ _ (mret _) _ => apply hoare_ret; cbv beta; try solve [done | tauto | solve_known]
  | |- Hoare _ _ (raise _) _ => apply hoare_raise
  | |- Hoare _ ?P (catch_integrity ?m ?h) ?Q =>
      apply (hoare_catch _ m h P Q Q); [solve_refs|done|cbv beta; intros ?; solve_refs]
  | |- Hoare _ _ _ _ =>
      first [ eapply hoare_post; [refs_leaf|cbv beta; intros; solve [done | tauto | solve_known]]
            | refs_leaf | idtac ]
  | |- _ => idtac
  end.

(** ** The parts of the handlers *)

Section Handlers.
Context (e : Env).
Context (lock_ok : keeps_references (rivals_lock e)) (commit_ok : keeps_references (rivals_commit e)).

Lemma refs_authorize c w r x P :
  Hoare e P (authorize_workspace_access c w r x) (fun _ d => P d /\ (w, w) ∈ keys AWorkspace d).
Proof. unfold authorize_workspace_access. solve_refs. Qed.

Lemma refs_record_audit w a b c d f P :
  Knows P AWorkspace (w, w) -> Hoare e P (record_audit_event (Some w) a b c d f) (fun _ => P).
Proof. intros Hw. unfold record_audit_event. solve_refs. Qed.

Lemma refs_create_event w topic p h id P :
  Hoare e P (create_outbox_event w topic p h id) (fun mk d => P d /\ forall t, ob_workspace_id (mk t) = w).
Proof. unfold create_outbox_event. solve_refs. Qed.

Lemma refs_add_event mk P :
  (forall t, Knows P AWorkspace (ob_workspace_id (mk t), ob_workspace_id (mk t))) ->
  Hoare e P (add_outbox_event mk) (fun _ => P).
Proof. intros Hmk. unfold add_outbox_event. solve_refs. Qed.

Lemma refs_add_record w ep k h c o P :
  Knows P AWorkspace (w, w) -> Hoare e P (add_idempotency_record w ep k h c o) (fun _ => P).
Proof. intros. unfold add_idempotency_record. solve_refs. Qed.
#[local] Hint Resolve refs_authorize refs_record_audit refs_create_event refs_add_event refs_add_record : refs.

Lemma refs_image_policy d R : Hoare e R (validate_image_policy d) (fun _ => R).
Proof. unfold validate_image_policy. solve_refs. Qed.

Lemma refs_rate_limit w r R : Hoare e R (check_workspace_rate_limit w r) (fun _ => R).
Proof. unfold check_workspace_rate_limit. solve_refs. Qed.

Lemma refs_refresh {A} (table : Db -> list A) P R : Hoare e R (refresh table P) (fun _ => R).
Proof. unfold refresh. solve_refs. Qed.

Lemma refs_hash p R : Hoare e R (compute_payload_hash p) (fun _ => R).
Proof. unfold compute_payload_hash. solve_refs. Qed.

Lemma refs_check_idempotency w ep k h R : Hoare e R (check_idempotency w ep k h) (fun _ => R).
Proof. unfold check_idempotency. solve_refs. Qed.

Lemma refs_race c w ep k h P : Hoare e P (handle_idempotency_race c w ep k h) (fun _ _ => True).
Proof. unfold handle_idempotency_race. solve_refs. Qed.
#[local] Hint Resolve refs_race : refs.

Lemma refs_commit_idempotent w ep k h op P : Hoare e P (commit_idempotent w ep k h op) (fun _ _ => True).
Proof. unfold commit_idempotent. solve_refs. Qed.

#[local] Hint Resolve refs_image_policy refs_rate_limit refs_refresh refs_hash refs_check_idempotency
  refs_commit_idempotent : refs.

Lemma refs_expire w R : Hoare e R (expire_stale_reservations w) (fun _ => R).
Proof.
  unfold expire_stale_reservations. solve_refs; [solve_adding|]. intros d Hc.
  assert (d ⊑ on_reservations (update_where (is_stale w a) (expired_row a)) d) as Hd
    by (apply (write_up (on_reservations _)); solve_adding).
  apply coherent_reservations; [done| |done]. by apply (refers_update d); [|destruct Hc|].
Qed.
#[local] Hint Resolve refs_expire : refs.

Lemma refs_quota_summary w R : Hoare e R (get_workspace_quota_summary w) (fun _ => R).
Proof. unfold get_workspace_quota_summary. solve_refs. Qed.
#[local] Hint Resolve refs_quota_summary : refs.

Lemma refs_enforce_quota w cls a b R :
  Knows R AWorkspace (w, w) -> Hoare e R (enforce_workspace_quota w cls a b) (fun _ => R).
Proof. intros. unfold enforce_workspace_quota, get_workspace_quota_usage_for_admission. solve_refs. Qed.
#[local] Hint Resolve refs_enforce_quota : refs.

(** *** Workspaces *)

Lemma refs_create_workspace c p R : Hoare e R (create_workspace c p) (fun _ _ => True).
Proof. unfold create_workspace. solve_refs. Qed.

Lemma refs_guard_last_owner w d R : Hoare e R (guard_last_owner w d) (fun _ => R).
Proof. unfold guard_last_owner. solve_refs. Qed.
#[local] Hint Resolve refs_guard_last_owner : refs.

Lemma refs_stage_member c w p R :
  Hoare e R (stage_member c w p) (fun _ d => R d /\ (w, w) ∈ keys AWorkspace d).
Proof. unfold stage_member. solve_refs. Qed.
#[local] Hint Resolve refs_stage_member : refs.

Lemma refs_upsert_member c w p R : Hoare e R (upsert_workspace_member c w p) (fun _ _ => True).
Proof. unfold upsert_workspace_member. solve_refs. Qed.

Lemma refs_stage_removal c w user R :
  Hoare e R (stage_removal c w user) (fun _ d => R d /\ (w, w) ∈ keys AWorkspace d).
Proof. unfold stage_removal. solve_refs. Qed.
#[local] Hint Resolve refs_stage_removal : refs.

Lemma refs_remove_member c w user R : Hoare e R (remove_workspace_member c w user) (fun _ _ => True).
Proof. unfold remove_workspace_member. solve_refs. Qed.

(** *** Applications *)

Lemma refs_check_repository w r R :
  Hoare e R (check_repository w r) (fun _ d => R d /\ (r, w) ∈ keys ARepository d).
Proof.
  unfold check_repository. eapply hoare_bind; [refs_leaf|]. cbv beta. intros [repo|]; [|by apply hoare_raise].
  apply hoare_ret. intros d Hd. learn. tauto.
Qed.
#[local] Hint Resolve refs_check_repository : refs.

Lemma refs_create_application c w p R : Hoare e R (create_application c w p) (fun _ _ => True).
Proof. unfold create_application. solve_refs. Qed.

(** The row an update finds is the one that was authorized: ids name one row. *)
Lemma same_application d i w x :
  functional d -> coherent d -> (i, w) ∈ keys AnApplication d -> x ∈ applications d -> app_id x = i ->
  app_workspace_id x = w.
Proof.
  intros Hf Hc Hi Hx <-. apply (Hf AnApplication (app_id x)); [done| |done].
  by apply (known_application d d).
Qed.

Lemma refers_updated_app d p loaded t a :
  refers d a -> (forall r, ua_repository_id p = Some (Some r) -> (r, app_workspace_id a) ∈ keys ARepository d) ->
  refers d (updated_app p loaded t a).
Proof.
  unfold refers. cbn. intros H Hr. rewrite !Forall_cons in *. destruct H as (H1 & H2 & H3 & H4). split_and!; [done..| |done].
  unfold assign. destruct (ua_repository_id p) as [[r|]|]; [| |done]; case_bool_decide; try done.
  by apply Hr.
Qed.

Lemma refs_update_application c id p R : Hoare e R (update_application c id p) (fun _ _ => True).
Proof.
  unfold update_application. solve_refs.
  all: apply refers_updated_app; [row_refers|]; intros r Er; simplify_eq.
  by rewrite (same_application d (app_id a0) (app_workspace_id a0) x).
Qed.

Lemma refs_find_app c id R :
  Hoare e R (find_app c id) (fun w d => R d /\ (id, w) ∈ keys AnApplication d /\ (w, w) ∈ keys AWorkspace d).
Proof. unfold find_app. solve_refs. Qed.

(** The application as it is once its lock is granted. *)
Lemma refs_lock_app id R :
  Hoare e R (lock_app id) (fun a d => R d /\ (id, app_workspace_id a) ∈ keys AnApplication d /\ refers d a).
Proof.
  unfold lock_app. solve_refs. eapply hoare_post; [apply hoare_scalar_one|].
  cbv beta. intros x d (Hd & Hx). do 2 learn. split_and!; [done..|row_refers].
Qed.
#[local] Hint Resolve refs_find_app refs_lock_app : refs.

Lemma refs_deploy_release c id p key R : Hoare e R (deploy_release c id p key) (fun _ _ => True).
Proof. unfold deploy_release. solve_refs. Qed.

Lemma refs_rollback_release c id p key R : Hoare e R (rollback_release c id p key) (fun _ _ => True).
Proof. unfold rollback_release. solve_refs. Qed.

Lemma refs_checked_sha o R : Hoare e R (checked_commit_sha o) (fun _ => R).
Proof. unfold checked_commit_sha. solve_refs. Qed.
#[local] Hint Resolve refs_checked_sha : refs.

Lemma refs_trigger_build c id p R : Hoare e R (trigger_build c id p) (fun _ _ => True).
Proof. unfold trigger_build, stage_build. solve_refs. Qed.

(** *** Jobs *)

Lemma refs_submit_job c w p key R : Hoare e R (submit_job c w p key) (fun _ _ => True).
Proof. unfold submit_job. solve_refs. Qed.

Lemma refs_lock_job c id R :
  Hoare e R (lock_job c id) (fun wj d => R d /\ (wj.1, wj.1) ∈ keys AWorkspace d).
Proof. unfold lock_job. solve_refs. Qed.
#[local] Hint Resolve refs_lock_job : refs.

Lemma refs_cancel_job c id key R : Hoare e R (cancel_job c id key) (fun _ _ => True).
Proof. unfold cancel_job, request_cancellation. solve_refs. Qed.

Lemma refs_rerun_job c id key R : Hoare e R (rerun_job c id key) (fun _ _ => True).
Proof. unfold rerun_job. solve_refs. Qed.

(** *** Secrets and repositories *)

Lemma refs_upsert_secret `{AEAD} sha c w p R : Hoare e R (upsert_workspace_secret sha c w p) (fun _ _ => True).
Proof. unfold upsert_workspace_secret, stage_secret, commit_secret. solve_refs. Qed.

Lemma refs_delete_secret c w n R : Hoare e R (delete_workspace_secret c w n) (fun _ _ => True).
Proof. unfold delete_workspace_secret. solve_refs. Qed.

Lemma refs_validate_repo_url b url R : Hoare e R (validate_repo_url b url) (fun _ => R).
Proof. unfold validate_repo_url, extract_repo_host, urlsplit_netloc. solve_refs. Qed.
#[local] Hint Resolve refs_validate_repo_url : refs.

Lemma refs_create_repository b c w p R : Hoare e R (create_repository b c w p) (fun _ _ => True).
Proof. unfold create_repository. solve_refs. Qed.

(** *** Webhooks *)

Lemma refs_add_delivery repo did ev h st R :
  Knows R AWorkspace (repo_workspace_id repo, repo_workspace_id repo) ->
  Knows R ARepository (repo_id repo, repo_workspace_id repo) ->
  Hoare e R (add_delivery repo did ev h st) (fun _ => R).
Proof. intros. unfold add_delivery. solve_refs. Qed.
#[local] Hint Resolve refs_add_delivery : refs.

Lemma refs_acknowledge repo did ev h st sha R :
  Knows R AWorkspace (repo_workspace_id repo, repo_workspace_id repo) ->
  Knows R ARepository (repo_id repo, repo_workspace_id repo) ->
  (forall P, Hoare e P sha (fun _ _ => True)) ->
  Hoare e R (acknowledge repo did ev h st sha) (fun _ _ => True).
Proof. intros. unfold acknowledge, delivery_created_at. solve_refs. Qed.

(** An application of the repository's workspace is known. *)
Definition builds_for (repo : Repository) (a : Application) (d : Db) : Prop :=
  app_workspace_id a = repo_workspace_id repo /\ (app_id a, app_workspace_id a) ∈ keys AnApplication d.

Lemma refs_request_build repo sha branch msg a R :
  Knows R AWorkspace (repo_workspace_id repo, repo_workspace_id repo) ->
  Knows R ARepository (repo_id repo, repo_workspace_id repo) ->
  (forall d, R d -> builds_for repo a d) ->
  Hoare e R (request_build repo sha branch msg a) (fun _ => R).
Proof.
  intros Hw Hr Ha. assert (Knows R AWorkspace (app_workspace_id a, app_workspace_id a)).
  { intros d Hd. destruct (Ha d Hd) as [-> _]. by apply Hw. }
  assert (Knows R ARepository (repo_id repo, app_workspace_id a)).
  { intros d Hd. destruct (Ha d Hd) as [-> _]. by apply Hr. }
  assert (Knows R AnApplication (app_id a, app_workspace_id a)) by (intros d Hd; apply (Ha d Hd)).
  unfold request_build. solve_refs.
Qed.

Lemma refs_request_builds repo sha branch msg R apps :
  Knows R AWorkspace (repo_workspace_id repo, repo_workspace_id repo) ->
  Knows R ARepository (repo_id repo, repo_workspace_id repo) ->
  (forall d, R d -> forall a, a ∈ apps -> builds_for repo a d) ->
  forall last, Hoare e R (request_builds repo sha branch msg apps last) (fun _ => R).
Proof.
  intros Hw Hr. induction apps as [|a apps IH]; intros Ha last; cbn; [by apply hoare_ret|].
  eapply hoare_bind; [apply refs_request_build; [done..|]; intros d Hd; apply Ha; [done|left]|].
  intros id. apply IH. intros d Hd b Hb. apply Ha; [done|by right].
Qed.

Lemma refs_commit_push did ev R : Hoare e R (commit_push did ev) (fun _ _ => True).
Proof. unfold commit_push. solve_refs. Qed.

Lemma refs_sha_response j R : Hoare e R (sha_response j) (fun _ _ => True).
Proof. unfold sha_response. solve_refs. Qed.
Lemma refs_as_dict j R : Hoare e R (as_dict j) (fun _ => R).
Proof. unfold as_dict. solve_refs. Qed.
Lemma refs_as_str j R : Hoare e R (as_str j) (fun _ => R).
Proof. unfold as_str. solve_refs. Qed.
Lemma refs_parse_body jl b R : Hoare e R (parse_body jl b) (fun _ => R).
Proof. unfold parse_body. solve_refs. Qed.
Lemma refs_sha_column j R : Hoare e R (sha_column j) (fun _ => R).
Proof. unfold sha_column. solve_refs. Qed.
Lemma refs_commit_message j R : Hoare e R (commit_message j) (fun _ => R).
Proof. unfold commit_message. solve_refs. Qed.
#[local] Hint Resolve refs_acknowledge refs_commit_push refs_sha_response refs_as_dict refs_as_str
  refs_parse_body refs_sha_column refs_commit_message : refs.
#[local] Hint Extern 1 (forall P, Hoare _ P (mret _) _) => intros ?; by apply hoare_ret : refs.
#[local] Hint Extern 1 (Hoare _ _ (request_builds _ _ _ _ _ _) _) =>
  apply refs_request_builds; [solve_known..|intros ? ? ? ?; split; solve_known] : refs.

Lemma refs_handle_push jl repo id did ev h body R :
  Knows R AWorkspace (repo_workspace_id repo, repo_workspace_id repo) ->
  Knows R ARepository (repo_id repo, repo_workspace_id repo) ->
  Hoare e R (handle_push jl repo id did ev h body) (fun _ _ => True).
Proof. intros Hw Hr. unfold handle_push. solve_refs. Qed.
#[local] Hint Resolve refs_handle_push : refs.

Lemma refs_webhook hm jl id body sig del ev R :
  Hoare e R (handle_github_webhook hm jl id body sig del ev) (fun _ _ => True).
Proof. unfold handle_github_webhook, verify_github_signature, compare_digest. solve_refs. Qed.

(** *** Reads *)

Lemma refs_decode_cursor iso c R : Hoare e R (decode_cursor iso c) (fun _ => R).
Proof. unfold decode_cursor, invalid_cursor. solve_refs. Qed.
#[local] Hint Resolve refs_decode_cursor : refs.

Lemma refs_list_page {A} iso (created : A -> time) ident select l cur R :
  Hoare e R (list_page iso created ident select l cur) (fun _ => R).
Proof. unfold list_page. solve_refs. Qed.

Lemma refs_collect_metrics c w R : Hoare e R (collect_metrics c w) (fun _ => R).
Proof. unfold collect_metrics. solve_refs. Qed.

Lemma refs_status_of_value v R : Hoare e R (status_of_value v) (fun _ => R).
Proof. unfold status_of_value. solve_refs. Qed.
#[local] Hint Resolve refs_list_page refs_collect_metrics refs_status_of_value : refs.

#[local] Hint Resolve refs_create_workspace refs_upsert_member refs_remove_member
  refs_create_application refs_update_application refs_deploy_release refs_rollback_release
  refs_trigger_build refs_submit_job refs_cancel_job refs_rerun_job refs_create_repository
  refs_upsert_secret refs_delete_secret refs_webhook : refs.

(** Every route, from any session. *)
Lemma refs_route `{AEAD} o col r R : Hoare e R (route o col r) (fun _ _ => True).
Proof.
  destruct r as [c r|]; [|unfold route; solve_refs].
  destruct r; unfold route, user_route, with_status; try solve [solve_refs].
  all: apply (hoare_bind _ _ _ _ (fun _ _ => True)); [|intros; by apply hoare_ret].
  all: unfold get_workspace, list_workspace_members, list_workspace_applications, get_application,
    list_releases, list_workspace_jobs, get_job, get_job_output, list_workspace_dead_letter_records,
    get_operation_status, stream_operation_events, list_repositories, get_repository, get_workspace_quotas,
    list_workspace_secrets, list_workspace_audit_events, get_workspace_telemetry; solve_refs.
Qed.
End Handlers.

(** ** References are an invariant of the API *)

(** Primary keys make ids name one row. *)
Lemma unique_keys {A} (id ws : A -> uuid) (l : list A) i w w' :
  unique id l = true ->
  (i, w) ∈ map (fun x => (id x, ws x)) l -> (i, w') ∈ map (fun x => (id x, ws x)) l -> w = w'.
Proof.
  unfold unique. intros Hu. bool_hyps.
  intros (x & E & Hx)%list_elem_of_fmap (y & E' & Hy)%list_elem_of_fmap. simplify_eq.
  by rewrite (NoDup_map_inj id l x y).
Qed.

Lemma integrity_functional d : integrity d -> functional d.
Proof.
  intros Hi p i w w' Hp. assert (forall name b, (name, b) ∈ constraints d -> b = true) as H
    by (intros name b; by apply integrity_constraint).
  unfold constraints in H.
  destruct p; unfold keys; [|eapply unique_keys..|done].
  - intros (x & E & _)%list_elem_of_fmap (y & E' & _)%list_elem_of_fmap. congruence.
  - apply (H "applications_pkey"). set_solver.
  - apply (H "releases_pkey"). set_solver.
  - apply (H "repositories_pkey"). set_solver.
  - apply (H "jobs_pkey"). set_solver.
Qed.

(** A flush that passes the keys passes the foreign keys too: they need no check of their own. *)
Lemma flush_coherent e s a s' : session_sound s -> flush e s = (Ok a, s') -> coherent (view s').
Proof.
  intros Hs H. apply flush_ok in H as [-> Hi]. by apply sound_view; [apply flushed_sound|apply integrity_functional].
Qed.

(** Other transactions keep the constraints and the references, and remove no parent. *)
Record rivals_keep (e : Env) : Prop := {
  rk_lock : keeps_references (rivals_lock e);
  rk_commit : keeps_references (rivals_commit e);
  rk_integrity : forall d, integrity d -> integrity (rivals_lock e d) /\ integrity (rivals_commit e d) }.

(** C5: no dangling and no cross-tenant reference, ever.  Over any sequence of requests on
    any route by anybody, successful or not, among other transactions that respect the
    same: every foreign key of every row names an existing row, and one of the row's own
    workspace.  So no release belongs to another tenant's application or repository, no
    application is connected to another tenant's repository, no delivery is recorded for
    one, and no commit is one the database would refuse for a missing parent. *)
Theorem references_hold `{AEAD} o requests a :
  integrity (app_db a) -> coherent (app_db a) -> Forall (fun x => rivals_keep x.2) requests ->
  integrity (app_db (serve_all o requests a)) /\ coherent (app_db (serve_all o requests a)).
Proof.
  intros Hi Hc Hr. unfold serve_all. revert a Hi Hc. induction Hr as [|[r e] rs He _ IH]; intros a Hi Hc; [done|].
  cbn. destruct He as [Hl Hk Hint]. cbn in *.
  destruct (serve_runs o r e a) as (e' & s & El & Ec & Hs & Hw & Hst & E). rewrite <- El, <- Ec in *.
  assert (session_sound s) as Hsound.
  { destruct s. cbn in *. subst. apply session_sound_fresh. by intros _. }
  assert (integrity (app_db (serve o r e a))) as Hi'.
  { rewrite E. apply preserves_route; [..|by rewrite Hs]; intros d Hd; by apply Hint. }
  apply IH; [done|]. rewrite E in *.
  pose proof (refs_route e' Hl Hk o (collector a) r.2 (fun _ => True) s Hsound ltac:(done)) as Hm.
  destruct (route o (collector a) r.2 e' s) as [[v|x] s']; cbn in *;
    (apply ss_committed; [apply Hm|by apply integrity_functional]).
Qed.

(** ** Witnesses *)

(** An application is disconnected and connected again, built by hand and by a push,
    deployed; a job runs and is cancelled; a repository that does not exist is refused. *)
Definition sample_tenant_requests : list (HttpRequest * float * ApiRequest * Env) :=
  let req := mkHttpRequest "/v1" (Some "req-1") None None in
  let patch repository := PATCH_app 50%N (mkUpdateApp None (Some repository) None None None) in
  [((req, float_zero, FromUser alice (patch None)), reseeded 1 sample_env);
   ((req, float_zero, FromUser alice (patch (Some 61%N))), reseeded 2 sample_env);
   ((req, float_zero, FromUser alice (patch (Some 60%N))), reseeded 3 sample_env);
   ((req, float_zero, FromUser alice (POST_builds 50%N sample_build)), reseeded 4 sample_env);
   ((req, float_zero, FromGitHub 60%N "push" sample_signature (Some "d-1") "push"), reseeded 5 sample_env);
   ((req, float_zero, FromUser alice (POST_deployments 50%N sample_deployment "key-1")), reseeded 6 sample_env);
   ((req, float_zero, FromUser alice (POST_jobs sample_workspace sample_submission "key-2")), reseeded 7 sample_env)].

Definition sample_tenant : App := mkApp sample_push_db new_collector.

Lemma sample_rivals_keep k : rivals_keep (reseeded k sample_env).
Proof. split; [split; [intros d; reflexivity|done]..|done]. Qed.

Lemma references_hold_witness :
  let after := serve_all sample_outside sample_tenant_requests sample_tenant in
  integrity (app_db sample_tenant) /\ coherent (app_db sample_tenant)
  /\ coherent (app_db after)
  /\ map rel_repository_id (releases (app_db after)) = [Some 60%N; Some 60%N; None]
  /\ List.length (deliveries (app_db after)) = 1%nat /\ List.length (jobs (app_db after)) = 1%nat.
Proof.
  assert (integrity (app_db sample_tenant)) as Hi by (apply (bool_decide_unpack _); by vm_compute).
  assert (coherent (app_db sample_tenant)) as Hc by (apply coherent_test_true; by vm_compute).
  cbv zeta. split_and!; [done|done| |vm_compute; reflexivity..].
  apply (references_hold sample_outside sample_tenant_requests sample_tenant Hi Hc).
  repeat (apply Forall_cons_2; [apply sample_rivals_keep|]). by constructor.
Defined.

(** What the invariant excludes: an application connected to another workspace's repository. *)
Lemma foreign_repository_incoherent :
  coherent_test (on_repositories (fun _ =>
    [mkRepository 60%N 9%N "site" "https://github.com/acme/site" "s3cret-key" "main" 0 0])
    (on_workspaces (fun l => l ++ [mkWorkspace 9%N "Rival" "rival" 0 0]) sample_push_db)) = false.
Proof. vm_compute. reflexivity. Qed.
