(* ===== verification/Fits.v ===== *)
(** * Requests whose values fit ([schemas/*.py] against the columns of [models/*.py])

    A value too long for its VARCHAR column is only refused by the database, at the flush:
    an unhandled error, answered as a 500.  The request models bound the lengths of
    most fields.  A logic of partial correctness for handlers tracks which values
    fit, and shows for every route of a user which requests never meet that error. *)

From S2P Require Import Prelude PyStr Uuid Json Models DateTime Config Session Sample Auth.
From S2P Require Import AuditLog Events Idempotency Quotas Gates Handlers Pagination StateMachine Jobs.
From S2P Require Import Workspaces Apps Webhooks Crypto Secrets Url Repositories Binary64.
From S2P Require Import Telemetry Operations Main History Api.
From Stdlib Require Import Ascii String.

(** ** Widths, table by table *)

Definition workspace_fits (w : Workspace) : bool := fits 100 (ws_name w) && fits 100 (ws_slug w).
Definition membership_fits (m : WorkspaceMembership) : bool := fits 255 (wm_user_subject m).
Definition application_fits (a : Application) : bool :=
  fits 100 (app_name a) && fits 100 (app_slug a) && fits 255 (app_dockerfile_path a)
  && fits 255 (app_context_dir a) && fits_opt 100 (app_git_branch a).
Definition release_fits (r : Release) : bool :=
  fits_opt 40 (rel_commit_sha r) && fits 255 (rel_image_digest r) && fits_opt 500 (rel_status_reason r)
  && fits_opt 100 (rel_git_ref r) && fits_opt 255 (rel_commit_message r).
Definition job_fits (j : Job) : bool := fits 100 (job_name j) && fits 255 (job_image_digest j).
Definition event_fits (o : OutboxEvent) : bool := fits 255 (ob_topic o).
Definition record_fits (r : IdempotencyRecord) : bool :=
  fits 255 (ir_endpoint r) && fits 255 (ir_key r) && fits 64 (ir_request_hash r).
Definition secret_fits (s : SecretReference) : bool := fits 100 (sec_name s).
Definition audit_fits (a : AuditEvent) : bool :=
  fits 255 (aud_actor_subject a) && fits 100 (aud_action a) && fits 50 (aud_target_type a)
  && fits 100 (aud_target_id a) && fits 50 (aud_result a).
Definition repository_fits (r : Repository) : bool :=
  fits 100 (repo_name r) && fits 255 (repo_url r) && fits 255 (repo_webhook_secret r)
  && fits 100 (repo_default_branch r).
Definition delivery_fits (d : WebhookDelivery) : bool :=
  fits 100 (wd_delivery_id d) && fits 50 (wd_event_type d) && fits 64 (wd_payload_hash d)
  && fits 50 (wd_status d).

Record all_fit (db : Db) : Prop := {
  fit_workspaces : Forall workspace_fits (workspaces db);
  fit_memberships : Forall membership_fits (memberships db);
  fit_applications : Forall application_fits (applications db);
  fit_releases : Forall release_fits (releases db);
  fit_jobs : Forall job_fits (jobs db);
  fit_events : Forall event_fits (outbox db);
  fit_records : Forall record_fits (idempotency db);
  fit_secrets : Forall secret_fits (secrets db);
  fit_audit : Forall audit_fits (audit_events db);
  fit_repositories : Forall repository_fits (repositories db);
  fit_deliveries : Forall delivery_fits (deliveries db) }.

Lemma forallb_Forall {A} (P : A -> bool) l : forallb P l = true <-> Forall P l.
Proof.
  induction l as [|x l IH]; cbn; [split; [constructor|done]|].
  rewrite andb_true_iff, Forall_cons, IH. by rewrite Is_true_true.
Qed.

Lemma widths_all_fit db : widths db = true <-> all_fit db.
Proof.
  change (widths db) with (forallb workspace_fits (workspaces db) && forallb membership_fits (memberships db)
    && forallb application_fits (applications db) && forallb release_fits (releases db)
    && forallb job_fits (jobs db) && forallb event_fits (outbox db) && forallb record_fits (idempotency db)
    && forallb secret_fits (secrets db) && forallb audit_fits (audit_events db)
    && forallb repository_fits (repositories db) && forallb delivery_fits (deliveries db)).
  rewrite !andb_true_iff, !forallb_Forall. split; [by intros; split; tauto|]. intros []. tauto.
Qed.

(** ** Changes that keep the widths *)

Definition widthy (w : Db -> Db) : Prop := forall d, all_fit d -> all_fit (w d).

Section Changes.
Context {A : Type} (P : A -> bool).

Lemma fits_snoc l x : P x -> Forall P l -> Forall P (l ++ [x]).
Proof. intros Hx Hl. apply Forall_app. by split; [|constructor]. Qed.

Lemma fits_update f (Q : A -> bool) l :
  (forall x, P x -> P (f x)) -> Forall P l -> Forall P (update_where Q f l).
Proof.
  intros Hf Hl. rewrite Forall_forall in *. intros x (y & Hy & ->)%elem_of_update_where.
  case_match; auto.
Qed.

Lemma fits_delete (Q : A -> bool) l : Forall P l -> Forall P (delete_where Q l).
Proof.
  intros Hl. rewrite Forall_forall in *. intros x [Hx _]%elem_of_delete_where. auto.
Qed.
End Changes.

Ltac solve_table := intros H d []; split; cbn; auto.
Lemma widthy_workspaces g : (forall l, Forall workspace_fits l -> Forall workspace_fits (g l)) -> widthy (on_workspaces g).
Proof. solve_table. Qed.
Lemma widthy_memberships g : (forall l, Forall membership_fits l -> Forall membership_fits (g l)) -> widthy (on_memberships g).
Proof. solve_table. Qed.
Lemma widthy_applications g : (forall l, Forall application_fits l -> Forall application_fits (g l)) -> widthy (on_applications g).
Proof. solve_table. Qed.
Lemma widthy_releases g : (forall l, Forall release_fits l -> Forall release_fits (g l)) -> widthy (on_releases g).
Proof. solve_table. Qed.
Lemma widthy_jobs g : (forall l, Forall job_fits l -> Forall job_fits (g l)) -> widthy (on_jobs g).
Proof. solve_table. Qed.
Lemma widthy_outbox g : (forall l, Forall event_fits l -> Forall event_fits (g l)) -> widthy (on_outbox g).
Proof. solve_table. Qed.
Lemma widthy_idempotency g : (forall l, Forall record_fits l -> Forall record_fits (g l)) -> widthy (on_idempotency g).
Proof. solve_table. Qed.
Lemma widthy_secrets g : (forall l, Forall secret_fits l -> Forall secret_fits (g l)) -> widthy (on_secrets g).
Proof. solve_table. Qed.
Lemma widthy_audit g : (forall l, Forall audit_fits l -> Forall audit_fits (g l)) -> widthy (on_audit_events g).
Proof. solve_table. Qed.
Lemma widthy_repositories g : (forall l, Forall repository_fits l -> Forall repository_fits (g l)) -> widthy (on_repositories g).
Proof. solve_table. Qed.
Lemma widthy_reservations g : widthy (on_reservations g).
Proof. intros d []. by split. Qed.

(** ** Strings that fit *)

Lemma fits_iff n s : fits n s <-> len s <= n.
Proof. unfold fits. rewrite Is_true_true. lia. Qed.

Lemma fits_le m n s : m <= n -> fits m s -> fits n s.
Proof. rewrite !fits_iff. lia. Qed.

Lemma lstrip_by_length P s : (String.length (lstrip_by P s) <= String.length s)%nat.
Proof. induction s as [|c s IH]; cbn; [done|]. destruct (P c); cbn; lia. Qed.

Lemma str_rev_length s : String.length (str_rev s) = String.length s.
Proof. induction s as [|c s IH]; [done|]. rewrite str_rev_cons, str_length_app, IH. cbn. lia. Qed.

Lemma fits_strip n s : fits n s -> fits n (strip s).
Proof.
  rewrite !fits_iff. unfold len, strip, strip_by, rstrip_by. rewrite str_rev_length.
  pose proof (lstrip_by_length is_space (str_rev (lstrip_by is_space s))) as H1.
  pose proof (lstrip_by_length is_space s) as H2. rewrite str_rev_length in H1. lia.
Qed.

Lemma str_take_length k s : (String.length (str_take k s) <= k)%nat.
Proof. revert s. induction k as [|k IH]; intros [|c s]; cbn; [lia..|]. specialize (IH s). lia. Qed.

Lemma fits_rerun name : fits 100 (rerun_name name).
Proof.
  rewrite fits_iff. unfold len, rerun_name. rewrite str_length_app.
  pose proof (str_take_length 94 name). change (String.length "-rerun") with 6%nat. lia.
Qed.

Lemma fits_uuid u : fits 100 (uuid_str u).
Proof. rewrite fits_iff. unfold len. rewrite uuid_str_length. lia. Qed.

Lemma fits_endpoint a u b : fits 200 a -> fits 19 b -> fits 255 (a +:+ uuid_str u +:+ b).
Proof. rewrite !fits_iff. unfold len. rewrite !str_length_app, uuid_str_length. lia. Qed.

Lemma fits_or_str n a b : fits_opt n a -> fits n b -> fits n (or_str a b).
Proof. destruct a as [s|]; cbn; [|done]. by destruct (truthy s). Qed.

Lemma fits_topic t : fits 255 (topic_value t).
Proof. by destruct t. Qed.

(** ** The logic

    [Fits m Q]: on a session whose data and changes fit, [m] does not meet the width
    error, leaves such a session, and its result satisfies [Q]. *)

Record session_fits (s : Sess) : Prop := {
  sf_committed : all_fit (committed s);
  sf_writes : Forall widthy (writes s);
  sf_staged : Forall (fun w => forall t, widthy (w t)) (staged s) }.

Lemma view_fits s : session_fits s -> all_fit (view s).
Proof.
  intros [Hc Hw _]. unfold view, apply_all. revert Hc. generalize (committed s).
  induction Hw as [|w ws H _ IH]; intros d Hd; cbn; [done|]. by apply IH, H.
Qed.

Section Logic.
Context (e : Env).

Definition Fits {A} (m : M A) (Q : A -> Prop) : Prop :=
  forall s, session_fits s ->
    match m e s with
    | (Ok a, s') => Q a /\ session_fits s'
    | (Err x, s') => x <> DataError /\ session_fits s'
    end.

Definition anything {A} (_ : A) : Prop := True.

Lemma fits_weaken {A} (m : M A) (P Q : A -> Prop) : Fits m P -> (forall a, P a -> Q a) -> Fits m Q.
Proof. intros Hm HPQ s Hs. specialize (Hm s Hs). destruct (m e s) as [[] ?]; naive_solver. Qed.

Lemma fits_any {A} (m : M A) P : Fits m P -> Fits m anything.
Proof. intros Hm. by eapply fits_weaken. Qed.

Lemma fits_ret {A} (a : A) (Q : A -> Prop) : Q a -> Fits (mret a) Q.
Proof. intros Ha s Hs. by split. Qed.

Lemma fits_raise {A} x (Q : A -> Prop) : x <> DataError -> Fits (raise x) Q.
Proof. intros Hx s Hs. by split. Qed.

Lemma fits_bind {A B} (m : M A) (f : A -> M B) P Q :
  Fits m P -> (forall a, P a -> Fits (f a) Q) -> Fits (m ≫= f) Q.
Proof.
  intros Hm Hf s Hs. specialize (Hm s Hs). unfold mbind, M_bind.
  destruct (m e s) as [[a|x] s']; [|done]. destruct Hm as [Ha Hs']. by apply Hf.
Qed.

Lemma fits_ask : Fits ask (fun e' => e' = e).
Proof. intros s Hs. by split. Qed.
Lemma fits_now : Fits datetime_now anything.
Proof. intros s []. by split. Qed.
Lemma fits_uuid4 : Fits uuid4 anything.
Proof. intros s []. by split. Qed.
Lemma fits_urandom12 : Fits urandom12 anything.
Proof. intros s []. by split. Qed.

Lemma fits_query {A} (f : Db -> A) : Fits (query f) (fun a => exists d, all_fit d /\ a = f d).
Proof. intros s Hs. split; [|done]. exists (view s). split; [by apply view_fits|done]. Qed.

Lemma fits_guard c x : x <> DataError -> Fits (guard c x) (fun _ => c = false).
Proof. intros Hx s Hs. by destruct c. Qed.

Lemma fits_execute w : widthy w -> Fits (execute w) anything.
Proof.
  intros Hw s [Hc Hws Hst]. split; [done|]. split; cbn; [done| |done].
  apply Forall_app. by split; [|constructor].
Qed.

Lemma fits_stage w : (forall t, widthy (w t)) -> Fits (stage w) anything.
Proof.
  intros Hw s [Hc Hws Hst]. split; [done|]. split; cbn; [done|done|].
  apply Forall_app. by split; [|constructor].
Qed.

Lemma flushed_fits s : session_fits s -> session_fits (flushed e s).
Proof.
  intros [Hc Hw Hst]. split; cbn; [done| |constructor]. apply Forall_app. split; [done|].
  apply Forall_map. eapply Forall_impl; [exact Hst|]. cbn. auto.
Qed.

Lemma fits_flush : Fits flush anything.
Proof.
  intros s Hs. rewrite flush_spec. pose proof (flushed_fits s Hs) as Hf.
  rewrite (proj2 (widths_all_fit (view (flushed e s))) (view_fits _ Hf)). cbn [negb]. by destruct (violated (view (flushed e s))).
Qed.

Lemma fits_rollback : Fits rollback anything.
Proof. intros s [Hc _ _]. split; [done|]. split; cbn; [done|constructor|constructor]. Qed.

Lemma fits_scalar_one {A} (l : list A) : Fits (scalar_one l) (fun a => a ∈ l).
Proof. destruct l as [|a [|]]; intros s Hs; split; try done. left. Qed.

Lemma fits_select_one {A} (table : Db -> list A) P :
  Fits (select_one table P) (fun o => forall a, o = Some a -> exists d, all_fit d /\ a ∈ table d /\ P a = true).
Proof.
  unfold select_one. eapply fits_bind; [apply fits_query|]. cbn. intros rows (d & Hd & ->).
  destruct (where_ P (table d)) as [|a [|]] eqn:E; intros s Hs; split; try done.
  intros a' [= <-]. exists d. split; [done|]. apply elem_of_where. rewrite E. left.
Qed.

Lemma fits_or_raise {A} (o : option A) x : x <> DataError -> Fits (or_raise o x) (fun a => o = Some a).
Proof. intros Hx. by destruct o; intros s Hs. Qed.

Lemma fits_catch_integrity {A} (m : M A) h Q :
  Fits m Q -> (forall c, Fits (h c) Q) -> Fits (catch_integrity m h) Q.
Proof.
  intros Hm Hh s Hs. specialize (Hm s Hs). unfold catch_integrity.
  destruct (m e s) as [[a|[]] s']; try done; try apply Hm. apply Hh, Hm.
Qed.

(** Other transactions write what fits. *)
Context (lock_fits : widthy (rivals_lock e)) (commit_fits : widthy (rivals_commit e)).
(** A SHA-256 in hexadecimal has 64 digits. *)
Context (digest_fits : forall b, fits 64 (sha256_hex e b)).

Lemma fits_lock : Fits lock anything.
Proof. intros s [Hc Hw Hst]. split; [done|]. split; cbn; auto. Qed.

Lemma fits_commit : Fits commit anything.
Proof.
  intros s Hs. rewrite commit_spec. assert (Hr : session_fits (after_rivals e s)).
  { destruct Hs. split; cbn; auto. }
  pose proof (fits_flush _ Hr) as Hf. destruct (flush e _) as [[[]|x] s']; [|exact Hf]. destruct Hf as [_ Hf].
  split; [done|]. split; cbn; [by apply view_fits|constructor|constructor].
Qed.

(** *** Automation *)

Lemma fits_found {A} (x : A) (Q : Db -> A -> Prop) :
  (forall a, Some x = Some a -> exists d, all_fit d /\ Q d a) -> exists d, all_fit d /\ Q d x.
Proof. auto. Qed.
End Logic.

Lemma in_fits {A} (P : A -> bool) l x : Forall P l -> x ∈ l -> P x.
Proof. intros H. by rewrite Forall_forall in H; apply H. Qed.

Create HintDb fits.
#[local] Hint Resolve fits_uuid fits_strip fits_rerun fits_or_str fits_topic : fits.
#[local] Hint Extern 5 (Is_true (fits _ _)) => exact I : fits.

(** Facts about rows a query found: each is in a table that fits. *)
Ltac row_facts :=
  do 2 (repeat match goal with
  | H : forall a, Some ?x = Some a -> _ |- _ =>
      specialize (H x eq_refl); destruct H as (? & ? & ? & ?)
  | H : exists d, all_fit d /\ _ |- _ => destruct H as (? & ? & H)
  | H : _ ∈ where_ _ _ |- _ => apply elem_of_where in H as [??]
  | Hd : all_fit ?d, H : ?x ∈ memberships ?d |- _ => apply (in_fits _ _ _ (fit_memberships d Hd)) in H
  | Hd : all_fit ?d, H : ?x ∈ applications ?d |- _ => apply (in_fits _ _ _ (fit_applications d Hd)) in H
  | Hd : all_fit ?d, H : ?x ∈ releases ?d |- _ => apply (in_fits _ _ _ (fit_releases d Hd)) in H
  | Hd : all_fit ?d, H : ?x ∈ jobs ?d |- _ => apply (in_fits _ _ _ (fit_jobs d Hd)) in H
  | Hd : all_fit ?d, H : ?x ∈ secrets ?d |- _ => apply (in_fits _ _ _ (fit_secrets d Hd)) in H
  end; unfold is_membership_of, is_secret in *; bool_hyps; simplify_eq/=).

(** The width of a row, column by column. *)
Ltac row_fits :=
  unfold workspace_fits, membership_fits, application_fits, release_fits, job_fits, event_fits,
    record_fits, secret_fits, audit_fits, repository_fits, delivery_fits in *; cbn [
    ws_name ws_slug wm_user_subject app_name app_slug app_dockerfile_path app_context_dir
    app_git_branch rel_commit_sha rel_image_digest rel_status_reason rel_git_ref
    rel_commit_message job_name job_image_digest ob_topic ir_endpoint ir_key ir_request_hash
    sec_name aud_actor_subject aud_action aud_target_type aud_target_id aud_result repo_name
    repo_url repo_webhook_secret repo_default_branch wd_delivery_id wd_event_type
    wd_payload_hash wd_status new_job with_job_state new_release with_generation with_role
    rotated] in *;
  rewrite ?andb_True in *; destruct_and?; split_and?; try done; eauto with fits.

Ltac table_fits :=
  first [ apply widthy_workspaces | apply widthy_memberships | apply widthy_applications
        | apply widthy_releases | apply widthy_jobs | apply widthy_outbox | apply widthy_idempotency
        | apply widthy_secrets | apply widthy_audit | apply widthy_repositories
        | apply widthy_reservations; fail ];
  intros ?; first [ apply fits_snoc | apply fits_update; intros ? ? | apply fits_delete ].

Ltac fits_leaf :=
  lazymatch goal with
  | |- Fits _ ask _ => apply fits_ask
  | |- Fits _ datetime_now _ => apply fits_now
  | |- Fits _ uuid4 _ => apply fits_uuid4
  | |- Fits _ urandom12 _ => apply fits_urandom12
  | |- Fits _ (query _) _ => apply fits_query
  | |- Fits _ lock _ => apply fits_lock; assumption
  | |- Fits _ commit _ => apply fits_commit; assumption
  | |- Fits _ flush _ => apply fits_flush
  | |- Fits _ rollback _ => apply fits_rollback
  | |- Fits _ (scalar_one _) _ => apply fits_scalar_one
  | |- Fits _ (select_one _ _) _ => apply fits_select_one
  | |- Fits _ (guard _ _) _ => apply fits_guard; discriminate
  | |- Fits _ (or_raise _ _) _ => apply fits_or_raise; discriminate
  | |- _ => solve [eauto with fits nocore]
  end.

Ltac solve_fits :=
  cbv zeta;
  lazymatch goal with
  | |- forall _, _ => intro; solve_fits
  | |- Fits _ (mbind _ ?m) _ =>
      lazymatch m with
      | mbind _ _ => eapply (fits_bind _ _ _ anything)
      | match _ with _ => _ end => eapply (fits_bind _ _ _ anything)
      | catch_integrity _ _ => eapply (fits_bind _ _ _ anything)
      | stage _ => eapply (fits_bind _ _ _ anything)
      | execute _ => eapply (fits_bind _ _ _ anything)
      | mret _ => eapply (fits_bind _ _ _ anything)
      | _ => eapply fits_bind
      end; [solve_fits|cbv beta; intros ? ?; solve_fits]
  | |- Fits _ (match ?x with _ => _ end) _ => destruct x eqn:?; solve_fits
  | |- Fits _ (mret _) _ => apply fits_ret; try done
  | |- Fits _ (raise _) _ => apply fits_raise; try discriminate
  | |- Fits _ (catch_integrity _ _) _ =>
      apply fits_catch_integrity; [solve_fits|cbv beta; intros ?; solve_fits]
  | |- Fits _ (stage _) _ => apply fits_stage; cbv beta; intros ?; try table_fits
  | |- Fits _ (execute _) _ => apply fits_execute; try table_fits
  | |- Fits _ _ ?Q => first [is_evar Q; fits_leaf | eapply fits_any; fits_leaf | fits_leaf | idtac]
  | |- _ => idtac
  end.

Lemma fits_authorize e c w r d :
  Fits e (authorize_workspace_access c w r d) (fun _ => fits 255 (subject c)).
Proof. unfold authorize_workspace_access. solve_fits. row_facts.
  match goal with H : wm_user_subject _ = _ |- _ => by rewrite <- H end.
Qed.

Lemma fits_image_policy e d : Fits e (validate_image_policy d) anything.
Proof. unfold validate_image_policy. solve_fits. Qed.

Lemma fits_rate_limit e w r : Fits e (check_workspace_rate_limit w r) anything.
Proof. unfold check_workspace_rate_limit. solve_fits. Qed.

Lemma fits_record_audit e w actor action target_type target details :
  fits 255 actor -> fits 100 action -> fits 50 target_type -> fits 100 target ->
  Fits e (record_audit_event w actor action target_type target details) anything.
Proof. intros. unfold record_audit_event. solve_fits. row_fits. Qed.

Lemma fits_create_event e w topic p h id :
  Fits e (create_outbox_event w topic p h id) (fun mk => forall t, event_fits (mk t)).
Proof. unfold create_outbox_event. solve_fits; intros; row_fits. Qed.

Lemma fits_add_event e mk : (forall t, event_fits (mk t)) -> Fits e (add_outbox_event mk) anything.
Proof. intros H. unfold add_outbox_event. solve_fits. apply H. Qed.

Lemma fits_add_record e w ep k h c o :
  fits 255 ep -> fits 255 k -> fits 64 h -> Fits e (add_idempotency_record w ep k h c o) anything.
Proof. intros. unfold add_idempotency_record. solve_fits. row_fits. Qed.

Lemma fits_refresh e {A} (table : Db -> list A) P : Fits e (refresh table P) anything.
Proof. unfold refresh. solve_fits. Qed.

(** ** The parts of the handlers *)

Section Handlers.
Context (e : Env).
Context (lock_fits : widthy (rivals_lock e)) (commit_fits : widthy (rivals_commit e)).
Context (digest_fits : forall b, fits 64 (sha256_hex e b)).

#[local] Hint Resolve fits_authorize fits_image_policy fits_rate_limit fits_record_audit
  fits_create_event fits_add_event fits_add_record fits_refresh : fits.

Lemma fits_hash p : Fits e (compute_payload_hash p) (fun h => fits 64 h).
Proof. unfold compute_payload_hash. solve_fits. subst. apply digest_fits. Qed.

Lemma fits_stored_response b : Fits e (lift (stored_response b)) anything.
Proof.
  intros s Hs. unfold lift. destruct (stored_response b) as [r|x] eqn:E; [by split|].
  split; [|done]. unfold stored_response in E. intros ->. by repeat case_match.
Qed.
#[local] Hint Resolve fits_hash fits_stored_response : fits.

Lemma fits_check_idempotency w ep k h : Fits e (check_idempotency w ep k h) anything.
Proof. unfold check_idempotency. solve_fits. Qed.

Lemma fits_race c w ep k h : Fits e (handle_idempotency_race c w ep k h) anything.
Proof. unfold handle_idempotency_race. solve_fits. Qed.
#[local] Hint Resolve fits_check_idempotency fits_race : fits.

Lemma fits_commit_idempotent w ep k h op : Fits e (commit_idempotent w ep k h op) anything.
Proof. unfold commit_idempotent. solve_fits. Qed.

Lemma fits_quota_summary w : Fits e (get_workspace_quota_summary w) anything.
Proof. unfold get_workspace_quota_summary, expire_stale_reservations. solve_fits. Qed.
#[local] Hint Resolve fits_commit_idempotent fits_quota_summary : fits.

Lemma fits_enforce_quota w cls a b : Fits e (enforce_workspace_quota w cls a b) anything.
Proof. unfold enforce_workspace_quota, get_workspace_quota_usage_for_admission. solve_fits. Qed.
#[local] Hint Resolve fits_enforce_quota : fits.

(** *** Workspaces *)

Lemma fits_create_workspace c p :
  create_workspace_valid p -> fits 255 (subject c) -> Fits e (create_workspace c p) anything.
Proof.
  unfold create_workspace_valid. rewrite !andb_True. intros [[[[_ ?] _] ?] _] ?.
  unfold create_workspace. solve_fits; row_fits.
Qed.

Lemma fits_guard_last_owner w d : Fits e (guard_last_owner w d) anything.
Proof. unfold guard_last_owner. solve_fits. Qed.
#[local] Hint Resolve fits_guard_last_owner : fits.

Lemma fits_stage_member c w p :
  fits 100 (strip (um_user_subject p)) -> Fits e (stage_member c w p) (fun _ => fits 255 (subject c)).
Proof.
  intros. assert (fits 255 (strip (um_user_subject p))) by (eapply fits_le; [|done]; done).
  unfold stage_member. solve_fits; row_fits.
Qed.

#[local] Hint Resolve fits_stage_member : fits.

Lemma fits_upsert_member c w p :
  fits 100 (strip (um_user_subject p)) -> Fits e (upsert_workspace_member c w p) anything.
Proof. intros. unfold upsert_workspace_member. solve_fits; row_fits. Qed.

Lemma fits_stage_removal c w user : Fits e (stage_removal c w user) (fun _ => fits 255 (subject c)).
Proof. unfold stage_removal. solve_fits; row_fits. Qed.
#[local] Hint Resolve fits_stage_removal : fits.

Lemma fits_remove_member c w user :
  fits 100 user -> Fits e (remove_workspace_member c w user) anything.
Proof. intros. unfold remove_workspace_member. solve_fits; row_fits. Qed.

(** *** Applications *)

(** The field constraints of the application and build requests. *)
Definition create_application_valid (p : CreateApplicationRequest) : bool :=
  (1 <=? len (ca_name p)) && fits 100 (ca_name p)
  && (3 <=? len (ca_slug p)) && fits 100 (ca_slug p) && str_forallb slug_char (ca_slug p)
  && fits 255 (ca_dockerfile_path p) && fits 255 (ca_context_dir p) && fits_opt 100 (ca_git_branch p).
Definition update_application_valid (p : UpdateApplicationRequest) : bool :=
  match ua_name p with Some n => (1 <=? len n) && fits 100 n | None => true end
  && fits_opt 255 (ua_dockerfile_path p) && fits_opt 255 (ua_context_dir p)
  && fits_opt 100 (ua_git_branch p).
Definition deploy_release_valid (p : DeployReleaseRequest) : bool :=
  (5 <=? len (dp_image_digest p)) && (1 <=? dp_port p) && (dp_port p <=? 65535).
Definition trigger_build_valid (p : TriggerBuildRequest) : bool :=
  fits_opt 40 (tb_commit_sha p) && fits 100 (tb_git_ref p) && fits_opt 255 (tb_commit_message p)
  && match tb_port p with Some n => (1 <=? n) && (n <=? 65535) | None => true end
  && fits_opt 255 (tb_health_path p).

Lemma fits_check_repository w r : Fits e (check_repository w r) anything.
Proof. unfold check_repository. solve_fits. Qed.
#[local] Hint Resolve fits_check_repository : fits.

Lemma fits_create_application c w p :
  create_application_valid p -> Fits e (create_application c w p) anything.
Proof.
  unfold create_application_valid. rewrite !andb_True. intros. destruct_and?.
  unfold create_application. solve_fits; row_fits.
Qed.

Lemma fits_assign {A} `{EqDecision A} (P : A -> Prop) (new : option A) loaded stored :
  from_option P True new -> P stored -> P (assign new loaded stored).
Proof. unfold assign. destruct new as [v|]; cbn; [|done]. by case_bool_decide. Qed.

Lemma fits_update_application c id p :
  update_application_valid p -> Fits e (update_application c id p) anything.
Proof.
  unfold update_application_valid. rewrite !andb_True. intros. destruct_and?.
  unfold update_application. solve_fits; row_fits.
  all: unfold updated_app; cbn.
  - apply (fits_assign (fun v => fits 100 v)); [|done]. destruct (ua_name p); cbn; [|done].
    rewrite ?andb_True in *. tauto.
  - apply (fits_assign (fun v => fits 255 v)); [|done]. by destruct (ua_dockerfile_path p).
  - apply (fits_assign (fun v => fits 255 v)); [|done]. by destruct (ua_context_dir p).
  - apply (fits_assign (fun v => fits_opt 100 v)); [|done]. by destruct (ua_git_branch p).
Qed.

Lemma fits_find_app c id : Fits e (find_app c id) (fun _ => fits 255 (subject c)).
Proof. unfold find_app. solve_fits. Qed.

Lemma fits_lock_app id : Fits e (lock_app id) (fun a => application_fits a).
Proof.
  unfold lock_app. solve_fits. eapply fits_weaken; [apply fits_scalar_one|]. cbv beta. intros. by row_facts.
Qed.
#[local] Hint Resolve fits_find_app fits_lock_app : fits.

Lemma fits_deploy_release c id p key :
  fits 255 (dp_image_digest p) -> fits 255 key -> Fits e (deploy_release c id p key) anything.
Proof.
  intros. assert (fits 255 (deploy_endpoint id)) by by apply fits_endpoint.
  unfold deploy_release. solve_fits; row_fits.
Qed.

Lemma fits_rollback_release c id p key :
  fits 255 key -> Fits e (rollback_release c id p key) anything.
Proof.
  intros. assert (fits 255 (rollback_endpoint id)) by by apply fits_endpoint.
  unfold rollback_release. solve_fits; row_facts; row_fits.
Qed.

Lemma fits_checked_sha o : fits_opt 40 o -> Fits e (checked_commit_sha o) (fun r => fits_opt 40 r).
Proof. intros H. unfold checked_commit_sha. solve_fits. by apply fits_strip. Qed.
#[local] Hint Resolve fits_checked_sha : fits.

Lemma fits_stage_build c id p : trigger_build_valid p -> Fits e (stage_build c id p) anything.
Proof.
  unfold trigger_build_valid. rewrite !andb_True. intros. destruct_and?.
  unfold stage_build. solve_fits; row_fits.
Qed.
#[local] Hint Resolve fits_stage_build : fits.

Lemma fits_trigger_build c id p : trigger_build_valid p -> Fits e (trigger_build c id p) anything.
Proof. intros. unfold trigger_build. solve_fits. Qed.

(** *** Jobs *)

Lemma fits_submit_job c w p key :
  submit_job_valid p -> fits 255 (sj_image_digest p) -> fits 255 key ->
  Fits e (submit_job c w p key) anything.
Proof.
  unfold submit_job_valid. rewrite !andb_True. intros. destruct_and?.
  assert (fits 100 (sj_name p)) by done. assert (fits 255 (submit_endpoint w)) by by apply fits_endpoint.
  unfold submit_job. solve_fits; row_fits.
Qed.

Lemma fits_lock_job c id : Fits e (lock_job c id) (fun wj => fits 255 (subject c) /\ job_fits wj.2).
Proof.
  unfold lock_job. solve_fits. row_facts. done.
Qed.
#[local] Hint Resolve fits_lock_job : fits.

Lemma fits_request_cancellation c w id j key :
  fits 255 (subject c) -> Fits e (request_cancellation c w id j key) anything.
Proof. intros. unfold request_cancellation. solve_fits; row_fits. Qed.
#[local] Hint Resolve fits_request_cancellation : fits.

Lemma fits_cancel_job c id key : fits 255 key -> Fits e (cancel_job c id key) anything.
Proof.
  intros. assert (fits 255 (cancel_endpoint id)) by by apply fits_endpoint.
  unfold cancel_job. solve_fits; row_fits.
Qed.

Lemma fits_rerun_job c id key : fits 255 key -> Fits e (rerun_job c id key) anything.
Proof.
  intros. assert (fits 255 (rerun_endpoint id)) by by apply fits_endpoint.
  unfold rerun_job. solve_fits; row_fits.
Qed.

(** *** Secrets and repositories *)

Definition upsert_secret_valid (p : UpsertSecretRequest) : bool :=
  (1 <=? len (us_name p)) && fits 100 (us_name p)
  && str_forallb (fun c => ((65 <=? code c) && (code c <=? 90))%N || is_digit c || (c =?= "_"%char)) (us_name p)
  && (1 <=? len (us_value p)) && fits 16384 (us_value p).
Definition create_repository_valid (p : CreateRepositoryRequest) : bool :=
  (1 <=? len (cr_name p)) && fits 100 (cr_name p)
  && (5 <=? len (cr_repo_url p)) && fits 255 (cr_repo_url p)
  && (8 <=? len (cr_webhook_secret p)) && fits 255 (cr_webhook_secret p)
  && (1 <=? len (cr_default_branch p)) && fits 100 (cr_default_branch p).

Lemma fits_stage_secret c w n enc :
  fits 255 (subject c) -> fits 100 n -> Fits e (stage_secret c w n enc) anything.
Proof.
  intros. unfold stage_secret. destruct_and?.
  eapply fits_bind; [solve_fits|]. cbv beta. intros existing Hex.
  eapply (fits_bind _ _ _ (fun r => fits 100 r.2)).
  - solve_fits; row_facts; row_fits.
  - intros [[id v] act] Hact. cbn in Hact. solve_fits; row_fits.
Qed.
#[local] Hint Resolve fits_stage_secret : fits.

Lemma fits_commit_secret n id : Fits e (commit_secret n id) anything.
Proof. unfold commit_secret. solve_fits. Qed.
#[local] Hint Resolve fits_commit_secret : fits.

Lemma fits_upsert_secret `{AEAD} sha c w p :
  upsert_secret_valid p -> Fits e (upsert_workspace_secret sha c w p) anything.
Proof.
  unfold upsert_secret_valid. rewrite !andb_True. intros. destruct_and?.
  unfold upsert_workspace_secret. solve_fits.
Qed.

Lemma fits_delete_secret c w n : Fits e (delete_workspace_secret c w n) anything.
Proof.
  unfold delete_workspace_secret. solve_fits; row_facts; row_fits.
Qed.

Lemma fits_validate_repo_url b url :
  fits 255 url -> Fits e (validate_repo_url b url) (fun clean => fits 255 clean).
Proof.
  intros. unfold validate_repo_url, extract_repo_host, urlsplit_netloc. solve_fits; row_fits.
Qed.
#[local] Hint Resolve fits_validate_repo_url : fits.

Lemma fits_create_repository b c w p :
  create_repository_valid p -> Fits e (create_repository b c w p) anything.
Proof.
  unfold create_repository_valid. rewrite !andb_True. intros. destruct_and?.
  unfold create_repository. solve_fits; row_fits.
Qed.

(** *** Reads *)

Lemma fits_get_quotas c w : Fits e (get_workspace_quotas c w) anything.
Proof. unfold get_workspace_quotas. solve_fits. Qed.

Lemma fits_decode_cursor iso c : Fits e (decode_cursor iso c) anything.
Proof. unfold decode_cursor, invalid_cursor. eapply fits_any. solve_fits. Qed.
#[local] Hint Resolve fits_decode_cursor : fits.

Lemma fits_list_page {A} iso (created : A -> time) ident select l cur :
  Fits e (list_page iso created ident select l cur) anything.
Proof. unfold list_page. solve_fits. Qed.
#[local] Hint Resolve fits_list_page : fits.

Lemma fits_collect_metrics c w : Fits e (collect_metrics c w) anything.
Proof. unfold collect_metrics. solve_fits. Qed.
#[local] Hint Resolve fits_collect_metrics : fits.

Lemma fits_status_of_value v : Fits e (status_of_value v) anything.
Proof. unfold status_of_value. eapply fits_any. solve_fits. Qed.
#[local] Hint Resolve fits_status_of_value : fits.

(** ** The routes *)

(** What the request models check, and, after it, what they do not: the length of an image
    reference, of the caller's own subject where no membership bounds it, and of a
    member's subject as the target of an audit row. *)
Definition request_fits (c : Caller) (r : UserRequest) : bool :=
  match r with
  | POST_workspaces p => create_workspace_valid p && fits 255 (subject c)
  | POST_members _ p => upsert_member_valid p && fits 100 (strip (um_user_subject p))
  | DELETE_member _ user => fits 100 user
  | POST_apps _ p => create_application_valid p
  | PATCH_app _ p => update_application_valid p
  | POST_deployments _ p key => deploy_release_valid p && fits 255 key && fits 255 (dp_image_digest p)
  | POST_rollbacks _ _ key | POST_cancel _ key | POST_reruns _ key => fits 255 key
  | POST_builds _ p => trigger_build_valid p
  | POST_jobs _ p key => submit_job_valid p && fits 255 key && fits 255 (sj_image_digest p)
  | POST_repositories _ p => create_repository_valid p
  | POST_secrets _ p => upsert_secret_valid p
  | _ => true
  end.

#[local] Hint Resolve fits_create_workspace fits_upsert_member fits_remove_member
  fits_create_application fits_update_application fits_deploy_release fits_rollback_release
  fits_trigger_build fits_submit_job fits_cancel_job fits_rerun_job fits_create_repository
  fits_upsert_secret fits_delete_secret fits_get_quotas : fits.

Lemma fits_user_route `{AEAD} o col c r :
  request_fits c r -> Fits e (user_route o col c r) anything.
Proof.
  unfold request_fits, user_route, with_status. intros Hr.
  destruct r; rewrite ?andb_True in Hr; destruct_and?;
    (eapply (fits_bind _ _ _ anything); [|intros; by apply fits_ret]); try solve [eauto with fits nocore].
  all: unfold get_workspace, list_workspace_members, list_workspace_applications, get_application,
    list_releases, list_workspace_jobs, get_job, get_job_output, list_workspace_dead_letter_records,
    get_operation_status, stream_operation_events, list_repositories, get_repository,
    list_workspace_secrets, list_workspace_audit_events, get_workspace_telemetry; solve_fits.
Qed.
End Handlers.

(** A key the header check lets through fits its column. *)
Lemma idempotency_key_fits header key : get_idempotency_key header = Ok key -> fits 255 key.
Proof.
  unfold get_idempotency_key. destruct (negb _) eqn:E; [done|]. destruct (truthy _); [|done].
  intros [= <-]. apply fits_strip, fits_iff. bool_hyps. lia.
Qed.

(** C39: a request within its bounds never meets a column too narrow.  For every route of a
    user, if the request satisfies the field constraints of its model, and an image
    reference, a new workspace's owner and a member's subject fit their columns, then the
    handler does not raise the database's error on a value too long, whatever the
    database holds and other transactions write, and every stored value fits afterwards. *)
Theorem valid_requests_fit `{AEAD} o col c r e db :
  request_fits c r -> widths db = true ->
  (forall d, widths d = true -> widths (rivals_lock e d) = true) ->
  (forall d, widths d = true -> widths (rivals_commit e d) = true) ->
  (forall b, fits 64 (sha256_hex e b)) ->
  (run (user_route o col c r) e db).1 <> Err DataError /\
  widths (run (user_route o col c r) e db).2 = true.
Proof.
  intros Hr Hdb Hl Hc Hsha.
  assert (Hlock : widthy (rivals_lock e)) by (intros d; rewrite <- !widths_all_fit; apply Hl).
  assert (Hcommit : widthy (rivals_commit e)) by (intros d; rewrite <- !widths_all_fit; apply Hc).
  apply widths_all_fit in Hdb.
  assert (Hopen : session_fits (open_session db)) by (split; [done|constructor..]).
  pose proof (fits_user_route e Hlock Hcommit Hsha o col c r Hr _ Hopen) as Hf.
  unfold run. rewrite widths_all_fit.
  destruct (user_route o col c r e (open_session db)) as [[a|x] s]; cbn in Hf |- *;
    destruct Hf as [Hx Hs].
  - split; [done|apply Hs].
  - split; [congruence|apply Hs].
Qed.

Lemma sample_digest_fits b : fits 64 (sha256_hex sample_env b).
Proof. apply fits_iff. unfold len. cbn [sha256_hex sample_env]. by rewrite hex_digits_length. Qed.

Lemma valid_requests_fit_witness :
  let r := POST_jobs sample_workspace sample_submission "key-1" in
  request_fits alice r /\
  (run (user_route sample_outside new_collector alice r) sample_env (sample_db DEVELOPER)).1 <> Err DataError /\
  widths (run (user_route sample_outside new_collector alice r) sample_env (sample_db DEVELOPER)).2 = true.
Proof.
  split; [exact I|]. apply (valid_requests_fit sample_outside new_collector alice
    (POST_jobs sample_workspace sample_submission "key-1") sample_env (sample_db DEVELOPER)).
  - exact I.
  - reflexivity.
  - done.
  - done.
  - apply sample_digest_fits.
Defined.

(** An image reference of 300 characters from an approved registry. *)
Definition long_image : string := "ghcr.io/hami9/" +:+ str_take 286 (foldr append "" (repeat "0123456789" 29)).

(** The field constraints alone do not bound what is stored.  A job submission and a
    deployment that satisfy their request models and the image policy, from an authorized
    developer, fail on the database's width of the image column: an unhandled error,
    answered as a 500. *)
Theorem valid_image_overflows :
  let submission := mkSubmitJob "train" long_image [] [] 600 3 in
  let deployment := mkDeploy long_image 8080 "/healthz" [] "500m" "512Mi" in
  submit_job_valid submission = true /\ deploy_release_valid deployment = true /\
  image_allowed (settings sample_env) long_image = true /\
  (run (submit_job alice sample_workspace submission "key-1") sample_env (sample_db DEVELOPER)).1
    = Err DataError /\
  (run (deploy_release alice 50%N deployment "key-1") sample_env sample_apps_db).1 = Err DataError.
Proof. split_and!; vm_compute; reflexivity. Qed.

(** An authentic push to a branch with a name of more than 100 characters fails in the same
    way, if an application follows every branch of the repository. *)
Lemma pushed_branch_overflows :
  let branch := str_take 101 (foldr append "" (repeat "0123456789" 11)) in
  let loads := fun _ : string => inl (JDict [("ref", JStr ("refs/heads/" +:+ branch));
    ("after", JStr "1111111111111111111111111111111111111111")]) in
  (run (handle_github_webhook sample_hmac loads (repo_id sample_repo) "body" sample_signature
     (Some "delivery-1") "push") sample_env sample_push_db).1 = Err DataError.
Proof. vm_compute. reflexivity. Qed.
