(* ===== verification/Demos.v ===== *)
(** * The operational evidence runner ([scripts/demos/m5_runner.py])

    The script that benchmarks and drills a running deployment, as a computation over the
    deployment's database: its HTTP requests are the handlers of the API, its SQL runs
    outside of it, and the runtime's programs (the scheduler, the executor, kubectl and
    PostgreSQL's tools) are functions of the database.  Every benchmark builds the evidence
    document it saves, and [main] the verdict of the whole.  Left out: requests that get no
    response, printing, and the files, databases and Kubernetes objects the drills
    make for themselves and remove. *)

From S2P Require Import Prelude PyStr Uuid Json Models DateTime Config Session Sample Auth Idempotency Quotas Gates Handlers.
From S2P Require Import Jobs Workspaces Apps Crypto Secrets Binary64 Telemetry Operations Main Api.
From Stdlib Require Import Ascii String SpecFloat.

(** ** Evidence *)

(** The values of the saved documents: JSON with floats. *)
#[local] Set Warnings "-register-all".
Inductive value :=
| VBool (b : bool)
| VInt (z : Z)
| VFloat (x : float)
| VStr (s : string)
| VJson (j : json)
| VDict (kvs : list (string * value)).

(** [d[k]]: [None] is the exception. *)
Definition item (k : string) (v : value) : option value :=
  match v with
  | VDict kvs => dict_get k kvs
  | VJson (JDict kvs) => VJson <$> dict_get k kvs
  | _ => None
  end.

(** [v == "PASS"]. *)
Definition is_pass (v : value) : bool :=
  match v with VStr s | VJson (JStr s) => s =?= "PASS" | _ => false end.

(** ["PASS" if c else "FAIL"]. *)
Definition verdict (c : bool) : value := VStr (if c then "PASS" else "FAIL").

(** [_pct(sorted_vals, p)]; [None] is an exception. *)
Definition pct (sorted_vals : list float) (p : Z) : option float :=
  match sorted_vals with
  | [] => Some float_zero
  | _ =>
      idx ← percentile_index p (Z.of_nat (List.length sorted_vals));
      x ← sorted_vals !! Z.to_nat idx;
      Some (float_round_digits 2 x)
  end.

Definition float_sub : float -> float -> float := SFsub 53 1024.
Definition decimal (n d : Z) : float := int_truediv n d.
Definition ms (x : float) : float := float_mul x (float_of_int 1000).
Definition sorted_floats (l : list float) : list float := order_by float_leb l.

(** ** Scripts *)

Inductive failure :=
| HTTPStatusError (status : Z)     (* [raise_for_status()] *)
| LookupError (k : string)         (* a missing key of a JSON body *)
| CalledProcessError               (* a program that exits with an error, under [check=True] *)
| StopIteration                    (* [next] of an empty generator *)
| InvalidValue                     (* a [ValueError] of a conversion *)
| SystemExit (summary : list (string * value)).

Inductive result (A : Type) := Done (a : A) | Raised (x : failure).
Arguments Done {A} a.
Arguments Raised {A} x.

(** The environment variables a program is given on top of the script's own. *)
Definition environ : Type := list (string * string).

(** The deployment and the machine the script runs on.  The [n]-th effect of the script
    is the [n]-th request, the [n]-th reading of a clock or the [n]-th run of a program. *)
Record Site := mkSite {
  request_env : nat -> Env;
  perf_counter_at : nat -> float;
  wall_clock_at : nat -> time;
  random_uuid : nat -> N;
  run_scheduler : nat -> environ -> Db -> Db * bool;         (* and whether it succeeds *)
  run_executors : nat -> list environ -> Db -> Db * bool;    (* concurrently; all succeed *)
  killed_executor : nat -> environ -> Db -> Db;
  pg_restored : nat -> Db -> Db * bool;                      (* what the restored dump holds *)
  copied_bytes : string -> string;                           (* an archived artifact, read back *)
  artifact_sha256 : string -> string;
  alert_rules : list (string * string * string);             (* name, expression, runbook *)
  parse_float : string -> option float;                             (* [float(s)] *)
  repr_float : float -> string;                              (* [repr(x)], of the metrics *)
  json_datetime : time -> string                             (* a timestamp in a response *) }.

Record Run := mkRun { run_db : Db; effects : nat; raw_dir : list (string * value) }.

Definition Script (A : Type) : Type := Site -> Run -> result A * Run.

#[export] Instance Script_ret : MRet Script := fun A a _ r => (Done a, r).
#[export] Instance Script_bind : MBind Script := fun A B f m site r =>
  match m site r with
  | (Done a, r') => f a site r'
  | (Raised x, r') => (Raised x, r')
  end.

Definition fail {A} (x : failure) : Script A := fun _ r => (Raised x, r).
Definition the {A} (o : option A) (x : failure) : Script A :=
  match o with Some a => mret a | None => fail x end.
Definition counted_effect (db : Db) (r : Run) : Run := mkRun db (S (effects r)) (raw_dir r).

(** *** HTTP *)

(** A response: its status code and, if the request succeeded, what it carries. *)
Record Reply (A : Type) := mkReply { r_status : Z; r_content : option A }.
Arguments mkReply {A} _ _.
Arguments r_status {A} _.
Arguments r_content {A} _.

Definition reply {A} (status : Z) (o : outcome A) : Reply A :=
  match o with Ok a => mkReply status (Some a) | Err x => mkReply (exn_status x) None end.

(** [client.get] or [client.post] of an endpoint with the status code of its success. *)
Definition request {A} (m : M A) (status : Z) : Script (Reply A) := fun site r =>
  let '(o, db) := run m (request_env site (effects r)) (run_db r) in
  (Done (reply status o), counted_effect db r).

Definition is_success (status : Z) : bool := (200 <=? status) && (status <? 300).

(** [r.raise_for_status()]. *)
Definition raise_for_status {A} (r : Reply A) : Script unit :=
  if is_success (r_status r) then mret tt else fail (HTTPStatusError (r_status r)).

(** [r.json()[k]]: an error response has none of the keys the script reads. *)
Definition field {A B} (f : A -> B) (k : string) (r : Reply A) : Script B :=
  the (f <$> r_content r) (LookupError k).

(** *** The machine *)

Definition perf_counter : Script float := fun site r =>
  (Done (perf_counter_at site (effects r)), counted_effect (run_db r) r).
Definition measured_at : Script value := fun site r =>
  (Done (VStr (isoformat (wall_clock_at site (effects r)))), counted_effect (run_db r) r).
(** [uuid.uuid4().hex]. *)
Definition random_hex : Script string := fun site r =>
  (Done (uuid_hex (random_uuid site (effects r) mod 2 ^ 128)%N), counted_effect (run_db r) r).
Definition random_tag : Script string := h ← random_hex; mret (str_take 8 h).
Definition site_of : Script Site := fun site r => (Done site, r).

Definition sql {A} (f : Db -> A) : Script A := fun _ r => (Done (f (run_db r)), r).
Definition sql_commit (w : Db -> Db) : Script unit := fun _ r =>
  (Done tt, mkRun (w (run_db r)) (effects r) (raw_dir r)).

Definition program (p : Site -> nat -> Db -> Db * bool) : Script unit := fun site r =>
  let '(db, ok) := p site (effects r) (run_db r) in
  (if ok then Done tt else Raised CalledProcessError, counted_effect db r).
Definition scheduler (env : environ) : Script unit := program (fun site n => run_scheduler site n env).
Definition executors (envs : list environ) : Script unit := program (fun site n => run_executors site n envs).

(** [subprocess.Popen] of an executor, killed once the poll of its intent, which only reads,
    sees it claimed or gives up: what it committed until then. *)
Definition crash_executor (env : environ) : Script unit :=
  program (fun site n db => (killed_executor site n env db, true)).
(** [pg_dump] and [pg_restore] into a fresh database: what that one holds. *)
Definition pg_restore : Script Db := fun site r =>
  let '(db, ok) := pg_restored site (effects r) (run_db r) in
  (if ok then Done db else Raised CalledProcessError, counted_effect (run_db r) r).
(** [NOW()]. *)
Definition sql_now : Script time := fun site r =>
  (Done (wall_clock_at site (effects r)), counted_effect (run_db r) r).

(** [_save_json(filename, payload)]. *)
Definition save_json (filename : string) (payload : value) : Script unit := fun _ r =>
  (Done tt, mkRun (run_db r) (effects r) (dict_set filename payload (raw_dir r))).

(** [for x in l: body]. *)
Fixpoint for_each {A S} (l : list A) (body : A -> S -> Script S) (s : S) : Script S :=
  match l with
  | [] => mret s
  | x :: l' => s' ← body x s; for_each l' body s'
  end.

(** What a request takes, in milliseconds. *)
Definition timed {A} (m : Script A) : Script (A * float) :=
  t0 ← perf_counter; a ← m; t1 ← perf_counter; mret (a, ms (float_sub t1 t0)).

(** [round(time.perf_counter() - t0, 2)]. *)
Definition seconds_since (t0 : float) : Script float :=
  t1 ← perf_counter; mret (float_round_digits 2 (float_sub t1 t0)).

(** ** The workloads the benchmarks submit *)

(** The caller of the development header [X-Dev-Subject: alice]. *)
Definition demo_caller : Caller := mkCaller "alice" JNull JNull.

Definition post_workspace (name slug : string) : Script (Reply WorkspaceResponse) :=
  request (create_workspace demo_caller (mkCreateWorkspace name slug)) 201.

(** A submission whose unset fields have the defaults of [SubmitJobRequest]. *)
Definition alpine : string := "docker.io/library/alpine:3.20".
Definition job_request (name : string) (command : string) (timeout retries : Z) : SubmitJobRequest :=
  mkSubmitJob name alpine ["sh"; "-c"; command] [] timeout retries.
Definition default_job (name command : string) : SubmitJobRequest := job_request name command 600 3.

Definition post_job (w : uuid) (payload : SubmitJobRequest) (key : string)
    : Script (Reply AcceptedOperationResponse) :=
  request (submit_job demo_caller w payload key) 202.

(** [_clean_active_workloads()]: four updates, one transaction. *)
Definition CLEANED_JOB_STATES : list JobState := [QUEUED; ADMITTED; STARTING; RUNNING; RECOVERY_PENDING].
Definition cancelled_job (j : Job) : Job := with_job_state CANCELLED (job_updated_at j) j.
Definition with_release_status (s : ReleaseStatus) (r : Release) : Release :=
  mkRelease (rel_id r) (rel_application_id r) (rel_workspace_id r) (rel_number r) (rel_commit_sha r)
    (rel_image_digest r) (rel_config_json r) s (rel_status_reason r) (rel_repository_id r)
    (rel_git_ref r) (rel_commit_message r) (rel_build_duration_ms r) (rel_build_logs r)
    (rel_created_at r) (rel_updated_at r).
Definition terminated_intent (i : ExecutionIntent) : ExecutionIntent :=
  mkIntent (int_id i) (int_workspace_id i) (int_resource_type i) (int_job_attempt_id i)
    (int_release_id i) (int_resource_uid i) (int_target_generation i) (int_name i) TERMINATED
    (int_claimed_by i) (int_lease_epoch i) (int_lease_expires_at i) (int_created_at i) (int_updated_at i).
Definition released_reservation (r : QuotaReservation) : QuotaReservation :=
  mkReservation (qr_id r) (qr_workspace_id r) (qr_resource_class r) (qr_units r) RELEASED
    (qr_expires_at r) (qr_created_at r) (qr_updated_at r).

Definition clean_active_workloads (db : Db) : Db :=
  let db := on_jobs (update_where (fun j => in_ (job_state j) CLEANED_JOB_STATES) cancelled_job) db in
  let db := on_releases (update_where (fun r => in_ (rel_status r) [IMAGE_READY; DEPLOYING])
                           (with_release_status SUPERSEDED)) db in
  let db := on_intents (update_where (fun i => in_ (int_status i) [INTENT_PENDING; CLAIMED])
                          terminated_intent) db in
  on_reservations (update_where (fun r => qr_status r =?= ACTIVE) released_reservation) db.

(** ** Benchmark 1: latency of the API *)

Record StatusCounts := mkCounts { n_2xx : Z; n_4xx : Z; n_5xx : Z }.
Definition count_status (status : Z) (c : StatusCounts) : StatusCounts :=
  if (200 <=? status) && (status <? 300) then mkCounts (n_2xx c + 1) (n_4xx c) (n_5xx c)
  else if (400 <=? status) && (status <? 500) then mkCounts (n_2xx c) (n_4xx c + 1) (n_5xx c)
  else mkCounts (n_2xx c) (n_4xx c) (n_5xx c + 1).

(** A latency section: percentiles against the two targets. *)
Definition latency_section (samples : list float) (target_p95 target_p99 : Z) : option value :=
  p50 ← pct samples 50;
  p95 ← pct samples 95;
  p99 ← pct samples 99;
  Some (VDict [("count", VInt (Z.of_nat (List.length samples)));
    ("p50", VFloat p50); ("p95", VFloat p95); ("p99", VFloat p99);
    ("target_p95_ms", VFloat (float_of_int target_p95));
    ("target_p99_ms", VFloat (float_of_int target_p99));
    ("status", verdict (SFleb p95 (float_of_int target_p95) && SFleb p99 (float_of_int target_p99)))]).

Section Benchmarks.
Context `{AEAD} (o : Outside) (col : TelemetryCollector).

(** The paths of the reads, by their position in [read_paths]. *)
Definition read_path (w : uuid) (i : nat) : UserRequest :=
  match (i mod 5)%nat with
  | 0%nat => GET_workspace w
  | 1%nat => GET_apps w 20 None
  | 2%nat => GET_jobs w 20 None
  | 3%nat => GET_quotas w
  | _ => GET_telemetry w
  end.

Definition get_status (r : UserRequest) : Script Z :=
  a ← request (user_route o col demo_caller r) 200; mret (default (r_status a) (r_content a)).

(** One measured request. *)
Definition measure (r : UserRequest) (s : list float * StatusCounts) : Script (list float * StatusCounts) :=
  '(status, dt) ← timed (get_status r);
  mret (s.1 ++ [dt], count_status status s.2).

Definition bench_secret (i : nat) (hex : string) : UpsertSecretRequest :=
  mkUpsertSecret ("BENCH_KEY_" +:+ pretty (Z.of_nat i)) ("val-" +:+ hex).

(** One measured write; the secret's value is drawn inside of the measured interval. *)
Definition measure_write (w : uuid) (i : nat) (s : list float * StatusCounts)
    : Script (list float * StatusCounts) :=
  '(status, dt) ← timed (hex ← random_hex; get_status (POST_secrets w (bench_secret i hex)));
  mret (s.1 ++ [dt], count_status status s.2).

Definition run_benchmark_1_api_latency : Script value :=
  rnd ← random_tag;
  ws_res ← post_workspace ("M5 Bench " +:+ rnd) ("m5-bench-" +:+ rnd);
  raise_for_status ws_res ;;
  w ← field wr_id "id" ws_res;
  '(reads, counts) ← for_each (seq 0 30) (fun i => measure (read_path w i)) ([], mkCounts 0 0 0);
  '(writes, counts) ← for_each (seq 0 10) (measure_write w) ([], counts);
  let total := Z.of_nat (List.length (sorted_floats (reads ++ writes))) in
  read_latency ← the (latency_section (sorted_floats reads) 250 600) InvalidValue;
  write_latency ← the (latency_section (sorted_floats writes) 400 900) InvalidValue;
  now ← measured_at;
  let evidence := VDict [
    ("benchmark", VStr "control_plane_api_latency"); ("workspace_id", VStr (uuid_str w));
    ("total_requests", VInt total);
    ("status_counts", VDict [("2xx", VInt (n_2xx counts)); ("4xx", VInt (n_4xx counts));
                             ("5xx", VInt (n_5xx counts))]);
    ("error_rate_5xx", VFloat (float_round_digits 4 (int_truediv (n_5xx counts) total)));
    ("read_latency_ms", read_latency); ("write_latency_ms", write_latency);
    ("measured_at", now)] in
  save_json "01-api-latency-benchmark.json" evidence ;;
  mret evidence.

(** ** Benchmark 2: admission by the scheduler *)

Definition admit_one (rnd : string) (w : nat) (id : uuid) (j : nat) (s : list uuid * list float)
    : Script (list uuid * list float) :=
  jr ← post_job id (default_job ("admit-job-" +:+ pretty (Z.of_nat w) +:+ "-" +:+ pretty (Z.of_nat j)) "echo ok")
         ("m5-adm-" +:+ rnd +:+ "-" +:+ pretty (Z.of_nat w) +:+ "-" +:+ pretty (Z.of_nat j));
  raise_for_status jr ;;
  jid ← field operation_id "operation_id" jr;
  t_sched ← perf_counter;
  scheduler [] ;;
  t ← perf_counter;
  mret (s.1 ++ [jid], s.2 ++ [float_round_digits 2 (ms (float_sub t t_sched))]).

Definition admit_workspace (rnd : string) (w : nat) (s : list uuid * list float)
    : Script (list uuid * list float) :=
  ws_res ← post_workspace ("M5 Admit " +:+ pretty (Z.of_nat w) +:+ " " +:+ rnd)
             ("m5-admit-" +:+ pretty (Z.of_nat w) +:+ "-" +:+ rnd);
  id ← field wr_id "id" ws_res;
  for_each (seq 0 2) (admit_one rnd w id) s.

Definition run_benchmark_2_admission_latency : Script value :=
  sql_commit clean_active_workloads ;;
  rnd ← random_tag;
  '(job_ids, latencies) ← for_each (seq 0 3) (admit_workspace rnd) ([], []);
  admitted_count ← sql (fun db => count_where
    (fun j => in_ (job_id j) job_ids && (job_state j =?= ADMITTED)) (jobs db));
  sql_commit clean_active_workloads ;;
  let samples := sorted_floats latencies in
  p50 ← the (pct samples 50) InvalidValue;
  p95 ← the (pct samples 95) InvalidValue;
  p99 ← the (pct samples 99) InvalidValue;
  now ← measured_at;
  let submitted := Z.of_nat (List.length job_ids) in
  let evidence := VDict [
    ("benchmark", VStr "scheduler_admission_latency"); ("jobs_submitted", VInt submitted);
    ("jobs_admitted", VInt admitted_count);
    ("end_to_end_admission_ms", VDict [("p50", VFloat p50); ("p95", VFloat p95); ("p99", VFloat p99);
       ("target_p95_ms", VFloat (float_of_int 2000)); ("target_p99_ms", VFloat (float_of_int 5000));
       ("status", verdict (SFleb p95 (float_of_int 2000) && (admitted_count =? submitted)))]);
    ("measured_at", now)] in
  save_json "02-admission-latency-benchmark.json" evidence ;;
  mret evidence.

(** ** Benchmark 3: a rollout and a job on the warm cluster *)

(** [kubectl delete] and the polling of Kubernetes leave the database alone. *)
Definition run_benchmark_3_warm_rollout_and_job_startup : Script value :=
  sql_commit clean_active_workloads ;;
  rnd ← random_tag;
  ws_res ← post_workspace ("M5 K8s Rollout " +:+ rnd) ("m5-rollout-" +:+ rnd);
  w ← field wr_id "id" ws_res;
  app_res ← request (create_application demo_caller w
    (mkCreateApp "Warm Rollout App" ("warm-app-" +:+ rnd) HTTP_SERVICE None "Dockerfile" "." (Some "main"))) 201;
  app ← field ar_id "id" app_res;
  t_rollout_start ← perf_counter;
  dep_res ← request (deploy_release demo_caller app
    (mkDeploy "docker.io/library/nginx:alpine" 80 "/" [] "500m" "512Mi") ("m5-warm-dep-" +:+ rnd)) 202;
  raise_for_status dep_res ;;
  rel_id ← field operation_id "operation_id" dep_res;
  let env := [("WORKLOAD_WORKSPACE_ID", uuid_str w)] in
  scheduler env ;;
  executors [env] ;;
  rollout_seconds ← seconds_since t_rollout_start;
  op ← request (get_operation_status demo_caller rel_id) 200;
  rel_status ← field op_status "status" op;
  t_job_start ← perf_counter;
  jr ← post_job w (job_request ("warm-k8s-job-" +:+ rnd) "echo warm-job-ok" 60 1) ("m5-warm-job-" +:+ rnd);
  job ← field operation_id "operation_id" jr;
  scheduler env ;;
  executors [env] ;;
  job_seconds ← seconds_since t_job_start;
  details ← request (get_job demo_caller job) 200;
  job_state ← field jd_state "state" details;
  now ← measured_at;
  let evidence := VDict [
    ("benchmark", VStr "kubernetes_warm_rollout_and_job_execution"); ("workspace_id", VStr (uuid_str w));
    ("warm_service_rollout", VDict [("application_id", VStr (uuid_str app)); ("release_id", VStr (uuid_str rel_id));
       ("final_status", VStr (operation_status_value rel_status)); ("duration_seconds", VFloat rollout_seconds);
       ("target_p95_seconds", VFloat (float_of_int 60));
       ("status", verdict ((operation_status_value rel_status =?= "HEALTHY")
                           && SFleb rollout_seconds (float_of_int 60)))]);
    ("warm_job_execution", VDict [("job_id", VStr (uuid_str job)); ("final_state", VStr (job_state_value job_state));
       ("duration_seconds", VFloat job_seconds); ("cold_pull_duration_seconds", VFloat (decimal 4401 100));
       ("target_p95_seconds", VFloat (float_of_int 15));
       ("status", verdict ((job_state_value job_state =?= "SUCCEEDED")
                           && SFleb job_seconds (float_of_int 15)))]);
    ("measured_at", now)] in
  save_json "03-warm-cold-rollout-benchmark.json" evidence ;;
  mret evidence.

(** ** Benchmark 4: duplicates *)

(** [operation_ids.add(x)]. *)
Definition set_add {A} `{EqDecision A} (x : A) (s : list A) : list A := if in_ x s then s else s ++ [x].

(** One submission of the repeated request. *)
Definition submit_again (w : uuid) (payload : SubmitJobRequest) (key : string) (ids : list uuid)
    : Script (list uuid) :=
  r ← post_job w payload key;
  raise_for_status r ;;
  id ← field operation_id "operation_id" r;
  mret (set_add id ids).

Definition submit_repeatedly (n : nat) (w : uuid) (payload : SubmitJobRequest) (key : string)
    : Script (list uuid) :=
  for_each (seq 0 n) (fun _ => submit_again w payload key) [].

Definition run_benchmark_4_duplicate_resistance : Script value :=
  sql_commit clean_active_workloads ;;
  rnd ← random_tag;
  ws_res ← post_workspace ("M5 Dedup " +:+ rnd) ("m5-dedup-" +:+ rnd);
  w ← field wr_id "id" ws_res;
  operation_ids ← submit_repeatedly 10 w (default_job "idempotent-job" "echo dedup") ("m5-dedup-key-" +:+ rnd);
  for_each (seq 0 3) (fun _ _ => scheduler []) tt ;;
  job_count ← sql (fun db => count_where (fun j => job_workspace_id j =?= w) (jobs db));
  attempt_count ← sql (fun db => count_where (fun a => att_workspace_id a =?= w) (job_attempts db));
  intent_count ← sql (fun db => count_where (fun i => int_workspace_id i =?= w) (intents db));
  sql_commit clean_active_workloads ;;
  now ← measured_at;
  let distinct := Z.of_nat (List.length operation_ids) in
  let evidence := VDict [
    ("benchmark", VStr "duplicate_delivery_and_idempotency_resistance"); ("workspace_id", VStr (uuid_str w));
    ("replayed_api_submissions", VInt 10); ("repeated_scheduler_scans", VInt 3);
    ("distinct_operation_ids", VInt distinct); ("jobs_created", VInt job_count);
    ("job_attempts_created", VInt attempt_count); ("execution_intents_created", VInt intent_count);
    ("duplicate_attempts", VInt (Z.max 0 (attempt_count - 1)));
    ("duplicate_intents", VInt (Z.max 0 (intent_count - 1)));
    ("status", verdict ((distinct =? 1) && (job_count =? 1) && (attempt_count =? 1) && (intent_count =? 1)));
    ("measured_at", now)] in
  save_json "04-duplicate-resistance-benchmark.json" evidence ;;
  mret evidence.

(** ** Benchmark 5: one worker against three *)

(** What [_run_batch] returns. *)
Record BatchRun := mkBatchRun {
  worker_count : Z; jobs_dispatched : Z; jobs_succeeded : Z; max_lease_epoch : Z; double_claims : Z;
  wall_clock_seconds : float }.

Definition batch_json (b : BatchRun) : value :=
  VDict [("worker_count", VInt (worker_count b)); ("jobs_dispatched", VInt (jobs_dispatched b));
    ("jobs_succeeded", VInt (jobs_succeeded b)); ("max_lease_epoch", VInt (max_lease_epoch b));
    ("double_claims", VInt (double_claims b)); ("wall_clock_seconds", VFloat (wall_clock_seconds b))].

Definition scale_submit (label rnd : string) (i : nat) (s : list uuid * list uuid)
    : Script (list uuid * list uuid) :=
  let k := pretty (Z.of_nat i) in
  ws_res ← post_workspace ("M5 Scale " +:+ label +:+ " " +:+ k) ("m5-sc-" +:+ label +:+ "-" +:+ k +:+ "-" +:+ rnd);
  w ← field wr_id "id" ws_res;
  jr ← post_job w (job_request ("scale-job-" +:+ label +:+ "-" +:+ k) "sleep 1 && echo scale-ok" 60 1)
         ("m5-sc-" +:+ label +:+ "-" +:+ k +:+ "-" +:+ rnd);
  j ← field operation_id "operation_id" jr;
  mret (s.1 ++ [w], s.2 ++ [j]).

Definition worker_env (w : uuid) (worker : string) : environ :=
  [("WORKLOAD_WORKSPACE_ID", uuid_str w); ("WORKER_ID", worker)].

Definition run_batch (rnd : string) (workers : Z) (label : string) : Script BatchRun :=
  sql_commit clean_active_workloads ;;
  '(ws_ids, job_ids) ← for_each (seq 0 3) (scale_submit label rnd) ([], []);
  scheduler [] ;;
  t0 ← perf_counter;
  (if workers =? 1 then
     for_each ws_ids (fun w _ => executors [worker_env w "scale-worker-single"]) tt
   else
     executors (imap (fun idx w => worker_env w ("scale-worker-" +:+ pretty (Z.of_nat (S idx)))) ws_ids)) ;;
  wall_seconds ← seconds_since t0;
  succeeded ← sql (fun db => count_where
    (fun j => in_ (job_id j) job_ids && (job_state j =?= SUCCEEDED)) (jobs db));
  epochs ← sql (fun db => map int_lease_epoch (where_ (fun i => in_ (int_workspace_id i) ws_ids) (intents db)));
  let max_epoch := match epochs with [] => 0 | n :: l => foldr Z.max n l end in
  mret (mkBatchRun workers (Z.of_nat (List.length job_ids)) succeeded max_epoch
    (if max_epoch =? 1 then 0 else max_epoch - 1) wall_seconds).

(** [max(a, b)] on floats: [b] only if it is greater. *)
Definition float_max (a b : float) : float := if SFltb a b then b else a.

Definition run_benchmark_5_scaling_1v3_workers : Script value :=
  sql_commit clean_active_workloads ;;
  rnd ← random_tag;
  single_run ← run_batch rnd 1 "1w";
  three_run ← run_batch rnd 3 "3w";
  let speedup := float_round_digits 2
    (float_div (wall_clock_seconds single_run) (float_max (decimal 1 10) (wall_clock_seconds three_run))) in
  now ← measured_at;
  let evidence := VDict [
    ("benchmark", VStr "executor_horizontal_scaling_1_vs_3_workers");
    ("single_worker_run", batch_json single_run); ("three_concurrent_workers_run", batch_json three_run);
    ("concurrency_speedup_factor", VFloat speedup);
    ("status", verdict ((jobs_succeeded single_run =? 3) && (jobs_succeeded three_run =? 3)
                        && (double_claims three_run =? 0)));
    ("measured_at", now)] in
  save_json "05-scaling-1v3-workers.json" evidence ;;
  mret evidence.

(** ** Drill 6: restoring a backup *)

Definition restored_tables : list (string * (uuid -> Db -> Z)) :=
  [("workspaces", fun w db => count_where (fun r => ws_id r =?= w) (workspaces db));
   ("applications", fun w db => count_where (fun r => app_workspace_id r =?= w) (applications db));
   ("releases", fun w db => count_where (fun r => rel_workspace_id r =?= w) (releases db));
   ("jobs", fun w db => count_where (fun r => job_workspace_id r =?= w) (jobs db));
   ("secret_references", fun w db => count_where (fun r => sec_workspace_id r =?= w) (secrets db));
   ("audit_events", fun w db => count_where (fun r => aud_workspace_id r =?= Some w) (audit_events db))].
Definition row_counts (w : uuid) (db : Db) : list (string * Z) :=
  map (fun t => (t.1, t.2 w db)) restored_tables.
Definition counts_json (l : list (string * Z)) : value := VDict (map (fun kv => (kv.1, VInt kv.2)) l).

Definition run_drill_6_disaster_restore : Script value :=
  rnd ← random_tag;
  ws_res ← post_workspace ("M5 Restore Drill " +:+ rnd) ("m5-restore-" +:+ rnd);
  w ← field wr_id "id" ws_res;
  secret ← request (upsert_workspace_secret (o_sha256 o) demo_caller w
                      (mkUpsertSecret "DRILL_SECRET" "top-secret-restore-check")) 201;
  raise_for_status secret ;;
  site ← site_of;
  let artifact := "HamiCloud M5 Restore Drill Artifact " +:+ rnd +:+ String (ascii_of_N 10) "" in
  let pre_sha256 := artifact_sha256 site artifact in
  t_rto_start ← perf_counter;
  restored ← pg_restore;
  src_counts ← sql (row_counts w);
  let dst_counts := row_counts w restored in
  let post_sha256 := artifact_sha256 site (copied_bytes site artifact) in
  rto_seconds ← seconds_since t_rto_start;
  now ← measured_at;
  let evidence := VDict [
    ("drill", VStr "postgresql_and_artifact_disaster_restore"); ("workspace_id", VStr (uuid_str w));
    ("source_row_counts", counts_json src_counts); ("restored_row_counts", counts_json dst_counts);
    ("row_counts_match", VBool (src_counts =?= dst_counts));
    ("artifact_sha256_before", VStr pre_sha256); ("artifact_sha256_after", VStr post_sha256);
    ("artifact_checksum_match", VBool (pre_sha256 =?= post_sha256));
    ("measured_rto_seconds", VFloat rto_seconds); ("target_rto_seconds", VFloat (float_of_int 3600));
    ("measured_rpo_seconds", VFloat float_zero); ("target_rpo_seconds", VFloat (float_of_int 900));
    ("status", verdict ((src_counts =?= dst_counts) && (pre_sha256 =?= post_sha256)
                        && SFleb rto_seconds (float_of_int 3600)));
    ("measured_at", now)] in
  save_json "06-restore-drill.json" evidence ;;
  mret evidence.

(** ** Drill 7: the crash of an executor *)

Definition with_lease_expiry (t : time) (i : ExecutionIntent) : ExecutionIntent :=
  mkIntent (int_id i) (int_workspace_id i) (int_resource_type i) (int_job_attempt_id i)
    (int_release_id i) (int_resource_uid i) (int_target_generation i) (int_name i) (int_status i)
    (int_claimed_by i) (int_lease_epoch i) (Some t) (int_created_at i) (int_updated_at i).

Definition expire_leases (w : uuid) (now : time) : Db -> Db :=
  on_intents (update_where (fun i => (int_workspace_id i =?= w) && (int_status i =?= CLAIMED))
                (with_lease_expiry (now - seconds 10))).

Definition requeue (w job : uuid) (now : time) (db : Db) : Db :=
  let db := on_jobs (update_where (has_job_id job) (with_job_state QUEUED (now - seconds 60))) db in
  on_reservations (update_where (fun r => (qr_workspace_id r =?= w) && (qr_status r =?= ACTIVE))
                     released_reservation) db.

Definition attempt_json (site : Site) (a : JobAttemptItem) : json :=
  JDict [("attempt_number", JInt (ai_number a)); ("state", JStr (job_state_value (ai_state a)));
    ("resource_uid", jopt JStr (ai_resource_uid a)); ("lease_epoch", JInt (ai_lease_epoch a));
    ("exit_code", jopt JInt (ai_exit_code a)); ("failure_reason", jopt JStr (ai_failure_reason a));
    ("started_at", jopt (fun t => JStr (json_datetime site t)) (ai_started_at a));
    ("finished_at", jopt (fun t => JStr (json_datetime site t)) (ai_finished_at a))].

Definition run_drill_7_controller_failure_recovery : Script value :=
  sql_commit clean_active_workloads ;;
  rnd ← random_tag;
  ws_res ← post_workspace ("M5 Controller Failure " +:+ rnd) ("m5-ctrl-fail-" +:+ rnd);
  w ← field wr_id "id" ws_res;
  jr ← post_job w (job_request ("crash-recovery-job-" +:+ rnd) "sleep 4 && echo recovered-after-crash" 60 2)
         ("m5-crash-" +:+ rnd);
  job ← field operation_id "operation_id" jr;
  let env := worker_env w "crashed-worker-1" in
  scheduler env ;;
  crash_executor env ;;
  t_recovery_start ← perf_counter;
  now ← sql_now;
  sql_commit (expire_leases w now) ;;
  scheduler env ;;
  now ← sql_now;
  sql_commit (requeue w job now) ;;
  let env_recover := worker_env w "recovery-worker-2" in
  scheduler env_recover ;;
  executors [env_recover] ;;
  recovery_seconds ← seconds_since t_recovery_start;
  details ← request (get_job demo_caller job) 200;
  site ← site_of;
  state ← field jd_state "state" details;
  attempts ← field jd_attempts "attempts" details;
  now ← measured_at;
  let evidence := VDict [
    ("drill", VStr "controller_executor_crash_and_lease_recovery"); ("workspace_id", VStr (uuid_str w));
    ("job_id", VStr (uuid_str job)); ("final_job_state", VStr (job_state_value state));
    ("total_attempts", VInt (Z.of_nat (List.length attempts)));
    ("attempts", VJson (JList (map (attempt_json site) attempts)));
    ("measured_recovery_seconds", VFloat recovery_seconds);
    ("target_recovery_seconds", VFloat (float_of_int 60));
    ("status", verdict ((job_state_value state =?= "SUCCEEDED") && SFleb recovery_seconds (float_of_int 60)));
    ("measured_at", now)] in
  save_json "07-controller-failure-drill.json" evidence ;;
  mret evidence.

(** ** Drill 8: from the alert to the runbook *)

Definition queued_age_metric : string := "hamicloud_oldest_queued_job_age_seconds".

(** The longest prefix of characters in a class, and the rest. *)
Fixpoint span (P : ascii -> bool) (s : string) : string * string :=
  match s with
  | String c s' => if P c then let '(a, b) := span P s' in (String c a, b) else ("", s)
  | EmptyString => ("", "")
  end.

Definition newline : ascii := ascii_of_N 10.
Definition is_newline (c : ascii) : bool := c =?= newline.
Definition gauge_char (c : ascii) : bool := is_digit c || (c =?= "."%char).

(** The pattern [^metric\s+([0-9.]+)$] at the start of a line: its group. *)
Definition match_gauge (s : string) : option string :=
  if startswith s queued_age_metric then
    let '(spaces, rest) := span is_space (str_drop (String.length queued_age_metric) s) in
    let '(number, rest) := span gauge_char rest in
    if truthy spaces && truthy number
       && match rest with EmptyString => true | String c _ => is_newline c end
    then Some number else None
  else None.

(** [re.search(pattern, text, re.MULTILINE)]. *)
Fixpoint search_gauge (line_start : bool) (s : string) : option string :=
  match (if line_start then match_gauge s else None) with
  | Some number => Some number
  | None => match s with EmptyString => None | String c s' => search_gauge (is_newline c) s' end
  end.

(** [float(m.group(1)) if m else default], on the text of [GET /metrics]; the body of an
    error response is one line of JSON, without a gauge. *)
Definition scrape_age (default : float) : Script float :=
  site ← site_of;
  metrics ← request (prometheus_metrics (repr_float site) col) 200;
  match r_content metrics ≫= search_gauge true with
  | Some number => the (parse_float site number) InvalidValue
  | None => mret default
  end.

Definition backdate (job : uuid) (now : time) : Db -> Db :=
  on_jobs (update_where (has_job_id job) (fun j =>
    mkJob (job_id j) (job_workspace_id j) (job_name j) (job_image_digest j) (job_command_args j)
      (job_env_vars j) (job_timeout_seconds j) (job_max_retries j) (job_current_attempt_number j)
      (job_state j) (now - seconds 125) (job_updated_at j))).

Definition run_drill_8_alert_to_runbook_exercise : Script value :=
  sql_commit clean_active_workloads ;;
  rnd ← random_tag;
  ws_res ← post_workspace ("M5 Alert Drill " +:+ rnd) ("m5-alert-" +:+ rnd);
  w ← field wr_id "id" ws_res;
  jr ← post_job w (default_job ("stalled-job-" +:+ rnd) "echounstalled") ("m5-stall-" +:+ rnd);
  job ← field operation_id "operation_id" jr;
  now ← sql_now;
  sql_commit (backdate job now) ;;
  age_before ← scrape_age float_zero;
  site ← site_of;
  stalled_rule ← the (List.find (fun r => r.1.1 =?= "HamiCloudStalledAcceptedWork") (alert_rules site))
                   StopIteration;
  let '(alert, expr, runbook_url) := stalled_rule in
  scheduler [] ;;
  age_after ← scrape_age (float_of_int (-1));
  sql_commit clean_active_workloads ;;
  now ← measured_at;
  let sixty := float_of_int 60 in
  let evidence := VDict [
    ("exercise", VStr "alert_to_runbook_stalled_accepted_work");
    ("alert_name", VStr alert); ("alert_expr", VStr expr); ("runbook_url", VStr runbook_url);
    ("job_id", VStr (uuid_str job));
    ("oldest_queued_job_age_seconds_before_mitigation", VFloat age_before);
    ("alert_firing_before_mitigation", VBool (SFltb sixty age_before));
    ("mitigation_executed", VStr "hamicloud-scheduler --run-once");
    ("oldest_queued_job_age_seconds_after_mitigation", VFloat age_after);
    ("alert_resolved_after_mitigation", VBool (SFltb age_after sixty));
    ("status", verdict (SFltb sixty age_before && SFeqb age_after float_zero));
    ("measured_at", now)] in
  save_json "08-alert-runbook-exercise.json" evidence ;;
  mret evidence.

(** ** The verdict *)

(** The condition of [_load_if_passed] on a document; [None] is an exception (a part
    that is no dictionary). *)
Definition part_status (k : string) (data : list (string * value)) : option bool :=
  match dict_get k data with
  | None => Some false
  | Some ((VDict _ | VJson (JDict _)) as part) =>
      Some (match item "status" part with Some v => is_pass v | None => false end)
  | Some _ => None
  end.

(** [a or b]. *)
Definition or_else (a b : option bool) : option bool := match a with Some false => b | _ => a end.

Definition passed (data : list (string * value)) : option bool :=
  or_else (Some (match dict_get "status" data with Some v => is_pass v | None => false end))
    (or_else (part_status "read_latency_ms" data)
       (or_else (part_status "end_to_end_admission_ms" data) (part_status "warm_job_execution" data))).

Definition load_if_passed (filename : string) : Script (option value) := fun _ r =>
  match dict_get filename (raw_dir r) with
  | None => (Done None, r)
  | Some data =>
      match data with
      | VDict kvs =>
          match passed kvs with
          | Some true => (Done (Some data), r)
          | Some false => (Done None, r)
          | None => (Raised InvalidValue, r)
          end
      | _ => (Raised InvalidValue, r)
      end
  end.

(** [_load_if_passed(filename) or run(client)]. *)
Definition load_or (filename : string) (run : Script value) : Script value :=
  loaded ← load_if_passed filename;
  match loaded with Some data => mret data | None => run end.

Definition get_item (k : string) (v : value) : Script value := the (item k v) (LookupError k).

Definition summarize (b1 b2 b3 b4 b5 d6 d7 d8 : value) : Script (list (string * value)) :=
  let status := get_item "status" in
  s1 ← get_item "read_latency_ms" b1 ≫= status;
  s2 ← get_item "end_to_end_admission_ms" b2 ≫= status;
  s3 ← get_item "warm_service_rollout" b3 ≫= status;
  s3' ← get_item "warm_job_execution" b3 ≫= status;
  s4 ← status b4;
  s5 ← status b5;
  s6 ← status d6;
  s7 ← status d7;
  s8 ← status d8;
  mret [("b1_api_latency", s1); ("b2_admission_latency", s2); ("b3_warm_rollout", s3);
    ("b3_warm_job", s3'); ("b4_duplicate_resistance", s4); ("b5_scaling_1v3", s5);
    ("d6_restore_drill", s6); ("d7_controller_failure", s7); ("d8_alert_exercise", s8)].

Definition main : Script unit :=
  b1 ← load_or "01-api-latency-benchmark.json" run_benchmark_1_api_latency;
  b2 ← load_or "02-admission-latency-benchmark.json" run_benchmark_2_admission_latency;
  b3 ← load_or "03-warm-cold-rollout-benchmark.json" run_benchmark_3_warm_rollout_and_job_startup;
  b4 ← load_or "04-duplicate-resistance-benchmark.json" run_benchmark_4_duplicate_resistance;
  b5 ← load_or "05-scaling-1v3-workers.json" run_benchmark_5_scaling_1v3_workers;
  d6 ← load_or "06-restore-drill.json" run_drill_6_disaster_restore;
  d7 ← run_drill_7_controller_failure_recovery;
  d8 ← run_drill_8_alert_to_runbook_exercise;
  summary ← summarize b1 b2 b3 b4 b5 d6 d7 d8;
  if existsb (fun kv => negb (is_pass kv.2)) summary then fail (SystemExit summary) else mret tt.
End Benchmarks.
