(* ===== verification/Evidence.v ===== *)
(** * What the evidence runner shows ([scripts/demos/m5_runner.py])

    A concrete deployment that the whole runner of [Demos] passes against; its repeated
    submissions, the clearing between its benchmarks, its scraping of the metrics and the
    verdicts it draws from stored documents. *)

From S2P Require Import Prelude PyStr Uuid Json Models DateTime Config Session Sample Auth Idempotency Quotas Gates Handlers.
From S2P Require Import Jobs Workspaces Apps Crypto Secrets Binary64 Telemetry Operations Main Api Demos.
From Stdlib Require Import Ascii String SpecFloat.

(** ** A deployment to run against *)

(** A scheduler that admits every queued job (an attempt and an intent each) and deploys
    every release that is ready, and an executor that finishes the work of its workspace. *)
Definition toy_attempt (j : Job) : JobAttempt :=
  mkJobAttempt (job_id j + 1)%N (job_id j) (job_workspace_id j) (job_current_attempt_number j + 1)
    ADMITTED None 0 None None None None 0 0.
Definition toy_intent (j : Job) : ExecutionIntent :=
  mkIntent (job_id j + 2)%N (job_workspace_id j) JOB_ATTEMPT (Some (job_id j + 1)%N) None None 1 "job"
    INTENT_PENDING None 0 None 0 0.
Definition toy_admitted (j : Job) : Job :=
  mkJob (job_id j) (job_workspace_id j) (job_name j) (job_image_digest j) (job_command_args j)
    (job_env_vars j) (job_timeout_seconds j) (job_max_retries j) (job_current_attempt_number j + 1)
    ADMITTED (job_created_at j) (job_updated_at j).
Definition is_queued (j : Job) : bool := job_state j =?= QUEUED.

Definition toy_scheduler (n : nat) (env : environ) (db : Db) : Db * bool :=
  let queued := where_ is_queued (jobs db) in
  let db := on_job_attempts (fun l => l ++ map toy_attempt queued) db in
  let db := on_intents (fun l => l ++ map toy_intent queued) db in
  let db := on_jobs (update_where is_queued toy_admitted) db in
  (on_releases (update_where (fun r => rel_status r =?= IMAGE_READY) (with_release_status DEPLOYING)) db, true).

Definition of_env (env : environ) (w : uuid) : bool :=
  dict_get "WORKLOAD_WORKSPACE_ID" env =?= Some (uuid_str w).
Definition claimed_intent (status : IntentStatus) (i : ExecutionIntent) : ExecutionIntent :=
  mkIntent (int_id i) (int_workspace_id i) (int_resource_type i) (int_job_attempt_id i)
    (int_release_id i) (int_resource_uid i) (int_target_generation i) (int_name i) status
    (int_claimed_by i) (int_lease_epoch i + 1) (int_lease_expires_at i) (int_created_at i) (int_updated_at i).

Definition toy_claim (status : IntentStatus) (env : environ) : Db -> Db :=
  on_intents (update_where (fun i => of_env env (int_workspace_id i) && (int_status i =?= INTENT_PENDING))
                (claimed_intent status)).
Definition toy_executor (db : Db) (env : environ) : Db :=
  let db := on_jobs (update_where (fun j => of_env env (job_workspace_id j) && (job_state j =?= ADMITTED))
                       (fun j => with_job_state SUCCEEDED (job_updated_at j) j)) (toy_claim APPLIED env db) in
  on_releases (update_where (fun r => of_env env (rel_workspace_id r) && (rel_status r =?= DEPLOYING))
                 (with_release_status HEALTHY)) db.

(** The two readings of the sample metrics. *)
Definition toy_float (s : string) : option float := Some (if s =?= "0.0" then float_zero else float_of_int 125).

Definition sample_site : Site := {|
  request_env := fun n => reseeded (N.of_nat n) sample_env;
  perf_counter_at := fun n => int_truediv (Z.of_nat n) 20;
  wall_clock_at := fun _ => sample_start;
  random_uuid := fun n => (N.of_nat n * 2 ^ 96)%N;
  run_scheduler := toy_scheduler;
  run_executors := fun _ envs db => (foldl toy_executor db envs, true);
  killed_executor := fun _ env db => toy_claim CLAIMED env db;
  pg_restored := fun _ db => (db, true);
  copied_bytes := fun s => s;
  artifact_sha256 := fun s => s;
  alert_rules := [("HamiCloudApiHigh5xxRate", "", "docs/runbooks/api-5xx-errors.md");
    ("HamiCloudStalledAcceptedWork",
     "hamicloud_oldest_queued_job_age_seconds > 60 or hamicloud_outbox_pending_total > 50",
     "docs/runbooks/stalled-operations.md")];
  parse_float := toy_float;
  repr_float := fun x => if SFeqb x float_zero then "0.0" else "125.0";
  json_datetime := isoformat |}.

Definition sample_run : Run := mkRun empty_db 0 [].

(** Against it the whole runner passes, and leaves its eight documents. *)
Example sample_evidence :
  let r := main sample_outside new_collector sample_site sample_run in
  r.1 = Done tt /\ List.length (raw_dir r.2) = 8%nat.
Proof. vm_compute. split; reflexivity. Qed.

(** ** Repeated submissions *)

Lemma script_bind_done {A B} (m : Script A) (f : A -> Script B) site r a r' :
  m site r = (Done a, r') -> (m ≫= f) site r = f a site r'.
Proof. intros H. unfold mbind, Script_bind. by rewrite H. Qed.
Lemma script_bind_raised {A B} (m : Script A) (f : A -> Script B) site r x r' :
  m site r = (Raised x, r') -> (m ≫= f) site r = (Raised x, r').
Proof. intros H. unfold mbind, Script_bind. by rewrite H. Qed.

(** The requests of a site run alone, under the same settings, within a day. *)
Definition same_day (site : Site) : Prop :=
  (forall i d, rivals_lock (request_env site i) d = d) /\
  (forall i d, rivals_commit (request_env site i) d = d) /\
  (forall i j, settings (request_env site i) = settings (request_env site j)) /\
  (forall i j b, sha256_hex (request_env site i) b = sha256_hex (request_env site j) b) /\
  (forall i j n, clock (request_env site i) 0 < clock (request_env site j) n + hours 24).

Lemma post_job_ok w p key site r a db :
  run (submit_job demo_caller w p key) (request_env site (effects r)) (run_db r) = (Ok a, db) ->
  forall ids, submit_again w p key ids site r
    = (Done (set_add (operation_id a) ids), counted_effect db r).
Proof.
  intros H ids. unfold submit_again.
  erewrite script_bind_done by (unfold post_job, request; rewrite H; reflexivity).
  by erewrite script_bind_done by reflexivity.
Qed.

Lemma post_job_err w p key site r x db :
  run (submit_job demo_caller w p key) (request_env site (effects r)) (run_db r) = (Err x, db) ->
  forall ids, exists f, submit_again w p key ids site r = (Raised f, counted_effect db r).
Proof.
  intros H ids. unfold submit_again.
  erewrite script_bind_done by (unfold post_job, request; rewrite H; reflexivity).
  unfold raise_for_status. cbn [reply r_status]. destruct (is_success (exn_status x)).
  - exists (LookupError "operation_id"). by erewrite script_bind_done by reflexivity.
  - exists (HTTPStatusError (exn_status x)). reflexivity.
Qed.

Lemma set_add_same {A} `{EqDecision A} (x : A) : set_add x [x] = [x].
Proof. unfold set_add, in_. by rewrite bool_decide_eq_true_2 by set_solver. Qed.

(** Submissions that replay the first one. *)
Lemma replays w p key site id db :
  (forall i, run (submit_job demo_caller w p key) (request_env site i) db = (Ok (accepted id), db)) ->
  forall l r, run_db r = db ->
    for_each l (fun _ : nat => submit_again w p key) [id] site r
    = (Done [id], mkRun db (List.length l + effects r) (raw_dir r)).
Proof.
  intros H l. induction l as [|k l IH]; intros r Hr; cbn [for_each].
  { by destruct r; cbn in *; subst. }
  erewrite script_bind_done by (apply post_job_ok; rewrite Hr; apply H).
  cbn [accepted operation_id]. rewrite set_add_same, IH by done. cbn. do 2 f_equal. lia.
Qed.

(** C27: repeating a submission makes one job.  However often the runner repeats a request
    under a fresh idempotency key, alone and within the day, everything is decided by
    the first attempt: if it is accepted, every repetition is answered with the same
    operation, one job is added to the workspace's and the database is the one the first
    attempt left; if it fails, so does the script, which submits nothing more. *)
Theorem repeated_submissions_one_job n w p key site r :
  same_day site -> key_free (run_db r) w (submit_endpoint w) key ->
  match run (submit_job demo_caller w p key) (request_env site (effects r)) (run_db r) with
  | (Ok a, db) =>
      submit_repeatedly (S n) w p key site r
        = (Done [operation_id a], mkRun db (S n + effects r) (raw_dir r))
      /\ exists j, jobs db = jobs (run_db r) ++ [j] /\ job_id j = operation_id a
           /\ job_workspace_id j = w /\ job_state j = QUEUED
  | (Err x, db) =>
      exists f, submit_repeatedly (S n) w p key site r = (Raised f, mkRun db (S (effects r)) (raw_dir r))
  end.
Proof.
  intros (Hl & Hc & Hs & Hsha & Hck) Hfree.
  unfold submit_repeatedly. cbn [seq for_each].
  destruct (run _ _ _) as [[a|x] db] eqn:H.
  - pose proof H as H0. apply submit_job_fresh in H0 as (id & W & k & -> & _ & HW & Hsub); [|done..].
    split.
    + erewrite script_bind_done by (by apply post_job_ok).
      change (set_add (operation_id (accepted id)) []) with [id].
      erewrite (replays w p key site id db); [rewrite length_seq; cbn; do 3 f_equal; lia| |done].
      intros i. eapply submit_job_retry; [..|exact H]; auto.
    + destruct Hsub as [[t Hj] _]. rewrite (expiry_all jobs W) in Hj by done.
      eexists. split; [exact Hj|done].
  - destruct (post_job_err _ _ _ _ _ _ _ H []) as [f Hf]. exists f.
    by erewrite script_bind_raised by exact Hf.
Qed.

Lemma repeated_submissions_one_job_witness :
  let r := mkRun (sample_db DEVELOPER) 0 [] in
  match run (submit_job demo_caller sample_workspace (default_job "j" "echo") "key-1")
          (request_env sample_site (effects r)) (run_db r) with
  | (Ok a, db) =>
      submit_repeatedly 10 sample_workspace (default_job "j" "echo") "key-1" sample_site r
        = (Done [operation_id a], mkRun db (10 + effects r) (raw_dir r))
      /\ exists j, jobs db = jobs (run_db r) ++ [j] /\ job_id j = operation_id a
           /\ job_workspace_id j = sample_workspace /\ job_state j = QUEUED
  | (Err x, db) =>
      exists f, submit_repeatedly 10 sample_workspace (default_job "j" "echo") "key-1" sample_site r
        = (Raised f, mkRun db (S (effects r)) (raw_dir r))
  end.
Proof.
  apply (repeated_submissions_one_job 9 sample_workspace (default_job "j" "echo") "key-1" sample_site
    (mkRun (sample_db DEVELOPER) 0 [])).
  - split_and!; try reflexivity. intros i j n. cbn. unfold sample_start, hours, seconds. lia.
  - reflexivity.
Defined.

(** ** The cleared platform *)

(** Selecting after an update. *)
Lemma map_where_update {A B} (P P' Q : A -> bool) (f : A -> A) (g : A -> B) l :
  (forall r, P (if Q r then f r else r) = P' r) -> (forall r, g (f r) = g r) ->
  map g (where_ P (update_where Q f l)) = map g (where_ P' l).
Proof.
  intros HP Hg. induction l as [|r l IH]; [done|]. unfold where_, update_where in *. cbn [map List.filter].
  rewrite HP. destruct (P' r); cbn [map]; rewrite IH; [|done]. f_equal. by destruct (Q r).
Qed.

Lemma count_where_update {A} (P P' Q : A -> bool) (f : A -> A) l :
  (forall r, P (if Q r then f r else r) = P' r) ->
  count_where P (update_where Q f l) = count_where P' l.
Proof.
  intros HP. unfold count_where.
  by rewrite <- (length_map (fun _ => tt)), (map_where_update P P' Q f (fun _ => tt) l), length_map.
Qed.

Lemma where_false {A} (l : list A) : where_ (fun _ => false) l = [].
Proof. by apply where_nil_iff. Qed.

(** Membership among concrete statuses, computed. *)
Ltac compute_in :=
  repeat match goal with
  | |- context [in_ ?x ?l] =>
      let b := eval vm_compute in (in_ x l) in
      lazymatch b with true => idtac | false => idtac end; change (in_ x l) with b
  end; cbn.

Lemma cleaned_release (w : uuid) r :
  let r' := if in_ (rel_status r) [IMAGE_READY; DEPLOYING] then with_release_status SUPERSEDED r else r in
  Quotas.is_build w r' = Quotas.is_build w r
  /\ Quotas.is_service w r' = (rel_workspace_id r =?= w) && (rel_status r =?= HEALTHY).
Proof.
  destruct r as [? ? ws ? ? ? ? [] ? ? ? ? ? ? ? ?]; unfold Quotas.is_build, Quotas.is_service; cbn;
    compute_in; by rewrite ?andb_false_r, ?andb_true_r.
Qed.

Lemma cleaned_job (w : uuid) j :
  let j' := if in_ (job_state j) CLEANED_JOB_STATES then cancelled_job j else j in
  (job_workspace_id j' =?= w) && in_ (job_state j') ACTIVE_JOB_STATES = false
  /\ (job_workspace_id j' =?= w) && in_ (job_state j') PENDING_JOB_STATES
     = (job_workspace_id j =?= w) && (job_state j =?= RETRY_WAIT).
Proof.
  destruct j as [? ws ? ? ? ? ? ? ? [] ? ?]; cbn; compute_in; by rewrite ?andb_false_r, ?andb_true_r.
Qed.

(** Between two benchmarks the platform is clear: after [_clean_active_workloads], whatever
    ran before, no workspace uses a concurrent job or a reservation; what still counts
    are the builds under way, the healthy services and the jobs that wait for a retry. *)
Theorem cleaned_usage db w now :
  let builds := count_where (Quotas.is_build w) (releases db) in
  usage (clean_active_workloads db) w now None =
    {| effective_jobs := 0;
       effective_builds := builds;
       effective_services := count_distinct rel_application_id
         (where_ (fun r => (rel_workspace_id r =?= w) && (rel_status r =?= HEALTHY)) (releases db));
       effective_pending := count_where
         (fun j => (job_workspace_id j =?= w) && (job_state j =?= RETRY_WAIT)) (jobs db) + builds;
       active_reservations := [] |}.
Proof.
  unfold usage, clean_active_workloads. cbn [reservations jobs releases on_jobs on_releases on_intents on_reservations].
  assert (Hr : where_ (is_active_reservation w now)
     (update_where (fun r => qr_status r =?= ACTIVE) released_reservation (reservations db)) = []).
  { apply where_nil_iff. intros r (r0 & _ & ->)%elem_of_update_where. unfold is_active_reservation.
    destruct (qr_status r0 =?= ACTIVE) eqn:E; [by cbn; rewrite !andb_false_r|].
    by rewrite E, andb_false_r. }
  rewrite Hr. change (order_by newer_reservation []) with (@nil QuotaReservation).
  assert (Hb : count_where (Quotas.is_build w) (update_where (fun r => in_ (rel_status r) [IMAGE_READY; DEPLOYING])
      (with_release_status SUPERSEDED) (releases db)) = count_where (Quotas.is_build w) (releases db)).
  { apply count_where_update. intros r. apply cleaned_release. }
  rewrite Hb, (count_where_update _ (fun _ => false)) by (intros j; apply cleaned_job).
  rewrite (count_where_update _ (fun j => (job_workspace_id j =?= w) && (job_state j =?= RETRY_WAIT)))
    by (intros j; apply cleaned_job).
  unfold count_distinct at 1. rewrite (map_where_update _
      (fun r => (rel_workspace_id r =?= w) && (rel_status r =?= HEALTHY)))
    by (try done; intros r; apply cleaned_release).
  pose proof (count_where_nonneg (Quotas.is_build w) (releases db)).
  unfold count_where at 1, count_distinct. rewrite where_false. unfold res_units. cbn [foldl].
  f_equal; try done; lia.
Qed.

(** ** Scraping the metrics *)

Definition one_line : string -> bool := str_forallb (fun c => negb (is_newline c)).

Lemma one_line_app s t : one_line (s +:+ t) = one_line s && one_line t.
Proof. apply str_forallb_app. Qed.

Lemma one_line_pretty (n : Z) : one_line (pretty n) = true.
Proof.
  assert (Hgo : forall x s, one_line s = true -> one_line (pretty_N_go x s) = true).
  { intros x. induction (N.lt_wf_0 x) as [x _ IH]. intros s Hs.
    destruct (decide (x = 0%N)) as [->|Hx]; [by rewrite pretty_N_go_0|].
    rewrite pretty_N_go_step by lia. apply IH; [apply N.div_lt; lia|].
    unfold one_line in *. cbn [str_forallb]. rewrite Hs, andb_true_r.
    unfold pretty_N_char. by repeat case_match. }
  assert (Hn : forall x : N, one_line (pretty x) = true)
    by (intros x; unfold pretty, pretty_N; case_decide; [done|by apply Hgo]).
  destruct n as [|p|p]; [done|apply (Hn (Npos p))|]. change (one_line ("-" +:+ pretty (Npos p)) = true).
  by rewrite one_line_app, Hn.
Qed.

(** A prefix without a newline lies within the first line. *)
Lemma startswith_line l p rest :
  one_line p = true -> startswith (l +:+ String newline rest) p = startswith l p.
Proof.
  revert p. induction l as [|c l IH]; intros [|d p]; try done; unfold one_line, startswith in *;
    rewrite ?str_app_cons; cbn [str_forallb String.prefix].
  - intros [Hd _]%andb_prop. change ("" +:+ ?s) with s. cbn [String.prefix].
    destruct (ascii_dec d newline) as [->|]; [by vm_compute in Hd|done].
  - intros [_ Hp]%andb_prop. destruct (ascii_dec d c); [by apply IH|done].
Qed.

Lemma search_rest l rest :
  one_line l = true -> search_gauge false (l +:+ String newline rest) = search_gauge true rest.
Proof.
  unfold one_line. induction l as [|c l IH]; [done|]. rewrite str_app_cons. cbn [str_forallb search_gauge].
  intros [Hc%negb_true_iff Hl]%andb_prop. rewrite Hc. by apply IH.
Qed.

(** A line that does not begin with the gauge's name is passed over. *)
Lemma search_skip l rest :
  one_line l && negb (startswith l queued_age_metric) = true ->
  search_gauge true (l +:+ String newline rest) = search_gauge true rest.
Proof.
  intros [Hl Hs%negb_true_iff]%andb_prop.
  assert (match_gauge (l +:+ String newline rest) = None) as Hm
    by (unfold match_gauge; by rewrite startswith_line, Hs).
  destruct l as [|c l]; [done|]. rewrite str_app_cons in *. cbn [search_gauge]. rewrite Hm.
  unfold one_line in Hl. cbn [str_forallb] in Hl. apply andb_prop in Hl as [Hc%negb_true_iff Hl]. rewrite Hc.
  by apply search_rest.
Qed.

Lemma join_app_line (before : list string) x after :
  join (String newline "") (before ++ x :: after)
  = foldr (fun l s => l +:+ String newline s) (join (String newline "") (x :: after)) before.
Proof.
  induction before as [|l before IH]; [done|]. cbn [app foldr]. rewrite <- IH.
  by destruct (before ++ x :: after) eqn:E; [apply app_nil in E as [_ ?]|].
Qed.

Lemma search_lines before x after :
  forallb (fun l => one_line l && negb (startswith l queued_age_metric)) before = true ->
  search_gauge true (join (String newline "") (before ++ x :: after))
  = search_gauge true (join (String newline "") (x :: after)).
Proof.
  intros H. rewrite join_app_line. induction before as [|l before IH]; [done|]. cbn [forallb] in H.
  apply andb_prop in H as [Hl H]. cbn [foldr]. by rewrite search_skip, IH.
Qed.

(** The sample of the gauge. *)
Lemma match_gauge_sample number rest :
  str_forallb gauge_char number && truthy number = true ->
  match_gauge (queued_age_metric +:+ (" " +:+ number +:+ String newline rest)) = Some number.
Proof.
  intros [Hn Ht]%andb_prop. unfold match_gauge. rewrite startswith_app.
  change (str_drop (String.length queued_age_metric) (queued_age_metric +:+ ?s)) with s.
  assert (Hs : forall c s, gauge_char c = true -> span is_space (" " +:+ String c s) = (" ", String c s)).
  { intros c s Hc. assert (Hc' : is_space c = false)
      by (revert Hc; destruct c as [[] [] [] [] [] [] [] []]; vm_compute; done).
    change (span is_space (" " +:+ String c s)) with
      (let '(a, b) := span is_space (String c s) in (String " " a, b)).
    cbn [span]. by rewrite Hc'. }
  assert (Hspan : span gauge_char (number +:+ String newline rest) = (number, String newline rest)).
  { clear Ht. induction number as [|c s IH]; [done|]. rewrite str_app_cons. cbn [str_forallb span] in Hn |- *.
    apply andb_prop in Hn as [-> Hn]. by rewrite IH. }
  destruct number as [|c s]; [done|]. cbn [str_forallb] in Hn. apply andb_prop in Hn as [Hc _].
  rewrite (str_app_cons c s) in *. rewrite Hs by done. by rewrite Hspan.
Qed.

(** A metric under another name is passed over. *)
Lemma search_metric name help kind samples rest :
  (forall s, startswith (name +:+ s) queued_age_metric = false) ->
  one_line name && one_line help && one_line kind && forallb one_line samples = true -> rest <> [] ->
  search_gauge true (join (String newline "") (metric name help kind samples ++ rest))
  = search_gauge true (join (String newline "") rest).
Proof.
  intros Hname [[[Hn Hh]%andb_prop Hk]%andb_prop Hs]%andb_prop Hrest. destruct rest as [|x after]; [done|].
  apply search_lines. unfold metric. cbn [forallb]. rewrite !one_line_app, Hn, Hh, Hk.
  change (forallb (fun l => one_line l && negb (startswith l queued_age_metric))
            (map (fun s => name +:+ s) samples) = true).
  induction samples as [|s samples IH]; [done|]. cbn [forallb map] in *. apply andb_prop in Hs as [Hs Hss].
  by rewrite one_line_app, Hn, Hs, Hname, IH.
Qed.

Lemma one_line_status class n :
  one_line class = true -> one_line (status_sample class n) = true.
Proof.
  intros Hc. unfold status_sample.
  assert (Hq : forall s, one_line (String quote s) = one_line s) by done.
  by rewrite one_line_app, Hq, one_line_app, Hq, one_line_app, one_line_pretty, Hc.
Qed.

(** The exercise reads what the endpoint publishes: in the text of the metrics, the
    pattern of the runner finds exactly the representation of the age of the oldest queued
    job, provided floats are written on one line and this one with digits and dots. *)
Theorem scraped_age_is_published repr m :
  (forall x, one_line (repr x) = true) ->
  str_forallb gauge_char (repr (oldest_queued_job_age_seconds m)) = true ->
  truthy (repr (oldest_queued_job_age_seconds m)) = true ->
  search_gauge true (render_prometheus repr m) = Some (repr (oldest_queued_job_age_seconds m)).
Proof.
  intros Hrepr Hchars Hne. unfold render_prometheus.
  change (String (ascii_of_N 10) "") with (String newline "").
  set (age := repr (oldest_queued_job_age_seconds m)) in *.
  assert (Hf : forall x, one_line (float_sample repr x) = true)
    by (intros x; unfold float_sample; by rewrite one_line_app, Hrepr).
  assert (Hi : forall n, one_line (int_sample n) = true)
    by (intros n; unfold int_sample; by rewrite one_line_app, one_line_pretty).
  assert (Hs : forall class n, one_line class = true -> one_line (status_sample class n) = true)
    by exact one_line_status.
  do 7 rewrite search_metric by (first [reflexivity | cbn [forallb]; rewrite ?Hf, ?Hi, ?Hs by done; done | done]).
  unfold metric at 1. cbn [map app].
  match goal with |- context [join _ (?a :: ?b :: ?c :: ?l)] =>
    change (a :: b :: c :: l) with ([a; b] ++ c :: l);
    assert (exists d l', l = d :: l') as (d & rest & ->) by (by eexists _, _) end.
  rewrite search_lines by reflexivity.
  change (join ?nl (?c :: d :: ?l)) with (c +:+ nl +:+ join nl (d :: l)).
  unfold float_sample. fold queued_age_metric age. rewrite !str_app_assoc.
  assert (Hm : match_gauge (queued_age_metric +:+ (" " +:+ age +:+ String newline
                 (join (String newline "") (d :: rest)))) = Some age)
    by (apply match_gauge_sample; apply andb_true_intro; by split).
  change (String newline "" +:+ ?s) with (String newline s).
  revert Hm. generalize (" " +:+ age +:+ String newline (join (String newline "") (d :: rest))).
  intros s Hm. unfold queued_age_metric at 1. rewrite str_app_cons. cbn [search_gauge].
  rewrite <- str_app_cons. fold queued_age_metric. by rewrite Hm.
Qed.

Lemma scraped_age_is_published_witness :
  let repr := repr_float sample_site in
  let m := mkMetrics (mkHttpSummary 0 0 0 0 float_zero float_zero float_zero float_zero) 0 0 1
             (float_of_int 125) 0 0 float_zero 0 sample_start in
  search_gauge true (render_prometheus repr m) = Some "125.0".
Proof.
  intros repr m. apply (scraped_age_is_published repr m).
  - intros x. cbn. by destruct (SFeqb x float_zero).
  - reflexivity.
  - reflexivity.
Defined.

(** ** Stored evidence *)

(** A script leaves a document of the evidence as it found it. *)
Class KeepsFile (f : string) {A} (m : Script A) : Prop :=
  keeps_file : forall site r, dict_get f (raw_dir (m site r).2) = dict_get f (raw_dir r).

Section KeepsFile.
Context (f : string).

Lemma keeps_file_ret {A} (a : A) : KeepsFile f (mret (M := Script) a).
Proof. done. Qed.
Lemma keeps_file_fail {A} x : KeepsFile f (@fail A x).
Proof. done. Qed.
Lemma keeps_file_the {A} (x : option A) e : KeepsFile f (the x e).
Proof. by destruct x. Qed.
Lemma keeps_file_bind {A B} (m : Script A) (k : A -> Script B) :
  KeepsFile f m -> (forall a, KeepsFile f (k a)) -> KeepsFile f (m ≫= k).
Proof.
  intros Hm Hk site r. specialize (Hm site r). unfold mbind, Script_bind.
  destruct (m site r) as [[a|x] r']; [|done]. cbn in Hm. by rewrite Hk.
Qed.
Lemma keeps_file_for_each {A S} (l : list A) (body : A -> S -> Script S) s :
  (forall x s, KeepsFile f (body x s)) -> KeepsFile f (for_each l body s).
Proof. intros Hb. revert s. induction l as [|x l IH]; intros s; cbn; [done|]. apply keeps_file_bind; [apply Hb|intros; apply IH]. Qed.
Lemma keeps_file_request {A} (m : M A) status : KeepsFile f (request m status).
Proof. intros site r. unfold request. by destruct (run _ _ _). Qed.
Lemma keeps_file_program p : KeepsFile f (program p).
Proof. intros site r. unfold program. by destruct (p _ _ _). Qed.
Lemma keeps_file_sql {A} (q : Db -> A) : KeepsFile f (sql q).
Proof. done. Qed.
Lemma keeps_file_commit w : KeepsFile f (sql_commit w).
Proof. done. Qed.
Lemma keeps_file_counter : KeepsFile f perf_counter.
Proof. done. Qed.
Lemma keeps_file_measured : KeepsFile f measured_at.
Proof. done. Qed.
Lemma keeps_file_random : KeepsFile f random_hex.
Proof. done. Qed.
Lemma keeps_file_save g v : f <> g -> KeepsFile f (save_json g v).
Proof. intros Hfg site r. cbn. by rewrite dict_get_set, bool_decide_eq_false_2. Qed.
Lemma keeps_file_load_or g run : KeepsFile f run -> KeepsFile f (load_or g run).
Proof.
  intros Hr. unfold load_or. apply keeps_file_bind; [|by intros [?|]].
  intros site r. unfold load_if_passed. by repeat case_match.
Qed.
End KeepsFile.

Ltac keeps_file_step :=
  lazymatch goal with
  | |- KeepsFile _ (_ ≫= _) => apply keeps_file_bind; [|intros]
  | |- KeepsFile _ (mret _) => apply keeps_file_ret
  | |- KeepsFile _ (fail _) => apply keeps_file_fail
  | |- KeepsFile _ (the _ _) => apply keeps_file_the
  | |- KeepsFile _ (for_each _ _ _) => apply keeps_file_for_each; intros
  | |- KeepsFile _ (request _ _) => apply keeps_file_request
  | |- KeepsFile _ (program _) => apply keeps_file_program
  | |- KeepsFile _ (sql _) => apply keeps_file_sql
  | |- KeepsFile _ (sql_commit _) => apply keeps_file_commit
  | |- KeepsFile _ perf_counter => apply keeps_file_counter
  | |- KeepsFile _ measured_at => apply keeps_file_measured
  | |- KeepsFile _ random_hex => apply keeps_file_random
  | |- KeepsFile _ (save_json _ _) => apply keeps_file_save
  | |- KeepsFile _ (match ?x with _ => _ end) => destruct x
  end.
Ltac solve_keeps_file := repeat keeps_file_step; try done.

Lemma script_bind_inv {A B} (m : Script A) (f : A -> Script B) site r b r' :
  (m ≫= f) site r = (Done b, r') ->
  exists a r1, m site r = (Done a, r1) /\ f a site r1 = (Done b, r').
Proof. unfold mbind, Script_bind. destruct (m site r) as [[a|x] r1]; [by eexists _, _|done]. Qed.

Section Stored.
Context `{AEAD} (o : Outside) (col : TelemetryCollector).

Lemma benchmark_1_keeps f : f <> "01-api-latency-benchmark.json" -> KeepsFile f (run_benchmark_1_api_latency o col).
Proof.
  intros Hf. unfold run_benchmark_1_api_latency, random_tag, post_workspace, raise_for_status, field,
    measure, measure_write, timed, get_status. solve_keeps_file.
Qed.
Lemma benchmark_2_keeps f : f <> "02-admission-latency-benchmark.json" -> KeepsFile f run_benchmark_2_admission_latency.
Proof.
  intros Hf. unfold run_benchmark_2_admission_latency, admit_workspace, admit_one, random_tag, post_workspace,
    post_job, raise_for_status, field, scheduler. solve_keeps_file.
Qed.

(** A stored verdict that differs from the rest of its document is never revised: if the
    third document holds a passed job and a rollout that did not pass, the runner takes it
    for a passed benchmark, does not run the benchmark again, and so never succeeds,
    whatever the deployment does. *)
Theorem stored_rollout_never_revised site r evidence rollout status :
  dict_get "03-warm-cold-rollout-benchmark.json" (raw_dir r) = Some (VDict evidence) ->
  passed evidence = Some true ->
  dict_get "warm_service_rollout" evidence = Some rollout -> item "status" rollout = Some status ->
  is_pass status = false ->
  (main o col site r).1 <> Done tt.
Proof.
  intros Hf Hp Hr Hs Hn Hm. destruct (main o col site r) as [x r'] eqn:E. cbn in Hm. subst x. unfold main in E.
  apply script_bind_inv in E as (b1 & r1 & H1 & E). apply script_bind_inv in E as (b2 & r2 & H2 & E).
  assert (Hf2 : dict_get "03-warm-cold-rollout-benchmark.json" (raw_dir r2) = Some (VDict evidence)).
  { rewrite <- Hf.
    assert (K1 : KeepsFile "03-warm-cold-rollout-benchmark.json" (load_or "01-api-latency-benchmark.json"
      (run_benchmark_1_api_latency o col))) by (by apply keeps_file_load_or, benchmark_1_keeps).
    assert (K2 : KeepsFile "03-warm-cold-rollout-benchmark.json" (load_or "02-admission-latency-benchmark.json"
      run_benchmark_2_admission_latency)) by (by apply keeps_file_load_or, benchmark_2_keeps).
    specialize (K1 site r). specialize (K2 site r1).
    rewrite H1 in K1. rewrite H2 in K2. cbn in K1, K2. by rewrite K2, K1. }
  apply script_bind_inv in E as (b3 & r3 & H3 & E).
  assert (b3 = VDict evidence) as ->.
  { unfold load_or in H3. apply script_bind_inv in H3 as (loaded & r4 & Hl & H3).
    unfold load_if_passed in Hl. rewrite Hf2, Hp in Hl. injection Hl as <- <-. by injection H3 as <- _. }
  clear H1 H2 H3 Hf Hf2. do 5 (apply script_bind_inv in E as (? & ? & _ & E)).
  apply script_bind_inv in E as (summary & r4 & Hsum & E). unfold summarize in Hsum.
  do 2 (apply script_bind_inv in Hsum as (? & ? & _ & Hsum)).
  apply script_bind_inv in Hsum as (s3 & ? & H3 & Hsum).
  unfold get_item in H3. apply script_bind_inv in H3 as (? & ? & Hroll & H3). cbn [item] in Hroll.
  rewrite Hr in Hroll. injection Hroll as <- <-. rewrite Hs in H3. injection H3 as <- <-.
  do 6 (apply script_bind_inv in Hsum as (? & ? & _ & Hsum)). injection Hsum as <- <-.
  cbn [existsb snd] in E. rewrite Hn, !orb_true_r in E. done.
Qed.
End Stored.

Lemma stored_rollout_never_revised_witness :
  let evidence := [("warm_service_rollout", VDict [("status", VStr "FAIL")]);
                   ("warm_job_execution", VDict [("status", VStr "PASS")])] in
  (main sample_outside new_collector sample_site
     (mkRun empty_db 0 [("03-warm-cold-rollout-benchmark.json", VDict evidence)])).1 <> Done tt.
Proof.
  eapply (stored_rollout_never_revised sample_outside new_collector sample_site
    (mkRun empty_db 0 [("03-warm-cold-rollout-benchmark.json", VDict _)])); reflexivity.
Defined.

(** A deployment whose reads take no time and whose writes take seconds. *)
Definition slow_writes : Site :=
  mkSite (request_env sample_site)
    (fun n => if (185 <? n)%nat then float_zero else float_of_int (Z.of_nat (Nat.max n 92)))
    (wall_clock_at sample_site)
    (random_uuid sample_site) (run_scheduler sample_site) (run_executors sample_site)
    (killed_executor sample_site) (pg_restored sample_site) (copied_bytes sample_site)
    (artifact_sha256 sample_site) (alert_rules sample_site) (parse_float sample_site)
    (repr_float sample_site) (json_datetime sample_site).

(** Its runner succeeds with a failed verdict on the writes in the saved document. *)
Lemma failed_writes_succeed :
  let r := main sample_outside new_collector slow_writes sample_run in
  r.1 = Done tt /\
  exists evidence writes, dict_get "01-api-latency-benchmark.json" (raw_dir r.2) = Some evidence
    /\ item "write_latency_ms" evidence = Some writes /\ item "status" writes = Some (VStr "FAIL").
Proof. vm_compute. split; [reflexivity|]. by do 2 eexists. Qed.
